(** * RENPHO CSV import pipeline of health-tracker: a shallow embedding

    The development follows the three services of
    [src/domains/dashboard/services]:

    - [CsvParsingService]      (csv-parsing.service.ts)
    - [ImportValidationService] (import-validation.service.ts)
    - [RenphoImportService]    (renpho-import.service.ts)

    together with the types of [renpho-import.types.ts].

    Modelling conventions.

    - A JavaScript [number] is modelled by the rational it denotes ([Q]),
      and two numbers are the same number when they are [==].  The
      operations [+ - * /] and [Math.sqrt] on measurements return the
      double nearest to the exact result, as IEEE 754 has it
      ([Js.double]); comparisons, [Math.round] and [Math.ceil] are
      exact.  Arithmetic on counts and sizes is written as it is on
      integers.  [NaN] and the infinities are outside the model.
    - A JavaScript string is a [string] of code units below 256.
    - A plain object used as a dictionary is the list of its own properties
      in creation order, looked up through [Object.prototype]
      (module [JsObject]).
    - A function that can throw returns a [result]; [processImport], which
      is [async], also returns the trace of the calls it makes.
    - What the host provides ([Date], number formatting, the clock) is the
      class [Runtime]; every statement holds for every runtime. *)

From Stdlib Require Import ZArith QArith Qround Qabs Lqa Lia List String Ascii Bool
  Arith Permutation Sorted DecimalString.
From Stdlib Require DecimalNat DecimalFacts Qpower.
Import ListNotations.

Set Implicit Arguments.

(* ================================================================= *)
(** ** JavaScript primitives *)

Module Js.

(** *** Results of code that can throw *)

Inductive result (E A : Type) : Type :=
| Ok (value : A)
| Throw (error : E).
Arguments Ok {E A} value.
Arguments Throw {E A} error.

Definition bind {E A B} (m : result E A) (k : A -> result E B) : result E B :=
  match m with
  | Ok a => k a
  | Throw e => Throw e
  end.

(** [xs.map((x, index) => f x index)] where [f] can throw: the first
    throw aborts the whole map. *)
Fixpoint map_indexed {E A B} (f : A -> nat -> result E B) (index : nat)
    (xs : list A) : result E (list B) :=
  match xs with
  | [] => Ok []
  | x :: rest =>
      bind (f x index) (fun y =>
      bind (map_indexed f (S index) rest) (fun ys => Ok (y :: ys)))
  end.

Definition map_result {E A B} (f : A -> result E B) (xs : list A)
    : result E (list B) :=
  map_indexed (fun x _ => f x) 0 xs.

(** The two native error classes the pipeline can meet. *)
Inductive native_error : Type :=
| Error (message : string)
| TypeError (message : string).

Definition native_message (e : native_error) : string :=
  match e with
  | Error m => m
  | TypeError m => m
  end.

(** *** Strings *)

Definition code (c : ascii) : nat := nat_of_ascii c.

(** [\d] *)
Definition is_digit (c : ascii) : bool :=
  (48 <=? code c)%nat && (code c <=? 57)%nat.

(** White space of [trim], [parseInt] and [\s], within Latin-1. *)
Definition is_white_space (c : ascii) : bool :=
  ((9 <=? code c)%nat && (code c <=? 13)%nat)
  || (code c =? 32)%nat || (code c =? 160)%nat.

Definition all_digits (s : string) : bool :=
  forallb is_digit (list_ascii_of_string s).

Definition to_lower (c : ascii) : ascii :=
  if (65 <=? code c)%nat && (code c <=? 90)%nat
  then ascii_of_nat (code c + 32)
  else c.

Fixpoint drop_white_space (cs : list ascii) : list ascii :=
  match cs with
  | c :: rest => if is_white_space c then drop_white_space rest else cs
  | [] => []
  end.

(** [String.prototype.trim] *)
Definition trim (s : string) : string :=
  string_of_list_ascii
    (rev (drop_white_space (rev (drop_white_space (list_ascii_of_string s))))).

(** [s.split(sep)] for a separator of one code unit. *)
Fixpoint split (sep : ascii) (s : string) : list string :=
  match s with
  | EmptyString => [EmptyString]
  | String c rest =>
      if Ascii.eqb c sep then EmptyString :: split sep rest
      else match split sep rest with
           | first :: others => String c first :: others
           | [] => [String c EmptyString]
           end
  end.

(** [s.padStart(target, fill)] for a fill string of one code unit. *)
Definition padStart (target : nat) (fill : ascii) (s : string) : string :=
  (string_of_list_ascii (repeat fill (target - String.length s)) ++ s)%string.

(** A template literal: the concatenation of its parts. *)
Definition template (parts : list string) : string :=
  String.concat "" parts.

(** [parts.join(sep)] *)
Definition join (sep : string) (parts : list string) : string :=
  String.concat sep parts.

(** Decimal rendering of an array length or row number. *)
Definition string_of_nat (n : nat) : string :=
  NilEmpty.string_of_uint (Nat.to_uint n).

Definition decimal_value (c : ascii) : option Z :=
  if is_digit c then Some (Z.of_nat (code c) - 48)%Z else None.

Definition hex_value (c : ascii) : option Z :=
  if is_digit c then Some (Z.of_nat (code c) - 48)%Z
  else if (97 <=? code c)%nat && (code c <=? 102)%nat
       then Some (Z.of_nat (code c) - 87)%Z
  else if (65 <=? code c)%nat && (code c <=? 70)%nat
       then Some (Z.of_nat (code c) - 55)%Z
  else None.

(** The longest prefix of digits, as an integer; [acc] is [None] until a
    digit has been read. *)
Fixpoint parse_digits (radix : Z) (value : ascii -> option Z)
    (cs : list ascii) (acc : option Z) : option Z :=
  match cs with
  | [] => acc
  | c :: rest =>
      match value c with
      | Some d =>
          parse_digits radix value rest
            (Some (radix * match acc with Some a => a | None => 0 end + d)%Z)
      | None => acc
      end
  end.

(** [parseInt(s)] with no radix argument; [None] is [NaN]. *)
Definition parseInt (s : string) : option Z :=
  let s1 := drop_white_space (list_ascii_of_string s) in
  let '(sign, s2) :=
    match s1 with
    | "-"%char :: rest => ((-1)%Z, rest)
    | "+"%char :: rest => (1%Z, rest)
    | _ => (1%Z, s1)
    end in
  let digits :=
    match s2 with
    | "0"%char :: "x"%char :: rest => parse_digits 16 hex_value rest None
    | "0"%char :: "X"%char :: rest => parse_digits 16 hex_value rest None
    | _ => parse_digits 10 decimal_value s2 None
    end in
  option_map (Z.mul sign) digits.

(** [x < bound] for a possibly-[NaN] integer [x]: false on [NaN]. *)
Definition lt_number (x : option Z) (bound : Z) : bool :=
  match x with
  | Some n => (n <? bound)%Z
  | None => false
  end.

(** *** Numbers *)

Definition number : Type := Q.

Definition ltb (x y : Q) : bool := negb (Qle_bool y x).
Definition gtb (x y : Q) : bool := ltb y x.

(** [x || 0] on a number: [0] (the only falsy rational) gives [0]. *)
Definition or_zero (x : Q) : Q := if Qeq_bool x 0 then 0 else x.

(** [Number(x)] on a number. *)
Definition Number (x : Q) : Q := x.

(** [Math.round]: the nearest integer, a tie going to the larger one. *)
Definition Math_round (x : Q) : Q := inject_Z (Qfloor (x + (1 # 2))).

(** [Math.ceil] *)
Definition Math_ceil (x : Q) : Z := Qceiling x.

(** *** Double arithmetic

    The numbers of the source are IEEE 754 doubles: zero and the
    rationals [m * 2^e] with [|m| <= 2^53] and [-1074 <= e].  An
    operation returns the double nearest to the exact result, a tie
    going to the double with the even significand. *)

Definition pow2 (e : Z) : Q := Qpower 2 e.

(** The binade of a number other than zero: the [e] with
    [2^(e-1) <= |x| < 2^e]. *)
Definition binade (x : Q) : Z :=
  let k := (Z.log2 (Z.abs (Qnum x)) - Z.log2 (Zpos (Qden x)))%Z in
  if Qle_bool (pow2 k) (Qabs x) then (k + 1)%Z else k.

(** The nearest integer, a tie going to the even one. *)
Definition nearest_even (x : Q) : Z :=
  let f := Qfloor x in
  match Qcompare (x - inject_Z f) (1 # 2) with
  | Lt => f
  | Gt => (f + 1)%Z
  | Eq => if Z.even f then f else (f + 1)%Z
  end.

(** The exponent of the last of the 53 binary digits of a double in
    the binade of [x]; no double has a digit below [2^-1074]. *)
Definition last_place (x : Q) : Z := Z.max (binade x - 53) (-1074).

(** The double nearest to [x].  A number literal of the source denotes
    the double nearest to its decimal. *)
Definition double (x : Q) : Q :=
  if Qeq_bool x 0 then 0
  else
    let unit := pow2 (last_place x) in
    Qred (inject_Z (nearest_even (x / unit)) * unit).


(** [x + y], [x - y], [x * y] and [x / y] *)
Definition num_add (x y : Q) : Q := double (x + y).
Definition num_sub (x y : Q) : Q := double (x - y).
Definition num_mul (x y : Q) : Q := double (x * y).
Definition num_div (x y : Q) : Q := double (x / y).

(** The integer nearest to the square root of [scaled], a tie going
    to the even one: with [s] the integer part of the root, the root
    is below [s + 1/2] when [scaled] is below [s^2 + s + 1/4]. *)
Definition nearest_root (scaled : Q) : Z :=
  let s := Z.sqrt (Qfloor scaled) in
  match Qcompare scaled (inject_Z (s * s + s) + (1 # 4)) with
  | Lt => s
  | Gt => (s + 1)%Z
  | Eq => if Z.even s then s else (s + 1)%Z
  end.

(** [Math.sqrt] on a number that is not negative: the double nearest
    to the square root.  The root of a number of binade [b] is of
    binade [(b + 1) / 2], and the root of a double is never
    subnormal. *)
Definition Math_sqrt (x : Q) : Q :=
  if Qle_bool x 0 then 0
  else
    let unit := pow2 ((binade x + 1) / 2 - 53) in
    Qred (inject_Z (nearest_root (x / (unit * unit))) * unit).

(** [Math.pow(10, n)] for an integer [n]. *)
Definition Math_pow10 (n : Z) : Q := double (Qpower 10 n).

(** [Math.min(...xs)] and [Math.max(...xs)] on a non-empty list. *)
Definition Qmin (x y : Q) : Q := if Qle_bool x y then x else y.
Definition Qmax (x y : Q) : Q := if Qle_bool x y then y else x.
Definition Math_min (first : Q) (others : list Q) : Q := fold_left Qmin others first.
Definition Math_max (first : Q) (others : list Q) : Q := fold_left Qmax others first.

Definition Zmin_list (first : Z) (others : list Z) : Z := fold_left Z.min others first.
Definition Zmax_list (first : Z) (others : list Z) : Z := fold_left Z.max others first.

(** [ToIntegerOrInfinity]: truncation toward zero. *)
Definition to_integer (x : Q) : Z :=
  if Qle_bool 0 x then Qfloor x else Qceiling x.

(** [xs.slice(0, end)] *)
Definition slice0 {A} (xs : list A) (last : Q) : list A :=
  let len := Z.of_nat (List.length xs) in
  let relative := to_integer last in
  let final := if (relative <? 0)%Z then Z.max (len + relative) 0
               else Z.min relative len in
  firstn (Z.to_nat final) xs.

(** [xs.filter(Boolean)] on strings: the empty string is the falsy one. *)
Definition filter_Boolean (xs : list string) : list string :=
  filter (fun s => negb (String.eqb s "")) xs.

(** [xs.map((x, index) => f x index)] *)
Fixpoint map_with_index {A B} (f : A -> nat -> B) (index : nat) (xs : list A)
    : list B :=
  match xs with
  | [] => []
  | x :: rest => f x index :: map_with_index f (S index) rest
  end.

(** *** [Array.prototype.sort]

    The sort is stable.  The comparator returns a number or [NaN]
    ([None]), which [sort] reads as [+0].  [insert_sorted] places an
    element before the first one it does not sort after, so that equal
    elements keep their order. *)
Definition compare_result (v : option Z) : Z :=
  match v with
  | Some n => n
  | None => 0%Z
  end.

Fixpoint insert_sorted {A} (cmp : A -> A -> option Z) (x : A) (xs : list A)
    : list A :=
  match xs with
  | [] => [x]
  | y :: rest =>
      if (compare_result (cmp x y) <=? 0)%Z then x :: y :: rest
      else y :: insert_sorted cmp x rest
  end.

Fixpoint sort {A} (cmp : A -> A -> option Z) (xs : list A) : list A :=
  match xs with
  | [] => []
  | x :: rest => insert_sorted cmp x (sort cmp rest)
  end.

(** The comparator [sort] uses when it is given none: strings by their
    code units. *)
Definition code_unit_order (a b : string) : option Z :=
  Some (match String.compare a b with
        | Lt => (-1)%Z
        | Eq => 0%Z
        | Gt => 1%Z
        end).

(** [new Set(xs).size] on strings *)
Definition Set_size (xs : list string) : nat :=
  List.length (nodup string_dec xs).

(** [xs.includes(x)] on strings *)
Definition includes (xs : list string) (x : string) : bool :=
  existsb (String.eqb x) xs.

(** [xs.pop()]: the last element, [None] ([undefined]) on an empty
    array. *)
Fixpoint pop (xs : list string) : option string :=
  match xs with
  | [] => None
  | [x] => Some x
  | _ :: rest => pop rest
  end.

(** *** More of [String.prototype] *)

(** [toLowerCase] on one code unit below 256: the capital letters, which
    are A-Z and the codes 192-214 and 216-222 of Latin-1, move to their
    small forms 32 further on. *)
Definition lower_unit (c : ascii) : ascii :=
  if ((65 <=? code c)%nat && (code c <=? 90)%nat)
     || ((192 <=? code c)%nat && (code c <=? 214)%nat)
     || ((216 <=? code c)%nat && (code c <=? 222)%nat)
  then ascii_of_nat (code c + 32)
  else c.

(** [s.toLowerCase()] *)
Fixpoint toLowerCase (s : string) : string :=
  match s with
  | EmptyString => EmptyString
  | String c rest => String (lower_unit c) (toLowerCase rest)
  end.

(** [s.endsWith(searchString)] *)
Definition endsWith (s searchString : string) : bool :=
  let len := String.length s in
  let searchLength := String.length searchString in
  if (len <? searchLength)%nat then false
  else String.eqb (substring (len - searchLength) searchLength s) searchString.

End Js.

(* ================================================================= *)
(** ** Plain objects used as dictionaries *)

Module JsObject.

(** Own enumerable string-keyed properties, in creation order. *)
Definition t (A : Type) : Type := list (string * A).

Definition empty {A} : t A := [].

(** The property names every plain object inherits from
    [Object.prototype]. *)
Definition prototype_keys : list string :=
  [ "constructor"; "__defineGetter__"; "__defineSetter__"; "hasOwnProperty";
    "__lookupGetter__"; "__lookupSetter__"; "isPrototypeOf";
    "propertyIsEnumerable"; "toString"; "valueOf"; "__proto__";
    "toLocaleString" ]%string.

Definition inherited (key : string) : bool :=
  existsb (String.eqb key) prototype_keys.

(** What [o[key]] finds. *)
Inductive lookup (A : Type) : Type :=
| Own (value : A)
| Inherited
| Undefined.
Arguments Own {A} value.
Arguments Inherited {A}.
Arguments Undefined {A}.

Fixpoint get_own {A} (o : t A) (key : string) : option A :=
  match o with
  | [] => None
  | (k, v) :: rest => if String.eqb k key then Some v else get_own rest key
  end.

Definition get {A} (o : t A) (key : string) : lookup A :=
  match get_own o key with
  | Some v => Own v
  | None => if inherited key then Inherited else Undefined
  end.

(** [o[key] = value]: an existing property keeps its place, a new one is
    created last. *)
Fixpoint set {A} (o : t A) (key : string) (value : A) : t A :=
  match o with
  | [] => [(key, value)]
  | (k, v) :: rest =>
      if String.eqb k key then (k, value) :: rest
      else (k, v) :: set rest key value
  end.

(** An array index is a canonical decimal numeral below [2^32 - 1]. *)
Definition array_index (key : string) : option Z :=
  match key with
  | EmptyString => None
  | String c rest =>
      if Js.all_digits key
         && (negb (Ascii.eqb c "0") || String.eqb rest "")
      then match Js.parse_digits 10 Js.decimal_value
                   (list_ascii_of_string key) None with
           | Some n => if (n <? 4294967295)%Z then Some n else None
           | None => None
           end
      else None
  end.

Definition is_array_index (key : string) : bool :=
  match array_index key with
  | Some _ => true
  | None => false
  end.

Definition index_of (key : string) : Z :=
  match array_index key with
  | Some n => n
  | None => 0%Z
  end.

Fixpoint insert_by_index {A} (entry : string * A) (sorted : list (string * A))
    : list (string * A) :=
  match sorted with
  | [] => [entry]
  | e :: rest =>
      if (index_of (fst entry) <=? index_of (fst e))%Z then entry :: e :: rest
      else e :: insert_by_index entry rest
  end.

Definition sort_by_index {A} (entries : list (string * A)) : list (string * A) :=
  fold_right insert_by_index [] entries.

(** [Object.entries(o)]: array-index keys in ascending numeric order,
    then the other keys in creation order. *)
Definition entries {A} (o : t A) : list (string * A) :=
  (sort_by_index (filter (fun e => is_array_index (fst e)) o)
   ++ filter (fun e => negb (is_array_index (fst e))) o)%list.

(** [key in o]: an own property or one of [Object.prototype]. *)
Definition has_property {A} (o : t A) (key : string) : bool :=
  match get o key with
  | Undefined => false
  | _ => true
  end.

End JsObject.

(* ================================================================= *)
(** ** A model of the part of zod the schemas use *)

Module Zod.

Record issue : Type := {
  path : list string;
  message : string
}.

(** [z.number().min(minimum, min_message).max(maximum, max_message)] *)
Record number_schema : Type := {
  minimum : Q;
  min_message : string;
  maximum : Q;
  max_message : string
}.

(** Both checks run; each failing one adds its issue. *)
Definition check_number (schema : number_schema) (at_path : list string)
    (input : Q) : list issue :=
  ((if Js.ltb input (minimum schema)
    then [ {| path := at_path; message := min_message schema |} ] else [])
   ++
   (if Js.gtb input (maximum schema)
    then [ {| path := at_path; message := max_message schema |} ] else []))%list.

(** [z.object(shape)]: the keys are checked in the order of the shape. *)
Definition object_schema : Type := list (string * number_schema).

Fixpoint field_of (input : list (string * Q)) (key : string) : option Q :=
  match input with
  | [] => None
  | (k, v) :: rest => if String.eqb k key then Some v else field_of rest key
  end.

(** [schema.safeParse(input).error.issues], empty when [success]. *)
Definition safeParse (schema : object_schema) (input : list (string * Q))
    : list issue :=
  flat_map
    (fun entry =>
       match field_of input (fst entry) with
       | Some v => check_number (snd entry) [fst entry] v
       | None => [ {| path := [fst entry]; message := "Required" |} ]
       end)
    schema.

End Zod.

(* ================================================================= *)
(** ** renpho-import.types.ts *)

(** Raw RENPHO CSV data structure: one row, keyed by the vendor's column
    names. *)
Record RenphoRawData : Type := {
  Fecha : string;
  Hora : string;
  Peso_kg : Q;
  IMC : Q;
  Grasa_corporal : Q;
  Musculo_esqueletico : Q;
  Peso_corporal_sin_grasa : Q;
  Grasa_subcutanea : Q;
  Grasa_visceral : Q;
  Agua_corporal : Q;
  Masa_muscular : Q;
  Masa_osea : Q;
  Proteina : Q;
  Tasa_Metabolica_Basal : Q;
  Edad_metabolica : Q;
  Tipo_de_cuerpo : Q
}.

(** The literal type ['renpho_import']. *)
Inductive Source : Type := renpho_import.

Record TransformedMeasurement : Type := {
  date : string;
  time : string;
  weight : Q;
  bmi : Q;
  body_fat_percentage : Q;
  skeletal_muscle_percentage : Q;
  fat_free_body_weight : Q;
  subcutaneous_fat_percentage : Q;
  visceral_fat : Q;
  body_water_percentage : Q;
  muscle_mass : Q;
  bone_mass : Q;
  protein_percentage : Q;
  basal_metabolic_rate : Q;
  metabolic_age : Q;
  body_type : Q;
  source : Source
}.

Inductive ImportStrategy : Type := average | keep_all.

Record DuplicateDetection : Type := {
  dup_date : string;
  count : nat
}.

Record ValidationResult : Type := {
  errors : list string;
  warnings : list string;
  isValid : bool
}.

Record ParseResult : Type := {
  originalData : list RenphoRawData;
  transformedData : list TransformedMeasurement;
  grouped : JsObject.t (list TransformedMeasurement);
  duplicates : list DuplicateDetection;
  validation : ValidationResult
}.

Record ImportResult : Type := {
  strategy : ImportStrategy;
  successful : nat;
  failed : nat;
  import_errors : list string;
  processedData : list TransformedMeasurement
}.

(** Weight measurement validation schema. *)
Definition weightValidationSchema : Zod.object_schema :=
  [ ("weight"%string,
     {| Zod.minimum := 30; Zod.min_message := "Minimum weight is 30kg";
        Zod.maximum := 300; Zod.max_message := "Maximum weight is 300kg" |});
    ("bmi"%string,
     {| Zod.minimum := 10; Zod.min_message := "BMI too low";
        Zod.maximum := 60; Zod.max_message := "BMI too high" |});
    ("body_fat_percentage"%string,
     {| Zod.minimum := 3; Zod.min_message := "Body fat percentage too low";
        Zod.maximum := 70; Zod.max_message := "Body fat percentage too high" |}) ].

Inductive ErrorCode : Type :=
| INVALID_FILE
| PARSING_ERROR
| VALIDATION_ERROR
| IMPORT_ERROR.

(** What the code passes as [details]. *)
Inductive ErrorDetails : Type :=
| NoDetails
| ValidationErrors (errs : list string)
| FailedRow (row : RenphoRawData) (index : nat)
| Cause (error : Js.native_error).

Record RenphoImportError : Type := {
  error_message : string;
  error_code : ErrorCode;
  error_details : ErrorDetails
}.

(** Everything a service can throw. *)
Inductive exn : Type :=
| Native (error : Js.native_error)
| Renpho (error : RenphoImportError).

(** [error instanceof Error ? error.message : String(error)] *)
Definition exn_message (e : exn) : string :=
  match e with
  | Native n => Js.native_message n
  | Renpho r => error_message r
  end.

Definition throws (A : Type) : Type := Js.result exn A.

(** What the services read of a [File]. *)
Record File : Type := {
  name : string;
  size : N
}.

(** [{ isValid: boolean; error?: string }], the answer of the two file
    checks. *)
Module FileValidation.

Record t : Type := {
  isValid : bool;
  error : option string
}.

End FileValidation.

(** A value Papaparse puts in a row under [dynamicTyping], and a row under
    [header]: an object keyed by the column names. *)
Inductive CsvValue : Type :=
| CsvText (text : string)
| CsvNumber (value : Q)
| CsvBoolean (value : bool)
| CsvNull.

Definition CsvRow : Type := JsObject.t CsvValue.

(** What [Papa.parse] does with a file: it calls [complete] with the rows
    and the errors it met, or it calls [error]. *)
Inductive PapaOutcome : Type :=
| Papa_complete (data : list CsvRow) (parse_errors : list string)
| Papa_error (message : string).

(* ================================================================= *)
(** ** What the host provides *)

Class Runtime : Type := {
  (** [new Date(s).getTime()]; [None] is [NaN], an invalid date. *)
  Date_getTime : string -> option Z;
  (** [new Date().getTime()] *)
  Date_now : Z;
  (** The instant ten calendar years before another one:
      [d.setFullYear(d.getFullYear() - 10)]. *)
  ten_years_before : Z -> Z;
  (** [new Date(t).toLocaleDateString()] *)
  toLocaleDateString : Z -> string;
  (** A number inside a template literal. *)
  Number_toString : Q -> string;
  (** [x.toFixed(digits)] *)
  Number_toFixed : Q -> nat -> string
}.

(* ================================================================= *)
(** ** csv-parsing.service.ts *)

Module CsvParsingService.

Import Js.

(** The body of the [try] block of the row callback of
    [transformRenphoData]; the only throw is the malformed-date [Error]. *)
Definition transformRow_try (row : RenphoRawData)
    : result native_error TransformedMeasurement :=
  let dateParts := split "/" (Fecha row) in
  match dateParts with
  | [day; month; year] =>
      let fullYear :=
        if lt_number (parseInt year) 50
        then template ["20"; year]%string
        else template ["19"; year]%string in
      let isoDate :=
        template [fullYear; "-"; padStart 2 "0" month; "-";
                  padStart 2 "0" day]%string in
      let cleanTime := trim (Hora row) in
      Ok {| date := isoDate;
            time := cleanTime;
            weight := Number (Peso_kg row);
            bmi := Number (IMC row);
            body_fat_percentage := Number (Grasa_corporal row);
            skeletal_muscle_percentage := Number (or_zero (Musculo_esqueletico row));
            fat_free_body_weight := Number (or_zero (Peso_corporal_sin_grasa row));
            subcutaneous_fat_percentage := Number (or_zero (Grasa_subcutanea row));
            visceral_fat := Number (or_zero (Grasa_visceral row));
            body_water_percentage := Number (or_zero (Agua_corporal row));
            muscle_mass := Number (or_zero (Masa_muscular row));
            bone_mass := Number (or_zero (Masa_osea row));
            protein_percentage := Number (or_zero (Proteina row));
            basal_metabolic_rate := Number (or_zero (Tasa_Metabolica_Basal row));
            metabolic_age := Number (or_zero (Edad_metabolica row));
            body_type := Number (or_zero (Tipo_de_cuerpo row));
            source := renpho_import |}
  | _ => Throw (Error (template ["Invalid date format: "; Fecha row]%string))
  end.

(** The row callback with its [catch], which wraps what was thrown.  The
    [console.warn] of the schema check does not reach the result. *)
Definition transformRow (row : RenphoRawData) (index : nat)
    : throws TransformedMeasurement :=
  match transformRow_try row with
  | Ok transformed => Ok transformed
  | Throw error =>
      Throw (Renpho
        {| error_message :=
             template ["Failed to transform row "; string_of_nat (index + 1);
                       ": "; native_message error]%string;
           error_code := PARSING_ERROR;
           error_details := FailedRow row index |})
  end.

(** Transform raw RENPHO data to our internal format. *)
Definition transformRenphoData (rawData : list RenphoRawData)
    : throws (list TransformedMeasurement) :=
  map_indexed transformRow 0 rawData.

(** One turn of the [forEach] of [groupByDate].  A date that names a
    property of [Object.prototype] finds that property, which is truthy
    and has no [push]. *)
Definition group_record (grouped : JsObject.t (list TransformedMeasurement))
    (record : TransformedMeasurement)
    : throws (JsObject.t (list TransformedMeasurement)) :=
  match JsObject.get grouped (date record) with
  | JsObject.Undefined => Ok (JsObject.set grouped (date record) [record])
  | JsObject.Own records =>
      Ok (JsObject.set grouped (date record) (records ++ [record])%list)
  | JsObject.Inherited =>
      Throw (Native (TypeError "grouped[record.date].push is not a function"))
  end.

Definition group_all (data : list TransformedMeasurement)
    : throws (JsObject.t (list TransformedMeasurement)) :=
  fold_left (fun acc record => bind acc (fun grouped => group_record grouped record))
    data (Ok JsObject.empty).

(** [([, records]) => records.length > 1] *)
Definition has_several (entry : string * list TransformedMeasurement) : bool :=
  (1 <? List.length (snd entry))%nat.

(** [([date, records]) => ({ date, count: records.length })] *)
Definition to_duplicate (entry : string * list TransformedMeasurement)
    : DuplicateDetection :=
  {| dup_date := fst entry; count := List.length (snd entry) |}.

(** Find duplicates. *)
Definition find_duplicates (grouped : JsObject.t (list TransformedMeasurement))
    : list DuplicateDetection :=
  map to_duplicate (filter has_several (JsObject.entries grouped)).

(** Group measurements by date and detect duplicates. *)
Definition groupByDate (data : list TransformedMeasurement)
    : throws (JsObject.t (list TransformedMeasurement) * list DuplicateDetection) :=
  bind (group_all data) (fun grouped => Ok (grouped, find_duplicates grouped)).

(** Round number to specified decimal places. *)
Definition roundToDecimal (num : Q) (decimals : Z) : Q :=
  num_div (Math_round (num_mul num (Math_pow10 decimals))) (Math_pow10 decimals).

(** [records.reduce((sum, r) => sum + r.field, 0)] *)
Definition reduce_sum (field : TransformedMeasurement -> Q)
    (records : list TransformedMeasurement) : Q :=
  fold_left (fun sum r => num_add sum (field r)) records 0.

(** The callback of [averageDailyMeasurements] on one entry; an empty
    array has no first record to read [time] from. *)
Definition average_entry (entry : string * list TransformedMeasurement)
    : throws TransformedMeasurement :=
  let '(date_key, records) := entry in
  let count := inject_Z (Z.of_nat (List.length records)) in
  match records with
  | [] =>
      Throw (Native
        (TypeError "Cannot read properties of undefined (reading 'time')"))
  | first :: _ =>
      Ok {| date := date_key;
            time := time first;
            weight := roundToDecimal (num_div (reduce_sum weight records) count) 1;
            bmi := roundToDecimal (num_div (reduce_sum bmi records) count) 1;
            body_fat_percentage :=
              roundToDecimal (num_div (reduce_sum body_fat_percentage records) count) 1;
            skeletal_muscle_percentage :=
              roundToDecimal
                (num_div (reduce_sum skeletal_muscle_percentage records) count) 1;
            fat_free_body_weight :=
              roundToDecimal (num_div (reduce_sum fat_free_body_weight records) count) 1;
            subcutaneous_fat_percentage :=
              roundToDecimal
                (num_div (reduce_sum subcutaneous_fat_percentage records) count) 1;
            visceral_fat :=
              roundToDecimal (num_div (reduce_sum visceral_fat records) count) 1;
            body_water_percentage :=
              roundToDecimal (num_div (reduce_sum body_water_percentage records) count) 1;
            muscle_mass := roundToDecimal (num_div (reduce_sum muscle_mass records) count) 1;
            bone_mass := roundToDecimal (num_div (reduce_sum bone_mass records) count) 1;
            protein_percentage :=
              roundToDecimal (num_div (reduce_sum protein_percentage records) count) 1;
            basal_metabolic_rate :=
              Math_round (num_div (reduce_sum basal_metabolic_rate records) count);
            metabolic_age := Math_round (num_div (reduce_sum metabolic_age records) count);
            body_type := Math_round (num_div (reduce_sum body_type records) count);
            source := renpho_import |}
  end.

(** Create daily averages from grouped measurements. *)
Definition averageDailyMeasurements
    (grouped : JsObject.t (list TransformedMeasurement))
    : throws (list TransformedMeasurement) :=
  map_result average_entry (JsObject.entries grouped).

Definition requiredColumns : list string :=
  ["Fecha"; " Hora"; " Peso(kg)"; "IMC"; "Grasa corporal(%)"]%string.

(** Validate that the CSV has expected RENPHO format. *)
Definition validateRenphoFormat (data : list CsvRow) : result native_error unit :=
  match data with
  | [] => Throw (Error "CSV file is empty")
  | first :: _ =>
      let missingColumns :=
        filter (fun col => negb (JsObject.has_property first col)) requiredColumns in
      if (0 <? List.length missingColumns)%nat
      then Throw (Error (template ["Missing required RENPHO columns: ";
                                   join ", " missingColumns]%string))
      else Ok tt
  end.

Section WithPapa.

(** [Papa.parse(file, ...)], by the callback it ends in. *)
Variable Papa_parse : File -> PapaOutcome.

(** Parse RENPHO CSV file and return structured data: the value the
    promise resolves to, or the error it rejects with.  The rows are
    returned as Papaparse made them; the cast to [RenphoRawData[]]
    does nothing at run time. *)
Definition parseRenphoCSV (file : File) : throws (list CsvRow) :=
  if negb (endsWith (toLowerCase (name file)) ".csv")
  then
    Throw (Renpho
      {| error_message := "Invalid file type. Please select a CSV file.";
         error_code := INVALID_FILE;
         error_details := NoDetails |})
  else
    match Papa_parse file with
    | Papa_complete data _ =>
        match validateRenphoFormat data with
        | Ok _ => Ok data
        | Throw error =>
            Throw (Renpho
              {| error_message :=
                   "Failed to parse CSV data. Please ensure the file is exported from RENPHO app.";
                 error_code := PARSING_ERROR;
                 error_details := Cause error |})
        end
    | Papa_error message =>
        Throw (Renpho
          {| error_message := template ["CSV parsing failed: "; message]%string;
             error_code := PARSING_ERROR;
             error_details := Cause (Error message) |})
    end.

End WithPapa.

End CsvParsingService.

(* ================================================================= *)
(** ** import-validation.service.ts *)

Module ImportValidationService.

Import Js.

(** [/^\d{4}-\d{2}-\d{2}$/.test(s)] *)
Definition matches_iso_date (s : string) : bool :=
  match list_ascii_of_string s with
  | [y1; y2; y3; y4; h1; m1; m2; h2; d1; d2] =>
      is_digit y1 && is_digit y2 && is_digit y3 && is_digit y4
      && Ascii.eqb h1 "-"
      && is_digit m1 && is_digit m2
      && Ascii.eqb h2 "-"
      && is_digit d1 && is_digit d2
  | _ => false
  end.

(** The tail [\s*(a\.m\.|p\.m\.|AM|PM)?$] of the time pattern, under the
    [i] flag. *)
Definition matches_meridiem_tail (cs : list ascii) : bool :=
  let rest := string_of_list_ascii (map to_lower (drop_white_space cs)) in
  String.eqb rest "" || String.eqb rest "a.m." || String.eqb rest "p.m."
  || String.eqb rest "am" || String.eqb rest "pm".

(** The part [:(\d{2})(:(\d{2}))?...] after the hour. *)
Definition matches_after_hour (cs : list ascii) : bool :=
  match cs with
  | ":"%char :: m1 :: m2 :: rest =>
      is_digit m1 && is_digit m2
      && match rest with
         | ":"%char :: s1 :: s2 :: tail =>
             is_digit s1 && is_digit s2 && matches_meridiem_tail tail
         | ":"%char :: _ => false
         | _ => matches_meridiem_tail rest
         end
  | _ => false
  end.

(** [/^(\d{1,2}):(\d{2})(:(\d{2}))?\s*(a\.m\.|p\.m\.|AM|PM)?$/i.test(s)] *)
Definition matches_time (s : string) : bool :=
  match list_ascii_of_string s with
  | h1 :: rest =>
      is_digit h1
      && match rest with
         | h2 :: rest' =>
             if is_digit h2 then matches_after_hour rest'
             else matches_after_hour rest
         | [] => false
         end
  | [] => false
  end.

(** The own property [x] of the numeric fields the schema reads. *)
Definition essential_fields (measurement : TransformedMeasurement)
    : list (string * Q) :=
  [ ("weight"%string, weight measurement);
    ("bmi"%string, bmi measurement);
    ("body_fat_percentage"%string, body_fat_percentage measurement) ].

Definition out_of (low high x : Q) : bool := ltb x low || gtb x high.

Section WithRuntime.

Context `{Runtime}.

(** Check if date string is valid ISO format. *)
Definition isValidDate (dateString : string) : bool :=
  match Date_getTime dateString with
  | Some _ => matches_iso_date dateString
  | None => false
  end.

(** Check if time string has valid format. *)
Definition isValidTime (timeString : string) : bool :=
  matches_time (trim timeString).

(** Validate a single measurement. *)
Definition validateSingleMeasurement (measurement : TransformedMeasurement)
    (rowNumber : nat) : ValidationResult :=
  let row := string_of_nat rowNumber in
  let issues := Zod.safeParse weightValidationSchema (essential_fields measurement) in
  let schema_errors :=
    map (fun issue =>
           template ["Row "; row; ": "; join "." (Zod.path issue); ": ";
                     Zod.message issue]%string)
      issues in
  let skeletal :=
    if out_of 0 100 (skeletal_muscle_percentage measurement)
    then [template ["Row "; row; ": Skeletal muscle percentage (";
                    Number_toString (skeletal_muscle_percentage measurement);
                    "%) seems unusual"]%string]
    else [] in
  let water :=
    if out_of 30 80 (body_water_percentage measurement)
    then [template ["Row "; row; ": Body water percentage (";
                    Number_toString (body_water_percentage measurement);
                    "%) seems unusual"]%string]
    else [] in
  let visceral :=
    if out_of 0 30 (visceral_fat measurement)
    then [template ["Row "; row; ": Visceral fat level (";
                    Number_toString (visceral_fat measurement);
                    ") seems unusual"]%string]
    else [] in
  let bmr :=
    if out_of 800 4000 (basal_metabolic_rate measurement)
    then [template ["Row "; row; ": BMR (";
                    Number_toString (basal_metabolic_rate measurement);
                    " kcal) seems unusual"]%string]
    else [] in
  let age :=
    if out_of 10 120 (metabolic_age measurement)
    then [template ["Row "; row; ": Metabolic age (";
                    Number_toString (metabolic_age measurement);
                    ") seems unusual"]%string]
    else [] in
  let date_errors :=
    if negb (isValidDate (date measurement))
    then [template ["Row "; row; ": Invalid date format: ";
                    date measurement]%string]
    else [] in
  let time_warnings :=
    if negb (isValidTime (time measurement))
    then [template ["Row "; row; ": Unusual time format: ";
                    time measurement]%string]
    else [] in
  let all_errors := (schema_errors ++ date_errors)%list in
  let all_warnings :=
    (skeletal ++ water ++ visceral ++ bmr ++ age ++ time_warnings)%list in
  {| errors := filter_Boolean all_errors;
     warnings := filter_Boolean all_warnings;
     isValid := (List.length all_errors =? 0)%nat |}.

(** [data.map(m => new Date(m.date)).filter(d => !isNaN(d.getTime()))],
    as time values. *)
Definition valid_dates (data : list TransformedMeasurement) : list Z :=
  flat_map (fun m => match Date_getTime (date m) with
                     | Some t => [t]
                     | None => []
                     end) data.

(** Validate date range of measurements. *)
Definition validateDateRange (data : list TransformedMeasurement)
    : ValidationResult :=
  match valid_dates data with
  | [] =>
      {| errors := ["No valid dates found in the data"%string];
         warnings := [];
         isValid := false |}
  | first :: others =>
      let minDate := Zmin_list first others in
      let maxDate := Zmax_list first others in
      let now := Date_now in
      let future :=
        if (now <? maxDate)%Z
        then [template ["Found measurements dated in the future (";
                        toLocaleDateString maxDate; ")"]%string]
        else [] in
      let tenYearsAgo := ten_years_before Date_now in
      let old :=
        if (minDate <? tenYearsAgo)%Z
        then [template ["Found very old measurements (";
                        toLocaleDateString minDate; ")"]%string]
        else [] in
      let daysDiff :=
        Math_ceil
          (num_div (num_sub (inject_Z maxDate) (inject_Z minDate))
             (inject_Z (1000 * 60 * 60 * 24))) in
      let span :=
        if (365 <? daysDiff)%Z
        then [template ["Data spans "; string_of_nat (Z.to_nat daysDiff);
                        " days ("; toLocaleDateString minDate; " to ";
                        toLocaleDateString maxDate; ")"]%string]
        else [] in
      {| errors := [];
         warnings := (future ++ old ++ span)%list;
         isValid := true |}
  end.

(** The predicate of the [filter] that collects the BMI
    inconsistencies. *)
Definition bmi_inconsistent (m : TransformedMeasurement) : bool :=
  if Qle_bool (weight m) 0 || Qle_bool (bmi m) 0 then false
  else
    let estimatedHeight := Math_sqrt (num_div (weight m) (bmi m)) in
    ltb estimatedHeight (double (12 # 10)) || gtb estimatedHeight (25 # 10).

Definition bmi_warning (inconsistencies : nat) : string :=
  template [string_of_nat inconsistencies;
            " measurements have inconsistent BMI calculations"]%string.

(** Validate measurement consistency and detect outliers. *)
Definition validateMeasurementConsistency (data : list TransformedMeasurement)
    : ValidationResult :=
  if (List.length data <? 2)%nat
  then {| errors := []; warnings := []; isValid := true |}
  else
    let weights := filter (fun w => gtb w 0) (map weight data) in
    let variation :=
      match weights with
      | first :: ((_ :: _) as others) =>
          let minWeight := Math_min first others in
          let maxWeight := Math_max first others in
          let weightVariation :=
            num_mul (num_div (num_sub maxWeight minWeight) minWeight) 100 in
          if gtb weightVariation 30
          then [template ["Large weight variation detected: ";
                          Number_toString minWeight; "kg to ";
                          Number_toString maxWeight; "kg (";
                          Number_toFixed weightVariation 1; "%)"]%string]
          else []
      | _ => []
      end in
    let bmiInconsistencies := filter bmi_inconsistent data in
    let inconsistent :=
      if (0 <? List.length bmiInconsistencies)%nat
      then [bmi_warning (List.length bmiInconsistencies)]
      else [] in
    {| errors := [];
       warnings := (variation ++ inconsistent)%list;
       isValid := true |}.

(** The [forEach] over the measurements: each one validated under
    its 1-based row number. *)
Definition validate_each (data : list TransformedMeasurement)
    : list ValidationResult :=
  map_with_index
    (fun measurement index => validateSingleMeasurement measurement (index + 1))
    0 data.

(** The warnings of the duplicates block. *)
Definition duplicate_warnings (duplicate_list : list DuplicateDetection)
    : list string :=
  if (0 <? List.length duplicate_list)%nat
  then template ["Found "; string_of_nat (List.length duplicate_list);
                 " dates with multiple measurements"]%string
       :: map (fun d =>
                 template [string_of_nat (count d);
                           " measurements found for "; dup_date d]%string)
            duplicate_list
  else [].

(** Validate transformed measurement data. *)
Definition validateMeasurements (data : list TransformedMeasurement)
    (duplicate_list : list DuplicateDetection) : ValidationResult :=
  match data with
  | [] =>
      {| errors := ["No valid measurements found in the CSV file"%string];
         warnings := [];
         isValid := false |}
  | _ :: _ =>
      let each := validate_each data in
      let record_errors := flat_map errors each in
      let record_warnings := flat_map warnings each in
      let dateValidation := validateDateRange data in
      let consistencyValidation := validateMeasurementConsistency data in
      let all_errors := (record_errors ++ errors dateValidation)%list in
      let all_warnings :=
        (record_warnings ++ duplicate_warnings duplicate_list
         ++ warnings dateValidation
         ++ warnings consistencyValidation)%list in
      {| errors := filter_Boolean all_errors;
         warnings := filter_Boolean all_warnings;
         isValid := (List.length all_errors =? 0)%nat |}
  end.

End WithRuntime.

End ImportValidationService.

(* ================================================================= *)
(** ** renpho-import.service.ts *)

Module RenphoImportService.

Import Js.

(** The calls [processImport] can make while it runs.  [createBatch] is
    the persistence call [measurementsService.createBatch(finalData)]
    that the source leaves commented out. *)
Inductive call : Type :=
| averageDailyMeasurements_call (groups : JsObject.t (list TransformedMeasurement))
| setTimeout_call (milliseconds : Z)
| createBatch_call (finalData : list TransformedMeasurement).

(** The outcome of an [async] function: the calls made, then the value
    the promise resolves to or the error it rejects with. *)
Definition async (A : Type) : Type := (list call * throws A)%type.

(** The body of the [try] block of [processImport]. *)
Definition processImport_try (parseResult : ParseResult)
    (chosen : ImportStrategy) : async ImportResult :=
  if negb (isValid (validation parseResult))
  then
    ([], Throw (Renpho
       {| error_message :=
            "Cannot import data with validation errors. Please fix the errors first.";
          error_code := VALIDATION_ERROR;
          error_details := ValidationErrors (errors (validation parseResult)) |}))
  else
    let '(calls, finalData) :=
      match chosen with
      | average =>
          ([averageDailyMeasurements_call (grouped parseResult)],
           CsvParsingService.averageDailyMeasurements (grouped parseResult))
      | keep_all => ([], Ok (transformedData parseResult))
      end in
    match finalData with
    | Throw error => (calls, Throw error)
    | Ok finalData =>
        ((calls ++ [setTimeout_call 2000])%list,
         Ok {| strategy := chosen;
               successful := List.length finalData;
               failed := 0;
               import_errors := [];
               processedData := finalData |})
    end.

(** The [catch]: a [RenphoImportError] is thrown again, anything else
    is wrapped. *)
Definition rethrow (prefix : string) (wrapped_code : ErrorCode) {A}
    (outcome : throws A) : throws A :=
  match outcome with
  | Ok value => Ok value
  | Throw (Renpho error) => Throw (Renpho error)
  | Throw (Native error) =>
      Throw (Renpho
        {| error_message := template [prefix; native_message error];
           error_code := wrapped_code;
           error_details := Cause error |})
  end.

(** Process import with selected strategy. *)
Definition processImport (parseResult : ParseResult) (chosen : ImportStrategy)
    : async ImportResult :=
  let '(calls, outcome) := processImport_try parseResult chosen in
  (calls, rethrow "Import failed: " IMPORT_ERROR outcome).

Record DateRange : Type := {
  range_start : option string;
  range_end : option string
}.

Record ImportStatistics : Type := {
  totalMeasurements : nat;
  uniqueDates : nat;
  duplicateDates : nat;
  dateRange : option DateRange
}.

(** Get import statistics for display.  [dates[0]] and
    [dates[dates.length - 1]] are read as array elements, [None] being
    [undefined]; [dateRange] is [None] where the source returns
    [null]. *)
Definition getImportStatistics (parseResult : ParseResult) : ImportStatistics :=
  match transformedData parseResult with
  | [] =>
      {| totalMeasurements := 0;
         uniqueDates := 0;
         duplicateDates := 0;
         dateRange := None |}
  | _ :: _ =>
      let dates := sort code_unit_order (map date (transformedData parseResult)) in
      {| totalMeasurements := List.length (transformedData parseResult);
         uniqueDates := Set_size dates;
         duplicateDates := List.length (duplicates parseResult);
         dateRange :=
           Some {| range_start := nth_error dates 0;
                   range_end := nth_error dates (List.length dates - 1) |} |}
  end.

(** Validate file before processing. *)
Definition validateFile (file : File) : FileValidation.t :=
  if negb (endsWith (toLowerCase (name file)) ".csv")
  then {| FileValidation.isValid := false;
          FileValidation.error := Some "Please select a CSV file"%string |}
  else
    let maxSize := (10 * 1024 * 1024)%N in
    if (maxSize <? size file)%N
    then {| FileValidation.isValid := false;
            FileValidation.error :=
              Some "File size too large. Maximum allowed size is 10MB"%string |}
    else if (size file =? 0)%N
    then {| FileValidation.isValid := false;
            FileValidation.error := Some "Selected file is empty"%string |}
    else {| FileValidation.isValid := true; FileValidation.error := None |}.

Section WithRuntime.

Context `{Runtime}.

(** [parseFile] from the point where [parseRenphoCSV] has resolved to
    [rawData], for rows of the declared type [RenphoRawData].  The
    source casts the parsed rows to that type without a check; rows
    that lack a cell, or hold one of another type, are outside this
    definition. *)
Definition parseFile_rows (rawData : list RenphoRawData) : throws ParseResult :=
  rethrow "Failed to parse RENPHO file: " PARSING_ERROR
    (match rawData with
     | [] =>
         Throw (Renpho {| error_message := "No data found in CSV file";
                          error_code := PARSING_ERROR;
                          error_details := NoDetails |})
     | _ :: _ =>
         bind (CsvParsingService.transformRenphoData rawData) (fun transformed =>
         bind (CsvParsingService.groupByDate transformed) (fun groups =>
           let validated :=
             ImportValidationService.validateMeasurements transformed (snd groups) in
           Ok {| originalData := rawData;
                 transformedData := transformed;
                 grouped := fst groups;
                 duplicates := snd groups;
                 validation := validated |}))
     end).

(** The comparator of [previewData]:
    [new Date(b.date).getTime() - new Date(a.date).getTime()]. *)
Definition by_date_descending (a b : TransformedMeasurement) : option Z :=
  match Date_getTime (date b), Date_getTime (date a) with
  | Some tb, Some ta => Some (tb - ta)%Z
  | _, _ => None
  end.

(** Preview data for a specific strategy.  [limit] is [None] when the
    argument is left out.  [sort] works in place: under [keep_all] the
    array it reorders is [parseResult.transformedData], so the parse
    result is returned as the call leaves it. *)
Definition previewData (parseResult : ParseResult) (chosen : ImportStrategy)
    (limit : option Q) : throws (list TransformedMeasurement * ParseResult) :=
  let limit := match limit with Some l => l | None => 5 end in
  bind
    (match chosen with
     | average => CsvParsingService.averageDailyMeasurements (grouped parseResult)
     | keep_all => Ok (transformedData parseResult)
     end)
    (fun data =>
       let sorted := sort by_date_descending data in
       let after :=
         match chosen with
         | average => parseResult
         | keep_all =>
             {| originalData := originalData parseResult;
                transformedData := sorted;
                grouped := grouped parseResult;
                duplicates := duplicates parseResult;
                validation := validation parseResult |}
         end in
       Ok (slice0 sorted limit, after)).

End WithRuntime.

End RenphoImportService.

(* ================================================================= *)
(** ** hooks/useDragAndDrop.ts *)

Module UseDragAndDrop.

Import Js.

(** The options [validateFile] reads; [None] is an option left out. *)
Record DragAndDropOptions : Type := {
  acceptedTypes : option (list string);
  maxFileSize : option Q
}.

Section WithRuntime.

Context `{Runtime}.

(** Validate dropped file. *)
Definition validateFile (options : DragAndDropOptions) (file : File)
    : FileValidation.t :=
  let acceptedTypes :=
    match acceptedTypes options with
    | Some types => types
    | None => [".csv"%string]
    end in
  let maxFileSize :=
    match maxFileSize options with
    | Some bytes => bytes
    | None => 10 * 1024 * 1024
    end in
  let fileExtension :=
    template ["."; match option_map toLowerCase (pop (split "." (name file))) with
                   | Some extension => extension
                   | None => "undefined"
                   end]%string in
  if (0 <? List.length acceptedTypes)%nat
     && negb (includes acceptedTypes fileExtension)
  then {| FileValidation.isValid := false;
          FileValidation.error :=
            Some (template ["Invalid file type. Accepted types: ";
                            join ", " acceptedTypes]%string) |}
  else if gtb (inject_Z (Z.of_N (size file))) maxFileSize
  then
    let maxSizeMB := Math_round (maxFileSize / (1024 * 1024)) in
    {| FileValidation.isValid := false;
       FileValidation.error :=
         Some (template ["File size too large. Maximum allowed: ";
                         Number_toString maxSizeMB; "MB"]%string) |}
  else if (size file =? 0)%N
  then {| FileValidation.isValid := false;
          FileValidation.error := Some "Selected file is empty"%string |}
  else {| FileValidation.isValid := true; FileValidation.error := None |}.

(** What a handler does to the outside: [onError?.(message)] (a call
    when the option is given), [onFileDrop(file)], and the reset
    [target.value = ''] of the file input. *)
Inductive Effect : Type :=
| onError_call (message : string)
| onFileDrop_call (file : File)
| input_cleared.

(** [validation.error || 'Invalid file'] *)
Definition error_or (fallback : string) (validation : FileValidation.t) : string :=
  match FileValidation.error validation with
  | Some text => if String.eqb text "" then fallback else text
  | None => fallback
  end.

(** The two states of the hook. *)
Record DragState : Type := {
  isDragActive : bool;
  dragCounter : Z
}.

Definition initial : DragState :=
  {| isDragActive := false; dragCounter := 0 |}.

(** Handle drag enter event. *)
Definition handleDragEnter (state : DragState) : DragState :=
  {| isDragActive := true; dragCounter := dragCounter state + 1 |}.

(** Handle drag leave event.  The handler is made anew whenever
    [dragCounter] changes, so the counter it tests is the one of the
    state it runs in. *)
Definition handleDragLeave (state : DragState) : DragState :=
  {| isDragActive :=
       if (dragCounter state <=? 1)%Z then false else isDragActive state;
     dragCounter := dragCounter state - 1 |}.

(** Handle drag over event. *)
Definition handleDragOver (state : DragState) : DragState := state.

(** Handle drop event; [files] is [e.dataTransfer?.files], [None] when
    there is none. *)
Definition handleDrop (options : DragAndDropOptions) (state : DragState)
    (files : option (list File)) : DragState * list Effect :=
  let dropped := {| isDragActive := false; dragCounter := 0 |} in
  match files with
  | None => (dropped, [])
  | Some [] => (dropped, [])
  | Some (file :: _) =>
      let validation := validateFile options file in
      if negb (FileValidation.isValid validation)
      then (dropped, [onError_call (error_or "Invalid file" validation)])
      else (dropped, [onFileDrop_call file])
  end.

(** Handle programmatic file selection; [files] is [target.files]. *)
Definition handleFileSelect (options : DragAndDropOptions)
    (files : option (list File)) : list Effect :=
  match files with
  | None => []
  | Some [] => []
  | Some (file :: _) =>
      let validation := validateFile options file in
      if negb (FileValidation.isValid validation)
      then [onError_call (error_or "Invalid file" validation)]
      else [onFileDrop_call file; input_cleared]
  end.

(** The drag events, and the state after a run of them, each handled
    in the state the one before has left. *)
Inductive DragEvent : Type :=
| dragenter
| dragleave
| dragover
| drop (files : option (list File)).

Definition handle (options : DragAndDropOptions) (state : DragState)
    (event : DragEvent) : DragState :=
  match event with
  | dragenter => handleDragEnter state
  | dragleave => handleDragLeave state
  | dragover => handleDragOver state
  | drop files => fst (handleDrop options state files)
  end.

End WithRuntime.

End UseDragAndDrop.

(* ================================================================= *)
(** ** hooks/useRenphoImport.ts

    The state of the hook, and each handler as the state it leaves when it
    has run to its end with no other handler running in between.  The
    count of the progress intervals that are set and not cleared is kept
    beside the React state. *)

Module UseRenphoImport.

Import Js.

Module Step.

Inductive t : Type :=
| upload
| processing
| preview
| importing
| complete
| error.

End Step.

Record ImportProgress : Type := {
  step : Step.t;
  progress : Q;
  message : string
}.

Record State : Type := {
  selectedFile : option File;
  parseResult : option ParseResult;
  importResult : option ImportResult;
  importProgress : ImportProgress;
  isProcessing : bool;
  error : option string;
  strategy : ImportStrategy;
  runningIntervals : nat
}.

Definition initial : State :=
  {| selectedFile := None;
     parseResult := None;
     importResult := None;
     importProgress :=
       {| step := Step.upload; progress := 0;
          message := "Ready to upload CSV file" |};
     isProcessing := false;
     error := None;
     strategy := average;
     runningIntervals := 0 |}.

(** Computed values. *)
Definition canImport (state : State) : bool :=
  match parseResult state with
  | Some parsed => isValid (validation parsed)
  | None => false
  end.

Definition hasData (state : State) : bool :=
  match parseResult state with
  | Some _ => true
  | None => false
  end.

Definition isComplete (state : State) : bool :=
  match importResult state with
  | Some _ => true
  | None => false
  end.

(** Process the import with selected strategy.  The interval is set
    inside the [try] and cleared only after the [await] has returned. *)
Definition processImport (state : State) : State :=
  match parseResult state with
  | None =>
      {| selectedFile := selectedFile state;
         parseResult := parseResult state;
         importResult := importResult state;
         importProgress := importProgress state;
         isProcessing := isProcessing state;
         error := Some "No data to import"%string;
         strategy := strategy state;
         runningIntervals := runningIntervals state |}
  | Some parsed =>
      match snd (RenphoImportService.processImport parsed (strategy state)) with
      | Ok result =>
          {| selectedFile := selectedFile state;
             parseResult := parseResult state;
             importResult := Some result;
             importProgress :=
               {| step := Step.complete; progress := 100;
                  message :=
                    template ["Successfully imported ";
                              string_of_nat (successful result);
                              " measurements"]%string |};
             isProcessing := false;
             error := None;
             strategy := strategy state;
             runningIntervals := runningIntervals state |}
      | Throw err =>
          {| selectedFile := selectedFile state;
             parseResult := parseResult state;
             importResult := importResult state;
             importProgress :=
               {| step := Step.error; progress := 0;
                  message := "Import failed" |};
             isProcessing := false;
             error := Some (exn_message err);
             strategy := strategy state;
             runningIntervals := S (runningIntervals state) |}
      end
  end.

(** One firing of a progress interval that is still running. *)
Definition tick (state : State) : State :=
  match runningIntervals state with
  | O => state
  | S _ =>
      {| selectedFile := selectedFile state;
         parseResult := parseResult state;
         importResult := importResult state;
         importProgress :=
           {| step := step (importProgress state);
              progress := Math_min (progress (importProgress state) + 20) [90];
              message := "Importing measurements..." |};
         isProcessing := isProcessing state;
         error := error state;
         strategy := strategy state;
         runningIntervals := runningIntervals state |}
  end.

(** Reset the entire import process. *)
Definition resetImport (state : State) : State :=
  {| selectedFile := None;
     parseResult := None;
     importResult := None;
     importProgress :=
       {| step := Step.upload; progress := 0;
          message := "Ready to upload CSV file" |};
     isProcessing := false;
     error := None;
     strategy := average;
     runningIntervals := runningIntervals state |}.

(** Change import strategy. *)
Definition updateStrategy (state : State) (newStrategy : ImportStrategy) : State :=
  {| selectedFile := selectedFile state;
     parseResult := parseResult state;
     importResult := importResult state;
     importProgress := importProgress state;
     isProcessing := isProcessing state;
     error := error state;
     strategy := newStrategy;
     runningIntervals := runningIntervals state |}.

(** Get import statistics. *)
Definition getStatistics (state : State)
    : option RenphoImportService.ImportStatistics :=
  option_map RenphoImportService.getImportStatistics (parseResult state).

Section WithServices.

Context `{Runtime}.

(** [RenphoImportService.parseFile(file)], which reads the file. *)
Variable parseFile_service : File -> throws ParseResult.

(** Parse the selected CSV file. *)
Definition parseFile (state : State) (file : File) : State :=
  match parseFile_service file with
  | Ok result =>
      {| selectedFile := selectedFile state;
         parseResult := Some result;
         importResult := importResult state;
         importProgress :=
           {| step := Step.preview; progress := 100;
              message := "File parsed successfully" |};
         isProcessing := false;
         error := None;
         strategy := strategy state;
         runningIntervals := runningIntervals state |}
  | Throw err =>
      {| selectedFile := selectedFile state;
         parseResult := parseResult state;
         importResult := importResult state;
         importProgress :=
           {| step := Step.error; progress := 0;
              message := "Failed to parse file" |};
         isProcessing := false;
         error := Some (exn_message err);
         strategy := strategy state;
         runningIntervals := runningIntervals state |}
  end.

(** Handle file selection and validation. *)
Definition handleFileSelect (state : State) (file : File) : State :=
  let validation := RenphoImportService.validateFile file in
  if negb (FileValidation.isValid validation)
  then
    {| selectedFile := selectedFile state;
       parseResult := parseResult state;
       importResult := importResult state;
       importProgress := importProgress state;
       isProcessing := isProcessing state;
       error :=
         Some (match FileValidation.error validation with
               | Some text =>
                   if String.eqb text "" then "Invalid file selected"%string
                   else text
               | None => "Invalid file selected"%string
               end);
       strategy := strategy state;
       runningIntervals := runningIntervals state |}
  else
    parseFile
      {| selectedFile := Some file;
         parseResult := None;
         importResult := None;
         importProgress := importProgress state;
         isProcessing := isProcessing state;
         error := None;
         strategy := strategy state;
         runningIntervals := runningIntervals state |}
      file.

(** Get preview data for current strategy: what is returned, and the
    state with the parse result as [previewData] leaves it. *)
Definition getPreviewData (state : State) (limit : option Q)
    : throws (list TransformedMeasurement * State) :=
  match parseResult state with
  | None => Ok ([], state)
  | Some parsed =>
      bind (RenphoImportService.previewData parsed (strategy state)
              (Some (match limit with Some l => l | None => 5 end)))
        (fun previewed =>
           Ok (fst previewed,
               {| selectedFile := selectedFile state;
                  parseResult := Some (snd previewed);
                  importResult := importResult state;
                  importProgress := importProgress state;
                  isProcessing := isProcessing state;
                  error := error state;
                  strategy := strategy state;
                  runningIntervals := runningIntervals state |}))
  end.

(** What can happen to the hook, and the state after it. *)
Inductive Event : Type :=
| file_selected (file : File)
| file_parsed (file : File)
| import_requested
| reset_requested
| strategy_changed (newStrategy : ImportStrategy)
| interval_fired
| preview_requested (limit : option Q).

Definition handle (state : State) (event : Event) : State :=
  match event with
  | file_selected file => handleFileSelect state file
  | file_parsed file => parseFile state file
  | import_requested => processImport state
  | reset_requested => resetImport state
  | strategy_changed newStrategy => updateStrategy state newStrategy
  | interval_fired => tick state
  | preview_requested limit =>
      match getPreviewData state limit with
      | Ok previewed => snd previewed
      | Throw _ => state
      end
  end.

End WithServices.

End UseRenphoImport.

(* ================================================================= *)
(** ** components/ImportResults.tsx *)

Module ImportResults.

(** [result.successful / (result.successful + result.failed) * 100],
    the figure the component prints as the success rate.  The two
    counts are not negative, so the divisor is zero only when both
    are, and the quotient is then [0 / 0]: [None] is that [NaN]. *)
Definition successRate (result : ImportResult) : option Q :=
  if (successful result + failed result =? 0)%nat
  then None
  else Some (inject_Z (Z.of_nat (successful result))
             / inject_Z (Z.of_nat (successful result + failed result))
             * 100).

End ImportResults.

(* ================================================================= *)
(** ** A runtime to evaluate with

    The statements below hold for every [Runtime].  To run the services on
    concrete data this one reads ISO calendar dates ([YYYY-MM-DD], UTC
    midnight) and nothing else, prints dates as [M/D/YYYY], prints a
    number with the fewest digits that read back as it, and has its clock
    at 2025-01-01. *)

Module ReferenceRuntime.

Import Js.

Definition milliseconds_per_day : Z := 86400000.

(** Days from 1970-01-01 to a date of the proleptic Gregorian calendar. *)
Definition days_from_civil (y m d : Z) : Z :=
  let y' := if (m <=? 2)%Z then (y - 1)%Z else y in
  let era := (y' / 400)%Z in
  let yoe := (y' - era * 400)%Z in
  let mp := ((m + 9) mod 12)%Z in
  let doy := ((153 * mp + 2) / 5 + d - 1)%Z in
  let doe := (yoe * 365 + yoe / 4 - yoe / 100 + doy)%Z in
  (era * 146097 + doe - 719468)%Z.

(** The inverse: year, month and day of a day number. *)
Definition civil_from_days (z : Z) : Z * Z * Z :=
  let z := (z + 719468)%Z in
  let era := (z / 146097)%Z in
  let doe := (z - era * 146097)%Z in
  let yoe := ((doe - doe / 1460 + doe / 36524 - doe / 146096) / 365)%Z in
  let doy := (doe - (365 * yoe + yoe / 4 - yoe / 100))%Z in
  let mp := ((5 * doy + 2) / 153)%Z in
  let d := (doy - (153 * mp + 2) / 5 + 1)%Z in
  let m := if (mp <? 10)%Z then (mp + 3)%Z else (mp - 9)%Z in
  let y := (yoe + era * 400)%Z in
  ((if (m <=? 2)%Z then y + 1 else y)%Z, m, d).

Definition digits_value (cs : list ascii) : Z :=
  match parse_digits 10 decimal_value cs None with
  | Some n => n
  | None => 0%Z
  end.

Definition parse_iso_date (s : string) : option Z :=
  if ImportValidationService.matches_iso_date s
  then
    match list_ascii_of_string s with
    | [y1; y2; y3; y4; _; m1; m2; _; d1; d2] =>
        let y := digits_value [y1; y2; y3; y4] in
        let m := digits_value [m1; m2] in
        let d := digits_value [d1; d2] in
        let days := days_from_civil y m d in
        let '(y', m', d') := civil_from_days days in
        if ((y' =? y) && (m' =? m) && (d' =? d))%Z
        then Some (days * milliseconds_per_day)%Z
        else None
    | _ => None
    end
  else None.

Definition string_of_Z (z : Z) : string :=
  NilZero.string_of_int (Z.to_int z).

Definition print_date (t : Z) : string :=
  let '(y, m, d) := civil_from_days (t / milliseconds_per_day) in
  template [string_of_Z m; "/"; string_of_Z d; "/"; string_of_Z y]%string.

Definition minus_ten_years (t : Z) : Z :=
  let '(y, m, d) := civil_from_days (t / milliseconds_per_day) in
  (days_from_civil (y - 10) m d * milliseconds_per_day
   + t mod milliseconds_per_day)%Z.

(** The decimal exponent of a positive number: the [n] with
    [10^(n-1) <= x < 10^n], looked for around what the binade tells. *)
Definition decimal_exponent (x : Q) : Z :=
  let estimate := (binade x * 30103 / 100000)%Z in
  match find (fun n => Qle_bool (Qpower 10 (n - 1)) x
                       && negb (Qle_bool (Qpower 10 n) x))
             [estimate - 1; estimate; estimate + 1; estimate + 2]%Z with
  | Some n => n
  | None => estimate
  end.

(** The [k] decimal digits nearest to a positive number of decimal
    exponent [n], as an integer. *)
Definition nearest_digits (x : Q) (n k : Z) : Z :=
  nearest_even (x / Qpower 10 (n - k)).

Definition reads_back (x : Q) (n k : Z) : bool :=
  Qeq_bool (double (inject_Z (nearest_digits x n k) * Qpower 10 (n - k))) x.

Definition zeros (count : Z) : string :=
  string_of_list_ascii (repeat "0"%char (Z.to_nat count)).

(** [Number::toString] on a positive double: the fewest digits that
    read back as the number, written without an exponent when the
    decimal exponent is above -6 and at most 21. *)
Definition print_positive (x : Q) : string :=
  let n := decimal_exponent x in
  let k :=
    match find (reads_back x n) [1; 2; 3; 4; 5; 6; 7; 8; 9; 10; 11; 12; 13;
                                 14; 15; 16; 17]%Z with
    | Some k => k
    | None => 17%Z
    end in
  let s := nearest_digits x n k in
  let '(s, n) := if (s =? 10 ^ k)%Z then ((10 ^ (k - 1))%Z, (n + 1)%Z) else (s, n) in
  let digits := string_of_Z s in
  let first := substring 0 1 digits in
  let others := substring 1 (String.length digits - 1) digits in
  if ((k <=? n) && (n <=? 21))%Z
  then template [digits; zeros (n - k)]
  else if ((0 <? n) && (n <=? 21))%Z
  then template [substring 0 (Z.to_nat n) digits; "."%string;
                 substring (Z.to_nat n) (String.length digits - Z.to_nat n) digits]
  else if ((-6 <? n) && (n <=? 0))%Z
  then template ["0."; zeros (- n); digits]%string
  else template [first; if (k =? 1)%Z then ""%string else "."%string; others;
                 "e"%string;
                 if (0 <? n - 1)%Z then "+"%string else "-"%string;
                 string_of_Z (Z.abs (n - 1))].

Definition print_number (x : Q) : string :=
  if Qeq_bool x 0 then "0"%string
  else if Qle_bool 0 x then print_positive x
  else template ["-"; print_positive (- x)]%string.

Definition print_fixed (x : Q) (places : nat) : string :=
  let scale := (10 ^ Z.of_nat places)%Z in
  let n := Qfloor (Qabs x * inject_Z scale + (1 # 2)) in
  let fraction := string_of_Z (n mod scale) in
  template [if Qle_bool 0 x then "" else "-";
            string_of_Z (n / scale);
            if (places =? 0)%nat then "" else ".";
            if (places =? 0)%nat then ""
            else padStart places "0" fraction]%string.

#[export] Instance runtime : Runtime := {
  Date_getTime := parse_iso_date;
  Date_now := 1735689600000%Z;
  ten_years_before := minus_ten_years;
  toLocaleDateString := print_date;
  Number_toString := print_number;
  Number_toFixed := print_fixed
}.

End ReferenceRuntime.

(* ================================================================= *)
(** ** Vocabulary of the specification *)

Module Spec.

(** The decimal fields, which the aggregator rounds to one place, and
    the three that it rounds to an integer. *)
Definition decimal_fields : list (TransformedMeasurement -> Q) :=
  [ weight; bmi; body_fat_percentage; skeletal_muscle_percentage;
    fat_free_body_weight; subcutaneous_fat_percentage; visceral_fat;
    body_water_percentage; muscle_mass; bone_mass; protein_percentage ].

Definition integer_fields : list (TransformedMeasurement -> Q) :=
  [ basal_metabolic_rate; metabolic_age; body_type ].

(** The arithmetic mean of a list of numbers. *)
Definition arithmetic_mean (xs : list Q) : Q :=
  fold_right Qplus 0 xs / inject_Z (Z.of_nat (List.length xs)).

(** The mean as double arithmetic gives it: the numbers added one
    after the other to [0], the sum divided by their count. *)
Definition mean_in_doubles (xs : list Q) : Q :=
  Js.num_div (fold_left Js.num_add xs 0) (inject_Z (Z.of_nat (List.length xs))).

(** [Math.round(x * 10) / 10] *)
Definition to_one_decimal (x : Q) : Q :=
  Js.num_div (Js.Math_round (Js.num_mul x 10)) 10.

(** The double nearest to a number of one decimal place. *)
Definition one_decimal (x : Q) : Prop :=
  exists k : Z, x == Js.double (inject_Z k / 10).

(** Numbers of magnitude at most [limit]. *)
Definition magnitudes_within (limit : Q) (xs : list Q) : bool :=
  forallb (fun x => Qle_bool (Qabs x) limit) xs.

(** Rounding to [decimals] places, a tie going away from zero, as the
    specification words it. *)
Definition round_half_away_from_zero (x : Q) (decimals : Z) : Q :=
  let scale := Qpower 10 decimals in
  let magnitude := inject_Z (Qfloor (Qabs x * scale + (1 # 2))) / scale in
  if Qle_bool 0 x then magnitude else - magnitude.

(** Same date. *)
Definition on_date (d : string) (r : TransformedMeasurement) : bool :=
  String.eqb (date r) d.

(** The records of a list that carry a date, in their order. *)
Definition records_on (d : string) (data : list TransformedMeasurement)
    : list TransformedMeasurement :=
  filter (on_date d) data.

(** What holds of the object after the [forEach] has seen [prefix]. *)
Record grouped_so_far (prefix : list TransformedMeasurement)
    (groups : JsObject.t (list TransformedMeasurement)) : Prop := {
  keys_distinct : NoDup (map fst groups);
  bucket_contents :
    forall d records, In (d, records) groups ->
      records = records_on d prefix /\ records <> [];
  dates_covered : forall record, In record prefix -> In (date record) (map fst groups);
  all_records : Permutation (List.concat (map snd groups)) prefix
}.

(** A record whose date is shared with another record of the list. *)
Definition shares_date (data : list TransformedMeasurement)
    (r : TransformedMeasurement) : bool :=
  (1 <? List.length (records_on (date r) data))%nat.

(** The dates that have more than one record, each once. *)
Definition dates_with_several (data : list TransformedMeasurement) : list string :=
  nodup string_dec (map date (filter (shares_date data) data)).

Definition sum_of_counts (dups : list DuplicateDetection) : nat :=
  list_sum (map count dups).


(** A string in which a code unit occurs. *)
Definition mentions (c : ascii) (s : string) : bool :=
  existsb (Ascii.eqb c) (list_ascii_of_string s).

(** No date names a property inherited from [Object.prototype]; every
    date that [transformRenphoData] writes is of this kind. *)
Definition plain_dates (data : list TransformedMeasurement) : bool :=
  forallb (fun r => negb (JsObject.inherited (date r))) data.

Definition nonempty_buckets (groups : JsObject.t (list TransformedMeasurement))
    : bool :=
  forallb (fun entry => match snd entry with [] => false | _ :: _ => true end)
    groups.

Definition is_whole (x : Q) : bool := Qeq_bool (inject_Z (Qfloor x)) x.


(** The numbers of a record. *)
Definition numbers (r : TransformedMeasurement) : list Q :=
  map (fun field => field r) (decimal_fields ++ integer_fields).


(** A [Fecha] of the form day/month/two-digit-year. *)
Definition digits_between (low high : nat) (s : string) : bool :=
  Js.all_digits s && (low <=? String.length s)%nat && (String.length s <=? high)%nat.

Definition day_month_year (fecha day month year : string) : Prop :=
  fecha = (day ++ "/" ++ month ++ "/" ++ year)%string
  /\ digits_between 1 2 day = true
  /\ digits_between 1 2 month = true
  /\ digits_between 2 2 year = true.

Definition has_day_month_year (fecha : string) : Prop :=
  exists day month year, day_month_year fecha day month year.

(** The number a two-digit year denotes. *)
Definition year_number (year : string) : Z :=
  match Js.parse_digits 10 Js.decimal_value (list_ascii_of_string year) None with
  | Some n => n
  | None => 0%Z
  end.

Definition zero_padded (s : string) : string :=
  if (String.length s <? 2)%nat then ("0" ++ s)%string else s.

(** The ISO date the specification assigns to day, month and
    two-digit year. *)
Definition iso_date (day month year : string) : string :=
  ((if (year_number year <? 50)%Z then "20" else "19") ++ year
   ++ "-" ++ zero_padded month ++ "-" ++ zero_padded day)%string.

(** The first code unit of a message. *)
Definition first_unit (s : string) : option ascii :=
  match s with
  | String c _ => Some c
  | EmptyString => None
  end.

(** A message that opens with a word, not with a count. *)
Definition opens_with_word (s : string) : bool :=
  match first_unit s with
  | Some c => negb (Js.is_digit c)
  | None => false
  end.

(** The three hard ranges and the date check: what makes a record
    free of errors. *)
Definition in_range (low high x : Q) : bool := Qle_bool low x && Qle_bool x high.

Definition passes_hard_checks `{Runtime} (r : TransformedMeasurement) : bool :=
  in_range 30 300 (weight r) && in_range 10 60 (bmi r)
  && in_range 3 70 (body_fat_percentage r)
  && ImportValidationService.isValidDate (date r).

(** A string of the shape [YYYY-MM-DD]: ten code units, hyphens at
    the fifth and the eighth, decimal digits elsewhere. *)
Definition decimal_digit (c : ascii) : bool :=
  existsb (Ascii.eqb c) (list_ascii_of_string "0123456789").

Definition iso_shaped (s : string) : bool :=
  (String.length s =? 10)%nat
  && forallb
       (fun position =>
          match String.get position s with
          | Some c =>
              if ((position =? 4) || (position =? 7))%nat
              then Ascii.eqb c "-"
              else decimal_digit c
          | None => false
          end)
       (seq 0 10).

(** A date that [Date] reads. *)
Definition read_by_Date `{Runtime} (s : string) : bool :=
  match Date_getTime s with
  | Some _ => true
  | None => false
  end.

(** An error or warning tagged with the row it is about. *)
Definition row_message (row : nat) (detail : string) : string :=
  ("Row " ++ Js.string_of_nat row ++ ": " ++ detail)%string.

(** What an issue of the schema says: its path, then its message. *)
Definition issue_detail (issue : Zod.issue) : string :=
  (Js.join "." (Zod.path issue) ++ ": " ++ Zod.message issue)%string.

(** The height a record implies, [sqrt (weight / bmi)], as double
    arithmetic gives it. *)
Definition implied_height (r : TransformedMeasurement) : Q :=
  Js.Math_sqrt (Js.num_div (weight r) (bmi r)).

(** A record with positive weight and BMI whose implied height is
    outside [1.2, 2.5] metres. *)
Definition implausible_height (r : TransformedMeasurement) : Prop :=
  0 < weight r /\ 0 < bmi r
  /\ (implied_height r < Js.double (12 # 10) \/ 25 # 10 < implied_height r).

(** By how many percent [hi] exceeds [lo], as double arithmetic gives
    it. *)
Definition variation_percent (lo hi : Q) : Q :=
  Js.num_mul (Js.num_div (Js.num_sub hi lo) lo) 100.

(** Two records that differ at most in the five advisory fields. *)
Definition same_hard_fields (a b : TransformedMeasurement) : Prop :=
  date a = date b /\ weight a == weight b /\ bmi a == bmi b
  /\ body_fat_percentage a == body_fat_percentage b.

Definition with_weight (r : TransformedMeasurement) (w : Q) : TransformedMeasurement :=
  {| date := date r; time := time r; weight := w; bmi := bmi r;
     body_fat_percentage := body_fat_percentage r;
     skeletal_muscle_percentage := skeletal_muscle_percentage r;
     fat_free_body_weight := fat_free_body_weight r;
     subcutaneous_fat_percentage := subcutaneous_fat_percentage r;
     visceral_fat := visceral_fat r;
     body_water_percentage := body_water_percentage r;
     muscle_mass := muscle_mass r; bone_mass := bone_mass r;
     protein_percentage := protein_percentage r;
     basal_metabolic_rate := basal_metabolic_rate r;
     metabolic_age := metabolic_age r; body_type := body_type r;
     source := source r |}.

Definition with_skeletal_muscle (r : TransformedMeasurement) (p : Q)
    : TransformedMeasurement :=
  {| date := date r; time := time r; weight := weight r; bmi := bmi r;
     body_fat_percentage := body_fat_percentage r;
     skeletal_muscle_percentage := p;
     fat_free_body_weight := fat_free_body_weight r;
     subcutaneous_fat_percentage := subcutaneous_fat_percentage r;
     visceral_fat := visceral_fat r;
     body_water_percentage := body_water_percentage r;
     muscle_mass := muscle_mass r; bone_mass := bone_mass r;
     protein_percentage := protein_percentage r;
     basal_metabolic_rate := basal_metabolic_rate r;
     metabolic_age := metabolic_age r; body_type := body_type r;
     source := source r |}.

(** The time value of a record's date. *)
Definition time_value `{Runtime} (r : TransformedMeasurement) : option Z :=
  Date_getTime (date r).

Definition dated `{Runtime} (data : list TransformedMeasurement) : bool :=
  forallb (fun r => match time_value r with Some _ => true | None => false end) data.

(** [a] is not older than [b]. *)
Definition not_older `{Runtime} (a b : TransformedMeasurement) : Prop :=
  match time_value a, time_value b with
  | Some ta, Some tb => (tb <= ta)%Z
  | _, _ => False
  end.

(** The list a strategy previews and imports. *)
Definition strategy_data (parseResult : ParseResult) (chosen : ImportStrategy)
    : throws (list TransformedMeasurement) :=
  match chosen with
  | average => CsvParsingService.averageDailyMeasurements (grouped parseResult)
  | keep_all => Js.Ok (transformedData parseResult)
  end.

(** A [Fecha] that [split('/')] cuts into exactly three parts. *)
Definition three_parts (fecha : string) : bool :=
  (List.length (Js.split "/" fecha) =? 3)%nat.

(** The numeric columns of a row, each with the field it is copied to. *)
Definition columns : list ((RenphoRawData -> Q) * (TransformedMeasurement -> Q)) :=
  [ (Peso_kg, weight); (IMC, bmi); (Grasa_corporal, body_fat_percentage);
    (Musculo_esqueletico, skeletal_muscle_percentage);
    (Peso_corporal_sin_grasa, fat_free_body_weight);
    (Grasa_subcutanea, subcutaneous_fat_percentage);
    (Grasa_visceral, visceral_fat); (Agua_corporal, body_water_percentage);
    (Masa_muscular, muscle_mass); (Masa_osea, bone_mass);
    (Proteina, protein_percentage);
    (Tasa_Metabolica_Basal, basal_metabolic_rate);
    (Edad_metabolica, metabolic_age); (Tipo_de_cuerpo, body_type) ].

(** A record that says what its row says: the same numbers, the time
    without the white space around it, the import tag. *)
Definition transcribes (row : RenphoRawData) (t : TransformedMeasurement) : Prop :=
  time t = Js.trim (Hora row) /\ source t = renpho_import
  /\ Forall (fun column => snd column t == fst column row) columns.

(** A row that has a column as a property of its own, and the required
    columns a row lacks. *)
Definition has_column (row : CsvRow) (col : string) : bool :=
  match JsObject.get_own row col with
  | Some _ => true
  | None => false
  end.

Definition missing_columns (row : CsvRow) : list string :=
  filter (fun col => negb (has_column row col)) CsvParsingService.requiredColumns.

(** A file name that ends in [.csv], in any letter case. *)
Definition csv_name (file : File) : bool :=
  Js.endsWith (Js.toLowerCase (name file)) ".csv".

(** A size the file checks accept: not empty, at most 10 MB. *)
Definition accepted_size (file : File) : bool :=
  (0 <? size file)%N && (size file <=? 10485760)%N.

(** The drop zone with no option set. *)
Definition default_options : UseDragAndDrop.DragAndDropOptions :=
  {| UseDragAndDrop.acceptedTypes := None; UseDragAndDrop.maxFileSize := None |}.

(** The strategy an import result was made under. *)
Definition imported_under (result : ImportResult) : ImportStrategy :=
  strategy result.

(** How many drag targets the pointer is inside after a run of drag
    events that starts inside [depth] of them; [None] when the run has
    a leave with no enter before it. *)
Fixpoint drag_depth (events : list UseDragAndDrop.DragEvent) (depth : Z)
    : option Z :=
  match events with
  | [] => Some depth
  | UseDragAndDrop.dragenter :: rest => drag_depth rest (depth + 1)
  | UseDragAndDrop.dragleave :: rest =>
      if (depth <=? 0)%Z then None else drag_depth rest (depth - 1)
  | UseDragAndDrop.dragover :: rest => drag_depth rest depth
  | UseDragAndDrop.drop _ :: rest => drag_depth rest 0
  end.

(** The error a row with a malformed date is reported with. *)
Definition malformed_date_error (row : RenphoRawData) (index : nat) : exn :=
  Renpho
    {| error_message :=
         ("Failed to transform row " ++ Js.string_of_nat (index + 1)
          ++ ": Invalid date format: " ++ Fecha row)%string;
       error_code := PARSING_ERROR;
       error_details := FailedRow row index |}.

End Spec.

(* ================================================================= *)
(** ** Sample data *)

Module Sample.

(** A reading in every plausible range. *)
Definition reading (on at_time : string) (kg : Q) : TransformedMeasurement :=
  {| date := on; time := at_time; weight := kg; bmi := 24;
     body_fat_percentage := 20; skeletal_muscle_percentage := 45;
     fat_free_body_weight := 56; subcutaneous_fat_percentage := 17;
     visceral_fat := 8; body_water_percentage := 55;
     muscle_mass := 53; bone_mass := 3; protein_percentage := 18;
     basal_metabolic_rate := 1600; metabolic_age := 30; body_type := 5;
     source := renpho_import |}.

(** A vendor row. *)
Definition row (fecha hora : string) (kg : Q) : RenphoRawData :=
  {| Fecha := fecha; Hora := hora; Peso_kg := kg; IMC := 24;
     Grasa_corporal := 20; Musculo_esqueletico := 45;
     Peso_corporal_sin_grasa := 56; Grasa_subcutanea := 17;
     Grasa_visceral := 8; Agua_corporal := 55; Masa_muscular := 53;
     Masa_osea := 3; Proteina := 18; Tasa_Metabolica_Basal := 1600;
     Edad_metabolica := 30; Tipo_de_cuerpo := 5 |}.

Definition valid_outcome : ValidationResult :=
  {| errors := []; warnings := []; isValid := true |}.

Definition blocked_outcome : ValidationResult :=
  {| errors := ["Row 1: weight: Minimum weight is 30kg"%string];
     warnings := []; isValid := false |}.

(** A parse result over given records, grouped and validated by hand. *)
Definition parsed (records : list TransformedMeasurement)
    (groups : JsObject.t (list TransformedMeasurement))
    (outcome : ValidationResult) : ParseResult :=
  {| originalData := []; transformedData := records; grouped := groups;
     duplicates := []; validation := outcome |}.

(** A reading of 200 kg at BMI 24: an implied height of 2.89 m. *)
Definition tall : TransformedMeasurement :=
  reading "2024-01-03" "6:30:00 a.m." 200.

Definition morning : TransformedMeasurement :=
  reading "2024-01-01" "7:57:06 a.m." 70.

Definition evening : TransformedMeasurement :=
  reading "2024-01-01" "9:12:40 p.m." 72.

Definition next_day : TransformedMeasurement :=
  reading "2024-01-02" "8:03:11 a.m." (Js.double (703 # 10)).

(** A reading of a given weight at a given BMI. *)
Definition reading_at_bmi (kg index : Q) : TransformedMeasurement :=
  {| date := "2024-01-01"; time := "7:57:06 a.m."; weight := kg; bmi := index;
     body_fat_percentage := 20; skeletal_muscle_percentage := 45;
     fat_free_body_weight := 56; subcutaneous_fat_percentage := 17;
     visceral_fat := 8; body_water_percentage := 55;
     muscle_mass := 53; bone_mass := 3; protein_percentage := 18;
     basal_metabolic_rate := 1600; metabolic_age := 30; body_type := 5;
     source := renpho_import |}.

(** A reading with a given visceral-fat value. *)
Definition visceral (level : Q) : TransformedMeasurement :=
  {| date := "2024-01-01"; time := "7:57:06 a.m."; weight := 70; bmi := 24;
     body_fat_percentage := 20; skeletal_muscle_percentage := 45;
     fat_free_body_weight := 56; subcutaneous_fat_percentage := 17;
     visceral_fat := level; body_water_percentage := 55;
     muscle_mass := 53; bone_mass := 3; protein_percentage := 18;
     basal_metabolic_rate := 1600; metabolic_age := 30; body_type := 5;
     source := renpho_import |}.

(** Two readings of one day and one of the next, as a parse leaves
    them. *)
Definition three_readings : ParseResult :=
  parsed [morning; evening; next_day]
    [("2024-01-01"%string, [morning; evening]);
     ("2024-01-02"%string, [next_day])]
    valid_outcome.

(** A parse that validation has found an error in. *)
Definition blocked_parse : ParseResult :=
  parsed [reading "2024-01-01" "7:57:06 a.m." 25]
    [("2024-01-01"%string, [reading "2024-01-01" "7:57:06 a.m." 25])]
    blocked_outcome.

(** Three vendor rows, two of them of one day. *)
Definition three_rows : list RenphoRawData :=
  [ row "15/03/24" " 7:57:06 a.m." 70;
    row "15/03/24" " 9:12:40 p.m." 72;
    row "16/03/24" " 8:03:11 a.m." (Js.double (703 # 10)) ].

(** What [parseFile] makes of these rows under the reference runtime. *)
Definition three_rows_transformed : list TransformedMeasurement :=
  [ reading "2024-03-15" "7:57:06 a.m." 70;
    reading "2024-03-15" "9:12:40 p.m." 72;
    reading "2024-03-16" "8:03:11 a.m." (Js.double (703 # 10)) ].

Definition three_rows_parsed : ParseResult :=
  {| originalData := three_rows;
     transformedData := three_rows_transformed;
     grouped :=
       [ ("2024-03-15"%string,
          [ reading "2024-03-15" "7:57:06 a.m." 70;
            reading "2024-03-15" "9:12:40 p.m." 72 ]);
         ("2024-03-16"%string,
          [ reading "2024-03-16" "8:03:11 a.m." (Js.double (703 # 10)) ]) ];
     duplicates := [ {| dup_date := "2024-03-15"; count := 2 |} ];
     validation :=
       ImportValidationService.validateMeasurements (H := ReferenceRuntime.runtime)
         three_rows_transformed
         [ {| dup_date := "2024-03-15"; count := 2 |} ] |}.

(** An export of the vendor's app, and a file without extension. *)
Definition export : File := {| name := "RENPHO-export.CSV"; size := 2048 |}.

Definition bare_csv : File := {| name := "CSV"; size := 2048 |}.

(** A row with the five required columns, and one without [IMC]. *)
Definition vendor_row : CsvRow :=
  [ ("Fecha"%string, CsvText "15/03/24");
    (" Hora"%string, CsvText " 7:57:06 a.m.");
    (" Peso(kg)"%string, CsvNumber 70);
    ("IMC"%string, CsvNumber 24);
    ("Grasa corporal(%)"%string, CsvNumber 20) ].

Definition row_without_bmi : CsvRow :=
  [ ("Fecha"%string, CsvText "15/03/24");
    (" Hora"%string, CsvText " 7:57:06 a.m.");
    (" Peso(kg)"%string, CsvNumber 70);
    ("Grasa corporal(%)"%string, CsvNumber 20) ].

(** A parse result, made by hand, in which a date has no record. *)
Definition emptied_bucket : ParseResult :=
  parsed [morning] [("2024-01-01"%string, [])] valid_outcome.

(** What importing [three_rows_parsed] with every measurement kept
    gives. *)
Definition three_rows_imported : ImportResult :=
  {| strategy := keep_all;
     successful := 3;
     failed := 0;
     import_errors := [];
     processedData := transformedData three_rows_parsed |}.

End Sample.

(* ================================================================= *)
(** * Properties *)

Import Js.

(* ================================================================= *)
(** ** Facts about the primitives *)

Section ResultFacts.

Context {E A B : Type}.

Lemma map_indexed_ok_inv (f : A -> nat -> result E B) :
  forall xs index ys,
    map_indexed f index xs = Ok ys ->
    Forall2 (fun x y => exists i, f x i = Ok y) xs ys.
Proof.
  induction xs as [|x xs IH]; intros index ys Hmap; simpl in Hmap.
  - injection Hmap as <-. constructor.
  - destruct (f x index) as [y|e] eqn:Hfx; simpl in Hmap; [|discriminate].
    destruct (map_indexed f (S index) xs) as [ys'|e] eqn:Hrest; simpl in Hmap;
      [|discriminate].
    injection Hmap as <-. constructor; eauto.
Qed.

End ResultFacts.

Section ObjectFacts.

Context {A : Type}.

Lemma insert_by_index_perm (e : string * A) :
  forall sorted, Permutation (JsObject.insert_by_index e sorted) (e :: sorted).
Proof.
  induction sorted as [|x sorted IH]; simpl.
  - reflexivity.
  - destruct (JsObject.index_of (fst e) <=? JsObject.index_of (fst x))%Z.
    + reflexivity.
    + rewrite IH. apply perm_swap.
Qed.

Lemma sort_by_index_perm :
  forall entries : list (string * A),
    Permutation (JsObject.sort_by_index entries) entries.
Proof.
  induction entries as [|e entries IH]; simpl.
  - reflexivity.
  - rewrite insert_by_index_perm. constructor. exact IH.
Qed.

Lemma filter_split_perm (f : string * A -> bool) :
  forall o, Permutation (filter f o ++ filter (fun e => negb (f e)) o) o.
Proof.
  induction o as [|e o IH]; simpl.
  - reflexivity.
  - destruct (f e); simpl.
    + constructor. exact IH.
    + rewrite <- Permutation_middle. constructor. exact IH.
Qed.

(** [Object.entries] lists every own property once. *)
Lemma entries_perm (o : JsObject.t A) : Permutation (JsObject.entries o) o.
Proof.
  unfold JsObject.entries.
  rewrite sort_by_index_perm. apply filter_split_perm.
Qed.


End ObjectFacts.

(* ================================================================= *)
(** ** The aggregator returns on well-formed groups *)

Section AggregatorReturns.

Import CsvParsingService.

Lemma nonempty_buckets_forall (groups : JsObject.t (list TransformedMeasurement)) :
  Spec.nonempty_buckets groups = true <-> Forall (fun e => snd e <> []) groups.
Proof.
  unfold Spec.nonempty_buckets. rewrite forallb_forall, Forall_forall.
  split; intros Hall e He; specialize (Hall e He); destruct (snd e);
    congruence.
Qed.

Lemma average_entry_returns (entry : string * list TransformedMeasurement) :
  snd entry <> [] -> exists r, average_entry entry = Ok r.
Proof.
  destruct entry as [d [|first rest]]; simpl; intros Hne.
  - congruence.
  - eexists. reflexivity.
Qed.

Lemma map_result_returns {E A B} (f : A -> result E B) :
  forall xs, Forall (fun x => exists y, f x = Ok y) xs ->
    exists ys, map_result f xs = Ok ys /\ Forall2 (fun x y => f x = Ok y) xs ys.
Proof.
  unfold map_result. generalize 0%nat.
  intros n xs; revert n.
  induction xs as [|x xs IH]; intros n Hall; simpl.
  - exists []. split; [reflexivity|constructor].
  - inversion Hall as [|? ? [y Hy] Hrest]; subst.
    destruct (IH (S n) Hrest) as [ys [Hys Hrel]].
    exists (y :: ys). rewrite Hy; simpl. rewrite Hys; simpl.
    split; [reflexivity|constructor; assumption].
Qed.

(** With no empty bucket, [averageDailyMeasurements] returns one record
    per entry, in the order of [Object.entries]. *)
Lemma averageDailyMeasurements_returns (groups : JsObject.t (list TransformedMeasurement)) :
  Spec.nonempty_buckets groups = true ->
  exists out,
    averageDailyMeasurements groups = Ok out
    /\ Forall2 (fun entry r => average_entry entry = Ok r)
         (JsObject.entries groups) out.
Proof.
  intros Hne. apply nonempty_buckets_forall in Hne.
  unfold averageDailyMeasurements. apply map_result_returns.
  rewrite Forall_forall in *. intros e He.
  apply average_entry_returns, Hne.
  apply (Permutation_in _ (entries_perm groups)). exact He.
Qed.

End AggregatorReturns.

(* ================================================================= *)
(** ** The import orchestrator *)

Section Orchestrator.

Import RenphoImportService.

(** C1.  A parse result whose validation is invalid is never imported,
    whatever the strategy: [processImport] rejects with the
    [RenphoImportError] of code [VALIDATION_ERROR] that carries the
    validation errors; it has made no call at all before that (no
    aggregation, no timer, no persistence), and it resolves to no
    [ImportResult]. *)
Theorem processImport_blocks_invalid_validation :
  forall (parseResult : ParseResult) (chosen : ImportStrategy),
    isValid (validation parseResult) = false ->
    processImport parseResult chosen
    = ([], Throw (Renpho
         {| error_message :=
              "Cannot import data with validation errors. Please fix the errors first.";
            error_code := VALIDATION_ERROR;
            error_details := ValidationErrors (errors (validation parseResult)) |}))
    /\ (forall groups,
          ~ In (averageDailyMeasurements_call groups)
              (fst (processImport parseResult chosen)))
    /\ (forall finalData,
          ~ In (createBatch_call finalData)
              (fst (processImport parseResult chosen)))
    /\ (forall imported,
          snd (processImport parseResult chosen) <> Ok imported).
Proof.
  intros parseResult chosen Hinvalid.
  assert (Hrun : processImport parseResult chosen
                 = ([], Throw (Renpho
         {| error_message :=
              "Cannot import data with validation errors. Please fix the errors first.";
            error_code := VALIDATION_ERROR;
            error_details := ValidationErrors (errors (validation parseResult)) |}))).
  { unfold processImport, processImport_try. rewrite Hinvalid. reflexivity. }
  rewrite Hrun. repeat split; simpl; intros; try tauto; discriminate.
Qed.

Lemma processImport_blocks_invalid_validation_witness :
  isValid (validation Sample.blocked_parse) = false
  /\ fst (processImport Sample.blocked_parse average) = []
  /\ (forall imported,
        snd (processImport Sample.blocked_parse average) <> Ok imported).
Proof.
  split; [reflexivity|].
  destruct (@processImport_blocks_invalid_validation
              Sample.blocked_parse average eq_refl)
    as [Hrun [_ [_ Hnone]]].
  split; [rewrite Hrun; reflexivity|exact Hnone].
Defined.

(** C9.  A parse result whose validation is valid is imported: the
    promise resolves to an [ImportResult] that reports no failure
    ([failed = 0], [errors = []]), counts every processed record as
    successful, and carries the data of the strategy.  No call to a
    persistence service is made on the way.  Under [average] the groups
    are those of a parse: no bucket is empty. *)
Theorem processImport_valid_reports_no_failure :
  forall (parseResult : ParseResult) (chosen : ImportStrategy),
    isValid (validation parseResult) = true ->
    (chosen = average -> Spec.nonempty_buckets (grouped parseResult) = true) ->
    exists finalData,
      Spec.strategy_data parseResult chosen = Ok finalData
      /\ snd (processImport parseResult chosen)
         = Ok {| strategy := chosen;
                 successful := List.length finalData;
                 failed := 0;
                 import_errors := [];
                 processedData := finalData |}
      /\ (forall batch,
            ~ In (createBatch_call batch)
                (fst (processImport parseResult chosen))).
Proof.
  intros parseResult chosen Hvalid Hgroups.
  unfold processImport, processImport_try. rewrite Hvalid; simpl.
  destruct chosen; simpl.
  - destruct (averageDailyMeasurements_returns (grouped parseResult)
                (Hgroups eq_refl)) as [out [Hout _]].
    exists out. rewrite Hout; simpl.
    repeat split. intros batch [Hin|[Hin|[]]]; discriminate.
  - exists (transformedData parseResult). repeat split.
    intros batch [Hin|[]]; discriminate.
Qed.

Lemma processImport_valid_reports_no_failure_witness :
  isValid (validation Sample.three_readings) = true
  /\ (average = average ->
      Spec.nonempty_buckets (grouped Sample.three_readings) = true)
  /\ exists finalData,
       Spec.strategy_data Sample.three_readings average = Ok finalData
       /\ snd (processImport Sample.three_readings average)
          = Ok {| strategy := average;
                  successful := List.length finalData;
                  failed := 0;
                  import_errors := [];
                  processedData := finalData |}
       /\ (forall batch,
             ~ In (createBatch_call batch)
                 (fst (processImport Sample.three_readings average))).
Proof.
  split; [reflexivity|]. split; [intros _; reflexivity|].
  apply processImport_valid_reports_no_failure;
    [reflexivity|intros _; reflexivity].
Defined.

End Orchestrator.

(* ================================================================= *)
(** ** Strings of digits *)

Section DigitFacts.

Local Open Scope char_scope.

Lemma digit_cases (c : ascii) :
  is_digit c = true ->
  In c ["0"; "1"; "2"; "3"; "4"; "5"; "6"; "7"; "8"; "9"].
Proof.
  destruct c as [[] [] [] [] [] [] [] []]; intros Hdigit;
    try discriminate Hdigit; simpl; tauto.
Qed.

Lemma digit_not_slash (c : ascii) : is_digit c = true -> Ascii.eqb c "/" = false.
Proof.
  intros Hdigit. apply digit_cases in Hdigit. simpl in Hdigit.
  repeat (destruct Hdigit as [<-|Hdigit]; [reflexivity|]). contradiction.
Qed.

Lemma digit_decimal_value (c : ascii) :
  is_digit c = true -> exists d, decimal_value c = Some d /\ (0 <= d <= 9)%Z.
Proof.
  intros Hdigit. apply digit_cases in Hdigit. simpl in Hdigit.
  repeat (destruct Hdigit as [<-|Hdigit];
          [vm_compute; eexists; split; [reflexivity|split; discriminate]|]).
  contradiction.
Qed.

Lemma all_digits_cons (c : ascii) (s : string) :
  all_digits (String c s) = true <-> is_digit c = true /\ all_digits s = true.
Proof. unfold all_digits; simpl. apply andb_true_iff. Qed.

End DigitFacts.

Section SplitFacts.

Local Open Scope string_scope.

(** A run of digits before a slash is one part of the split. *)
Lemma split_digits_then_slash (a b : string) :
  all_digits a = true ->
  split "/" (a ++ "/" ++ b) = a :: split "/" b.
Proof.
  induction a as [|c a IH]; intros Hdigits; simpl.
  - reflexivity.
  - apply all_digits_cons in Hdigits as [Hc Ha].
    rewrite (digit_not_slash c Hc).
    simpl in IH. rewrite (IH Ha). reflexivity.
Qed.

Lemma split_digits (a : string) :
  all_digits a = true -> split "/" a = [a].
Proof.
  induction a as [|c a IH]; intros Hdigits; simpl.
  - reflexivity.
  - apply all_digits_cons in Hdigits as [Hc Ha].
    rewrite (digit_not_slash c Hc), (IH Ha). reflexivity.
Qed.

Lemma split_day_month_year (fecha day month year : string) :
  Spec.day_month_year fecha day month year ->
  split "/" fecha = [day; month; year].
Proof.
  unfold Spec.day_month_year, Spec.digits_between.
  intros [-> [Hday [Hmonth Hyear]]].
  repeat match goal with
         | H : _ && _ = true |- _ => apply andb_true_iff in H as [H ?]
         end.
  rewrite split_digits_then_slash by assumption.
  rewrite split_digits_then_slash by assumption.
  rewrite split_digits by assumption.
  reflexivity.
Qed.

End SplitFacts.

Section ParseIntFacts.

Lemma mul_one_option (x : option Z) : option_map (Z.mul 1) x = x.
Proof. destruct x as [z|]; simpl; [destruct z|]; reflexivity. Qed.

(** On a string that starts with two digits, [parseInt] has no white
    space, sign or radix prefix to skip. *)
Lemma parseInt_two_digits (c1 c2 : ascii) (rest : string) :
  is_digit c1 = true -> is_digit c2 = true ->
  parseInt (String c1 (String c2 rest))
  = parse_digits 10 decimal_value
      (list_ascii_of_string (String c1 (String c2 rest))) None.
Proof.
  intros H1 H2.
  apply digit_cases in H1. apply digit_cases in H2. simpl in H1, H2.
  repeat (destruct H1 as [<-|H1]; [|]);
    try contradiction;
    repeat (destruct H2 as [<-|H2]; [|]);
    try contradiction;
    unfold parseInt; simpl; apply mul_one_option.
Qed.

Lemma two_digit_year (year : string) :
  Spec.digits_between 2 2 year = true ->
  exists c1 c2, year = String c1 (String c2 EmptyString)
                /\ is_digit c1 = true /\ is_digit c2 = true.
Proof.
  unfold Spec.digits_between. intros Hyear.
  apply andb_true_iff in Hyear as [Hyear Hhigh].
  apply andb_true_iff in Hyear as [Hdigits Hlow].
  destruct year as [|c1 [|c2 [|c3 rest]]]; simpl in Hlow, Hhigh;
    try discriminate.
  apply all_digits_cons in Hdigits as [H1 Hdigits].
  apply all_digits_cons in Hdigits as [H2 _].
  eauto.
Qed.

Lemma parse_two_digits (c1 c2 : ascii) (d1 d2 : Z) :
  decimal_value c1 = Some d1 -> decimal_value c2 = Some d2 ->
  parse_digits 10 decimal_value
    (list_ascii_of_string (String c1 (String c2 EmptyString))) None
  = Some (10 * d1 + d2)%Z.
Proof.
  intros Hd1 Hd2.
  cbn [list_ascii_of_string parse_digits]. rewrite Hd1.
  cbn [parse_digits]. rewrite Hd2.
  cbn [parse_digits]. f_equal; lia.
Qed.

(** The century test of [transformRenphoData] reads the two digits as
    the number they denote. *)
Lemma century_test (year : string) :
  Spec.digits_between 2 2 year = true ->
  lt_number (parseInt year) 50 = (Spec.year_number year <? 50)%Z.
Proof.
  intros Hyear.
  destruct (two_digit_year year Hyear) as [c1 [c2 [-> [H1 H2]]]].
  rewrite parseInt_two_digits by assumption.
  unfold Spec.year_number.
  destruct (digit_decimal_value c1 H1) as [d1 [Hd1 _]].
  destruct (digit_decimal_value c2 H2) as [d2 [Hd2 _]].
  rewrite (parse_two_digits c1 c2 Hd1 Hd2). reflexivity.
Qed.

End ParseIntFacts.

Section PadFacts.

Local Open Scope string_scope.

Lemma padStart_two (s : string) :
  (1 <= String.length s)%nat ->
  padStart 2 "0" s = Spec.zero_padded s.
Proof.
  unfold padStart, Spec.zero_padded.
  destruct s as [|a [|b rest]]; simpl; intros Hlen; [lia| |]; reflexivity.
Qed.

Lemma zero_padded_two_digits (s : string) :
  Spec.digits_between 1 2 s = true ->
  exists a b, Spec.zero_padded s = String a (String b EmptyString)
              /\ is_digit a = true /\ is_digit b = true.
Proof.
  unfold Spec.digits_between, Spec.zero_padded. intros Hs.
  apply andb_true_iff in Hs as [Hs Hhigh].
  apply andb_true_iff in Hs as [Hdigits Hlow].
  destruct s as [|a [|b [|c rest]]]; simpl in *; try discriminate.
  - apply all_digits_cons in Hdigits as [Ha _].
    exists "0"%char, a. auto.
  - apply all_digits_cons in Hdigits as [Ha Hdigits].
    apply all_digits_cons in Hdigits as [Hb _].
    exists a, b. auto.
Qed.

(** The date the specification assigns has the shape [YYYY-MM-DD]. *)
Lemma iso_date_shape (day month year : string) :
  Spec.digits_between 1 2 day = true ->
  Spec.digits_between 1 2 month = true ->
  Spec.digits_between 2 2 year = true ->
  ImportValidationService.matches_iso_date (Spec.iso_date day month year) = true.
Proof.
  intros Hday Hmonth Hyear.
  destruct (zero_padded_two_digits day Hday) as [d1 [d2 [Ed [Hd1 Hd2]]]].
  destruct (zero_padded_two_digits month Hmonth) as [m1 [m2 [Em [Hm1 Hm2]]]].
  destruct (two_digit_year year Hyear) as [y1 [y2 [Ey [Hy1 Hy2]]]].
  unfold Spec.iso_date. rewrite Ed, Em. subst year.
  unfold ImportValidationService.matches_iso_date.
  destruct (Spec.year_number _ <? 50)%Z; simpl;
    rewrite Hd1, Hd2, Hm1, Hm2, Hy1, Hy2; reflexivity.
Qed.

End PadFacts.

(* ================================================================= *)
(** ** The record transformer *)

Section Transformer.

Import CsvParsingService.
Local Open Scope string_scope.

Lemma transformRow_try_date (row : RenphoRawData) (day month year : string) :
  Spec.day_month_year (Fecha row) day month year ->
  exists t, transformRow_try row = Ok t
            /\ date t = Spec.iso_date day month year.
Proof.
  intros Hform. unfold transformRow_try.
  rewrite (split_day_month_year Hform).
  destruct Hform as [_ [Hday [Hmonth Hyear]]].
  eexists. split; [reflexivity|]. simpl.
  rewrite (century_test year Hyear).
  rewrite !padStart_two.
  - unfold Spec.iso_date.
    destruct (Spec.year_number year <? 50)%Z; reflexivity.
  - unfold Spec.digits_between in Hday.
    apply andb_true_iff in Hday as [Hday _].
    apply andb_true_iff in Hday as [_ Hday].
    apply Nat.leb_le in Hday. exact Hday.
  - unfold Spec.digits_between in Hmonth.
    apply andb_true_iff in Hmonth as [Hmonth _].
    apply andb_true_iff in Hmonth as [_ Hmonth].
    apply Nat.leb_le in Hmonth. exact Hmonth.
Qed.

Lemma transformRenphoData_from (rawData : list RenphoRawData) :
  Forall (fun row => Spec.has_day_month_year (Fecha row)) rawData ->
  forall index,
  exists transformed,
    map_indexed transformRow index rawData = Ok transformed
    /\ Forall2
         (fun row t =>
            forall day month year,
              Spec.day_month_year (Fecha row) day month year ->
              date t = Spec.iso_date day month year)
         rawData transformed.
Proof.
  induction 1 as [|row rawData [day [month [year Hform]]] Hrest IH];
    intros index; simpl.
  - exists []. split; [reflexivity|constructor].
  - destruct (transformRow_try_date row Hform) as [t [Ht Hdate]].
    destruct (IH (S index)) as [ts [Hts Hrel]].
    exists (t :: ts). unfold transformRow at 1. rewrite Ht; simpl.
    rewrite Hts; simpl. split; [reflexivity|].
    constructor; [|exact Hrel].
    intros day' month' year' Hform'.
    destruct (transformRow_try_date row Hform') as [t' [Ht' Hdate']].
    rewrite Ht in Ht'. injection Ht' as <-. exact Hdate'.
Qed.

Lemma Forall2_impl {A B} (P Q : A -> B -> Prop) :
  (forall a b, P a b -> Q a b) ->
  forall xs ys, Forall2 P xs ys -> Forall2 Q xs ys.
Proof. induction 2; constructor; auto. Qed.

(** C3.  On rows whose [Fecha] has the form day/month/two-digit-year,
    [transformRenphoData] returns one record per row, whose date is the
    ISO date [YYYY-MM-DD] of that day, month and year: day and month
    padded with a zero to two digits, the year made four digits with
    century 20 when the two-digit year is below 50 and century 19 when it
    is 50 or more.  In particular ["15/03/24"] becomes ["2024-03-15"] and
    ["15/03/75"] becomes ["1975-03-15"]. *)
Theorem transformRenphoData_two_digit_year_dates :
  forall rawData : list RenphoRawData,
    Forall (fun row => Spec.has_day_month_year (Fecha row)) rawData ->
    exists transformed,
      transformRenphoData rawData = Ok transformed
      /\ Forall2
           (fun row t =>
              forall day month year,
                Spec.day_month_year (Fecha row) day month year ->
                date t = Spec.iso_date day month year
                /\ ImportValidationService.matches_iso_date (date t) = true
                /\ ((Spec.year_number year < 50)%Z ->
                    date t = "20" ++ year ++ "-" ++ Spec.zero_padded month
                             ++ "-" ++ Spec.zero_padded day)
                /\ ((50 <= Spec.year_number year)%Z ->
                    date t = "19" ++ year ++ "-" ++ Spec.zero_padded month
                             ++ "-" ++ Spec.zero_padded day))
           rawData transformed
      /\ Forall2
           (fun row t =>
              (Fecha row = "15/03/24" -> date t = "2024-03-15")
              /\ (Fecha row = "15/03/75" -> date t = "1975-03-15"))
           rawData transformed.
Proof.
  intros rawData Hforms.
  destruct (transformRenphoData_from Hforms 0) as [transformed [Hrun Hdates]].
  exists transformed. split; [exact Hrun|].
  assert (Hall : Forall2
           (fun row t =>
              forall day month year,
                Spec.day_month_year (Fecha row) day month year ->
                date t = Spec.iso_date day month year
                /\ ImportValidationService.matches_iso_date (date t) = true
                /\ ((Spec.year_number year < 50)%Z ->
                    date t = "20" ++ year ++ "-" ++ Spec.zero_padded month
                             ++ "-" ++ Spec.zero_padded day)
                /\ ((50 <= Spec.year_number year)%Z ->
                    date t = "19" ++ year ++ "-" ++ Spec.zero_padded month
                             ++ "-" ++ Spec.zero_padded day))
           rawData transformed).
  { revert Hdates. apply Forall2_impl.
    intros row t Hdate day month year Hform.
    specialize (Hdate day month year Hform).
    pose proof Hform as [_ [Hday [Hmonth Hyear]]].
    split; [exact Hdate|].
    split; [rewrite Hdate; apply iso_date_shape; assumption|].
    rewrite Hdate. unfold Spec.iso_date.
    split; intros Hcentury.
    - apply Z.ltb_lt in Hcentury. rewrite Hcentury. reflexivity.
    - apply Z.ltb_ge in Hcentury. rewrite Hcentury. reflexivity. }
  split; [exact Hall|].
  revert Hall. apply Forall2_impl.
  intros row t Hrow. split; intros Hfecha.
  - destruct (Hrow "15" "03" "24") as [-> _]; [|reflexivity].
    rewrite Hfecha. repeat split.
  - destruct (Hrow "15" "03" "75") as [-> _]; [|reflexivity].
    rewrite Hfecha. repeat split.
Qed.

Lemma transformRenphoData_two_digit_year_dates_witness :
  Forall (fun row => Spec.has_day_month_year (Fecha row))
    [Sample.row "15/03/24" " 7:57:06 a.m." 70;
     Sample.row "1/2/75" " 9:12:40 p.m." 72]
  /\ exists transformed,
       transformRenphoData
         [Sample.row "15/03/24" " 7:57:06 a.m." 70;
          Sample.row "1/2/75" " 9:12:40 p.m." 72] = Ok transformed
       /\ map date transformed = ["2024-03-15"; "1975-02-01"].
Proof.
  assert (Hforms : Forall (fun row => Spec.has_day_month_year (Fecha row))
    [Sample.row "15/03/24" " 7:57:06 a.m." 70;
     Sample.row "1/2/75" " 9:12:40 p.m." 72]).
  { constructor; [exists "15", "03", "24"; repeat split|].
    constructor; [exists "1", "2", "75"; repeat split|].
    constructor. }
  split; [exact Hforms|].
  destruct (transformRenphoData_two_digit_year_dates Hforms)
    as [transformed [Hrun [Hdates _]]].
  exists transformed. split; [exact Hrun|].
  inversion Hdates as [|row1 t1 rows ts H1 Hrest]; subst.
  inversion Hrest as [|row2 t2 rows' ts' H2 Hnil]; subst.
  inversion Hnil; subst. simpl.
  destruct (H1 "15" "03" "24") as [-> _]; [repeat split|].
  destruct (H2 "1" "2" "75") as [-> _]; [repeat split|].
  reflexivity.
Defined.

End Transformer.

(* ================================================================= *)
(** ** Own properties *)

Section OwnProperties.

Context {A : Type}.

Implicit Types (o : JsObject.t A) (key : string) (value : A).

Lemma get_own_none o key :
  JsObject.get_own o key = None <-> ~ In key (map fst o).
Proof.
  induction o as [|[k v] o IH]; simpl.
  - tauto.
  - destruct (String.eqb_spec k key) as [->|Hne].
    + split; [discriminate|tauto].
    + rewrite IH. tauto.
Qed.

Lemma get_own_some o key value :
  JsObject.get_own o key = Some value ->
  exists before after,
    o = before ++ (key, value) :: after /\ ~ In key (map fst before).
Proof.
  induction o as [|[k v] o IH]; simpl; [discriminate|].
  destruct (String.eqb_spec k key) as [->|Hne]; intros Hget.
  - injection Hget as ->. exists [], o. simpl. tauto.
  - destruct (IH Hget) as [before [after [-> Hfresh]]].
    exists ((k, v) :: before), after. simpl. split; [reflexivity|tauto].
Qed.

(** Writing a new key creates the property last. *)
Lemma set_new o key value :
  ~ In key (map fst o) -> JsObject.set o key value = o ++ [(key, value)].
Proof.
  induction o as [|[k v] o IH]; simpl; intros Hfresh.
  - reflexivity.
  - destruct (String.eqb_spec k key) as [->|Hne]; [tauto|].
    rewrite IH by tauto. reflexivity.
Qed.

(** Writing an own key replaces its value in place. *)
Lemma set_own before after key old value :
  ~ In key (map fst before) ->
  JsObject.set (before ++ (key, old) :: after) key value
  = before ++ (key, value) :: after.
Proof.
  induction before as [|[k v] before IH]; simpl; intros Hfresh.
  - rewrite String.eqb_refl. reflexivity.
  - destruct (String.eqb_spec k key) as [->|Hne]; [tauto|].
    rewrite IH by tauto. reflexivity.
Qed.

Lemma get_found o key value :
  JsObject.get_own o key = Some value -> JsObject.get o key = JsObject.Own value.
Proof. unfold JsObject.get. intros ->. reflexivity. Qed.

Lemma get_missing o key :
  JsObject.get_own o key = None -> JsObject.inherited key = false ->
  JsObject.get o key = JsObject.Undefined.
Proof. unfold JsObject.get. intros -> ->. reflexivity. Qed.

End OwnProperties.

Section ListFacts.

Context {A : Type}.

Lemma Permutation_filter (f : A -> bool) (xs ys : list A) :
  Permutation xs ys -> Permutation (filter f xs) (filter f ys).
Proof.
  induction 1 as [|x xs ys _ IH|x y xs|xs ys zs _ IH1 _ IH2]; simpl.
  - constructor.
  - destruct (f x); [constructor|]; exact IH.
  - destruct (f x), (f y); try reflexivity. apply perm_swap.
  - etransitivity; eassumption.
Qed.

Lemma Permutation_concat (xss yss : list (list A)) :
  Permutation xss yss -> Permutation (List.concat xss) (List.concat yss).
Proof.
  induction 1 as [|xs xss yss _ IH|xs ys xss|xss yss zss _ IH1 _ IH2]; simpl.
  - constructor.
  - apply Permutation_app_head. exact IH.
  - rewrite !app_assoc. apply Permutation_app_tail, Permutation_app_comm.
  - etransitivity; eassumption.
Qed.

Lemma NoDup_map_filter {B} (g : A -> B) (f : A -> bool) (xs : list A) :
  NoDup (map g xs) -> NoDup (map g (filter f xs)).
Proof.
  induction xs as [|x xs IH]; simpl; intros Hnodup; [constructor|].
  inversion Hnodup as [|? ? Hfresh Hrest]; subst.
  destruct (f x); simpl; [constructor|]; auto.
  intros Hin. apply Hfresh.
  apply in_map_iff in Hin as [y [Hy Hin]].
  apply in_map_iff. exists y. split; [exact Hy|].
  apply filter_In in Hin. tauto.
Qed.

End ListFacts.

(* ================================================================= *)
(** ** The duplicate grouper *)

Section Grouper.

Import CsvParsingService.

Implicit Types (data prefix : list TransformedMeasurement)
  (groups : JsObject.t (list TransformedMeasurement))
  (record : TransformedMeasurement).

Lemma records_on_snoc prefix record d :
  Spec.records_on d (prefix ++ [record])
  = Spec.records_on d prefix ++ (if Spec.on_date d record then [record] else []).
Proof. unfold Spec.records_on. rewrite filter_app. reflexivity. Qed.

Lemma records_on_In data d record :
  In record (Spec.records_on d data) <-> In record data /\ date record = d.
Proof.
  unfold Spec.records_on, Spec.on_date. rewrite filter_In, String.eqb_eq.
  tauto.
Qed.

Lemma records_on_nil data d :
  ~ In d (map date data) -> Spec.records_on d data = [].
Proof.
  intros Hfresh.
  destruct (Spec.records_on d data) as [|r rs] eqn:Hrecords; [reflexivity|].
  exfalso. apply Hfresh.
  assert (Hin : In r (Spec.records_on d data)) by (rewrite Hrecords; left; reflexivity).
  apply records_on_In in Hin as [Hin <-]. apply in_map. exact Hin.
Qed.

Lemma grouped_so_far_start : Spec.grouped_so_far [] JsObject.empty.
Proof.
  constructor; simpl; try constructor; intros; contradiction.
Qed.

Lemma group_record_step prefix groups record :
  Spec.grouped_so_far prefix groups ->
  JsObject.inherited (date record) = false ->
  exists groups',
    group_record groups record = Ok groups'
    /\ Spec.grouped_so_far (prefix ++ [record]) groups'.
Proof.
  intros [Hkeys Hbuckets Hcovered Hall] Hplain.
  unfold group_record.
  destruct (JsObject.get_own groups (date record)) as [records|] eqn:Hget.
  - (* the date has its bucket: push *)
    rewrite (get_found _ _ Hget).
    destruct (get_own_some _ _ Hget) as [before [after [-> Hfresh]]].
    rewrite set_own by exact Hfresh.
    eexists. split; [reflexivity|].
    rewrite map_app in Hkeys; simpl in Hkeys.
    pose proof (NoDup_remove_2 _ _ _ Hkeys) as Hunique.
    constructor.
    + rewrite map_app; simpl. rewrite map_app in *; simpl in *. exact Hkeys.
    + intros d rs Hin.
      apply in_app_or in Hin as [Hin|[Hin|Hin]].
      * assert (Hd : d <> date record).
        { intros ->. apply Hfresh. apply (in_map fst) in Hin. exact Hin. }
        destruct (Hbuckets d rs) as [-> Hne]; [apply in_or_app; tauto|].
        rewrite records_on_snoc. unfold Spec.on_date.
        destruct (String.eqb_spec (date record) d); [congruence|].
        rewrite app_nil_r. tauto.
      * injection Hin as <- <-.
        destruct (Hbuckets (date record) records) as [-> _];
          [apply in_or_app; simpl; tauto|].
        rewrite records_on_snoc. unfold Spec.on_date.
        rewrite String.eqb_refl. split; [reflexivity|].
        intros Hnil. apply app_eq_nil in Hnil as [_ Hnil]. discriminate.
      * assert (Hd : d <> date record).
        { intros ->. apply Hunique. apply in_or_app. right.
          apply (in_map fst) in Hin. exact Hin. }
        destruct (Hbuckets d rs) as [-> Hne]; [apply in_or_app; simpl; tauto|].
        rewrite records_on_snoc. unfold Spec.on_date.
        destruct (String.eqb_spec (date record) d); [congruence|].
        rewrite app_nil_r. tauto.
    + intros r Hin. rewrite map_app; simpl.
      apply in_app_or in Hin as [Hin|[<-|[]]].
      * specialize (Hcovered r Hin). rewrite map_app in Hcovered. exact Hcovered.
      * apply in_or_app. simpl. tauto.
    + rewrite map_app, List.concat_app in *; simpl in *.
      rewrite <- Hall.
      etransitivity; [|apply Permutation_cons_append].
      rewrite <- (app_assoc records); simpl.
      rewrite (app_assoc _ records).
      symmetry. rewrite (app_assoc _ records).
      apply Permutation_middle.
  - (* a new date: the bucket is created last, with the record in it *)
    rewrite (get_missing _ _ Hget Hplain).
    apply get_own_none in Hget.
    rewrite set_new by exact Hget.
    eexists. split; [reflexivity|].
    assert (Hnone : Spec.records_on (date record) prefix = []).
    { apply records_on_nil. intros Hin.
      apply in_map_iff in Hin as [r [Hr Hin]].
      apply Hget. rewrite <- Hr. apply Hcovered. exact Hin. }
    constructor.
    + rewrite map_app; simpl.
      apply NoDup_app_remove_l with (l := []). simpl.
      apply Permutation_NoDup with (l := date record :: map fst groups).
      * apply Permutation_cons_append.
      * constructor; assumption.
    + intros d rs Hin.
      apply in_app_or in Hin as [Hin|[Hin|[]]].
      * assert (Hd : d <> date record).
        { intros ->. apply Hget. apply (in_map fst) in Hin. exact Hin. }
        destruct (Hbuckets d rs Hin) as [-> Hne].
        rewrite records_on_snoc. unfold Spec.on_date.
        destruct (String.eqb_spec (date record) d); [congruence|].
        rewrite app_nil_r. tauto.
      * injection Hin as <- <-.
        rewrite records_on_snoc, Hnone. unfold Spec.on_date.
        rewrite String.eqb_refl. split; [reflexivity|discriminate].
    + intros r Hin. rewrite map_app; simpl.
      apply in_or_app.
      apply in_app_or in Hin as [Hin|[<-|[]]]; [left; auto|right; simpl; tauto].
    + rewrite map_app, List.concat_app; simpl.
      apply Permutation_app_tail. exact Hall.
Qed.

Lemma group_all_from data :
  forall prefix groups,
    Spec.grouped_so_far prefix groups ->
    Spec.plain_dates data = true ->
    exists groups',
      fold_left (fun acc record => bind acc (fun g => group_record g record))
        data (Ok groups) = Ok groups'
      /\ Spec.grouped_so_far (prefix ++ data) groups'.
Proof.
  induction data as [|record data IH]; intros prefix groups Hinv Hplain; simpl.
  - exists groups. rewrite app_nil_r. auto.
  - simpl in Hplain. apply andb_true_iff in Hplain as [Hrecord Hdata].
    apply negb_true_iff in Hrecord.
    destruct (group_record_step record Hinv Hrecord) as [groups1 [Hstep Hinv1]].
    rewrite Hstep.
    destruct (IH _ _ Hinv1 Hdata) as [groups' [Hfold Hinv']].
    exists groups'. rewrite <- app_assoc in Hinv'. auto.
Qed.

(** On plain dates the grouping loop returns, and leaves the partition
    of its input. *)
Lemma group_all_partition data :
  Spec.plain_dates data = true ->
  exists groups, group_all data = Ok groups /\ Spec.grouped_so_far data groups.
Proof.
  intros Hplain.
  destruct (group_all_from data grouped_so_far_start Hplain) as [groups [Hfold Hinv]].
  exists groups. auto.
Qed.

End Grouper.

Section GrouperClaims.

Import CsvParsingService.

Implicit Types (data : list TransformedMeasurement)
  (groups : JsObject.t (list TransformedMeasurement)).

Lemma find_duplicates_In groups d n :
  In {| dup_date := d; count := n |} (find_duplicates groups)
  <-> exists records,
        In (d, records) groups
        /\ (1 < List.length records)%nat /\ n = List.length records.
Proof.
  unfold find_duplicates. rewrite in_map_iff. split.
  - intros [[d' records] [Heq Hin]]. simpl in Heq. injection Heq as -> <-.
    apply filter_In in Hin as [Hin Hbig]. simpl in Hbig.
    apply Nat.ltb_lt in Hbig.
    exists records. repeat split; [|exact Hbig].
    apply (Permutation_in _ (entries_perm groups)). exact Hin.
  - intros [records [Hin [Hbig ->]]].
    exists (d, records). split; [reflexivity|].
    apply filter_In. split.
    + apply (Permutation_in _ (Permutation_sym (entries_perm groups))). exact Hin.
    + simpl. apply Nat.ltb_lt. exact Hbig.
Qed.

Lemma find_duplicates_dates groups :
  map dup_date (find_duplicates groups)
  = map fst (filter has_several (JsObject.entries groups)).
Proof. unfold find_duplicates. rewrite map_map. reflexivity. Qed.

Lemma find_duplicates_NoDup groups :
  NoDup (map fst groups) -> NoDup (map dup_date (find_duplicates groups)).
Proof.
  intros Hkeys. rewrite find_duplicates_dates.
  apply NoDup_map_filter.
  apply Permutation_NoDup with (l := map fst groups); [|exact Hkeys].
  apply Permutation_map, Permutation_sym, entries_perm.
Qed.

(** C4.  [groupByDate] partitions its input by date.  On a list of
    canonical measurements (their dates are calendar dates, none the
    name of a property that objects inherit) it returns; the keys of
    [grouped] are distinct; every input record is in the bucket keyed by
    its own date; every bucket is non-empty, holds only records of its
    date, and is exactly the records of that date in input order; taken
    together the buckets hold every input record exactly once; and
    [duplicates] lists, once each, exactly the dates whose bucket has
    more than one record, with the size of that bucket. *)
Theorem groupByDate_partitions_by_date :
  forall data,
    Spec.plain_dates data = true ->
    exists groups dups,
      groupByDate data = Ok (groups, dups)
      /\ NoDup (map fst groups)
      /\ (forall record, In record data ->
            exists records, In (date record, records) groups /\ In record records)
      /\ (forall d records, In (d, records) groups ->
            records <> []
            /\ (forall record, In record records -> date record = d)
            /\ records = Spec.records_on d data)
      /\ Permutation (List.concat (map snd groups)) data
      /\ (forall d n,
            In {| dup_date := d; count := n |} dups
            <-> exists records,
                  In (d, records) groups
                  /\ (1 < List.length records)%nat /\ n = List.length records)
      /\ NoDup (map dup_date dups).
Proof.
  intros data Hplain.
  destruct (group_all_partition data Hplain) as [groups [Hrun Hinv]].
  destruct Hinv as [Hkeys Hbuckets Hcovered Hall].
  exists groups, (find_duplicates groups).
  unfold groupByDate. rewrite Hrun; simpl.
  split; [reflexivity|]. split; [exact Hkeys|].
  split; [|split; [|split; [exact Hall|split]]].
  - intros record Hin.
    specialize (Hcovered record Hin).
    apply in_map_iff in Hcovered as [[d records] [Hd Hentry]]. simpl in Hd. subst d.
    exists records. split; [exact Hentry|].
    destruct (Hbuckets _ _ Hentry) as [-> _].
    apply records_on_In. auto.
  - intros d records Hentry.
    destruct (Hbuckets _ _ Hentry) as [-> Hne].
    repeat split; [exact Hne|].
    intros record Hin. apply records_on_In in Hin. tauto.
  - intros d n. apply find_duplicates_In.
  - apply find_duplicates_NoDup. exact Hkeys.
Qed.

Lemma groupByDate_partitions_by_date_witness :
  Spec.plain_dates [Sample.morning; Sample.evening; Sample.next_day] = true
  /\ exists groups dups,
       groupByDate [Sample.morning; Sample.evening; Sample.next_day]
       = Ok (groups, dups)
       /\ Permutation (List.concat (map snd groups))
            [Sample.morning; Sample.evening; Sample.next_day]
       /\ NoDup (map dup_date dups).
Proof.
  split; [reflexivity|].
  destruct (@groupByDate_partitions_by_date
              [Sample.morning; Sample.evening; Sample.next_day] eq_refl)
    as [groups [dups [Hrun [_ [_ [_ [Hall [_ Hdups]]]]]]]].
  exists groups, dups. auto.
Defined.

(** *** Counting duplicates *)

Lemma filter_constant {A} (f : A -> bool) (b : bool) (xs : list A) :
  (forall x, In x xs -> f x = b) ->
  filter f xs = if b then xs else [].
Proof.
  induction xs as [|x xs IH]; intros Hconst; simpl.
  - destruct b; reflexivity.
  - rewrite (Hconst x (or_introl eq_refl)).
    rewrite IH by (intros; apply Hconst; right; assumption).
    destruct b; reflexivity.
Qed.

Lemma sum_of_counts_length (entries : list (string * list TransformedMeasurement)) :
  Spec.sum_of_counts (map to_duplicate entries)
  = List.length (List.concat (map snd entries)).
Proof.
  unfold Spec.sum_of_counts. rewrite length_concat, !map_map. reflexivity.
Qed.

Lemma shared_buckets_records data groups :
  (forall d records, In (d, records) groups -> records = Spec.records_on d data) ->
  List.concat (map snd (filter has_several groups))
  = filter (Spec.shares_date data) (List.concat (map snd groups)).
Proof.
  induction groups as [|[d records] groups IH]; intros Hbuckets; simpl.
  - reflexivity.
  - rewrite filter_app.
    rewrite <- IH by (intros; apply Hbuckets; right; assumption).
    rewrite (@filter_constant _ (Spec.shares_date data) (has_several (d, records)) records).
    + destruct (has_several (d, records)); reflexivity.
    + intros record Hin. unfold Spec.shares_date, has_several. simpl.
      pose proof (Hbuckets d records (or_introl eq_refl)) as Hrecords.
      rewrite Hrecords in Hin. apply records_on_In in Hin as [_ ->].
      rewrite <- Hrecords. reflexivity.
Qed.

(** C7, as the code has it.  The duplicates list has one entry for each
    date that has more than one record, so its length is the number of
    such dates; the sum of its [count] fields is the number of records
    that fall on such dates. *)
Theorem duplicates_count_dates_and_records :
  forall data,
    Spec.plain_dates data = true ->
    exists groups dups,
      groupByDate data = Ok (groups, dups)
      /\ List.length dups = List.length (Spec.dates_with_several data)
      /\ Spec.sum_of_counts dups
         = List.length (filter (Spec.shares_date data) data).
Proof.
  intros data Hplain.
  destruct (group_all_partition data Hplain) as [groups [Hrun Hinv]].
  destruct Hinv as [Hkeys Hbuckets Hcovered Hall].
  exists groups, (find_duplicates groups).
  unfold groupByDate. rewrite Hrun; simpl.
  split; [reflexivity|]. split.
  - rewrite <- (length_map dup_date).
    apply Permutation_length, NoDup_Permutation.
    + apply find_duplicates_NoDup. exact Hkeys.
    + apply NoDup_nodup.
    + intros d. unfold Spec.dates_with_several.
      rewrite nodup_In, !in_map_iff. split.
      * intros [[d' n] [Hd Hin]]. simpl in Hd. subst d'.
        apply find_duplicates_In in Hin as [records [Hentry [Hbig _]]].
        destruct (Hbuckets _ _ Hentry) as [Hrecords Hne].
        destruct records as [|record records]; [congruence|].
        assert (Hin : In record (Spec.records_on d data))
          by (rewrite <- Hrecords; left; reflexivity).
        apply records_on_In in Hin as [Hin Hdate].
        exists record. split; [exact Hdate|].
        apply filter_In. split; [exact Hin|].
        unfold Spec.shares_date. rewrite Hdate, <- Hrecords.
        apply Nat.ltb_lt. exact Hbig.
      * intros [record [Hdate Hin]].
        apply filter_In in Hin as [Hin Hshares].
        unfold Spec.shares_date in Hshares. rewrite Hdate in Hshares.
        apply Nat.ltb_lt in Hshares.
        pose proof (Hcovered record Hin) as Hkey. rewrite Hdate in Hkey.
        apply in_map_iff in Hkey as [[d' records] [Hd Hentry]].
        simpl in Hd. subst d'.
        destruct (Hbuckets _ _ Hentry) as [Hrecords _].
        exists {| dup_date := d; count := List.length records |}.
        split; [reflexivity|].
        apply find_duplicates_In. exists records.
        rewrite Hrecords at 2. auto.
  - unfold find_duplicates.
    rewrite sum_of_counts_length.
    rewrite (Permutation_length
               (Permutation_concat
                  (Permutation_map snd
                     (Permutation_filter has_several (entries_perm groups))))).
    rewrite (@shared_buckets_records data groups)
      by (intros d records Hentry; apply (Hbuckets _ _ Hentry)).
    apply Permutation_length, Permutation_filter. exact Hall.
Qed.

Lemma duplicates_count_dates_and_records_witness :
  Spec.plain_dates [Sample.morning; Sample.evening; Sample.next_day] = true
  /\ exists groups dups,
       groupByDate [Sample.morning; Sample.evening; Sample.next_day]
       = Ok (groups, dups)
       /\ List.length dups = 1%nat
       /\ Spec.sum_of_counts dups = 2%nat.
Proof.
  split; [reflexivity|].
  destruct (@duplicates_count_dates_and_records
              [Sample.morning; Sample.evening; Sample.next_day] eq_refl)
    as [groups [dups [Hrun [Hlength Hsum]]]].
  exists groups, dups. auto.
Defined.

(** C7, as the specification words it, fails: two records of one day
    make one duplicate date, and the sum of the counts is two. *)
Lemma duplicates_count_sum_counterexample :
  exists groups dups,
    groupByDate [Sample.morning; Sample.evening] = Ok (groups, dups)
    /\ Spec.sum_of_counts dups = 2%nat
    /\ List.length (Spec.dates_with_several [Sample.morning; Sample.evening])
       = 1%nat
    /\ Spec.sum_of_counts dups
       <> List.length (Spec.dates_with_several [Sample.morning; Sample.evening]).
Proof.
  eexists. eexists. split; [reflexivity|].
  split; [reflexivity|]. split; [reflexivity|].
  vm_compute. discriminate.
Qed.

End GrouperClaims.

(* ================================================================= *)
(** ** Double arithmetic *)

Section Powers.
Local Open Scope Q_scope.

Lemma pow2_pos (e : Z) : 0 < pow2 e.
Proof. apply Qpower.Qpower_0_lt. reflexivity. Qed.

Lemma pow2_add (a b : Z) : pow2 (a + b) == pow2 a * pow2 b.
Proof. apply Qpower.Qpower_plus. discriminate. Qed.

Lemma pow2_sub (a b : Z) : pow2 (a - b) == pow2 a / pow2 b.
Proof. apply Qpower.Qpower_minus. discriminate. Qed.

Lemma pow2_le (a b : Z) : (a <= b)%Z -> pow2 a <= pow2 b.
Proof. intros Hab. apply Qpower.Qpower_le_compat_l; [exact Hab|discriminate]. Qed.

Lemma pow2_lt (a b : Z) : (a < b)%Z -> pow2 a < pow2 b.
Proof. intros Hab. apply Qpower.Qpower_lt_compat_l; [exact Hab|reflexivity]. Qed.

Lemma pow2_le_inv (a b : Z) : pow2 a <= pow2 b -> (a <= b)%Z.
Proof. intros Hab. apply Qpower.Qpower_le_compat_l_inv with (q := 2); [exact Hab|reflexivity]. Qed.

Lemma pow2_lt_inv (a b : Z) : pow2 a < pow2 b -> (a < b)%Z.
Proof. intros Hab. apply Qpower.Qpower_lt_compat_l_inv with (q := 2); [exact Hab|reflexivity]. Qed.

Lemma pow2_Z (n : Z) : (0 <= n)%Z -> pow2 n == inject_Z (2 ^ n).
Proof. intros Hn. unfold pow2. rewrite Qpower.Zpower_Qpower by exact Hn. reflexivity. Qed.

Lemma pow2_succ (a : Z) : pow2 (a + 1) == 2 * pow2 a.
Proof. rewrite pow2_add. change (pow2 1) with 2. ring. Qed.

Lemma pow2_pred (a : Z) : pow2 (a - 1) == pow2 a / 2.
Proof. rewrite pow2_sub. reflexivity. Qed.
End Powers.

Section Binades.
Local Open Scope Q_scope.

Lemma Qabs_num_den (x : Q) : Qabs x == inject_Z (Z.abs (Qnum x)) / inject_Z (Zpos (Qden x)).
Proof.
  destruct x as [n d]. unfold Qabs. cbn [Qnum Qden].
  rewrite (Qmake_Qdiv (Z.abs n) d). reflexivity.
Qed.

Lemma binade_spec (x : Q) :
  ~ x == 0 -> pow2 (binade x - 1) <= Qabs x /\ Qabs x < pow2 (binade x).
Proof.
  intros Hx.
  assert (Hn : (0 < Z.abs (Qnum x))%Z).
  { destruct x as [n d]. unfold Qeq in Hx. cbn in *. lia. }
  set (n := Z.abs (Qnum x)) in *. set (d := Zpos (Qden x)).
  assert (Hd : (0 < d)%Z) by (unfold d; lia).
  destruct (Z.log2_spec n Hn) as [Hn_low Hn_high].
  destruct (Z.log2_spec d Hd) as [Hd_low Hd_high].
  pose proof (Z.log2_nonneg n) as Ha. pose proof (Z.log2_nonneg d) as Hc.
  set (a := Z.log2 n) in *. set (c := Z.log2 d) in *.
  assert (Habs : Qabs x == inject_Z n / inject_Z d) by apply Qabs_num_den.
  assert (Hdq : 0 < inject_Z d)
    by (change 0 with (inject_Z 0); rewrite <- Zlt_Qlt; exact Hd).
  (* bounds of the quotient *)
  assert (Hup : Qabs x < pow2 (a - c + 1)).
  { rewrite Habs. apply Qlt_shift_div_r; [exact Hdq|].
    replace (a - c + 1)%Z with ((a + 1) - c)%Z by lia.
    rewrite pow2_sub.
    apply Qlt_le_trans with (pow2 (a + 1)).
    - rewrite pow2_Z by lia. rewrite <- Zlt_Qlt.
      replace (a + 1)%Z with (Z.succ a) by lia. exact Hn_high.
    - assert (Hc2 : pow2 c <= inject_Z d).
      { rewrite pow2_Z by lia. rewrite <- Zle_Qle. exact Hd_low. }
      pose proof (pow2_pos c) as Hpc. pose proof (pow2_pos (a + 1)) as Hpa.
      assert (Hq : pow2 (a + 1) / pow2 c * pow2 c == pow2 (a + 1))
        by (field; lra).
      assert (Hqpos : 0 < pow2 (a + 1) / pow2 c)
        by (apply Qlt_shift_div_l; [exact Hpc|lra]).
      set (q := pow2 (a + 1) / pow2 c) in *. clearbody q. nra. }
  assert (Hlow : pow2 (a - c - 1) <= Qabs x).
  { rewrite Habs. apply Qle_shift_div_l; [exact Hdq|].
    replace (a - c - 1)%Z with (a - (c + 1))%Z by lia.
    rewrite pow2_sub.
    pose proof (pow2_pos (c + 1)) as Hpc. pose proof (pow2_pos a) as Hpa.
    assert (Hd2 : inject_Z d <= pow2 (c + 1)).
    { rewrite pow2_Z by lia. rewrite <- Zle_Qle.
      replace (c + 1)%Z with (Z.succ c) by lia. lia. }
    assert (Hn2 : pow2 a <= inject_Z n).
    { rewrite pow2_Z by lia. rewrite <- Zle_Qle. exact Hn_low. }
    assert (Hq : pow2 a / pow2 (c + 1) * pow2 (c + 1) == pow2 a)
      by (field; lra).
    assert (Hqpos : 0 < pow2 a / pow2 (c + 1))
      by (apply Qlt_shift_div_l; [exact Hpc|lra]).
    set (q := pow2 a / pow2 (c + 1)) in *. clearbody q. nra. }
  unfold binade. fold n d a c.
  destruct (Qle_bool (pow2 (a - c)) (Qabs x)) eqn:Hcmp.
  - apply Qle_bool_iff in Hcmp.
    replace (a - c + 1 - 1)%Z with (a - c)%Z by lia. split; assumption.
  - split; [exact Hlow|].
    apply Qnot_le_lt. intros Hle. apply Qle_bool_iff in Hle. congruence.
Qed.

Lemma binade_unique (x : Q) (e : Z) :
  pow2 (e - 1) <= Qabs x -> Qabs x < pow2 e -> binade x = e.
Proof.
  intros Hlow Hhigh.
  assert (Hx : ~ x == 0).
  { intros Hzero. rewrite Hzero in Hlow. pose proof (pow2_pos (e - 1)).
    change (Qabs 0) with 0 in Hlow. lra. }
  destruct (binade_spec Hx) as [Hlow' Hhigh'].
  assert (H1 : (binade x - 1 < e)%Z)
    by (apply pow2_lt_inv; apply Qle_lt_trans with (Qabs x); assumption).
  assert (H2 : (e - 1 < binade x)%Z)
    by (apply pow2_lt_inv; apply Qle_lt_trans with (Qabs x); assumption).
  lia.
Qed.

Lemma binade_comp (x y : Q) : ~ x == 0 -> x == y -> binade x = binade y.
Proof.
  intros Hx Hxy. symmetry.
  destruct (binade_spec Hx) as [Hlow Hhigh].
  apply binade_unique; rewrite <- Hxy; assumption.
Qed.
End Binades.

Section NearestInteger.
Local Open Scope Q_scope.

#[global] Instance nearest_even_comp : Proper (Qeq ==> eq) nearest_even.
Proof.
  intros x y Hxy. unfold nearest_even.
  rewrite (Qfloor_comp _ _ Hxy).
  assert (Hfrac : x - inject_Z (Qfloor y) == y - inject_Z (Qfloor y))
    by (rewrite Hxy; reflexivity).
  rewrite (Qcompare_comp _ _ Hfrac _ _ (Qeq_refl (1 # 2))). reflexivity.
Qed.

(** One of the two integers around [x], chosen by the fraction. *)
Lemma nearest_even_cases (x : Q) :
  (nearest_even x = Qfloor x /\ x - inject_Z (Qfloor x) <= 1 # 2)
  \/ (nearest_even x = (Qfloor x + 1)%Z /\ 1 # 2 <= x - inject_Z (Qfloor x)).
Proof.
  unfold nearest_even.
  destruct (Qcompare (x - inject_Z (Qfloor x)) (1 # 2)) eqn:Hcmp.
  - apply Qeq_alt in Hcmp.
    destruct (Z.even (Qfloor x)); [left|right]; split;
      try reflexivity; rewrite Hcmp; apply Qle_refl.
  - apply Qlt_alt in Hcmp. left. split; [reflexivity|lra].
  - apply Qgt_alt in Hcmp. right. split; [reflexivity|lra].
Qed.

Lemma nearest_even_error (x : Q) :
  Qabs (inject_Z (nearest_even x) - x) <= 1 # 2.
Proof.
  pose proof (Qfloor_le x) as Hlow. pose proof (Qlt_floor x) as Hhigh.
  rewrite inject_Z_plus in Hhigh. change (inject_Z 1) with 1 in Hhigh.
  apply Qabs_Qle_condition.
  destruct (nearest_even_cases x) as [[-> Hfrac]|[-> Hfrac]].
  - split; lra.
  - rewrite inject_Z_plus. change (inject_Z 1) with 1. split; lra.
Qed.

Lemma nearest_even_Z (n : Z) : nearest_even (inject_Z n) = n.
Proof.
  unfold nearest_even. rewrite Qfloor_Z.
  assert (Hzero : inject_Z n - inject_Z n == 0) by ring.
  rewrite (Qcompare_comp _ _ Hzero _ _ (Qeq_refl (1 # 2))). reflexivity.
Qed.

Lemma nearest_even_le (x : Q) (hi : Z) :
  x <= inject_Z hi -> (nearest_even x <= hi)%Z.
Proof.
  intros Hx.
  pose proof (Qfloor_le x) as Hlow.
  destruct (nearest_even_cases x) as [[-> _]|[-> Hfrac]].
  - rewrite Zle_Qle. lra.
  - assert (Hlt : (Qfloor x < hi)%Z) by (rewrite Zlt_Qlt; lra). lia.
Qed.

Lemma nearest_even_ge (x : Q) (lo : Z) :
  inject_Z lo <= x -> (lo <= nearest_even x)%Z.
Proof.
  intros Hx.
  assert (Hfloor : (lo <= Qfloor x)%Z).
  { rewrite <- (Qfloor_Z lo). apply Qfloor_resp_le. exact Hx. }
  destruct (nearest_even_cases x) as [[-> _]|[-> _]]; lia.
Qed.

Lemma nearest_even_monotone (x y : Q) :
  x <= y -> (nearest_even x <= nearest_even y)%Z.
Proof.
  intros Hxy.
  pose proof (Qfloor_resp_le _ _ Hxy) as Hfloor.
  destruct (Z.eq_dec (Qfloor x) (Qfloor y)) as [Hsame|Hother].
  - unfold nearest_even. rewrite <- Hsame.
    destruct (Qcompare (x - inject_Z (Qfloor x)) (1 # 2)) eqn:Hx;
      destruct (Qcompare (y - inject_Z (Qfloor x)) (1 # 2)) eqn:Hy;
      try (destruct (Z.even (Qfloor x))); try lia; exfalso;
      first [apply Qeq_alt in Hx|apply Qlt_alt in Hx|apply Qgt_alt in Hx];
      first [apply Qeq_alt in Hy|apply Qlt_alt in Hy|apply Qgt_alt in Hy];
      lra.
  - destruct (nearest_even_cases x) as [[-> _]|[-> _]];
      destruct (nearest_even_cases y) as [[-> _]|[-> _]]; lia.
Qed.

Lemma nearest_even_opp (x : Q) : nearest_even (- x) = (- nearest_even x)%Z.
Proof.
  pose proof (Qfloor_le x) as Hlow. pose proof (Qlt_floor x) as Hhigh.
  rewrite inject_Z_plus in Hhigh. change (inject_Z 1) with 1 in Hhigh.
  destruct (Qeq_dec x (inject_Z (Qfloor x))) as [Hint|Hfrac].
  - assert (Hopp : - x == inject_Z (- Qfloor x))
      by (rewrite inject_Z_opp, <- Hint; reflexivity).
    rewrite (nearest_even_comp Hopp), (nearest_even_comp Hint), !nearest_even_Z.
    reflexivity.
  - assert (Hneg : Qfloor (- x) = (- Qfloor x - 1)%Z).
    { symmetry. apply Z.le_antisymm.
      - rewrite <- (Qfloor_Z (- Qfloor x - 1)). apply Qfloor_resp_le.
        unfold Zminus. rewrite inject_Z_plus, inject_Z_opp.
        change (inject_Z (- (1))) with (- (1)). lra.
      - assert (Hlt : (Qfloor (- x) < - Qfloor x)%Z).
        { rewrite Zlt_Qlt, inject_Z_opp.
          pose proof (Qfloor_le (- x)). 
          apply Qle_lt_trans with (- x); [assumption|].
          assert (inject_Z (Qfloor x) < x).
          { apply Qle_lt_or_eq in Hlow as [Hlt|Heq]; [exact Hlt|].
            exfalso. apply Hfrac. symmetry. exact Heq. }
          lra. }
        lia. }
    unfold nearest_even. rewrite Hneg.
    assert (Hfr : - x - inject_Z (- Qfloor x - 1) == 1 - (x - inject_Z (Qfloor x))).
    { unfold Zminus. rewrite inject_Z_plus, inject_Z_opp.
      change (inject_Z (- (1))) with (- (1)). ring. }
    rewrite (Qcompare_comp _ _ Hfr _ _ (Qeq_refl (1 # 2))).
    destruct (Qcompare (x - inject_Z (Qfloor x)) (1 # 2)) eqn:Hx.
    + apply Qeq_alt in Hx.
      assert (Hhalf : Qcompare (1 - (x - inject_Z (Qfloor x))) (1 # 2) = Eq)
        by (apply (proj1 (Qeq_alt _ _)); rewrite Hx; reflexivity).
      rewrite Hhalf.
      replace (- Qfloor x - 1)%Z with (- (Qfloor x + 1))%Z by lia.
      rewrite Z.even_opp.
      replace (Qfloor x + 1)%Z with (Z.succ (Qfloor x)) by lia.
      rewrite Z.even_succ, <- Z.negb_even.
      destruct (Z.even (Qfloor x)); cbn [negb]; lia.
    + apply Qlt_alt in Hx.
      assert (Hhalf : Qcompare (1 - (x - inject_Z (Qfloor x))) (1 # 2) = Gt)
        by (apply (proj1 (Qgt_alt _ _)); lra).
      rewrite Hhalf. lia.
    + apply Qgt_alt in Hx.
      assert (Hhalf : Qcompare (1 - (x - inject_Z (Qfloor x))) (1 # 2) = Lt)
        by (apply (proj1 (Qlt_alt _ _)); lra).
      rewrite Hhalf. lia.
Qed.
End NearestInteger.

Section Doubles.
Local Open Scope Q_scope.


Lemma double_zero (x : Q) : x == 0 -> double x == 0.
Proof.
  intros Hx. unfold double.
  rewrite (proj2 (Qeq_bool_iff x 0) Hx). reflexivity.
Qed.

Lemma double_nonzero (x : Q) :
  ~ x == 0 ->
  double x
  == inject_Z (nearest_even (x / pow2 (last_place x))) * pow2 (last_place x).
Proof.
  intros Hx. unfold double.
  destruct (Qeq_bool x 0) eqn:Hzero.
  - apply Qeq_bool_iff in Hzero. contradiction.
  - apply Qred_correct.
Qed.

Lemma last_place_comp (x y : Q) : ~ x == 0 -> x == y -> last_place x = last_place y.
Proof. intros Hx Hxy. unfold last_place. rewrite (binade_comp Hx Hxy). reflexivity. Qed.

#[global] Instance double_comp : Proper (Qeq ==> Qeq) double.
Proof.
  intros x y Hxy.
  destruct (Qeq_dec x 0) as [Hzero|Hx].
  - assert (Hzero' : y == 0) by (rewrite <- Hxy; exact Hzero).
    rewrite (double_zero Hzero), (double_zero Hzero'). reflexivity.
  - assert (Hy : ~ y == 0) by (rewrite <- Hxy; exact Hx).
    rewrite (double_nonzero Hx), (double_nonzero Hy).
    rewrite <- (last_place_comp Hx Hxy).
    assert (Hq : x / pow2 (last_place x) == y / pow2 (last_place x))
      by (apply Qmult_comp; [exact Hxy|reflexivity]).
    rewrite (nearest_even_comp Hq). reflexivity.
Qed.

(** The result is within half a unit of the last place. *)
Lemma double_error (x : Q) :
  Qabs (double x - x) <= pow2 (last_place x) / 2.
Proof.
  pose proof (pow2_pos (last_place x)) as Hunit.
  destruct (Qeq_dec x 0) as [Hzero|Hx].
  - assert (Hd : double x - x == 0) by (rewrite (double_zero Hzero); lra).
    rewrite Hd. change (Qabs 0) with 0.
    apply Qle_shift_div_l; [reflexivity|]. lra.
  - rewrite (double_nonzero Hx).
    set (u := pow2 (last_place x)) in *.
    pose proof (nearest_even_error (x / u)) as Hnear.
    set (n := inject_Z (nearest_even (x / u))) in *.
    apply Qabs_Qle_condition in Hnear as [Hlow Hhigh].
    assert (Hq : x / u * u == x) by (field; lra).
    set (q := x / u) in *. clearbody q n.
    assert (Hup : (n - q) * u <= (1 # 2) * u)
      by (apply Qmult_le_compat_r; lra).
    assert (Hdown : - (1 # 2) * u <= (n - q) * u)
      by (apply Qmult_le_compat_r; lra).
    apply Qabs_Qle_condition.
    setoid_replace (u / 2) with ((1 # 2) * u) by (field; lra).
    split; lra.
Qed.

Lemma binade_le (x : Q) (e : Z) :
  ~ x == 0 -> Qabs x <= pow2 e -> (binade x <= e + 1)%Z.
Proof.
  intros Hx Hbound. destruct (binade_spec Hx) as [Hlow _].
  assert (Hle : pow2 (binade x - 1) <= pow2 e)
    by (apply Qle_trans with (Qabs x); assumption).
  apply pow2_le_inv in Hle. lia.
Qed.

(** The rounding error of a number of magnitude at most [2^e]. *)
Lemma double_error_bound (x : Q) (e : Z) :
  (-1022 <= e)%Z -> Qabs x <= pow2 e ->
  Qabs (double x - x) <= pow2 (e - 53).
Proof.
  intros He Hbound.
  destruct (Qeq_dec x 0) as [Hzero|Hx].
  - assert (Hd : double x - x == 0) by (rewrite (double_zero Hzero); lra).
    rewrite Hd. change (Qabs 0) with 0. apply Qlt_le_weak, pow2_pos.
  - apply Qle_trans with (pow2 (last_place x) / 2); [apply double_error|].
    rewrite <- pow2_pred. apply pow2_le.
    pose proof (@binade_le _ _ Hx Hbound). unfold last_place. lia.
Qed.

(** A number [m * 2^e] with at most 53 binary digits is a double. *)
Lemma double_representable (m e : Z) :
  (Z.abs m <= 2 ^ 53)%Z -> (-1074 <= e)%Z ->
  double (inject_Z m * pow2 e) == inject_Z m * pow2 e.
Proof.
  intros Hm He. set (x := inject_Z m * pow2 e).
  pose proof (pow2_pos e) as Hpe.
  destruct (Z.eq_dec m 0) as [->|Hm0].
  - assert (Hzero : x == 0) by (unfold x; ring).
    rewrite (double_zero Hzero), Hzero. reflexivity.
  - assert (Hx : ~ x == 0).
    { unfold x. intros Hzero.
      apply Qmult_integral in Hzero as [Hzero|Hzero]; [|lra].
      apply Hm0. apply inject_Z_injective. exact Hzero. }
    assert (Habs : Qabs x == inject_Z (Z.abs m) * pow2 e).
    { unfold x. rewrite Qabs_Qmult, (Qabs_pos (pow2 e)) by lra.
      unfold inject_Z. rewrite <- Zabs_Qabs. reflexivity. }
    assert (Hmq : inject_Z (Z.abs m) <= pow2 53).
    { rewrite pow2_Z by lia. rewrite <- Zle_Qle. exact Hm. }
    assert (Hbound : Qabs x <= pow2 (e + 53)).
    { rewrite Habs, pow2_add. rewrite (Qmult_comm (pow2 e)).
      apply Qmult_le_compat_r; [exact Hmq|lra]. }
    pose proof (@binade_le _ _ Hx Hbound) as Hb.
    destruct (binade_spec Hx) as [Hlow _].
    rewrite (double_nonzero Hx).
    pose proof (pow2_pos (last_place x)) as Hunit.
    destruct (Z.eq_dec (binade x) (e + 54)) as [Htop|Hbelow].
    + (* the significand is 2^53 *)
      assert (Hlast : last_place x = (e + 1)%Z) by (unfold last_place; lia).
      rewrite Hlast in *.
      assert (Hm53 : Z.abs m = (2 ^ 53)%Z).
      { apply Z.le_antisymm; [exact Hm|].
        rewrite Htop in Hlow. replace (e + 54 - 1)%Z with (e + 53)%Z in Hlow by lia.
        rewrite Habs, pow2_add, (Qmult_comm (pow2 e)) in Hlow.
        apply Qmult_le_r in Hlow; [|exact Hpe].
        rewrite pow2_Z in Hlow by lia. rewrite <- Zle_Qle in Hlow. exact Hlow. }
      assert (Hhalf : x / pow2 (e + 1) == inject_Z (m / 2)).
      { unfold x. rewrite pow2_succ.
        assert (Heven : m = (2 * (m / 2))%Z).
        { destruct (Z.abs_eq_or_opp m) as [Heq|Heq]; rewrite Hm53 in Heq.
          - rewrite <- Heq. reflexivity.
          - assert (Hm' : m = (- 2 ^ 53)%Z) by lia. rewrite Hm'. reflexivity. }
        rewrite Heven at 1. rewrite inject_Z_mult.
        change (inject_Z 2) with 2. field. lra. }
      rewrite (nearest_even_comp Hhalf), nearest_even_Z, <- Hhalf.
      field. lra.
    + assert (Hlast : (last_place x <= e)%Z) by (unfold last_place; lia).
      assert (Hint : x / pow2 (last_place x)
                     == inject_Z (m * 2 ^ (e - last_place x))).
      { rewrite inject_Z_mult, <- (@pow2_Z (e - last_place x)) by lia.
        rewrite pow2_sub. unfold x at 1. field. lra. }
      rewrite (nearest_even_comp Hint), nearest_even_Z, <- Hint.
      field. lra.
Qed.



(** The integers up to [2^53] are doubles. *)
Lemma double_Z (n : Z) :
  (Z.abs n <= 2 ^ 53)%Z -> double (inject_Z n) == inject_Z n.
Proof.
  intros Hn.
  assert (Hone : inject_Z n == inject_Z n * pow2 0)
    by (change (pow2 0) with 1; ring).
  rewrite (double_comp Hone).
  rewrite (@double_representable n 0 Hn) by lia.
  symmetry. exact Hone.
Qed.
End Doubles.

Section Order.
Local Open Scope Q_scope.

Lemma double_nonneg (x : Q) : 0 <= x -> 0 <= double x.
Proof.
  intros Hpos. destruct (Qeq_dec x 0) as [Hzero|Hx].
  - rewrite (double_zero Hzero). apply Qle_refl.
  - rewrite (double_nonzero Hx).
    pose proof (pow2_pos (last_place x)) as Hunit.
    apply Qmult_le_0_compat; [|lra].
    change 0 with (inject_Z 0). rewrite <- Zle_Qle.
    apply nearest_even_ge. change (inject_Z 0) with 0.
    apply Qle_shift_div_l; [exact Hunit|]. lra.
Qed.

Lemma last_place_opp (x : Q) : ~ x == 0 -> last_place (- x) = last_place x.
Proof.
  intros Hx. unfold last_place. f_equal. f_equal.
  destruct (binade_spec Hx) as [Hlow Hhigh].
  apply binade_unique; rewrite Qabs_opp; assumption.
Qed.

Lemma double_opp (x : Q) : double (- x) == - double x.
Proof.
  destruct (Qeq_dec x 0) as [Hzero|Hx].
  - assert (Hneg : - x == 0) by (rewrite Hzero; reflexivity).
    rewrite (double_zero Hzero), (double_zero Hneg). reflexivity.
  - assert (Hneg : ~ - x == 0) by (intros Hzero; apply Hx; lra).
    rewrite (double_nonzero Hx), (double_nonzero Hneg), (last_place_opp Hx).
    pose proof (pow2_pos (last_place x)) as Hunit.
    assert (Hq : - x / pow2 (last_place x) == - (x / pow2 (last_place x)))
      by (field; lra).
    rewrite (nearest_even_comp Hq), nearest_even_opp, inject_Z_opp. ring.
Qed.

Lemma binade_monotone (x y : Q) :
  ~ x == 0 -> Qabs x <= Qabs y -> (binade x <= binade y)%Z.
Proof.
  intros Hx Hxy.
  assert (Hy : ~ y == 0).
  { intros Hzero. rewrite Hzero in Hxy. change (Qabs 0) with 0 in Hxy.
    apply Hx. apply Qabs_Qle_condition in Hxy. lra. }
  destruct (binade_spec Hx) as [Hlow _]. destruct (binade_spec Hy) as [_ Hhigh].
  assert (Hlt : pow2 (binade x - 1) < pow2 (binade y)) by lra.
  apply pow2_lt_inv in Hlt. lia.
Qed.

Lemma double_monotone_pos (x y : Q) :
  0 < x -> x <= y -> double x <= double y.
Proof.
  intros Hpos Hxy.
  assert (Hx : ~ x == 0) by lra. assert (Hy : ~ y == 0) by lra.
  assert (Habs : Qabs x <= Qabs y) by (rewrite !Qabs_pos by lra; exact Hxy).
  pose proof (@binade_monotone _ _ Hx Habs) as Hb.
  destruct (binade_spec Hx) as [_ Hx_high]. destruct (binade_spec Hy) as [Hy_low _].
  rewrite Qabs_pos in Hx_high, Hy_low by lra.
  rewrite (double_nonzero Hx), (double_nonzero Hy).
  pose proof (pow2_pos (last_place x)) as Hux.
  pose proof (pow2_pos (last_place y)) as Huy.
  destruct (Z.eq_dec (last_place x) (last_place y)) as [Hsame|Hother].
  - rewrite <- Hsame in *.
    apply Qmult_le_compat_r; [|lra]. rewrite <- Zle_Qle.
    apply nearest_even_monotone.
    apply Qmult_le_compat_r; [exact Hxy|]. apply Qlt_le_weak, Qinv_lt_0_compat, Hux.
  - assert (Hlast : last_place y = (binade y - 53)%Z /\ (last_place x < last_place y)%Z)
      by (unfold last_place in *; lia).
    destruct Hlast as [Hly Hlt].
    apply Qle_trans with (pow2 (binade y - 1)).
    + (* the smaller number rounds to at most the start of the binade of the larger *)
      assert (Hnear : (nearest_even (x / pow2 (last_place x))
                       <= 2 ^ (binade y - 1 - last_place x))%Z).
      { apply nearest_even_le. rewrite <- pow2_Z by lia. rewrite pow2_sub.
        apply Qmult_le_compat_r; [|apply Qlt_le_weak, Qinv_lt_0_compat, Hux].
        apply Qle_trans with (pow2 (binade x)); [lra|].
        apply pow2_le. unfold last_place in *. lia. }
      rewrite Zle_Qle, <- pow2_Z, pow2_sub in Hnear by lia.
      apply Qmult_le_compat_r with (z := pow2 (last_place x)) in Hnear; [|lra].
      eapply Qle_trans; [exact Hnear|]. apply Qle_lteq. right. field. lra.
    + assert (Hnear : (2 ^ 52 <= nearest_even (y / pow2 (last_place y)))%Z).
      { apply nearest_even_ge. rewrite <- pow2_Z by lia.
        apply Qle_shift_div_l; [exact Huy|]. rewrite <- pow2_add.
        rewrite Hly. replace (52 + (binade y - 53))%Z with (binade y - 1)%Z by lia.
        exact Hy_low. }
      rewrite Zle_Qle, <- pow2_Z in Hnear by lia.
      apply Qmult_le_compat_r with (z := pow2 (last_place y)) in Hnear; [|lra].
      eapply Qle_trans; [|exact Hnear]. rewrite <- pow2_add, Hly.
      apply pow2_le. lia.
Qed.

(** Rounding keeps the order. *)
Lemma double_monotone (x y : Q) : x <= y -> double x <= double y.
Proof.
  intros Hxy.
  destruct (Qlt_le_dec 0 x) as [Hx|Hx].
  - apply double_monotone_pos; assumption.
  - destruct (Qlt_le_dec y 0) as [Hy|Hy].
    + assert (Hneg : double (- y) <= double (- x))
        by (apply double_monotone_pos; lra).
      rewrite !double_opp in Hneg. lra.
    + assert (Hleft : double x <= 0).
      { assert (Hneg : 0 <= double (- x)) by (apply double_nonneg; lra).
        rewrite double_opp in Hneg. lra. }
      pose proof (double_nonneg Hy). lra.
Qed.

(** A number below a double rounds to at most that double. *)
Lemma double_le (x c : Q) : double c == c -> x <= c -> double x <= c.
Proof. intros Hc Hxc. rewrite <- Hc. apply double_monotone. exact Hxc. Qed.

Lemma double_ge (x c : Q) : double c == c -> c <= x -> c <= double x.
Proof. intros Hc Hxc. rewrite <- Hc. apply double_monotone. exact Hxc. Qed.
End Order.

Section SquareRoots.
Local Open Scope Q_scope.

Lemma nearest_root_cases (q : Q) :
  nearest_root q = Z.sqrt (Qfloor q) \/ nearest_root q = (Z.sqrt (Qfloor q) + 1)%Z.
Proof.
  unfold nearest_root.
  destruct (Qcompare q _); [destruct (Z.even _)|..]; auto.
Qed.

Lemma nearest_root_monotone (p q : Q) :
  p <= q -> (nearest_root p <= nearest_root q)%Z.
Proof.
  intros Hpq.
  assert (Hs : (Z.sqrt (Qfloor p) <= Z.sqrt (Qfloor q))%Z)
    by (apply Z.sqrt_le_mono, Qfloor_resp_le, Hpq).
  destruct (Z.eq_dec (Z.sqrt (Qfloor p)) (Z.sqrt (Qfloor q))) as [Hsame|Hother].
  - unfold nearest_root. rewrite <- Hsame.
    set (s := Z.sqrt (Qfloor p)). set (tie := inject_Z (s * s + s) + (1 # 4)).
    destruct (Qcompare p tie) eqn:Hp; destruct (Qcompare q tie) eqn:Hq;
      try (destruct (Z.even s)); try lia; exfalso;
      first [apply Qeq_alt in Hp|apply Qlt_alt in Hp|apply Qgt_alt in Hp];
      first [apply Qeq_alt in Hq|apply Qlt_alt in Hq|apply Qgt_alt in Hq];
      lra.
  - destruct (nearest_root_cases p) as [->| ->];
      destruct (nearest_root_cases q) as [->| ->]; lia.
Qed.

Lemma nearest_root_ge (q : Q) (n : Z) :
  (0 <= n)%Z -> inject_Z (n * n) <= q -> (n <= nearest_root q)%Z.
Proof.
  intros Hn Hq.
  assert (Hfloor : (n * n <= Qfloor q)%Z).
  { rewrite <- (Qfloor_Z (n * n)). apply Qfloor_resp_le. exact Hq. }
  assert (Hs : (n <= Z.sqrt (Qfloor q))%Z).
  { rewrite <- (Z.sqrt_square n) by exact Hn. apply Z.sqrt_le_mono. exact Hfloor. }
  destruct (nearest_root_cases q) as [->| ->]; lia.
Qed.

Lemma nearest_root_le (q : Q) (n : Z) :
  (0 < n)%Z -> q < inject_Z (n * n) -> (nearest_root q <= n)%Z.
Proof.
  intros Hn Hq.
  assert (Hs : (Z.sqrt (Qfloor q) < n)%Z).
  { destruct (Z_lt_le_dec (Qfloor q) 0) as [Hneg|Hpos].
    - rewrite Z.sqrt_neg by exact Hneg. exact Hn.
    - apply Z.sqrt_lt_square; [exact Hpos|lia|].
      rewrite Zlt_Qlt. apply Qle_lt_trans with q; [apply Qfloor_le|exact Hq]. }
  destruct (nearest_root_cases q) as [->| ->]; lia.
Qed.

Lemma Math_sqrt_positive (x : Q) :
  0 < x ->
  Math_sqrt x
  == inject_Z (nearest_root (x / (pow2 ((binade x + 1) / 2 - 53)
                                   * pow2 ((binade x + 1) / 2 - 53))))
     * pow2 ((binade x + 1) / 2 - 53).
Proof.
  intros Hx. unfold Math_sqrt.
  destruct (Qle_bool x 0) eqn:Hle.
  - apply Qle_bool_iff in Hle. lra.
  - apply Qred_correct.
Qed.

Lemma Math_sqrt_nonneg (x : Q) : 0 <= Math_sqrt x.
Proof.
  unfold Math_sqrt. destruct (Qle_bool x 0) eqn:Hle; [apply Qle_refl|].
  rewrite Qred_correct.
  pose proof (pow2_pos ((binade x + 1) / 2 - 53)) as Hunit.
  apply Qmult_le_0_compat; [|lra].
  change 0 with (inject_Z 0). rewrite <- Zle_Qle.
  destruct (nearest_root_cases (x / (pow2 ((binade x + 1) / 2 - 53)
                                     * pow2 ((binade x + 1) / 2 - 53))))
    as [->| ->]; pose proof (Z.sqrt_nonneg (Qfloor (x / (pow2 ((binade x + 1) / 2 - 53)
                                     * pow2 ((binade x + 1) / 2 - 53))))); lia.
Qed.

(** The square root keeps the order. *)
Lemma Math_sqrt_monotone (x y : Q) : x <= y -> Math_sqrt x <= Math_sqrt y.
Proof.
  intros Hxy.
  destruct (Qlt_le_dec 0 x) as [Hpos|Hneg].
  2:{ unfold Math_sqrt at 1. rewrite (proj2 (Qle_bool_iff x 0) Hneg).
      apply Math_sqrt_nonneg. }
  assert (Hy : 0 < y) by lra.
  assert (Hx0 : ~ x == 0) by lra. assert (Hy0 : ~ y == 0) by lra.
  assert (Habs : Qabs x <= Qabs y) by (rewrite !Qabs_pos by lra; exact Hxy).
  pose proof (@binade_monotone _ _ Hx0 Habs) as Hb.
  destruct (binade_spec Hx0) as [_ Hx_high]. destruct (binade_spec Hy0) as [Hy_low _].
  rewrite Qabs_pos in Hx_high, Hy_low by lra.
  rewrite (Math_sqrt_positive Hpos), (Math_sqrt_positive Hy).
  set (ex := ((binade x + 1) / 2)%Z) in *. set (ey := ((binade y + 1) / 2)%Z) in *.
  assert (He : (ex <= ey)%Z) by (apply Z.div_le_mono; lia).
  assert (Hbx : (binade x <= 2 * ex)%Z).
  { unfold ex. pose proof (Z.div_mod (binade x + 1) 2 ltac:(lia)).
    pose proof (Z.mod_pos_bound (binade x + 1) 2 ltac:(lia)). lia. }
  assert (Hby : (2 * ey - 1 <= binade y)%Z).
  { unfold ey. pose proof (Z.div_mod (binade y + 1) 2 ltac:(lia)).
    pose proof (Z.mod_pos_bound (binade y + 1) 2 ltac:(lia)). lia. }
  pose proof (pow2_pos (ex - 53)) as Hux. pose proof (pow2_pos (ey - 53)) as Huy.
  destruct (Z.eq_dec ex ey) as [Hsame|Hother].
  - rewrite <- Hsame.
    apply Qmult_le_compat_r; [|lra]. rewrite <- Zle_Qle.
    apply nearest_root_monotone.
    apply Qmult_le_compat_r; [exact Hxy|].
    apply Qlt_le_weak, Qinv_lt_0_compat. nra.
  - apply Qle_trans with (pow2 (ey - 1)).
    + assert (Hnear : (nearest_root (x / (pow2 (ex - 53) * pow2 (ex - 53)))
                       <= 2 ^ 53)%Z).
      { apply nearest_root_le; [lia|].
        apply Qlt_shift_div_r; [nra|].
        change (2 ^ 53 * 2 ^ 53)%Z with (2 ^ 106)%Z.
        rewrite <- pow2_Z, <- !pow2_add by lia.
        apply Qlt_le_trans with (pow2 (binade x)); [exact Hx_high|].
        apply pow2_le. lia. }
      rewrite Zle_Qle, <- pow2_Z in Hnear by lia.
      apply Qmult_le_compat_r with (z := pow2 (ex - 53)) in Hnear; [|lra].
      eapply Qle_trans; [exact Hnear|]. rewrite <- pow2_add.
      apply pow2_le. lia.
    + assert (Hnear : (2 ^ 52 <= nearest_root (y / (pow2 (ey - 53) * pow2 (ey - 53))))%Z).
      { apply nearest_root_ge; [lia|].
        apply Qle_shift_div_l; [nra|].
        change (2 ^ 52 * 2 ^ 52)%Z with (2 ^ 104)%Z.
        rewrite <- pow2_Z, <- !pow2_add by lia.
        apply Qle_trans with (pow2 (binade y - 1)); [|exact Hy_low].
        apply pow2_le. lia. }
      rewrite Zle_Qle, <- pow2_Z in Hnear by lia.
      apply Qmult_le_compat_r with (z := pow2 (ey - 53)) in Hnear; [|lra].
      eapply Qle_trans; [|exact Hnear]. rewrite <- pow2_add.
      apply pow2_le. lia.
Qed.
End SquareRoots.


(* ================================================================= *)
(** ** Rounding *)

Section Rounding.

Import CsvParsingService.
Local Open Scope Q_scope.

#[global] Instance Math_round_comp : Proper (Qeq ==> Qeq) Math_round.
Proof. intros x y Hxy. unfold Math_round. rewrite Hxy. reflexivity. Qed.

#[global] Instance num_add_comp : Proper (Qeq ==> Qeq ==> Qeq) num_add.
Proof. intros x x' Hx y y' Hy. unfold num_add. rewrite Hx, Hy. reflexivity. Qed.

#[global] Instance num_sub_comp : Proper (Qeq ==> Qeq ==> Qeq) num_sub.
Proof. intros x x' Hx y y' Hy. unfold num_sub. rewrite Hx, Hy. reflexivity. Qed.

#[global] Instance num_mul_comp : Proper (Qeq ==> Qeq ==> Qeq) num_mul.
Proof. intros x x' Hx y y' Hy. unfold num_mul. rewrite Hx, Hy. reflexivity. Qed.

#[global] Instance num_div_comp : Proper (Qeq ==> Qeq ==> Qeq) num_div.
Proof. intros x x' Hx y y' Hy. unfold num_div. rewrite Hx, Hy. reflexivity. Qed.

#[global] Instance to_one_decimal_comp : Proper (Qeq ==> Qeq) Spec.to_one_decimal.
Proof. intros x y Hxy. unfold Spec.to_one_decimal. rewrite Hxy. reflexivity. Qed.

#[global] Instance roundToDecimal_comp : Proper (Qeq ==> eq ==> Qeq) roundToDecimal.
Proof.
  intros x y Hxy d d' <-. unfold roundToDecimal. rewrite Hxy. reflexivity.
Qed.

(** [Math.pow(10, 1)] is [10]. *)
Lemma roundToDecimal_one (x : Q) : roundToDecimal x 1 = Spec.to_one_decimal x.
Proof. reflexivity. Qed.

Lemma Math_round_within_half (x : Q) :
  Math_round x - (1 # 2) <= x /\ x < Math_round x + (1 # 2).
Proof.
  unfold Math_round.
  pose proof (Qfloor_le (x + (1 # 2))) as Hlow.
  pose proof (Qlt_floor (x + (1 # 2))) as Hhigh.
  rewrite inject_Z_plus in Hhigh. change (inject_Z 1) with 1 in Hhigh.
  split; lra.
Qed.


(** A number less than a half away from an integer rounds to it. *)
Lemma Math_round_near (x : Q) (k : Z) :
  Qabs (x - inject_Z k) < 1 # 2 -> Math_round x = inject_Z k.
Proof.
  intros Hnear. apply Qabs_Qlt_condition in Hnear as [Hlow Hhigh].
  unfold Math_round. f_equal.
  apply Z.le_antisymm.
  - assert (Hlt : (Qfloor (x + (1 # 2)) < k + 1)%Z).
    { rewrite Zlt_Qlt, inject_Z_plus. change (inject_Z 1) with 1.
      apply Qle_lt_trans with (x + (1 # 2)); [apply Qfloor_le|lra]. }
    lia.
  - rewrite <- (Qfloor_Z k). apply Qfloor_resp_le. lra.
Qed.


Lemma Qabs_bound (x limit : Q) : Qabs x <= limit <-> - limit <= x /\ x <= limit.
Proof. apply Qabs_Qle_condition. Qed.

(** Rounding to one decimal place, for a number of magnitude at most
    [10^9]: the result is the double nearest to a number of one
    decimal place, and away from the number by at most a twentieth
    and the rounding error of the two operations. *)
Lemma to_one_decimal_near (x : Q) :
  Qabs x <= 1000000000 ->
  exists k : Z,
    Spec.to_one_decimal x == double (inject_Z k / 10)
    /\ Qabs (inject_Z k / 10 - x) <= (1 # 20) + (1 # 5000000)
    /\ Qabs (Spec.to_one_decimal x - x) <= (1 # 20) + (1 # 2000000).
Proof.
  intros Hx. apply Qabs_bound in Hx as [Hx_low Hx_high].
  unfold Spec.to_one_decimal, num_mul.
  assert (Hscaled : Qabs (x * 10) <= pow2 34).
  { apply Qabs_bound. change (pow2 34) with 17179869184. split; lra. }
  pose proof (@double_error_bound (x * 10) 34 ltac:(lia) Hscaled) as Herr.
  change (pow2 (34 - 53)) with (1 # 524288) in Herr.
  apply Qabs_bound in Herr as [Herr_low Herr_high].
  set (t := double (x * 10)) in *.
  destruct (Math_round_within_half t) as [Hround_low Hround_high].
  unfold Math_round in *.
  set (k := Qfloor (t + (1 # 2))) in *.
  exists k. unfold num_div. clearbody k. clearbody t.
  assert (Hten : inject_Z k / 10 * 10 == inject_Z k) by field.
  set (a := inject_Z k / 10) in *.
  assert (Htenth : Qabs a <= pow2 30).
  { apply Qabs_bound. change (pow2 30) with 1073741824. clearbody a. split; lra. }
  pose proof (@double_error_bound a 30 ltac:(lia) Htenth) as Herr2.
  change (pow2 (30 - 53)) with (1 # 8388608) in Herr2.
  apply Qabs_bound in Herr2 as [Herr2_low Herr2_high].
  split; [reflexivity|].
  set (r := double a) in *. clearbody r. clearbody a.
  split; apply Qabs_bound; split; lra.
Qed.

(** The double nearest to a number of one decimal place, up to
    [10^12], is left as it is by the rounding to one place. *)
Lemma to_one_decimal_fixed (k : Z) :
  (Z.abs k <= 10 ^ 13)%Z ->
  Spec.to_one_decimal (double (inject_Z k / 10)) == double (inject_Z k / 10).
Proof.
  intros Hk.
  assert (Hkq : - (10000000000000) <= inject_Z k /\ inject_Z k <= 10000000000000).
  { change 10000000000000 with (inject_Z (10 ^ 13)).
    rewrite <- inject_Z_opp, <- !Zle_Qle. lia. }
  destruct Hkq as [Hk_low Hk_high].
  assert (Hten : inject_Z k / 10 * 10 == inject_Z k) by field.
  set (a := inject_Z k / 10) in *.
  assert (Htenth : Qabs a <= pow2 40).
  { apply Qabs_bound. change (pow2 40) with 1099511627776. clearbody a. split; lra. }
  pose proof (@double_error_bound a 40 ltac:(lia) Htenth) as Herr.
  change (pow2 (40 - 53)) with (1 # 8192) in Herr.
  apply Qabs_bound in Herr as [Herr_low Herr_high].
  set (x := double a) in *.
  unfold Spec.to_one_decimal, num_mul.
  assert (Hscaled : Qabs (x * 10) <= pow2 44).
  { apply Qabs_bound. change (pow2 44) with 17592186044416.
    clearbody x. clearbody a. split; lra. }
  pose proof (@double_error_bound (x * 10) 44 ltac:(lia) Hscaled) as Herr2.
  change (pow2 (44 - 53)) with (1 # 512) in Herr2.
  apply Qabs_bound in Herr2 as [Herr2_low Herr2_high].
  rewrite (@Math_round_near (double (x * 10)) k).
  - unfold num_div. reflexivity.
  - set (t := double (x * 10)) in *. clearbody t. clearbody x. clearbody a.
    apply Qabs_Qlt_condition. split; lra.
Qed.


End Rounding.

(* ================================================================= *)
(** ** Means *)

Section Means.

Import CsvParsingService.
Local Open Scope Q_scope.

Implicit Types (field : TransformedMeasurement -> Q)
  (records : list TransformedMeasurement) (xs : list Q).

Lemma fold_sum_map field records (start : Q) :
  fold_left (fun sum r => num_add sum (field r)) records start
  = fold_left num_add (map field records) start.
Proof.
  revert start. induction records as [|r records IH]; intros start; simpl.
  - reflexivity.
  - apply IH.
Qed.

(** The quotient the aggregator rounds is the mean of the field's
    values, in double arithmetic. *)
Lemma reduce_sum_mean field records :
  num_div (reduce_sum field records) (inject_Z (Z.of_nat (List.length records)))
  = Spec.mean_in_doubles (map field records).
Proof.
  unfold reduce_sum, Spec.mean_in_doubles.
  rewrite fold_sum_map, length_map. reflexivity.
Qed.


Lemma magnitudes_within_cons (limit x : Q) xs :
  Spec.magnitudes_within limit (x :: xs) = true
  <-> (- limit <= x /\ x <= limit) /\ Spec.magnitudes_within limit xs = true.
Proof.
  unfold Spec.magnitudes_within. cbn [forallb].
  rewrite andb_true_iff, Qle_bool_iff, Qabs_Qle_condition. reflexivity.
Qed.

Lemma count_bounds (k : nat) (limit : Z) :
  (Z.of_nat k <= limit)%Z ->
  0 <= inject_Z (Z.of_nat k) /\ inject_Z (Z.of_nat k) <= inject_Z limit.
Proof.
  intros Hk. change 0 with (inject_Z 0). rewrite <- !Zle_Qle. lia.
Qed.

Lemma count_succ (k : nat) :
  inject_Z (Z.of_nat (S k)) == inject_Z (Z.of_nat k) + 1.
Proof. rewrite Nat2Z.inj_succ. unfold Z.succ. rewrite inject_Z_plus. reflexivity. Qed.

(** The sum in double arithmetic of at most 10000 numbers of magnitude
    at most 100000 is away from the exact sum by at most [2^-23] for
    each number added. *)
Lemma sum_in_doubles_near xs :
  forall (start exact : Q) (k : nat),
    Spec.magnitudes_within 100000 xs = true ->
    (Z.of_nat (k + List.length xs) <= 10000)%Z ->
    Qabs (start - exact) <= inject_Z (Z.of_nat k) * (1 # 8388608) ->
    Qabs exact <= inject_Z (Z.of_nat k) * 100000 ->
    Qabs (fold_left num_add xs start - (exact + fold_right Qplus 0 xs))
    <= inject_Z (Z.of_nat (k + List.length xs)) * (1 # 8388608)
    /\ Qabs (exact + fold_right Qplus 0 xs)
       <= inject_Z (Z.of_nat (k + List.length xs)) * 100000.
Proof.
  induction xs as [|x xs IH]; intros start exact k Hwithin Hcount Hnear Hexact.
  - cbn [fold_left fold_right List.length]. rewrite Nat.add_0_r.
    assert (Hsame : exact + 0 == exact) by ring.
    rewrite Hsame. split; assumption.
  - apply magnitudes_within_cons in Hwithin as [[Hx_low Hx_high] Hwithin].
    cbn [List.length] in Hcount.
    destruct (@count_bounds k 9999 ltac:(lia)) as [Hk_low Hk_high].
    change (inject_Z 9999) with 9999 in Hk_high.
    pose proof (count_succ k) as Hsucc.
    apply Qabs_bound in Hnear as [Hnear_low Hnear_high].
    apply Qabs_bound in Hexact as [Hexact_low Hexact_high].
    set (kq := inject_Z (Z.of_nat k)) in *. clearbody kq.
    assert (Hstep : Qabs (start + x) <= pow2 30).
    { apply Qabs_bound. change (pow2 30) with 1073741824. split; lra. }
    pose proof (@double_error_bound (start + x) 30 ltac:(lia) Hstep) as Herr.
    change (pow2 (30 - 53)) with (1 # 8388608) in Herr.
    apply Qabs_bound in Herr as [Herr_low Herr_high].
    cbn [fold_left fold_right List.length]. unfold num_add at 2.
    destruct (IH (double (start + x)) (exact + x) (S k) Hwithin ltac:(lia))
      as [Hsum Hbound].
    + rewrite Hsucc. set (s := double (start + x)) in *. clearbody s.
      apply Qabs_bound. split; lra.
    + rewrite Hsucc. apply Qabs_bound. split; lra.
    + replace (k + S (List.length xs))%nat with (S k + List.length xs)%nat by lia.
      assert (Hassoc : exact + (x + fold_right Qplus 0 xs)
                       == exact + x + fold_right Qplus 0 xs) by ring.
      rewrite Hassoc. split; assumption.
Qed.

(** The mean in double arithmetic of at most 10000 numbers of
    magnitude at most 100000. *)
Lemma mean_in_doubles_near xs :
  xs <> [] ->
  Spec.magnitudes_within 100000 xs = true ->
  (Z.of_nat (List.length xs) <= 10000)%Z ->
  Qabs (Spec.mean_in_doubles xs - Spec.arithmetic_mean xs) <= 1 # 8000000
  /\ Qabs (Spec.mean_in_doubles xs) <= 100001.
Proof.
  intros Hxs Hwithin Hcount.
  destruct (@sum_in_doubles_near xs 0 0 0%nat Hwithin Hcount) as [Hsum Hexact].
  { change (Qabs (0 - 0)) with 0. change (inject_Z (Z.of_nat 0)) with 0. lra. }
  { change (Qabs 0) with 0. change (inject_Z (Z.of_nat 0)) with 0. lra. }
  cbn [Nat.add] in Hsum, Hexact.
  unfold Spec.mean_in_doubles, Spec.arithmetic_mean, num_div.
  assert (Hn : 1 <= inject_Z (Z.of_nat (List.length xs))).
  { change 1 with (inject_Z 1). rewrite <- Zle_Qle.
    destruct xs; [congruence|]. cbn [List.length]. lia. }
  set (n := inject_Z (Z.of_nat (List.length xs))) in *.
  set (s := fold_left num_add xs 0) in *.
  assert (Hzero : 0 + fold_right Qplus 0 xs == fold_right Qplus 0 xs) by ring.
  rewrite Hzero in Hsum, Hexact.
  set (S := fold_right Qplus 0 xs) in *.
  apply Qabs_bound in Hsum as [Hsum_low Hsum_high].
  apply Qabs_bound in Hexact as [Hexact_low Hexact_high].
  assert (Ha : s / n * n == s) by (field; lra).
  assert (Hb : S / n * n == S) by (field; lra).
  set (a := s / n) in *. set (b := S / n) in *.
  clearbody a b s S n.
  assert (Hdiff : - (1 # 8388608) <= a - b /\ a - b <= 1 # 8388608).
  { split.
    - apply (proj1 (Qmult_le_r _ _ n ltac:(lra))). lra.
    - apply (proj1 (Qmult_le_r _ _ n ltac:(lra))). lra. }
  assert (Hmean : - (100000) <= b /\ b <= 100000).
  { split.
    - apply (proj1 (Qmult_le_r _ _ n ltac:(lra))). lra.
    - apply (proj1 (Qmult_le_r _ _ n ltac:(lra))). lra. }
  assert (Hquotient : Qabs a <= pow2 17).
  { apply Qabs_bound. change (pow2 17) with 131072. split; lra. }
  pose proof (@double_error_bound a 17 ltac:(lia) Hquotient) as Herr.
  change (pow2 (17 - 53)) with (1 # 68719476736) in Herr.
  apply Qabs_bound in Herr as [Herr_low Herr_high].
  set (m := double a) in *. clearbody m.
  split; apply Qabs_bound; split; lra.
Qed.

(** What the aggregator makes of the readings of a field: away from
    their exact mean by at most a twentieth (a half, for the integer
    fields) and a millionth. *)
Lemma averaged_decimal_near xs :
  xs <> [] ->
  Spec.magnitudes_within 100000 xs = true ->
  (Z.of_nat (List.length xs) <= 10000)%Z ->
  Spec.one_decimal (Spec.to_one_decimal (Spec.mean_in_doubles xs))
  /\ Qabs (Spec.to_one_decimal (Spec.mean_in_doubles xs) - Spec.arithmetic_mean xs)
     <= (1 # 20) + (1 # 1000000).
Proof.
  intros Hxs Hwithin Hcount.
  destruct (mean_in_doubles_near Hxs Hwithin Hcount) as [Hmean Hsize].
  assert (Hlimit : Qabs (Spec.mean_in_doubles xs) <= 1000000000).
  { apply Qabs_bound in Hsize. apply Qabs_bound. lra. }
  destruct (@to_one_decimal_near _ Hlimit) as [k [Hk [_ Hnear]]].
  split; [exists k; exact Hk|].
  apply Qabs_bound in Hmean as [Hmean_low Hmean_high].
  apply Qabs_bound in Hnear as [Hnear_low Hnear_high].
  apply Qabs_bound. split; lra.
Qed.

Lemma averaged_integer_near xs :
  xs <> [] ->
  Spec.magnitudes_within 100000 xs = true ->
  (Z.of_nat (List.length xs) <= 10000)%Z ->
  Spec.is_whole (Math_round (Spec.mean_in_doubles xs)) = true
  /\ Qabs (Math_round (Spec.mean_in_doubles xs) - Spec.arithmetic_mean xs)
     <= (1 # 2) + (1 # 1000000).
Proof.
  intros Hxs Hwithin Hcount.
  destruct (mean_in_doubles_near Hxs Hwithin Hcount) as [Hmean _].
  split.
  - unfold Spec.is_whole, Math_round. rewrite Qfloor_Z. apply Qeq_bool_refl.
  - destruct (Math_round_within_half (Spec.mean_in_doubles xs)) as [Hlow Hhigh].
    apply Qabs_bound in Hmean as [Hmean_low Hmean_high].
    apply Qabs_bound. split; lra.
Qed.

End Means.

(* ================================================================= *)
(** ** The aggregator *)

Section Aggregator.

Import CsvParsingService.
Local Open Scope Q_scope.

Implicit Types (groups : JsObject.t (list TransformedMeasurement))
  (records : list TransformedMeasurement).

(** What one averaged record is, field by field. *)
Lemma average_entry_fields (d : string) (first : TransformedMeasurement) rest
    (r : TransformedMeasurement) :
  average_entry (d, first :: rest) = Ok r ->
  date r = d /\ time r = time first /\ source r = renpho_import
  /\ Forall (fun field =>
               field r
               == Spec.to_one_decimal
                    (Spec.mean_in_doubles (map field (first :: rest))))
       Spec.decimal_fields
  /\ Forall (fun field =>
               field r
               == Math_round (Spec.mean_in_doubles (map field (first :: rest))))
       Spec.integer_fields.
Proof.
  unfold average_entry. intros Hr. injection Hr as <-.
  repeat split; repeat constructor; cbn [weight bmi body_fat_percentage
    skeletal_muscle_percentage fat_free_body_weight subcutaneous_fat_percentage
    visceral_fat body_water_percentage muscle_mass bone_mass protein_percentage
    basal_metabolic_rate metabolic_age body_type];
    rewrite ?roundToDecimal_one, reduce_sum_mean; reflexivity.
Qed.

(** The bound on the numbers of the records, field by field. *)
Lemma field_magnitudes (limit : Q) (field : TransformedMeasurement -> Q) records :
  In field (Spec.decimal_fields ++ Spec.integer_fields) ->
  forallb (fun x => Spec.magnitudes_within limit (Spec.numbers x)) records = true ->
  Spec.magnitudes_within limit (map field records) = true.
Proof.
  intros Hfield Hall. rewrite forallb_forall in Hall.
  unfold Spec.magnitudes_within. apply forallb_forall.
  intros x Hx. apply in_map_iff in Hx as [r [<- Hr]].
  specialize (Hall r Hr). unfold Spec.magnitudes_within in Hall.
  rewrite forallb_forall in Hall. apply Hall.
  unfold Spec.numbers. apply (in_map (fun f => f r)) in Hfield. exact Hfield.
Qed.

Lemma averaged_dates_absent
    (entries : list (string * list TransformedMeasurement))
    (out : list TransformedMeasurement) (d : string) :
  Forall2 (fun entry r => average_entry entry = Ok r) entries out ->
  ~ In d (map fst entries) ->
  filter (Spec.on_date d) out = [].
Proof.
  induction 1 as [|[d' records] r entries out Hr _ IH]; simpl; intros Hfresh.
  - reflexivity.
  - destruct records as [|first rest]; [discriminate|].
    destruct (average_entry_fields Hr) as [Hdate _].
    unfold Spec.on_date at 1. rewrite Hdate.
    destruct (String.eqb_spec d' d); [tauto|].
    apply IH. tauto.
Qed.

Lemma averaged_date_once
    (entries : list (string * list TransformedMeasurement))
    (out : list TransformedMeasurement) (d : string) records :
  Forall2 (fun entry r => average_entry entry = Ok r) entries out ->
  NoDup (map fst entries) ->
  In (d, records) entries ->
  exists r, filter (Spec.on_date d) out = [r]
            /\ average_entry (d, records) = Ok r.
Proof.
  induction 1 as [|[d' records'] r entries out Hr Hrest IH]; simpl;
    intros Hkeys Hin; [contradiction|].
  inversion Hkeys as [|? ? Hfresh Hkeys']; subst.
  destruct records' as [|first rest]; [discriminate|].
  destruct (average_entry_fields Hr) as [Hdate _].
  unfold Spec.on_date at 1. rewrite Hdate.
  destruct Hin as [Hhere|Hlater].
  - injection Hhere as -> <-.
    rewrite String.eqb_refl.
    rewrite (averaged_dates_absent d Hrest Hfresh).
    exists r. auto.
  - destruct (String.eqb_spec d' d) as [->|Hne].
    + exfalso. apply Hfresh. apply (in_map fst) in Hlater. exact Hlater.
    + apply IH; assumption.
Qed.

Lemma group_same_day (a b : TransformedMeasurement) :
  date a = "2024-01-01"%string -> date b = "2024-01-01"%string ->
  groupByDate [a; b]
  = Ok ([("2024-01-01"%string, [a; b])],
        [{| dup_date := "2024-01-01"; count := 2 |}]).
Proof.
  intros Ha Hb. unfold groupByDate, group_all, group_record, JsObject.get.
  simpl. rewrite Ha, Hb. reflexivity.
Qed.

(** C2, as the code has it.  For groups that have each date once and no
    empty bucket (as [groupByDate] leaves them), [averageDailyMeasurements]
    returns one record per date.  The record of a date carries that date,
    the time of the date's first record and the import tag.  Each decimal
    field is [Math.round(mean * 10) / 10], and each of
    [basal_metabolic_rate], [metabolic_age], [body_type] is
    [Math.round(mean)], where [mean] is computed in double arithmetic:
    the values of the date added in their order to [0], the sum divided
    by their count.  With at most 10000 records on the date and no
    number beyond 100000 in magnitude, a decimal field is the double
    nearest to a number of one decimal place and within 1/20 + 1/1000000
    of the exact arithmetic mean, and an integer field is a whole number
    within 1/2 + 1/1000000 of it.  In particular two records dated
    2024-01-01 with weights 70.0 and 72.0 average to one record dated
    2024-01-01 with weight 71.0. *)
Theorem averageDailyMeasurements_one_record_per_date :
  (forall groups,
     NoDup (map fst groups) ->
     Spec.nonempty_buckets groups = true ->
     exists out,
       averageDailyMeasurements groups = Ok out
       /\ List.length out = List.length groups
       /\ forall d first rest,
            In (d, first :: rest) groups ->
            exists r,
              filter (Spec.on_date d) out = [r]
              /\ date r = d /\ time r = time first
              /\ source r = renpho_import
              /\ Forall
                   (fun field =>
                      field r
                      == Spec.to_one_decimal
                           (Spec.mean_in_doubles (map field (first :: rest))))
                   Spec.decimal_fields
              /\ Forall
                   (fun field =>
                      field r
                      == Math_round
                           (Spec.mean_in_doubles (map field (first :: rest))))
                   Spec.integer_fields
              /\ (forallb
                     (fun x => Spec.magnitudes_within 100000 (Spec.numbers x))
                     (first :: rest) = true ->
                   (Z.of_nat (List.length (first :: rest)) <= 10000)%Z ->
                   Forall
                     (fun field =>
                        let mean :=
                          Spec.arithmetic_mean (map field (first :: rest)) in
                        Spec.one_decimal (field r)
                        /\ Qabs (field r - mean) <= (1 # 20) + (1 # 1000000))
                     Spec.decimal_fields
                   /\ Forall
                        (fun field =>
                           let mean :=
                             Spec.arithmetic_mean (map field (first :: rest)) in
                           Spec.is_whole (field r) = true
                           /\ Qabs (field r - mean) <= (1 # 2) + (1 # 1000000))
                        Spec.integer_fields))
  /\ (forall a b : TransformedMeasurement,
        date a = "2024-01-01"%string -> date b = "2024-01-01"%string ->
        weight a == 70 -> weight b == 72 ->
        exists groups dups r,
          groupByDate [a; b] = Ok (groups, dups)
          /\ averageDailyMeasurements groups = Ok [r]
          /\ date r = "2024-01-01"%string
          /\ weight r == 71).
Proof.
  split.
  - intros groups Hkeys Hne.
    destruct (averageDailyMeasurements_returns groups Hne) as [out [Hrun Hout]].
    exists out. split; [exact Hrun|]. split.
    { rewrite <- (Forall2_length Hout).
      apply Permutation_length, entries_perm. }
    intros d first rest Hin.
    assert (Hkeys' : NoDup (map fst (JsObject.entries groups))).
    { apply Permutation_NoDup with (l := map fst groups); [|exact Hkeys].
      apply Permutation_map, Permutation_sym, entries_perm. }
    assert (Hin' : In (d, first :: rest) (JsObject.entries groups)).
    { apply (Permutation_in _ (Permutation_sym (entries_perm groups))).
      exact Hin. }
    destruct (averaged_date_once d (first :: rest) Hout Hkeys' Hin') as [r [Honce Hr]].
    exists r. split; [exact Honce|].
    destruct (average_entry_fields Hr)
      as [Hdate [Htime [Hsource [Hdecimal Hinteger]]]].
    repeat (split; [assumption|]).
    intros Hwithin Hcount.
    rewrite Forall_forall in Hdecimal, Hinteger.
    split; apply Forall_forall; intros field Hfield; cbv zeta.
    + assert (Hvalues : Spec.magnitudes_within 100000 (map field (first :: rest)) = true)
        by (apply field_magnitudes; [apply in_or_app; left; exact Hfield|exact Hwithin]).
      assert (Hsome : map field (first :: rest) <> []) by discriminate.
      assert (Hsize : (Z.of_nat (List.length (map field (first :: rest))) <= 10000)%Z)
        by (rewrite length_map; exact Hcount).
      destruct (averaged_decimal_near Hsome Hvalues Hsize) as [[k Hk] Hnear].
      split.
      * exists k. rewrite (Hdecimal field Hfield). exact Hk.
      * rewrite (Hdecimal field Hfield). exact Hnear.
    + assert (Hvalues : Spec.magnitudes_within 100000 (map field (first :: rest)) = true)
        by (apply field_magnitudes; [apply in_or_app; right; exact Hfield|exact Hwithin]).
      assert (Hsome : map field (first :: rest) <> []) by discriminate.
      assert (Hsize : (Z.of_nat (List.length (map field (first :: rest))) <= 10000)%Z)
        by (rewrite length_map; exact Hcount).
      destruct (averaged_integer_near Hsome Hvalues Hsize) as [Hwhole Hnear].
      split.
      * unfold Spec.is_whole in *. apply Qeq_bool_iff. apply Qeq_bool_iff in Hwhole.
        rewrite (Qfloor_comp _ _ (Hinteger field Hfield)).
        etransitivity; [exact Hwhole|]. symmetry. exact (Hinteger field Hfield).
      * rewrite (Hinteger field Hfield). exact Hnear.
  - intros a b Ha Hb Hwa Hwb.
    exists [("2024-01-01"%string, [a; b])],
           [{| dup_date := "2024-01-01"; count := 2 |}].
    eexists. split; [apply group_same_day; assumption|].
    split; [reflexivity|]. split; [reflexivity|].
    cbn [weight]. rewrite roundToDecimal_one. unfold reduce_sum.
    cbn [fold_left List.length]. rewrite Hwa, Hwb. vm_compute. reflexivity.
Qed.

Lemma averageDailyMeasurements_one_record_per_date_witness :
  NoDup (map fst (grouped Sample.three_readings))
  /\ Spec.nonempty_buckets (grouped Sample.three_readings) = true
  /\ exists out,
       averageDailyMeasurements (grouped Sample.three_readings) = Ok out
       /\ List.length out = 2%nat.
Proof.
  assert (Hkeys : NoDup (map fst (grouped Sample.three_readings))).
  { simpl. constructor; [intros [Heq|[]]; discriminate|].
    constructor; [intros []|constructor]. }
  split; [exact Hkeys|]. split; [reflexivity|].
  destruct (proj1 averageDailyMeasurements_one_record_per_date
              (grouped Sample.three_readings) Hkeys eq_refl)
    as [out [Hrun [Hlength _]]].
  exists out. auto.
Defined.

(** C2, as the specification words it, fails in two ways.  On a
    negative tie: two readings of one day with visceral fat -0.2 and
    -0.3 have mean -0.25; half away from zero is -0.3, the aggregator
    gives -0.2.  And by the rounding of the product: readings of 30 and
    30.7 have an exact mean below 30.35, whose nearest tenth is 30.3;
    the aggregator gives 30.4. *)
Lemma average_half_away_counterexample :
  (exists r,
     averageDailyMeasurements
       [("2024-01-01"%string,
         [Sample.visceral (double (- (2 # 10)));
          Sample.visceral (double (- (3 # 10)))])]
     = Ok [r]
     /\ Spec.arithmetic_mean
          (map visceral_fat
             [Sample.visceral (double (- (2 # 10)));
              Sample.visceral (double (- (3 # 10)))])
        == - (25 # 100)
     /\ Spec.round_half_away_from_zero (- (25 # 100)) 1 == - (3 # 10)
     /\ visceral_fat r == double (- (2 # 10))
     /\ ~ visceral_fat r == double (- (3 # 10)))
  /\ (exists r,
        averageDailyMeasurements
          [("2024-01-01"%string,
            [Sample.reading "2024-01-01" "7:57:06 a.m." 30;
             Sample.reading "2024-01-01" "9:12:40 p.m." (double (307 # 10))])]
        = Ok [r]
        /\ Spec.arithmetic_mean [30; double (307 # 10)] < 3035 # 100
        /\ Spec.round_half_away_from_zero
             (Spec.arithmetic_mean [30; double (307 # 10)]) 1 == 303 # 10
        /\ weight r == double (304 # 10)
        /\ ~ weight r == double (303 # 10)).
Proof.
  split.
  - eexists. split; [reflexivity|].
    split; [vm_compute; reflexivity|]. split; [reflexivity|].
    split; [vm_compute; reflexivity|].
    vm_compute. discriminate.
  - eexists. split; [reflexivity|].
    split; [vm_compute; reflexivity|]. split; [vm_compute; reflexivity|].
    split; [vm_compute; reflexivity|].
    vm_compute. discriminate.
Qed.

(** *** Averaging what is already averaged *)












End Aggregator.

(* ================================================================= *)
(** ** Messages *)

Section Messages.

Local Open Scope string_scope.

Lemma string_of_uint_digits (d : Decimal.uint) :
  all_digits (NilEmpty.string_of_uint d) = true.
Proof.
  induction d; simpl; try reflexivity;
    apply all_digits_cons; split; try reflexivity; assumption.
Qed.

Lemma to_uint_nonnil (n : nat) : Nat.to_uint n <> Decimal.Nil.
Proof.
  rewrite <- (DecimalNat.Unsigned.of_to n) at 1. rewrite DecimalNat.Unsigned.to_of.
  apply DecimalFacts.unorm_nonnil.
Qed.

(** A count is printed as a non-empty run of digits. *)
Lemma string_of_nat_digits (n : nat) :
  all_digits (string_of_nat n) = true /\ string_of_nat n <> "".
Proof.
  unfold string_of_nat. split; [apply string_of_uint_digits|].
  pose proof (to_uint_nonnil n) as Hnonnil.
  destruct (Nat.to_uint n); simpl; congruence.
Qed.

Lemma string_of_nat_inj (n m : nat) : string_of_nat n = string_of_nat m -> n = m.
Proof.
  unfold string_of_nat. intros Heq.
  apply DecimalNat.Unsigned.to_uint_inj.
  pose proof (NilEmpty.usu (Nat.to_uint n)) as Hn.
  pose proof (NilEmpty.usu (Nat.to_uint m)) as Hm.
  rewrite Heq in Hn. congruence.
Qed.

(** Two runs of digits, each followed by a space, agree only if the
    runs agree. *)
Lemma digits_then_space (a b x y : string) :
  all_digits a = true -> all_digits b = true ->
  a ++ String " " x = b ++ String " " y -> a = b /\ x = y.
Proof.
  revert b. induction a as [|c a IH]; intros [|c' b] Ha Hb Heq; simpl in Heq.
  - injection Heq as ->. auto.
  - injection Heq as <- _. apply all_digits_cons in Hb as [Hc _]. discriminate.
  - injection Heq as -> _. apply all_digits_cons in Ha as [Hc _]. discriminate.
  - injection Heq as -> Heq.
    apply all_digits_cons in Ha as [_ Ha]. apply all_digits_cons in Hb as [_ Hb].
    destruct (IH b Ha Hb Heq) as [-> ->]. auto.
Qed.

Lemma filter_Boolean_keeps (xs : list string) :
  Forall (fun s => s <> "") xs -> filter_Boolean xs = xs.
Proof.
  unfold filter_Boolean.
  induction 1 as [|s xs Hs _ IH]; simpl; [reflexivity|].
  destruct (String.eqb_spec s ""); [contradiction|].
  simpl. rewrite IH. reflexivity.
Qed.

Lemma filter_Boolean_In (xs : list string) (s : string) :
  In s (filter_Boolean xs) <-> In s xs /\ s <> "".
Proof.
  unfold filter_Boolean. rewrite filter_In, negb_true_iff.
  destruct (String.eqb_spec s ""); intuition congruence.
Qed.

End Messages.

(* ================================================================= *)
(** ** The validator *)

Section ComparisonFacts.

Local Open Scope Q_scope.

#[global] Instance ltb_comp : Proper (Qeq ==> Qeq ==> eq) ltb.
Proof. intros x x' Hx y y' Hy. unfold ltb. rewrite Hx, Hy. reflexivity. Qed.

#[global] Instance gtb_comp : Proper (Qeq ==> Qeq ==> eq) gtb.
Proof. intros x x' Hx y y' Hy. unfold gtb. rewrite Hx, Hy. reflexivity. Qed.

Lemma ltb_lt (x y : Q) : ltb x y = true <-> x < y.
Proof.
  unfold ltb. rewrite negb_true_iff.
  destruct (Qle_bool y x) eqn:Hle.
  - apply Qle_bool_iff in Hle. split; [discriminate|]. intros Hlt. lra.
  - split; [intros _|reflexivity].
    apply Qnot_le_lt. intros Hyx. apply Qle_bool_iff in Hyx. congruence.
Qed.

Lemma out_of_in_range (low high x : Q) :
  ImportValidationService.out_of low high x = negb (Spec.in_range low high x).
Proof.
  unfold ImportValidationService.out_of, Spec.in_range, gtb, ltb.
  rewrite negb_andb. reflexivity.
Qed.

End ComparisonFacts.

Section SchemaFacts.

Local Open Scope Q_scope.

Lemma check_number_in_range (schema : Zod.number_schema) (at_path : list string) (x : Q) :
  Spec.in_range (Zod.minimum schema) (Zod.maximum schema) x = true ->
  Zod.check_number schema at_path x = [].
Proof.
  intros Hrange. apply (f_equal negb) in Hrange.
  rewrite <- out_of_in_range in Hrange. simpl in Hrange.
  apply orb_false_iff in Hrange as [Hlow Hhigh].
  unfold Zod.check_number. rewrite Hlow, Hhigh. reflexivity.
Qed.

Lemma check_number_violation (schema : Zod.number_schema) (at_path : list string) (x : Q) :
  Spec.in_range (Zod.minimum schema) (Zod.maximum schema) x = false ->
  exists text,
    In {| Zod.path := at_path; Zod.message := text |}
      (Zod.check_number schema at_path x).
Proof.
  intros Hrange. apply (f_equal negb) in Hrange.
  rewrite <- out_of_in_range in Hrange. simpl in Hrange.
  unfold Zod.check_number.
  apply orb_true_iff in Hrange as [Hlow|Hhigh].
  - rewrite Hlow. eexists. left. reflexivity.
  - rewrite Hhigh. eexists. apply in_or_app. right. left. reflexivity.
Qed.

Lemma check_number_comp (schema : Zod.number_schema) (at_path : list string) (x y : Q) :
  x == y -> Zod.check_number schema at_path x = Zod.check_number schema at_path y.
Proof. intros Hxy. unfold Zod.check_number. rewrite Hxy. reflexivity. Qed.

(** The issues of the weight schema: those of the weight, then of the
    BMI, then of the body fat. *)
Lemma essential_issues (m : TransformedMeasurement) :
  Zod.safeParse weightValidationSchema
    (ImportValidationService.essential_fields m)
  = Zod.check_number
      {| Zod.minimum := 30; Zod.min_message := "Minimum weight is 30kg";
         Zod.maximum := 300; Zod.max_message := "Maximum weight is 300kg" |}
      ["weight"%string] (weight m)
    ++ Zod.check_number
         {| Zod.minimum := 10; Zod.min_message := "BMI too low";
            Zod.maximum := 60; Zod.max_message := "BMI too high" |}
         ["bmi"%string] (bmi m)
    ++ Zod.check_number
         {| Zod.minimum := 3; Zod.min_message := "Body fat percentage too low";
            Zod.maximum := 70; Zod.max_message := "Body fat percentage too high" |}
         ["body_fat_percentage"%string] (body_fat_percentage m)
    ++ [].
Proof. reflexivity. Qed.

End SchemaFacts.

Section IndexedMap.

Context {A B : Type}.

Lemma map_with_index_app (f : A -> nat -> B) (xs ys : list A) :
  forall index,
    map_with_index f index (xs ++ ys)
    = map_with_index f index xs ++ map_with_index f (index + List.length xs) ys.
Proof.
  induction xs as [|x xs IH]; intros index; simpl.
  - rewrite Nat.add_0_r. reflexivity.
  - rewrite IH.
    replace (S index + List.length xs)%nat with (index + S (List.length xs))%nat by lia.
    reflexivity.
Qed.

Lemma flat_map_indexed_nil {C} (f : A -> nat -> B) (g : B -> list C) (xs : list A) :
  forall index,
    (forall x i, In x xs -> g (f x i) = []) ->
    flat_map g (map_with_index f index xs) = [].
Proof.
  induction xs as [|x xs IH]; intros index Hnil; simpl; [reflexivity|].
  rewrite Hnil by (left; reflexivity).
  rewrite IH by (intros; apply Hnil; right; assumption). reflexivity.
Qed.

Lemma flat_map_indexed_rel {C} (f : A -> nat -> B) (g : B -> list C)
    (R : A -> A -> Prop) :
  (forall x y i, R x y -> g (f x i) = g (f y i)) ->
  forall xs ys, Forall2 R xs ys ->
  forall index,
    flat_map g (map_with_index f index xs) = flat_map g (map_with_index f index ys).
Proof.
  intros Hstep xs ys Hrel.
  induction Hrel as [|x y xs ys Hxy _ IH]; intros index; simpl; [reflexivity|].
  rewrite (Hstep x y index Hxy), IH. reflexivity.
Qed.

End IndexedMap.

Section PerRecord.

Import ImportValidationService.
Context `{Runtime}.
Local Open Scope string_scope.

Implicit Types (m : TransformedMeasurement) (n : nat).

Lemma row_message_nonempty n (detail : string) : Spec.row_message n detail <> "".
Proof. discriminate. Qed.

(** The errors of one record: the issues of the schema, then the date. *)
Lemma single_errors m n :
  errors (validateSingleMeasurement m n)
  = (map (fun issue => Spec.row_message n (Spec.issue_detail issue))
       (Zod.safeParse weightValidationSchema (essential_fields m))
     ++ (if negb (isValidDate (date m))
         then [Spec.row_message n ("Invalid date format: " ++ date m)]
         else []))%list.
Proof.
  unfold validateSingleMeasurement. cbn [errors].
  rewrite filter_Boolean_keeps; [reflexivity|].
  apply Forall_app. split.
  - apply Forall_forall. intros e He. apply in_map_iff in He as [issue [<- _]].
    discriminate.
  - destruct (negb (isValidDate (date m))); repeat constructor. discriminate.
Qed.

Lemma single_errors_valid m n :
  Spec.passes_hard_checks m = true -> errors (validateSingleMeasurement m n) = [].
Proof.
  unfold Spec.passes_hard_checks. intros Hpass.
  apply andb_true_iff in Hpass as [Hpass Hdate].
  apply andb_true_iff in Hpass as [Hpass Hfat].
  apply andb_true_iff in Hpass as [Hweight Hbmi].
  rewrite single_errors, essential_issues.
  rewrite !check_number_in_range by assumption.
  rewrite Hdate. reflexivity.
Qed.

Lemma single_errors_comp m m' n :
  Spec.same_hard_fields m m' ->
  errors (validateSingleMeasurement m n) = errors (validateSingleMeasurement m' n).
Proof.
  intros [Hdate [Hweight [Hbmi Hfat]]].
  rewrite !single_errors, !essential_issues, Hdate.
  rewrite (check_number_comp _ _ Hweight), (check_number_comp _ _ Hbmi),
    (check_number_comp _ _ Hfat).
  reflexivity.
Qed.

(** The warnings of one record: one per advisory field out of its band,
    then the time. *)
Lemma single_warnings m n :
  warnings (validateSingleMeasurement m n)
  = ((if out_of 0 100 (skeletal_muscle_percentage m)
      then [Spec.row_message n
              ("Skeletal muscle percentage ("
               ++ Number_toString (skeletal_muscle_percentage m)
               ++ "%) seems unusual")]
      else [])
     ++ (if out_of 30 80 (body_water_percentage m)
         then [Spec.row_message n
                 ("Body water percentage ("
                  ++ Number_toString (body_water_percentage m)
                  ++ "%) seems unusual")]
         else [])
     ++ (if out_of 0 30 (visceral_fat m)
         then [Spec.row_message n
                 ("Visceral fat level (" ++ Number_toString (visceral_fat m)
                  ++ ") seems unusual")]
         else [])
     ++ (if out_of 800 4000 (basal_metabolic_rate m)
         then [Spec.row_message n
                 ("BMR (" ++ Number_toString (basal_metabolic_rate m)
                  ++ " kcal) seems unusual")]
         else [])
     ++ (if out_of 10 120 (metabolic_age m)
         then [Spec.row_message n
                 ("Metabolic age (" ++ Number_toString (metabolic_age m)
                  ++ ") seems unusual")]
         else [])
     ++ (if negb (isValidTime (time m))
         then [Spec.row_message n ("Unusual time format: " ++ time m)]
         else []))%list.
Proof.
  unfold validateSingleMeasurement. cbn [warnings].
  rewrite filter_Boolean_keeps; [reflexivity|].
  destruct (out_of 0 100 _), (out_of 30 80 _), (out_of 0 30 _),
    (out_of 800 4000 _), (out_of 10 120 _), (negb (isValidTime _));
    repeat constructor; discriminate.
Qed.

Lemma single_warnings_rows m n :
  Forall (fun w => exists detail, w = Spec.row_message n detail)
    (warnings (validateSingleMeasurement m n)).
Proof.
  rewrite single_warnings.
  destruct (out_of 0 100 _), (out_of 30 80 _), (out_of 0 30 _),
    (out_of 800 4000 _), (out_of 10 120 _), (negb (isValidTime _));
    repeat constructor; eexists; reflexivity.
Qed.

End PerRecord.

Section WholeSet.

Import ImportValidationService.
Context `{Runtime}.

Implicit Types (data before after : list TransformedMeasurement)
  (dups : list DuplicateDetection) (m r : TransformedMeasurement).

Lemma validateMeasurements_errors data dups :
  data <> [] ->
  errors (validateMeasurements data dups)
  = filter_Boolean (flat_map errors (validate_each data) ++ errors (validateDateRange data)).
Proof. destruct data; [congruence|reflexivity]. Qed.

Lemma validateMeasurements_isValid data dups :
  data <> [] ->
  isValid (validateMeasurements data dups)
  = (List.length (flat_map errors (validate_each data) ++ errors (validateDateRange data))
     =? 0)%nat.
Proof. destruct data; [congruence|reflexivity]. Qed.

Lemma validateMeasurements_warnings data dups :
  data <> [] ->
  warnings (validateMeasurements data dups)
  = filter_Boolean
      (flat_map warnings (validate_each data) ++ duplicate_warnings dups
       ++ warnings (validateDateRange data)
       ++ warnings (validateMeasurementConsistency data)).
Proof. destruct data; [congruence|reflexivity]. Qed.

Lemma each_at before r after :
  validate_each (before ++ r :: after)
  = (validate_each before
     ++ validateSingleMeasurement r (List.length before + 1)
     :: map_with_index
          (fun measurement index => validateSingleMeasurement measurement (index + 1))
          (S (List.length before)) after)%list.
Proof. unfold validate_each. rewrite map_with_index_app. reflexivity. Qed.

Lemma middle_nonempty before r after : before ++ r :: after <> [].
Proof. destruct before; discriminate. Qed.

(** *** Dates *)

Lemma valid_dates_found data m (t : Z) :
  In m data -> Date_getTime (date m) = Some t -> valid_dates data <> [].
Proof.
  intros Hin Htime Hnone.
  assert (Hfound : In t (valid_dates data)).
  { unfold valid_dates. apply in_flat_map. exists m. rewrite Htime.
    split; [exact Hin|left; reflexivity]. }
  rewrite Hnone in Hfound. contradiction.
Qed.

Lemma validateDateRange_no_error data :
  valid_dates data <> [] -> errors (validateDateRange data) = [].
Proof.
  unfold validateDateRange. destruct (valid_dates data); [congruence|reflexivity].
Qed.

Lemma validateDateRange_comp data data' :
  Forall2 Spec.same_hard_fields data data' ->
  validateDateRange data = validateDateRange data'.
Proof.
  intros Hsame. unfold validateDateRange.
  replace (valid_dates data') with (valid_dates data); [reflexivity|].
  unfold valid_dates.
  induction Hsame as [|m m' data data' [Hdate _] _ IH]; simpl; [reflexivity|].
  rewrite Hdate, IH. reflexivity.
Qed.

Lemma isValidDate_time (d : string) :
  isValidDate d = true -> exists t, Date_getTime d = Some t.
Proof.
  unfold isValidDate. destruct (Date_getTime d) as [t|]; [eauto|discriminate].
Qed.

(** *** Errors depend on the hard fields only *)

Lemma errors_comp data data' dups :
  Forall2 Spec.same_hard_fields data data' ->
  errors (validateMeasurements data dups) = errors (validateMeasurements data' dups)
  /\ isValid (validateMeasurements data dups)
     = isValid (validateMeasurements data' dups).
Proof.
  intros Hsame.
  destruct Hsame as [|m m' data data' Hm Hrest]; [auto|].
  assert (Hall : Forall2 Spec.same_hard_fields (m :: data) (m' :: data'))
    by (constructor; assumption).
  rewrite !validateMeasurements_errors, !validateMeasurements_isValid
    by discriminate.
  rewrite (validateDateRange_comp Hall).
  unfold validate_each.
  rewrite (@flat_map_indexed_rel _ _ _
             (fun measurement index =>
                validateSingleMeasurement measurement (index + 1))
             errors Spec.same_hard_fields
             (fun x y i Hxy => single_errors_comp (i + 1) Hxy)
             _ _ Hall 0).
  auto.
Qed.

(** *** From one record to the whole set *)

Lemma record_error_reported before r after dups (e : string) :
  In e (errors (validateSingleMeasurement r (List.length before + 1))) ->
  In e (errors (validateMeasurements (before ++ r :: after) dups))
  /\ isValid (validateMeasurements (before ++ r :: after) dups) = false.
Proof.
  intros Hin.
  assert (Hall : In e (flat_map errors (validate_each (before ++ r :: after))
                       ++ errors (validateDateRange (before ++ r :: after)))%list).
  { apply in_or_app. left. rewrite each_at, flat_map_app. simpl.
    apply in_or_app. right. apply in_or_app. left. exact Hin. }
  rewrite validateMeasurements_errors, validateMeasurements_isValid
    by apply middle_nonempty.
  split.
  - apply filter_Boolean_In. split; [exact Hall|].
    rewrite single_errors in Hin.
    apply in_app_or in Hin as [Hin|Hin].
    + apply in_map_iff in Hin as [issue [<- _]]. discriminate.
    + destruct (negb (isValidDate (date r))); [|contradiction].
      destruct Hin as [<-|[]]. discriminate.
  - destruct (flat_map errors (validate_each (before ++ r :: after))
              ++ errors (validateDateRange (before ++ r :: after)))%list;
      [contradiction|reflexivity].
Qed.

Lemma record_warning_reported before r after dups (w : string) :
  In w (warnings (validateSingleMeasurement r (List.length before + 1))) ->
  In w (warnings (validateMeasurements (before ++ r :: after) dups)).
Proof.
  intros Hin.
  rewrite validateMeasurements_warnings by apply middle_nonempty.
  apply filter_Boolean_In. split.
  - apply in_or_app. left. rewrite each_at, flat_map_app. simpl.
    apply in_or_app. right. apply in_or_app. left. exact Hin.
  - pose proof (single_warnings_rows r (List.length before + 1)) as Hrows.
    rewrite Forall_forall in Hrows.
    destruct (Hrows w Hin) as [detail ->]. discriminate.
Qed.

End WholeSet.

Section ValidatorClaims.

Import ImportValidationService.
Context `{Runtime}.

Implicit Types (before after : list TransformedMeasurement)
  (dups : list DuplicateDetection) (r : TransformedMeasurement).

(** Finds a message in a concatenation of one-message blocks. *)
Ltac find_message :=
  repeat first
    [ apply in_or_app; left; left; reflexivity
    | left; reflexivity
    | apply in_or_app; right ].

Lemma same_hard_fields_refl r : Spec.same_hard_fields r r.
Proof. repeat split; reflexivity. Qed.

Lemma same_hard_fields_around before after r r' :
  Spec.same_hard_fields r' r ->
  Forall2 Spec.same_hard_fields (before ++ r' :: after) (before ++ r :: after).
Proof.
  intros Hr. apply Forall2_app; [|constructor; [exact Hr|]].
  - induction before; constructor; [apply same_hard_fields_refl|assumption].
  - induction after; constructor; [apply same_hard_fields_refl|assumption].
Qed.

Lemma no_errors_each (data : list TransformedMeasurement) (start : nat) :
  forallb Spec.passes_hard_checks data = true ->
  flat_map errors
    (map_with_index
       (fun measurement index => validateSingleMeasurement measurement (index + 1))
       start data) = [].
Proof.
  intros Hpass. rewrite forallb_forall in Hpass.
  apply flat_map_indexed_nil. intros x i Hx.
  apply single_errors_valid, Hpass, Hx.
Qed.

(** A weight of 25 kg on a record that otherwise passes. *)
Lemma underweight_one_error before after r dups :
  forallb Spec.passes_hard_checks (before ++ r :: after) = true ->
  errors (validateMeasurements (before ++ Spec.with_weight r 25 :: after) dups)
  = [Spec.row_message (List.length before + 1) "weight: Minimum weight is 30kg"]
  /\ isValid (validateMeasurements (before ++ Spec.with_weight r 25 :: after) dups)
     = false.
Proof.
  intros Hpass.
  rewrite forallb_app in Hpass. apply andb_true_iff in Hpass as [Hbefore Hrest].
  simpl in Hrest. apply andb_true_iff in Hrest as [Hr Hafter].
  assert (Hrecord :
    errors (validateSingleMeasurement (Spec.with_weight r 25) (List.length before + 1))
    = [Spec.row_message (List.length before + 1) "weight: Minimum weight is 30kg"]).
  { unfold Spec.passes_hard_checks in Hr.
    apply andb_true_iff in Hr as [Hr Hdate].
    apply andb_true_iff in Hr as [Hr Hfat].
    apply andb_true_iff in Hr as [_ Hbmi].
    rewrite single_errors, essential_issues. cbn [Spec.with_weight weight bmi
      body_fat_percentage date].
    rewrite (@check_number_in_range _ ["bmi"%string] (bmi r)) by exact Hbmi.
    rewrite (@check_number_in_range _ ["body_fat_percentage"%string]
               (body_fat_percentage r)) by exact Hfat.
    rewrite Hdate. reflexivity. }
  assert (Hdates :
    errors (validateDateRange (before ++ Spec.with_weight r 25 :: after)) = []).
  { unfold Spec.passes_hard_checks in Hr.
    apply andb_true_iff in Hr as [_ Hdate].
    destruct (isValidDate_time _ Hdate) as [t Ht].
    apply validateDateRange_no_error.
    apply (@valid_dates_found _ _ (Spec.with_weight r 25) t);
      [apply in_or_app; right; left; reflexivity|exact Ht]. }
  assert (Hall :
    (flat_map errors (validate_each (before ++ Spec.with_weight r 25 :: after))
     ++ errors (validateDateRange (before ++ Spec.with_weight r 25 :: after)))%list
    = [Spec.row_message (List.length before + 1) "weight: Minimum weight is 30kg"]).
  { rewrite Hdates, each_at, flat_map_app. cbn [flat_map].
    unfold validate_each. rewrite !no_errors_each by assumption.
    rewrite Hrecord. reflexivity. }
  rewrite validateMeasurements_errors, validateMeasurements_isValid
    by apply middle_nonempty.
  rewrite Hall. split; reflexivity.
Qed.

(** A violated hard range is an error of the row, and blocks. *)
Lemma hard_violation_reported before after r dups
    (schema : Zod.number_schema) (key : string) (x : Q) :
  In (key, schema) weightValidationSchema ->
  In (key, x) (essential_fields r) ->
  Spec.in_range (Zod.minimum schema) (Zod.maximum schema) x = false ->
  exists text,
    In (Spec.row_message (List.length before + 1) (key ++ ": " ++ text))
      (errors (validateMeasurements (before ++ r :: after) dups))
    /\ isValid (validateMeasurements (before ++ r :: after) dups) = false.
Proof.
  intros Hschema Hfield Hrange.
  destruct (check_number_violation schema [key] x Hrange) as [text Hissue].
  exists text. apply record_error_reported.
  rewrite single_errors. apply in_or_app. left.
  apply in_map_iff.
  exists {| Zod.path := [key]; Zod.message := text |}.
  split; [reflexivity|].
  rewrite essential_issues.
  simpl in Hschema, Hfield.
  destruct Hschema as [Hs|[Hs|[Hs|[]]]]; injection Hs as <- <-;
    destruct Hfield as [Hf|[Hf|[Hf|[]]]]; try discriminate Hf;
    injection Hf as <-; rewrite !in_app_iff; tauto.
Qed.

(** An advisory field outside its band is a warning of the row. *)
Lemma advisory_violations_warned before after r dups :
  let row := (List.length before + 1)%nat in
  let found := warnings (validateMeasurements (before ++ r :: after) dups) in
  (Spec.in_range 0 100 (skeletal_muscle_percentage r) = false ->
   In (Spec.row_message row
         ("Skeletal muscle percentage ("
          ++ Number_toString (skeletal_muscle_percentage r)
          ++ "%) seems unusual")) found)
  /\ (Spec.in_range 30 80 (body_water_percentage r) = false ->
      In (Spec.row_message row
            ("Body water percentage ("
             ++ Number_toString (body_water_percentage r)
             ++ "%) seems unusual")) found)
  /\ (Spec.in_range 0 30 (visceral_fat r) = false ->
      In (Spec.row_message row
            ("Visceral fat level (" ++ Number_toString (visceral_fat r)
             ++ ") seems unusual")) found)
  /\ (Spec.in_range 800 4000 (basal_metabolic_rate r) = false ->
      In (Spec.row_message row
            ("BMR (" ++ Number_toString (basal_metabolic_rate r)
             ++ " kcal) seems unusual")) found)
  /\ (Spec.in_range 10 120 (metabolic_age r) = false ->
      In (Spec.row_message row
            ("Metabolic age (" ++ Number_toString (metabolic_age r)
             ++ ") seems unusual")) found).
Proof.
  cbv zeta.
  repeat split; intros Hout; apply record_warning_reported;
    rewrite single_warnings, !out_of_in_range, Hout; cbn [negb];
    find_message.
Qed.

(** C6.  Hard ranges are errors, advisory bands are warnings.  For a
    record [r] at any row of any record set:

    - if the set passes the hard checks, giving [r] a weight of 25 kg
      yields exactly one error, the row's ["weight: Minimum weight is
      30kg"], and [isValid = false];
    - giving [r] a skeletal-muscle percentage of 150 yields the row's
      skeletal-muscle warning and leaves the errors and [isValid] what
      they are without it;
    - a weight outside [30, 300], a BMI outside [10, 60] or a body-fat
      percentage outside [3, 70] is an error of the row and makes
      [isValid] false;
    - the errors and [isValid] are the same for any record with the
      same date, weight, BMI and body fat, whatever its advisory
      fields, and an advisory field outside its band is a warning of
      the row. *)
Theorem validateMeasurements_hard_errors_advisory_warnings :
  forall before after r dups,
    let row := (List.length before + 1)%nat in
    let validated := validateMeasurements (before ++ r :: after) dups in
    (forallb Spec.passes_hard_checks (before ++ r :: after) = true ->
     let underweight :=
       validateMeasurements (before ++ Spec.with_weight r 25 :: after) dups in
     errors underweight = [Spec.row_message row "weight: Minimum weight is 30kg"]
     /\ isValid underweight = false)
    /\ (let muscular :=
          validateMeasurements
            (before ++ Spec.with_skeletal_muscle r 150 :: after) dups in
        In (Spec.row_message row
              ("Skeletal muscle percentage (" ++ Number_toString 150
               ++ "%) seems unusual"))
          (warnings muscular)
        /\ errors muscular = errors validated
        /\ isValid muscular = isValid validated)
    /\ (Spec.in_range 30 300 (weight r) = false ->
        exists text,
          In (Spec.row_message row ("weight: " ++ text)) (errors validated)
          /\ isValid validated = false)
    /\ (Spec.in_range 10 60 (bmi r) = false ->
        exists text,
          In (Spec.row_message row ("bmi: " ++ text)) (errors validated)
          /\ isValid validated = false)
    /\ (Spec.in_range 3 70 (body_fat_percentage r) = false ->
        exists text,
          In (Spec.row_message row ("body_fat_percentage: " ++ text))
            (errors validated)
          /\ isValid validated = false)
    /\ (forall r',
          Spec.same_hard_fields r' r ->
          errors (validateMeasurements (before ++ r' :: after) dups)
          = errors validated
          /\ isValid (validateMeasurements (before ++ r' :: after) dups)
             = isValid validated)
    /\ (Spec.in_range 0 100 (skeletal_muscle_percentage r) = false ->
        In (Spec.row_message row
              ("Skeletal muscle percentage ("
               ++ Number_toString (skeletal_muscle_percentage r)
               ++ "%) seems unusual")) (warnings validated))
    /\ (Spec.in_range 30 80 (body_water_percentage r) = false ->
        In (Spec.row_message row
              ("Body water percentage ("
               ++ Number_toString (body_water_percentage r)
               ++ "%) seems unusual")) (warnings validated))
    /\ (Spec.in_range 0 30 (visceral_fat r) = false ->
        In (Spec.row_message row
              ("Visceral fat level (" ++ Number_toString (visceral_fat r)
               ++ ") seems unusual")) (warnings validated))
    /\ (Spec.in_range 800 4000 (basal_metabolic_rate r) = false ->
        In (Spec.row_message row
              ("BMR (" ++ Number_toString (basal_metabolic_rate r)
               ++ " kcal) seems unusual")) (warnings validated))
    /\ (Spec.in_range 10 120 (metabolic_age r) = false ->
        In (Spec.row_message row
              ("Metabolic age (" ++ Number_toString (metabolic_age r)
               ++ ") seems unusual")) (warnings validated)).
Proof.
  intros before after r dups. cbv zeta.
  split; [apply underweight_one_error|].
  split.
  { split.
    - apply record_warning_reported.
      rewrite single_warnings. find_message.
    - apply errors_comp, same_hard_fields_around.
      repeat split; reflexivity. }
  split.
  { intros Hrange.
    apply (@hard_violation_reported before after r dups
             {| Zod.minimum := 30; Zod.min_message := "Minimum weight is 30kg";
                Zod.maximum := 300; Zod.max_message := "Maximum weight is 300kg" |}
             "weight" (weight r));
      [simpl; tauto|simpl; tauto|exact Hrange]. }
  split.
  { intros Hrange.
    apply (@hard_violation_reported before after r dups
             {| Zod.minimum := 10; Zod.min_message := "BMI too low";
                Zod.maximum := 60; Zod.max_message := "BMI too high" |}
             "bmi" (bmi r));
      [simpl; tauto|simpl; tauto|exact Hrange]. }
  split.
  { intros Hrange.
    apply (@hard_violation_reported before after r dups
             {| Zod.minimum := 3;
                Zod.min_message := "Body fat percentage too low";
                Zod.maximum := 70;
                Zod.max_message := "Body fat percentage too high" |}
             "body_fat_percentage" (body_fat_percentage r));
      [simpl; tauto|simpl; tauto|exact Hrange]. }
  split.
  { intros r' Hsame. apply errors_comp, same_hard_fields_around. exact Hsame. }
  apply advisory_violations_warned.
Qed.

End ValidatorClaims.

Section ValidatorRuns.

Import ImportValidationService ReferenceRuntime.

Lemma validateMeasurements_hard_errors_advisory_warnings_witness :
  forallb Spec.passes_hard_checks ([Sample.morning] ++ Sample.next_day :: []) = true
  /\ errors (validateMeasurements
               ([Sample.morning] ++ Spec.with_weight Sample.next_day 25 :: []) [])
     = [Spec.row_message (List.length [Sample.morning] + 1)
          "weight: Minimum weight is 30kg"]
  /\ isValid (validateMeasurements
                ([Sample.morning] ++ Spec.with_weight Sample.next_day 25 :: []) [])
     = false.
Proof.
  split; [vm_compute; reflexivity|].
  apply (proj1 (@validateMeasurements_hard_errors_advisory_warnings
                  ReferenceRuntime.runtime [Sample.morning] [] Sample.next_day [])).
  vm_compute; reflexivity.
Defined.

End ValidatorRuns.

(* ================================================================= *)
(** ** The consistency stage *)

Section ConsistencyMessages.

Import ImportValidationService.
Context `{Runtime}.

Lemma bmi_warning_text (n : nat) :
  bmi_warning n
  = (string_of_nat n
     ++ String " " "measurements have inconsistent BMI calculations")%string.
Proof. reflexivity. Qed.

Lemma bmi_warning_nonempty (n : nat) : bmi_warning n <> ""%string.
Proof.
  rewrite bmi_warning_text.
  destruct (string_of_nat n); discriminate.
Qed.

Lemma bmi_warning_inj (n k : nat) : bmi_warning n = bmi_warning k -> n = k.
Proof.
  rewrite !bmi_warning_text. intros Heq.
  apply string_of_nat_inj.
  apply (digits_then_space _ _ _ _
           (proj1 (string_of_nat_digits n)) (proj1 (string_of_nat_digits k)) Heq).
Qed.

(** The aggregate warning opens with its count. *)
Lemma bmi_warning_opens_with_count (n : nat) :
  Spec.opens_with_word (bmi_warning n) = false.
Proof.
  rewrite bmi_warning_text.
  destruct (string_of_nat_digits n) as [Hdigits Hnonempty].
  destruct (string_of_nat n) as [|c rest]; [congruence|].
  apply all_digits_cons in Hdigits as [Hc _].
  unfold Spec.opens_with_word. simpl. rewrite Hc. reflexivity.
Qed.

Lemma word_is_not_bmi_warning (w : string) (n : nat) :
  Spec.opens_with_word w = true -> w <> bmi_warning n.
Proof.
  intros Hword ->. rewrite bmi_warning_opens_with_count in Hword. discriminate.
Qed.

(** A duplicate-date warning counts measurements that were "found". *)
Lemma duplicate_is_not_bmi_warning (d : DuplicateDetection) (n : nat) :
  template [string_of_nat (count d); " measurements found for "; dup_date d]%string
  <> bmi_warning n.
Proof.
  rewrite bmi_warning_text.
  change (template [string_of_nat (count d); " measurements found for ";
                    dup_date d]%string)
    with (string_of_nat (count d)
          ++ String " " ("measurements found for " ++ dup_date d))%string.
  intros Heq.
  apply digits_then_space in Heq as [_ Heq];
    [|apply string_of_nat_digits|apply string_of_nat_digits].
  discriminate Heq.
Qed.

Lemma absent_when_words (ws : list string) (n : nat) :
  forallb Spec.opens_with_word ws = true -> ~ In (bmi_warning n) ws.
Proof.
  rewrite forallb_forall. intros Hwords Hin.
  apply (word_is_not_bmi_warning n (Hwords _ Hin)). reflexivity.
Qed.

End ConsistencyMessages.

Section ConsistencyStage.

Import ImportValidationService.
Context `{Runtime}.
Local Open Scope Q_scope.

Implicit Types (data : list TransformedMeasurement)
  (dups : list DuplicateDetection).

(** The filter of the stage selects the records of implausible implied
    height. *)
Lemma bmi_inconsistent_spec (r : TransformedMeasurement) :
  bmi_inconsistent r = true <-> Spec.implausible_height r.
Proof.
  unfold bmi_inconsistent, Spec.implausible_height, Spec.implied_height, gtb.
  destruct (Qle_bool (weight r) 0) eqn:Hweight; simpl.
  - apply Qle_bool_iff in Hweight. split; [discriminate|]. intros [Hpos _]. lra.
  - assert (Hw : 0 < weight r).
    { apply Qnot_le_lt. intros Hle. apply Qle_bool_iff in Hle. congruence. }
    destruct (Qle_bool (bmi r) 0) eqn:Hbmi; simpl.
    + apply Qle_bool_iff in Hbmi. split; [discriminate|]. intros [_ [Hpos _]]. lra.
    + assert (Hb : 0 < bmi r).
      { apply Qnot_le_lt. intros Hle. apply Qle_bool_iff in Hle. congruence. }
      rewrite orb_true_iff, !ltb_lt. tauto.
Qed.

(** The implied height follows the quotient of weight and BMI: it is
    below 1.2 when the quotient is below 1.44, and above 2.5 when the
    quotient is above 6.25, a billionth apart from these bounds. *)
Lemma implied_height_by_quotient (r : TransformedMeasurement) :
  (weight r / bmi r <= 1439999999 # 1000000000 ->
   Spec.implied_height r < double (12 # 10))
  /\ (1440000001 # 1000000000 <= weight r / bmi r ->
      double (12 # 10) <= Spec.implied_height r)
  /\ (weight r / bmi r <= 6249999999 # 1000000000 ->
      Spec.implied_height r <= 25 # 10)
  /\ (6250000001 # 1000000000 <= weight r / bmi r ->
      25 # 10 < Spec.implied_height r).
Proof.
  unfold Spec.implied_height, num_div.
  split; [|split; [|split]]; intros Hquotient.
  - apply Qle_lt_trans
      with (Math_sqrt (double (1439999999 # 1000000000)));
      [|vm_compute; reflexivity].
    apply Math_sqrt_monotone, double_monotone, Hquotient.
  - apply Qle_trans
      with (Math_sqrt (double (1440000001 # 1000000000)));
      [vm_compute; discriminate|].
    apply Math_sqrt_monotone, double_monotone, Hquotient.
  - apply Qle_trans
      with (Math_sqrt (double (6249999999 # 1000000000)));
      [|vm_compute; discriminate].
    apply Math_sqrt_monotone, double_monotone, Hquotient.
  - apply Qlt_le_trans
      with (Math_sqrt (double (6250000001 # 1000000000)));
      [vm_compute; reflexivity|].
    apply Math_sqrt_monotone, double_monotone, Hquotient.
Qed.

Lemma record_warnings_are_words data :
  forall start,
    forallb Spec.opens_with_word
      (flat_map warnings
         (map_with_index
            (fun measurement index =>
               validateSingleMeasurement measurement (index + 1))
            start data)) = true.
Proof.
  induction data as [|m data IH]; intros start; simpl; [reflexivity|].
  rewrite forallb_app, IH, andb_true_r.
  apply forallb_forall. intros w Hw.
  pose proof (single_warnings_rows m (start + 1)) as Hrows.
  rewrite Forall_forall in Hrows.
  destruct (Hrows w Hw) as [detail ->]. reflexivity.
Qed.

Lemma date_warnings_are_words data :
  forallb Spec.opens_with_word (warnings (validateDateRange data)) = true.
Proof.
  unfold validateDateRange.
  destruct (valid_dates data) as [|first others]; [reflexivity|].
  cbv zeta. cbn [warnings].
  repeat match goal with
         | |- context [if ?c then _ else _] => destruct c
         end; reflexivity.
Qed.

Lemma duplicate_warnings_no_bmi dups (n : nat) :
  ~ In (bmi_warning n) (duplicate_warnings dups).
Proof.
  unfold duplicate_warnings.
  destruct (0 <? List.length dups)%nat; [|intros []].
  intros [Hfound|Hcount].
  - revert Hfound. apply word_is_not_bmi_warning. reflexivity.
  - apply in_map_iff in Hcount as [d [Hd _]].
    revert Hd. apply duplicate_is_not_bmi_warning.
Qed.

(** With fewer than two records the stage does nothing. *)
Lemma consistency_of_few data :
  (List.length data < 2)%nat ->
  validateMeasurementConsistency data
  = {| errors := []; warnings := []; isValid := true |}.
Proof.
  intros Hfew. unfold validateMeasurementConsistency.
  destruct (Nat.ltb_spec (List.length data) 2) as [_|Htwo]; [reflexivity|lia].
Qed.

(** With two records or more the stage yields at most a weight-variation
    warning, then the aggregate BMI warning when some record is
    inconsistent. *)
Lemma consistency_warnings data :
  (2 <= List.length data)%nat ->
  exists variation,
    warnings (validateMeasurementConsistency data)
    = (variation
       ++ (if (0 <? List.length (filter bmi_inconsistent data))%nat
           then [bmi_warning (List.length (filter bmi_inconsistent data))]
           else []))%list
    /\ forallb Spec.opens_with_word variation = true.
Proof.
  intros Htwo. unfold validateMeasurementConsistency.
  destruct (List.length data <? 2)%nat eqn:Hshort;
    [apply Nat.ltb_lt in Hshort; lia|].
  cbv zeta. cbn [warnings].
  eexists. split; [reflexivity|].
  destruct (filter (fun w => gtb w 0) (map weight data)) as [|first [|second rest]];
    try reflexivity.
  match goal with
  | |- context [if ?c then _ else _] => destruct c
  end; reflexivity.
Qed.

Lemma count_occ_filter_Boolean (ws : list string) (w : string) :
  w <> ""%string ->
  count_occ string_dec (filter_Boolean ws) w = count_occ string_dec ws w.
Proof.
  intros Hw. unfold filter_Boolean.
  induction ws as [|x ws IH]; simpl; [reflexivity|].
  destruct (String.eqb_spec x ""); simpl.
  - destruct (string_dec x w); [congruence|exact IH].
  - destruct (string_dec x w); rewrite IH; reflexivity.
Qed.

(** C8, as the code has it.  The records counted are those with
    positive weight and positive BMI whose implied height
    [sqrt (weight / bmi)], taken in double arithmetic, is below 1.2 or
    above 2.5 metres: those whose quotient of weight and BMI is below
    1.44 or above 6.25, and none whose quotient is between these, a
    billionth apart from the two bounds.  In a set of two records or
    more with one or more such records the warnings contain the
    aggregate inconsistent-BMI warning exactly once, with their
    count, and no such warning for another count; there is none when no
    record is counted, and none in a set of fewer than two records,
    which gets no consistency check at all. *)
Theorem inconsistent_bmi_is_one_aggregate_warning :
  forall data dups,
    let inconsistent := filter bmi_inconsistent data in
    (forall r, In r inconsistent <-> In r data /\ Spec.implausible_height r)
    /\ (forall r,
          0 < weight r -> 0 < bmi r ->
          (weight r / bmi r <= 1439999999 # 1000000000
           \/ 6250000001 # 1000000000 <= weight r / bmi r ->
           Spec.implausible_height r)
          /\ (1440000001 # 1000000000 <= weight r / bmi r
              /\ weight r / bmi r <= 6249999999 # 1000000000 ->
              ~ Spec.implausible_height r))
    /\ (forall n : nat,
          count_occ string_dec (warnings (validateMeasurements data dups))
            (bmi_warning n)
          = if ((2 <=? List.length data) && (0 <? List.length inconsistent)
                && (n =? List.length inconsistent))%nat
            then 1%nat else 0%nat)
    /\ ((List.length data < 2)%nat ->
        validateMeasurementConsistency data
        = {| errors := []; warnings := []; isValid := true |}).
Proof.
  intros data dups inconsistent. split; [|split; [|split]].
  - intros r. unfold inconsistent. rewrite filter_In, bmi_inconsistent_spec.
    tauto.
  - intros r Hweight Hbmi.
    destruct (implied_height_by_quotient r) as (Hbelow & Hnot_below & Hnot_above & Habove).
    unfold Spec.implausible_height. split.
    + intros [Hlow|Hhigh]; (split; [exact Hweight|]); (split; [exact Hbmi|]).
      * left. apply Hbelow, Hlow.
      * right. apply Habove, Hhigh.
    + intros [Hlow Hhigh] (_ & _ & [Hshort|Htall]).
      * specialize (Hnot_below Hlow). lra.
      * specialize (Hnot_above Hhigh). lra.
  - intros n.
    destruct data as [|r0 data]; [reflexivity|].
    assert (Hdata : r0 :: data <> []) by discriminate.
    rewrite validateMeasurements_warnings by exact Hdata.
    rewrite count_occ_filter_Boolean by apply bmi_warning_nonempty.
    unfold validate_each.
    rewrite !count_occ_app.
    rewrite (proj1 (count_occ_not_In string_dec _ _)
               (absent_when_words _ n (record_warnings_are_words (r0 :: data) 0))).
    rewrite (proj1 (count_occ_not_In string_dec _ _)
               (duplicate_warnings_no_bmi dups n)).
    rewrite (proj1 (count_occ_not_In string_dec _ _)
               (absent_when_words _ n (date_warnings_are_words (r0 :: data)))).
    destruct (Nat.leb_spec 2 (List.length (r0 :: data))) as [Htwo|Hfew].
    + destruct (consistency_warnings (r0 :: data) Htwo) as [variation [-> Hvariation]].
      fold inconsistent.
      rewrite count_occ_app.
      rewrite (proj1 (count_occ_not_In string_dec _ _)
                 (absent_when_words _ n Hvariation)).
      simpl.
      destruct (0 <? List.length inconsistent)%nat; simpl; [|reflexivity].
      destruct (string_dec (bmi_warning (List.length inconsistent)) (bmi_warning n))
        as [Hsame|Hother].
      * apply bmi_warning_inj in Hsame. subst n. rewrite Nat.eqb_refl. reflexivity.
      * destruct (Nat.eqb_spec n (List.length inconsistent)) as [->|_];
          [congruence|reflexivity].
    + rewrite (consistency_of_few (r0 :: data) Hfew). reflexivity.
  - apply consistency_of_few.
Qed.

End ConsistencyStage.

Section ConsistencyRuns.

Import ImportValidationService ReferenceRuntime.

Lemma inconsistent_bmi_is_one_aggregate_warning_witness :
  count_occ string_dec
    (warnings (validateMeasurements [Sample.tall; Sample.morning] []))
    (bmi_warning 1) = 1%nat
  /\ count_occ string_dec
       (warnings (validateMeasurements [Sample.tall] []))
       (bmi_warning 1) = 0%nat.
Proof.
  split.
  - rewrite (proj1 (proj2 (proj2 (@inconsistent_bmi_is_one_aggregate_warning
                                    ReferenceRuntime.runtime
                                    [Sample.tall; Sample.morning] []))) 1%nat).
    vm_compute. reflexivity.
  - rewrite (proj1 (proj2 (proj2 (@inconsistent_bmi_is_one_aggregate_warning
                                    ReferenceRuntime.runtime [Sample.tall] []))) 1%nat).
    vm_compute. reflexivity.
Defined.

(** C8, as the specification words it, fails on a set of one record:
    the reading implies a height of 2.89 m, and no warning is given. *)
Lemma inconsistent_bmi_single_record_counterexample :
  bmi_inconsistent Sample.tall = true
  /\ weight Sample.tall / bmi Sample.tall == 25 # 3
  /\ validateMeasurements [Sample.tall] []
     = {| errors := []; warnings := []; isValid := true |}.
Proof.
  split; [vm_compute; reflexivity|]. split; [reflexivity|].
  vm_compute. reflexivity.
Qed.

(** At the lower bound: a weight of 32.4 at BMI 22.5 implies a height
    of exactly the double 1.2, and is not counted; a weight of 32.39
    is. *)
Example bmi_inconsistent_at_the_bound :
  Spec.implied_height
    (Sample.reading_at_bmi (double (324 # 10)) (double (225 # 10)))
  == double (12 # 10)
  /\ bmi_inconsistent
       (Sample.reading_at_bmi (double (324 # 10)) (double (225 # 10))) = false
  /\ bmi_inconsistent
       (Sample.reading_at_bmi (double (3239 # 100)) (double (225 # 10))) = true.
Proof. repeat split; vm_compute; reflexivity. Qed.

End ConsistencyRuns.

(* ================================================================= *)
(** ** Sorting and slicing *)

Section SortFacts.

Context {A : Type} (cmp : A -> A -> option Z).

Lemma insert_sorted_perm (x : A) (xs : list A) :
  Permutation (insert_sorted cmp x xs) (x :: xs).
Proof.
  induction xs as [|y xs IH]; simpl; [reflexivity|].
  destruct (compare_result (cmp x y) <=? 0)%Z; [reflexivity|].
  rewrite IH. apply perm_swap.
Qed.

(** [sort] keeps every element. *)
Lemma sort_perm (xs : list A) : Permutation (sort cmp xs) xs.
Proof.
  induction xs as [|x xs IH]; simpl; [reflexivity|].
  rewrite insert_sorted_perm. constructor. exact IH.
Qed.

(** A comparator that decides a total preorder [before] on the elements
    of a list. *)
Variable before : A -> A -> Prop.
Variable domain : A -> Prop.
Hypothesis before_trans :
  forall a b c, before a b -> before b c -> before a c.
Hypothesis cmp_before :
  forall a b, domain a -> domain b ->
    ((compare_result (cmp a b) <=? 0)%Z = true -> before a b)
    /\ ((compare_result (cmp a b) <=? 0)%Z = false -> before b a).

Lemma insert_sorted_sorted (x : A) (xs : list A) :
  domain x -> Forall domain xs ->
  StronglySorted before xs -> StronglySorted before (insert_sorted cmp x xs).
Proof.
  intros Hx Hxs Hsorted. induction Hsorted as [|y xs Hrest IH Hy]; simpl.
  - repeat constructor.
  - inversion Hxs as [|? ? Hdy Hdxs]; subst.
    destruct (cmp_before Hx Hdy) as [Hle Hgt].
    destruct (compare_result (cmp x y) <=? 0)%Z.
    + constructor; [constructor; assumption|].
      constructor; [auto|].
      revert Hy. apply Forall_impl. intros z Hyz.
      apply before_trans with y; auto.
    + constructor; [apply IH; assumption|].
      apply (Permutation_Forall (Permutation_sym (insert_sorted_perm x xs))).
      constructor; auto.
Qed.

(** On such a list [sort] returns the elements in the order of
    [before]. *)
Lemma sort_sorted (xs : list A) :
  Forall domain xs -> StronglySorted before (sort cmp xs).
Proof.
  induction xs as [|x xs IH]; intros Hxs; simpl; [constructor|].
  inversion Hxs as [|? ? Hx Hrest]; subst.
  apply insert_sorted_sorted; [exact Hx| |apply IH; exact Hrest].
  apply (Permutation_Forall (Permutation_sym (sort_perm xs))). exact Hrest.
Qed.

Lemma StronglySorted_app_inv (xs ys : list A) :
  StronglySorted before (xs ++ ys) ->
  StronglySorted before xs
  /\ (forall a b, In a xs -> In b ys -> before a b).
Proof.
  induction xs as [|x xs IH]; simpl; intros Hsorted.
  - split; [constructor|intros a b []].
  - inversion Hsorted as [|? ? Hrest Hx]; subst.
    destruct (IH Hrest) as [Hxs Hcross].
    rewrite Forall_app in Hx. destruct Hx as [Hxxs Hxys].
    split; [constructor; assumption|].
    intros a b [<-|Ha] Hb; [|auto].
    rewrite Forall_forall in Hxys. auto.
Qed.

End SortFacts.

Section SliceFacts.

Context {A : Type}.
Local Open Scope Q_scope.

(** For a non-negative bound, [slice(0, bound)] is the first
    [floor bound] elements, or all of them if there are fewer. *)
Lemma slice0_firstn (xs : list A) (bound : Q) :
  0 <= bound ->
  slice0 xs bound = firstn (Z.to_nat (Qfloor bound)) xs.
Proof.
  intros Hbound. unfold slice0, to_integer.
  apply Qle_bool_iff in Hbound as Hsign. rewrite Hsign.
  assert (Hfloor : (0 <= Qfloor bound)%Z).
  { change 0%Z with (Qfloor 0). apply Qfloor_resp_le. exact Hbound. }
  destruct (Qfloor bound <? 0)%Z eqn:Hneg; [apply Z.ltb_lt in Hneg; lia|].
  destruct (Z.min_spec (Qfloor bound) (Z.of_nat (List.length xs)))
    as [[_ ->]|[Hle ->]]; [reflexivity|].
  rewrite Nat2Z.id, firstn_all.
  symmetry. apply firstn_all2. lia.
Qed.

Lemma slice0_length (xs : list A) (bound : Q) :
  0 <= bound ->
  List.length (slice0 xs bound)
  = Nat.min (Z.to_nat (Qfloor bound)) (List.length xs)
  /\ inject_Z (Z.of_nat (List.length (slice0 xs bound))) <= bound.
Proof.
  intros Hbound. rewrite slice0_firstn by exact Hbound.
  rewrite length_firstn. split; [reflexivity|].
  assert (Hfloor : (0 <= Qfloor bound)%Z).
  { change 0%Z with (Qfloor 0). apply Qfloor_resp_le. exact Hbound. }
  apply Qle_trans with (inject_Z (Qfloor bound)); [|apply Qfloor_le].
  rewrite <- Zle_Qle. lia.
Qed.

End SliceFacts.

(* ================================================================= *)
(** ** The preview *)

Section Preview.

Import RenphoImportService.
Context `{Runtime}.
Local Open Scope Q_scope.

Implicit Types (a b c : TransformedMeasurement).

Lemma not_older_trans a b c :
  Spec.not_older a b -> Spec.not_older b c -> Spec.not_older a c.
Proof.
  unfold Spec.not_older.
  destruct (Spec.time_value a), (Spec.time_value b), (Spec.time_value c);
    try tauto. lia.
Qed.

Lemma by_date_descending_decides a b :
  (exists t, Spec.time_value a = Some t) ->
  (exists t, Spec.time_value b = Some t) ->
  ((compare_result (by_date_descending a b) <=? 0)%Z = true -> Spec.not_older a b)
  /\ ((compare_result (by_date_descending a b) <=? 0)%Z = false ->
      Spec.not_older b a).
Proof.
  unfold Spec.not_older, Spec.time_value, by_date_descending.
  intros [ta ->] [tb ->]. simpl.
  split; intros Hcmp; [apply Z.leb_le in Hcmp|apply Z.leb_gt in Hcmp]; lia.
Qed.

Lemma dated_domain (data : list TransformedMeasurement) :
  Spec.dated data = true ->
  Forall (fun r => exists t, Spec.time_value r = Some t) data.
Proof.
  unfold Spec.dated. rewrite forallb_forall, Forall_forall.
  intros Hdated r Hr. specialize (Hdated r Hr).
  destruct (Spec.time_value r) as [t|]; [eauto|discriminate].
Qed.

(** C10, as the code has it.  Let [data] be the list of the strategy:
    the daily averages under [average], the transformed list otherwise.
    When every date of [data] parses and the limit (5 when left out) is
    not negative, [previewData] returns the first records of [data]
    sorted by date, latest first: at most [limit] of them (all of
    [data], or [floor limit] if that is fewer), in descending order of
    date, none older than a record left out. *)
Theorem previewData_latest_first :
  forall (parseResult : ParseResult) (chosen : ImportStrategy)
         (limit : option Q) (data : list TransformedMeasurement),
    let bound := match limit with Some l => l | None => 5 end in
    Spec.strategy_data parseResult chosen = Ok data ->
    Spec.dated data = true ->
    0 <= bound ->
    exists preview rest after,
      previewData parseResult chosen limit = Ok (preview, after)
      /\ inject_Z (Z.of_nat (List.length preview)) <= bound
      /\ List.length preview
         = Nat.min (Z.to_nat (Qfloor bound)) (List.length data)
      /\ StronglySorted Spec.not_older preview
      /\ Permutation (preview ++ rest) data
      /\ (forall a b, In a preview -> In b rest -> Spec.not_older a b).
Proof.
  intros parseResult chosen limit data bound Hdata Hdated Hbound.
  pose proof (sort_perm by_date_descending data) as Hperm.
  pose proof (@sort_sorted _ by_date_descending Spec.not_older
                (fun r => exists t, Spec.time_value r = Some t)
                not_older_trans by_date_descending_decides
                data (dated_domain data Hdated)) as Hsorted.
  set (sorted := sort by_date_descending data) in *.
  assert (Hrun : exists after,
             previewData parseResult chosen limit
             = Ok (slice0 sorted bound, after)).
  { unfold previewData. fold bound.
    unfold Spec.strategy_data in Hdata.
    destruct chosen; rewrite Hdata; simpl; eexists; reflexivity. }
  destruct Hrun as [after Hrun].
  exists (slice0 sorted bound), (skipn (Z.to_nat (Qfloor bound)) sorted), after.
  split; [exact Hrun|].
  destruct (slice0_length sorted Hbound) as [Hlength Hle].
  split; [exact Hle|].
  split; [rewrite Hlength, (Permutation_length Hperm); reflexivity|].
  rewrite slice0_firstn by exact Hbound.
  rewrite <- (firstn_skipn (Z.to_nat (Qfloor bound)) sorted) in Hsorted.
  destruct (StronglySorted_app_inv _ _ Hsorted) as [Hfirst Hcross].
  split; [exact Hfirst|].
  split; [rewrite firstn_skipn; exact Hperm|exact Hcross].
Qed.

End Preview.

Section PreviewRuns.

Import RenphoImportService ReferenceRuntime.

Lemma previewData_latest_first_witness :
  Spec.strategy_data Sample.three_readings keep_all
  = Ok [Sample.morning; Sample.evening; Sample.next_day]
  /\ Spec.dated [Sample.morning; Sample.evening; Sample.next_day] = true
  /\ 0 <= 2
  /\ exists preview rest after,
       previewData Sample.three_readings keep_all (Some 2) = Ok (preview, after)
       /\ List.length preview = 2%nat
       /\ StronglySorted Spec.not_older preview
       /\ Permutation (preview ++ rest)
            [Sample.morning; Sample.evening; Sample.next_day].
Proof.
  split; [reflexivity|]. split; [vm_compute; reflexivity|].
  split; [discriminate|].
  destruct (@previewData_latest_first ReferenceRuntime.runtime
              Sample.three_readings keep_all (Some 2)
              [Sample.morning; Sample.evening; Sample.next_day]
              eq_refl eq_refl)
    as [preview [rest [after [Hrun [_ [Hlength [Hsorted [Hperm _]]]]]]]];
    [discriminate|].
  exists preview, rest, after. auto.
Defined.

(** C10, as the specification words it, fails on a negative limit, which
    [slice] counts from the end: of three records, a limit of -1 gives
    two.  It fails also where a date does not parse: the comparator is
    then [NaN] and [sort] leaves an older record before a later one. *)
Lemma previewData_limit_and_dates_counterexample :
  (exists preview after,
     previewData Sample.three_readings keep_all (Some (- (1))) = Ok (preview, after)
     /\ List.length preview = 2%nat
     /\ ~ inject_Z (Z.of_nat (List.length preview)) <= - (1))
  /\ (exists after,
        previewData
          (Sample.parsed
             [Sample.morning; Sample.reading "2024-13-45" "8:00:00 a.m." 71;
              Sample.next_day] [] Sample.valid_outcome)
          keep_all None
        = Ok ([Sample.morning; Sample.reading "2024-13-45" "8:00:00 a.m." 71;
               Sample.next_day], after)
        /\ Date_getTime (date Sample.morning) = Some 1704067200000%Z
        /\ Date_getTime "2024-13-45" = None
        /\ Date_getTime (date Sample.next_day) = Some 1704153600000%Z).
Proof.
  split.
  - eexists. eexists. split; [vm_compute; reflexivity|].
    split; [reflexivity|]. vm_compute. intros Hle. apply Hle. reflexivity.
  - eexists. split; [vm_compute; reflexivity|].
    repeat split; vm_compute; reflexivity.
Qed.

End PreviewRuns.

(* ================================================================= *)
(** ** What a parse establishes

    The statements about the grouper and the aggregator assume dates that
    name no inherited property and groups without an empty bucket.  Every
    parse result that [parseFile] resolves to is of this kind. *)

Section ParseInvariants.

Import CsvParsingService RenphoImportService.
Local Open Scope string_scope.

Lemma mentions_append (c : ascii) (a b : string) :
  Spec.mentions c (a ++ String c b) = true.
Proof.
  unfold Spec.mentions.
  induction a as [|x a IH]; cbn [append existsb list_ascii_of_string].
  - rewrite Ascii.eqb_refl. reflexivity.
  - rewrite IH. apply orb_true_r.
Qed.

(** The names inherited from [Object.prototype] have no hyphen. *)
Lemma hyphen_not_inherited (key : string) :
  Spec.mentions "-" key = true -> JsObject.inherited key = false.
Proof.
  intros Hhyphen. unfold JsObject.inherited, JsObject.prototype_keys.
  cbn [existsb].
  repeat match goal with
         | |- context [String.eqb key ?k] =>
             destruct (String.eqb_spec key k) as [Heq|_];
             [rewrite Heq in Hhyphen; discriminate Hhyphen|]
         end.
  reflexivity.
Qed.

Lemma hyphen_not_digits (key : string) :
  Spec.mentions "-" key = true -> all_digits key = false.
Proof.
  unfold Spec.mentions, all_digits.
  induction key as [|c key IH];
    cbn [existsb forallb list_ascii_of_string]; [discriminate|].
  intros Hhyphen. apply orb_true_iff in Hhyphen as [Hc|Hkey].
  - apply Ascii.eqb_eq in Hc. subst c. reflexivity.
  - rewrite (IH Hkey). apply andb_false_r.
Qed.

Lemma hyphen_not_array_index (key : string) :
  Spec.mentions "-" key = true -> JsObject.is_array_index key = false.
Proof.
  intros Hhyphen. unfold JsObject.is_array_index, JsObject.array_index.
  destruct key as [|c rest]; [reflexivity|].
  rewrite (hyphen_not_digits _ Hhyphen). reflexivity.
Qed.

(** Every date that the transformer writes has a hyphen. *)
Lemma transformRow_date_hyphen (row : RenphoRawData) (index : nat)
    (t : TransformedMeasurement) :
  transformRow row index = Ok t -> Spec.mentions "-" (date t) = true.
Proof.
  unfold transformRow, transformRow_try.
  destruct (split "/" (Fecha row)) as [|day [|month [|year [|extra rest]]]];
    try discriminate.
  intros Ht. injection Ht as <-. cbn [date].
  destruct (lt_number (parseInt year) 50);
    [change (Spec.mentions "-"
               (("20" ++ year) ++ String "-"
                  (padStart 2 "0" month ++ "-" ++ padStart 2 "0" day)) = true)
    |change (Spec.mentions "-"
               (("19" ++ year) ++ String "-"
                  (padStart 2 "0" month ++ "-" ++ padStart 2 "0" day)) = true)];
    apply mentions_append.
Qed.

Lemma transformRenphoData_dates (rawData : list RenphoRawData) :
  forall transformed,
    transformRenphoData rawData = Ok transformed ->
    Forall (fun t => Spec.mentions "-" (date t) = true) transformed.
Proof.
  intros transformed Hrun.
  apply map_indexed_ok_inv in Hrun.
  induction Hrun as [|row t rows ts [index Ht] _ IH]; constructor;
    [exact (transformRow_date_hyphen _ _ Ht)|exact IH].
Qed.

(** A parse result of [parseFile] has plain dates, no empty bucket and
    distinct keys, and its groups and duplicates are those of its
    records. *)
Lemma parseFile_rows_well_formed `{Runtime} (rawData : list RenphoRawData)
    (parseResult : ParseResult) :
  parseFile_rows rawData = Ok parseResult ->
  Spec.plain_dates (transformedData parseResult) = true
  /\ forallb (fun r => negb (JsObject.is_array_index (date r)))
       (transformedData parseResult) = true
  /\ groupByDate (transformedData parseResult)
     = Ok (grouped parseResult, duplicates parseResult)
  /\ NoDup (map fst (grouped parseResult))
  /\ Spec.nonempty_buckets (grouped parseResult) = true.
Proof.
  unfold parseFile_rows. destruct rawData as [|row rows]; [discriminate|].
  destruct (transformRenphoData (row :: rows)) as [transformed|e] eqn:Htransform;
    [|destruct e; discriminate].
  pose proof (transformRenphoData_dates _ Htransform) as Hdates.
  assert (Hplain : Spec.plain_dates transformed = true).
  { unfold Spec.plain_dates. apply forallb_forall. intros t Ht.
    rewrite Forall_forall in Hdates.
    rewrite (hyphen_not_inherited _ (Hdates t Ht)). reflexivity. }
  assert (Hindex : forallb (fun r => negb (JsObject.is_array_index (date r)))
                     transformed = true).
  { apply forallb_forall. intros t Ht.
    rewrite Forall_forall in Hdates.
    rewrite (hyphen_not_array_index _ (Hdates t Ht)). reflexivity. }
  destruct (group_all_partition transformed Hplain) as [groups [Hgroup Hinv]].
  assert (Hrun : groupByDate transformed = Ok (groups, find_duplicates groups))
    by (unfold groupByDate; rewrite Hgroup; reflexivity).
  cbn [bind]. rewrite Hrun. cbn [bind rethrow fst snd].
  intros Hresult. injection Hresult as <-.
  cbn [transformedData grouped duplicates].
  repeat (split; [assumption|]).
  split; [apply (Spec.keys_distinct Hinv)|].
  apply nonempty_buckets_forall, Forall_forall.
  intros [d records] Hentry. simpl.
  apply (Spec.bucket_contents Hinv d records Hentry).
Qed.

End ParseInvariants.

(* ================================================================= *)
(** ** The transformer, row by row *)

Section TransformerRows.

Import CsvParsingService.

Lemma or_zero_same (x : Q) : or_zero x == x.
Proof.
  unfold or_zero. destruct (Qeq_bool x 0) eqn:Hzero; [|reflexivity].
  apply Qeq_bool_iff in Hzero. symmetry. exact Hzero.
Qed.

Lemma transformRow_try_three_parts (row : RenphoRawData) :
  Spec.three_parts (Fecha row) = true ->
  exists t, transformRow_try row = Ok t /\ Spec.transcribes row t.
Proof.
  unfold Spec.three_parts, transformRow_try.
  destruct (split "/" (Fecha row)) as [|day [|month [|year [|extra rest]]]];
    try discriminate.
  intros _. eexists. split; [reflexivity|].
  unfold Spec.transcribes, Spec.columns. cbn.
  split; [reflexivity|]. split; [reflexivity|].
  repeat constructor; cbn; unfold Number;
    first [reflexivity | apply or_zero_same].
Qed.

Lemma transformRow_try_malformed (row : RenphoRawData) :
  Spec.three_parts (Fecha row) = false ->
  transformRow_try row
  = Throw (Error ("Invalid date format: " ++ Fecha row)%string).
Proof.
  unfold Spec.three_parts, transformRow_try.
  destruct (split "/" (Fecha row)) as [|day [|month [|year [|extra rest]]]];
    try discriminate; reflexivity.
Qed.

Lemma transformRow_malformed (row : RenphoRawData) (index : nat) :
  Spec.three_parts (Fecha row) = false ->
  transformRow row index = Throw (Spec.malformed_date_error row index).
Proof.
  intros Hparts. unfold transformRow.
  rewrite (transformRow_try_malformed _ Hparts). reflexivity.
Qed.

Lemma transformRow_three_parts (row : RenphoRawData) (index : nat) :
  Spec.three_parts (Fecha row) = true ->
  exists t, transformRow row index = Ok t /\ Spec.transcribes row t.
Proof.
  intros Hparts. unfold transformRow.
  destruct (transformRow_try_three_parts _ Hparts) as [t [-> Ht]].
  exists t. split; [reflexivity|exact Ht].
Qed.

Lemma transformRow_ok_inv (row : RenphoRawData) (index : nat)
    (t : TransformedMeasurement) :
  transformRow row index = Ok t ->
  Spec.three_parts (Fecha row) = true /\ Spec.transcribes row t.
Proof.
  intros Hrun. destruct (Spec.three_parts (Fecha row)) eqn:Hparts.
  - split; [reflexivity|].
    destruct (transformRow_three_parts row index Hparts) as [t' [Hrun' Ht']].
    congruence.
  - rewrite (transformRow_malformed _ index Hparts) in Hrun. discriminate.
Qed.

(** The map from any index on: the rows before the first malformed one
    are transformed, and that one aborts the map. *)
Lemma map_indexed_stops (before : list RenphoRawData) (row : RenphoRawData)
    (after : list RenphoRawData) :
  forallb (fun r => Spec.three_parts (Fecha r)) before = true ->
  Spec.three_parts (Fecha row) = false ->
  forall index,
    map_indexed transformRow index (before ++ row :: after)
    = Throw (Spec.malformed_date_error row (index + List.length before)).
Proof.
  intros Hbefore Hrow.
  induction before as [|r before IH]; intros index; cbn [app map_indexed List.length].
  - rewrite (transformRow_malformed _ index Hrow). cbn [bind].
    rewrite Nat.add_0_r. reflexivity.
  - cbn [forallb] in Hbefore. apply andb_true_iff in Hbefore as [Hr Hrest].
    destruct (transformRow_three_parts r index Hr) as [t [-> _]].
    cbn [bind]. rewrite (IH Hrest (S index)). cbn [bind].
    replace (S index + List.length before)%nat
      with (index + S (List.length before))%nat by lia.
    reflexivity.
Qed.

Lemma map_indexed_all (rawData : list RenphoRawData) :
  forallb (fun r => Spec.three_parts (Fecha r)) rawData = true ->
  forall index,
  exists transformed,
    map_indexed transformRow index rawData = Ok transformed.
Proof.
  induction rawData as [|r rows IH]; intros Hall index; cbn [map_indexed].
  - exists []. reflexivity.
  - cbn [forallb] in Hall. apply andb_true_iff in Hall as [Hr Hrest].
    destruct (transformRow_three_parts r index Hr) as [t [-> _]].
    destruct (IH Hrest (S index)) as [ts ->].
    exists (t :: ts). reflexivity.
Qed.

(** A list either has only three-part dates or a first row without
    one. *)
Lemma first_malformed (rawData : list RenphoRawData) :
  forallb (fun r => Spec.three_parts (Fecha r)) rawData = false ->
  exists before row after,
    rawData = before ++ row :: after
    /\ forallb (fun r => Spec.three_parts (Fecha r)) before = true
    /\ Spec.three_parts (Fecha row) = false.
Proof.
  induction rawData as [|r rows IH]; cbn [forallb]; [discriminate|].
  destruct (Spec.three_parts (Fecha r)) eqn:Hr; cbn [andb].
  - intros Hrest. destruct (IH Hrest) as [before [row [after [-> [Hbefore Hrow]]]]].
    exists (r :: before), row, after. cbn [forallb app]. rewrite Hr, Hbefore.
    repeat split. exact Hrow.
  - intros _. exists [], r, rows. repeat split. exact Hr.
Qed.

Lemma transformRenphoData_transcribes (rawData : list RenphoRawData)
    (transformed : list TransformedMeasurement) :
  transformRenphoData rawData = Ok transformed ->
  Forall2 Spec.transcribes rawData transformed.
Proof.
  intros Hrun. apply map_indexed_ok_inv in Hrun.
  induction Hrun as [|row t rows ts [index Ht] _ IH]; constructor;
    [exact (proj2 (transformRow_ok_inv _ _ Ht))|exact IH].
Qed.

Lemma transformRenphoData_returns_iff (rawData : list RenphoRawData) :
  forallb (fun row => Spec.three_parts (Fecha row)) rawData = true
  <-> exists transformed, transformRenphoData rawData = Ok transformed.
Proof.
  split.
  - intros Hall. exact (map_indexed_all rawData Hall 0).
  - intros [transformed Hrun].
    destruct (forallb (fun row => Spec.three_parts (Fecha row)) rawData) eqn:Hall;
      [reflexivity|].
    destruct (first_malformed rawData Hall)
      as [before [row [after [-> [Hbefore Hrow]]]]].
    unfold transformRenphoData in Hrun.
    rewrite (map_indexed_stops before row after Hbefore Hrow 0) in Hrun.
    discriminate.
Qed.

(** X1.  [transformRenphoData] returns exactly when every [Fecha] splits
    at its slashes into three parts; what it returns has one record per
    row, in the order of the rows, each with the numbers of its row, the
    trimmed time and the import tag. *)
Theorem transformRenphoData_one_record_per_row :
  forall rawData : list RenphoRawData,
    (forallb (fun row => Spec.three_parts (Fecha row)) rawData = true
     <-> exists transformed, transformRenphoData rawData = Ok transformed)
    /\ forall transformed,
         transformRenphoData rawData = Ok transformed ->
         List.length transformed = List.length rawData
         /\ Forall2 Spec.transcribes rawData transformed.
Proof.
  intros rawData. split; [apply transformRenphoData_returns_iff|].
  intros transformed Hrun.
  pose proof (transformRenphoData_transcribes _ Hrun) as Hrows.
  split; [symmetry; exact (Forall2_length Hrows)|exact Hrows].
Qed.

(** X2.  The first row whose [Fecha] does not split into three parts
    makes the whole call throw: a [RenphoImportError] with code
    [PARSING_ERROR] that gives the 1-based number of that row and its
    [Fecha], and carries the row and its index as details.  Nothing is
    returned for the rows before it. *)
Theorem transformRenphoData_stops_at_first_malformed_date :
  forall (before : list RenphoRawData) (row : RenphoRawData)
         (after : list RenphoRawData),
    forallb (fun r => Spec.three_parts (Fecha r)) before = true ->
    Spec.three_parts (Fecha row) = false ->
    transformRenphoData (before ++ row :: after)
    = Throw (Renpho
        {| error_message :=
             ("Failed to transform row " ++ string_of_nat (List.length before + 1)
              ++ ": Invalid date format: " ++ Fecha row)%string;
           error_code := PARSING_ERROR;
           error_details := FailedRow row (List.length before) |}).
Proof.
  intros before row after Hbefore Hrow. unfold transformRenphoData.
  rewrite (map_indexed_stops before row after Hbefore Hrow 0). reflexivity.
Qed.

Lemma transformRenphoData_stops_at_first_malformed_date_witness :
  forallb (fun r => Spec.three_parts (Fecha r))
    [Sample.row "15/03/24" " 7:57:06 a.m." 70] = true
  /\ Spec.three_parts (Fecha (Sample.row "2024-03-16" " 8:00:00 a.m." 71)) = false
  /\ transformRenphoData
       ([Sample.row "15/03/24" " 7:57:06 a.m." 70]
        ++ Sample.row "2024-03-16" " 8:00:00 a.m." 71
        :: [Sample.row "17/03/24" " 8:10:00 a.m." 72])
     = Throw (Renpho
         {| error_message :=
              "Failed to transform row 2: Invalid date format: 2024-03-16";
            error_code := PARSING_ERROR;
            error_details :=
              FailedRow (Sample.row "2024-03-16" " 8:00:00 a.m." 71) 1 |}).
Proof.
  split; [reflexivity|]. split; [reflexivity|].
  exact (transformRenphoData_stops_at_first_malformed_date
           [Sample.row "15/03/24" " 7:57:06 a.m." 70]
           (Sample.row "2024-03-16" " 8:00:00 a.m." 71)
           [Sample.row "17/03/24" " 8:10:00 a.m." 72]
           eq_refl eq_refl).
Defined.

End TransformerRows.

(* ================================================================= *)
(** ** The grouper on a date that names an inherited property *)

Section GrouperThrows.

Import CsvParsingService.

Lemma fold_group_thrown (data : list TransformedMeasurement) (e : exn) :
  fold_left (fun acc record => bind acc (fun g => group_record g record))
    data (Throw e) = Throw e.
Proof. induction data as [|r data IH]; [reflexivity|exact IH]. Qed.

Lemma first_inherited_date (data : list TransformedMeasurement) :
  Spec.plain_dates data = false ->
  exists before r after,
    data = before ++ r :: after
    /\ Spec.plain_dates before = true
    /\ JsObject.inherited (date r) = true.
Proof.
  unfold Spec.plain_dates.
  induction data as [|r data IH]; cbn [forallb]; [discriminate|].
  destruct (JsObject.inherited (date r)) eqn:Hr; cbn [negb andb].
  - intros _. exists [], r, data. repeat split. exact Hr.
  - intros Hrest. destruct (IH Hrest) as [before [x [after [-> [Hbefore Hx]]]]].
    exists (r :: before), x, after. cbn [forallb app]. rewrite Hr, Hbefore.
    repeat split. exact Hx.
Qed.

(** The object built from records with plain dates has no key that names
    an inherited property. *)
Lemma grouped_keys_plain (before : list TransformedMeasurement)
    (groups : JsObject.t (list TransformedMeasurement)) (key : string) :
  Spec.grouped_so_far before groups ->
  Spec.plain_dates before = true ->
  JsObject.inherited key = true ->
  JsObject.get groups key = JsObject.Inherited.
Proof.
  intros Hinv Hplain Hkey. unfold JsObject.get.
  destruct (JsObject.get_own groups key) as [records|] eqn:Hown;
    [|rewrite Hkey; reflexivity].
  exfalso.
  destruct (get_own_some _ _ Hown) as [l1 [l2 [Hgroups _]]].
  assert (Hentry : In (key, records) groups)
    by (rewrite Hgroups; apply in_or_app; right; left; reflexivity).
  destruct (Spec.bucket_contents Hinv key records Hentry) as [Hrecords Hnonempty].
  destruct records as [|record records]; [congruence|].
  assert (Hin : In record (Spec.records_on key before))
    by (rewrite <- Hrecords; left; reflexivity).
  apply records_on_In in Hin as [Hin Hdate].
  unfold Spec.plain_dates in Hplain. rewrite forallb_forall in Hplain.
  specialize (Hplain record Hin). rewrite Hdate, Hkey in Hplain.
  discriminate.
Qed.

(** X3.  [groupByDate] returns exactly when no date names a property
    that a plain object inherits (such as [constructor] or [toString]);
    on the first such date it throws the [TypeError] of calling [push]
    on what [grouped[record.date]] finds. *)
Theorem groupByDate_throws_on_inherited_name :
  forall data : list TransformedMeasurement,
    (Spec.plain_dates data = true
     <-> exists groups dups, groupByDate data = Ok (groups, dups))
    /\ (Spec.plain_dates data = false
        <-> groupByDate data
            = Throw (Native
                (TypeError "grouped[record.date].push is not a function"))).
Proof.
  intros data.
  assert (Hplain : Spec.plain_dates data = true ->
                   exists groups dups, groupByDate data = Ok (groups, dups)).
  { intros Hdates.
    destruct (group_all_partition data Hdates) as [groups [Hrun _]].
    exists groups, (find_duplicates groups).
    unfold groupByDate. rewrite Hrun. reflexivity. }
  assert (Hthrows : Spec.plain_dates data = false ->
                    groupByDate data
                    = Throw (Native
                        (TypeError "grouped[record.date].push is not a function"))).
  { intros Hdates.
    destruct (first_inherited_date data Hdates)
      as [before [r [after [-> [Hbefore Hr]]]]].
    destruct (group_all_partition before Hbefore) as [groups [Hrun Hinv]].
    unfold groupByDate, group_all in *.
    rewrite fold_left_app, Hrun. cbn [fold_left bind].
    unfold group_record at 2.
    rewrite (grouped_keys_plain (date r) Hinv Hbefore Hr).
    rewrite fold_group_thrown. reflexivity. }
  split; split.
  - exact Hplain.
  - intros [groups [dups Hrun]].
    destruct (Spec.plain_dates data); [reflexivity|].
    rewrite (Hthrows eq_refl) in Hrun. discriminate.
  - exact Hthrows.
  - intros Hrun. destruct (Spec.plain_dates data); [|reflexivity].
    destruct (Hplain eq_refl) as [groups [dups Hok]]. congruence.
Qed.

End GrouperThrows.

(* ================================================================= *)
(** ** The verdict of the validator *)

Section IndexedMembers.

Context {A B : Type}.

Lemma in_map_with_index (f : A -> nat -> B) (xs : list A) (y : B) :
  forall start,
    In y (map_with_index f start xs)
    <-> exists i x, nth_error xs i = Some x /\ y = f x (start + i)%nat.
Proof.
  induction xs as [|x xs IH]; intros start; cbn [map_with_index In].
  - split; [contradiction|]. intros [[|i] [x [Hx _]]]; discriminate.
  - rewrite IH. split.
    + intros [<-|[i [x' [Hx' ->]]]].
      * exists 0%nat, x. rewrite Nat.add_0_r. split; reflexivity.
      * exists (S i), x'. split; [exact Hx'|]. f_equal. lia.
    + intros [[|i] [x' [Hx' ->]]]; cbn [nth_error] in Hx'.
      * injection Hx' as <-. left. rewrite Nat.add_0_r. reflexivity.
      * right. exists i, x'. split; [exact Hx'|]. f_equal. lia.
Qed.

End IndexedMembers.

Section Verdict.

Import ImportValidationService.
Context `{Runtime}.
Local Open Scope string_scope.

Implicit Types (data : list TransformedMeasurement)
  (dups : list DuplicateDetection) (m r : TransformedMeasurement) (n : nat).

Lemma single_isValid m n :
  isValid (validateSingleMeasurement m n)
  = (List.length (errors (validateSingleMeasurement m n)) =? 0)%nat.
Proof.
  unfold validateSingleMeasurement. cbn [errors isValid].
  rewrite filter_Boolean_keeps; [reflexivity|].
  apply Forall_app. split.
  - apply Forall_forall. intros e He. apply in_map_iff in He as [issue [<- _]].
    discriminate.
  - destruct (negb (isValidDate (date m))); repeat constructor. discriminate.
Qed.

Lemma single_errors_not_empty_strings m n :
  Forall (fun e => e <> "") (errors (validateSingleMeasurement m n)).
Proof.
  apply Forall_forall. intros e He.
  unfold validateSingleMeasurement in He. cbn [errors] in He.
  apply filter_Boolean_In in He. apply He.
Qed.

(** The errors of the records, row by row. *)
Lemma in_record_errors data (e : string) :
  In e (flat_map errors (validate_each data))
  <-> exists i r, nth_error data i = Some r
                  /\ In e (errors (validateSingleMeasurement r (i + 1))).
Proof.
  rewrite in_flat_map. unfold validate_each. split.
  - intros [v [Hv He]]. apply in_map_with_index in Hv as [i [r [Hr ->]]].
    exists i, r. split; [exact Hr|exact He].
  - intros [i [r [Hr He]]].
    exists (validateSingleMeasurement r (i + 1)). split; [|exact He].
    apply in_map_with_index. exists i, r. split; [exact Hr|reflexivity].
Qed.

Lemma collected_errors_not_empty_strings data :
  Forall (fun e => e <> "")
    (flat_map errors (validate_each data) ++ errors (validateDateRange data))%list.
Proof.
  apply Forall_app. split.
  - apply Forall_forall. intros e He.
    apply in_record_errors in He as [i [r [_ He]]].
    pose proof (single_errors_not_empty_strings r (i + 1)) as Hall.
    rewrite Forall_forall in Hall. exact (Hall e He).
  - unfold validateDateRange. destruct (valid_dates data); cbn [errors];
      repeat constructor. discriminate.
Qed.

(** [filter(Boolean)] removes none of the collected errors. *)
Lemma validateMeasurements_errors_all data dups :
  data <> [] ->
  errors (validateMeasurements data dups)
  = (flat_map errors (validate_each data) ++ errors (validateDateRange data))%list.
Proof.
  intros Hdata. rewrite (validateMeasurements_errors dups Hdata).
  apply filter_Boolean_keeps, collected_errors_not_empty_strings.
Qed.

Lemma length_zero_nil {X} (xs : list X) :
  (List.length xs =? 0)%nat = true <-> xs = [].
Proof. destruct xs; cbn; split; congruence. Qed.

(** X4.  The verdict agrees with the error list: for the whole
    validation and for the validation of one record, [isValid] is true
    exactly when [errors] is empty.  ([isValid] is computed before
    [filter(Boolean)] is applied to the errors; no error message is the
    empty string, so the filter removes nothing.) *)
Theorem validation_valid_iff_no_errors :
  (forall data dups,
     isValid (validateMeasurements data dups) = true
     <-> errors (validateMeasurements data dups) = [])
  /\ (forall m n,
        isValid (validateSingleMeasurement m n) = true
        <-> errors (validateSingleMeasurement m n) = []).
Proof.
  split.
  - intros data dups. destruct data as [|r data].
    + cbn. split; discriminate.
    + rewrite validateMeasurements_errors_all, validateMeasurements_isValid
        by discriminate.
      apply length_zero_nil.
  - intros m n. rewrite single_isValid. apply length_zero_nil.
Qed.

(** X5.  The errors of a validation are the errors of its records, each
    under the 1-based number of its row, in addition to the one error of
    a data set without any parseable date; an empty data set has the
    single error that no measurement was found. *)
Theorem validateMeasurements_errors_by_row :
  forall data dups (e : string),
    In e (errors (validateMeasurements data dups))
    <-> (data = [] /\ e = "No valid measurements found in the CSV file")
        \/ (data <> [] /\ valid_dates data = []
            /\ e = "No valid dates found in the data")
        \/ (exists i r,
              nth_error data i = Some r
              /\ In e (errors (validateSingleMeasurement r (i + 1)))).
Proof.
  intros data dups e. destruct data as [|r0 data].
  - cbn [validateMeasurements errors In]. split.
    + intros [<-|[]]. left. split; reflexivity.
    + intros [[_ ->]|[[Habs _]|[i [r [Hr _]]]]].
      * left. reflexivity.
      * congruence.
      * destruct i; discriminate.
  - rewrite validateMeasurements_errors_all by discriminate.
    rewrite in_app_iff, in_record_errors. split.
    + intros [Hrow|Hrange].
      * right. right. exact Hrow.
      * right. left. unfold validateDateRange in Hrange.
        destruct (valid_dates (r0 :: data)) eqn:Hdates; cbn [errors] in Hrange.
        -- destruct Hrange as [<-|[]]. repeat split. discriminate.
        -- contradiction.
    + intros [[Habs _]|[[_ [Hdates ->]]|Hrow]].
      * discriminate.
      * right. unfold validateDateRange. rewrite Hdates. left. reflexivity.
      * left. exact Hrow.
Qed.

(** A record that fails a hard check has an error. *)
Lemma single_errors_invalid m n :
  Spec.passes_hard_checks m = false ->
  errors (validateSingleMeasurement m n) <> [].
Proof.
  intros Hfails Hnone. rewrite single_errors, essential_issues in Hnone.
  apply app_eq_nil in Hnone as [Hschema Hdate].
  apply map_eq_nil in Hschema.
  apply app_eq_nil in Hschema as [Hweight Hschema].
  apply app_eq_nil in Hschema as [Hbmi Hschema].
  apply app_eq_nil in Hschema as [Hfat _].
  unfold Spec.passes_hard_checks in Hfails.
  destruct (Spec.in_range 30 300 (weight m)) eqn:Hw.
  2:{ destruct (@check_number_violation
                  {| Zod.minimum := 30; Zod.min_message := "Minimum weight is 30kg";
                     Zod.maximum := 300; Zod.max_message := "Maximum weight is 300kg" |}
                  ["weight"] (weight m) Hw) as [text Hin].
      rewrite Hweight in Hin. contradiction. }
  destruct (Spec.in_range 10 60 (bmi m)) eqn:Hb.
  2:{ destruct (@check_number_violation
                  {| Zod.minimum := 10; Zod.min_message := "BMI too low";
                     Zod.maximum := 60; Zod.max_message := "BMI too high" |}
                  ["bmi"] (bmi m) Hb) as [text Hin].
      rewrite Hbmi in Hin. contradiction. }
  destruct (Spec.in_range 3 70 (body_fat_percentage m)) eqn:Hf.
  2:{ destruct (@check_number_violation
                  {| Zod.minimum := 3; Zod.min_message := "Body fat percentage too low";
                     Zod.maximum := 70;
                     Zod.max_message := "Body fat percentage too high" |}
                  ["body_fat_percentage"] (body_fat_percentage m) Hf) as [text Hin].
      rewrite Hfat in Hin. contradiction. }
  cbn [andb] in Hfails. rewrite Hfails in Hdate. discriminate.
Qed.

Lemma first_failing data :
  forallb Spec.passes_hard_checks data = false ->
  exists before r after,
    data = (before ++ r :: after)%list /\ Spec.passes_hard_checks r = false.
Proof.
  induction data as [|m data IH]; cbn [forallb]; [discriminate|].
  destruct (Spec.passes_hard_checks m) eqn:Hm; cbn [andb].
  - intros Hrest. destruct (IH Hrest) as [before [r [after [-> Hr]]]].
    exists (m :: before), r, after. split; [reflexivity|exact Hr].
  - intros _. exists [], m, data. split; [reflexivity|exact Hm].
Qed.

(** The pattern of the date check accepts the strings of the shape
    [YYYY-MM-DD]. *)
Lemma decimal_digit_is_digit (c : ascii) : Spec.decimal_digit c = is_digit c.
Proof. destruct c as [[] [] [] [] [] [] [] []]; reflexivity. Qed.

Lemma matches_iso_date_shape (s : string) :
  matches_iso_date s = Spec.iso_shaped s.
Proof.
  do 10 (destruct s as [|? s]; [reflexivity|]).
  destruct s as [|? s]; [|reflexivity].
  unfold matches_iso_date, Spec.iso_shaped.
  cbn [list_ascii_of_string String.length Nat.eqb seq forallb String.get andb orb].
  rewrite !decimal_digit_is_digit.
  repeat match goal with
         | |- context [is_digit ?c] =>
             let b := fresh "digit" in set (b := is_digit c); clearbody b
         | |- context [Ascii.eqb ?c ?h] =>
             let b := fresh "hyphen" in set (b := Ascii.eqb c h); clearbody b
         end.
  repeat match goal with
         | b : bool |- _ => destruct b; try reflexivity
         end.
Qed.

Lemma passes_hard_checks_iff r :
  Spec.passes_hard_checks r = true
  <-> (30 <= weight r /\ weight r <= 300)
      /\ (10 <= bmi r /\ bmi r <= 60)
      /\ (3 <= body_fat_percentage r /\ body_fat_percentage r <= 70)
      /\ Spec.iso_shaped (date r) = true
      /\ Spec.read_by_Date (date r) = true.
Proof.
  unfold Spec.passes_hard_checks, Spec.in_range, isValidDate, Spec.read_by_Date.
  rewrite !andb_true_iff, !Qle_bool_iff, matches_iso_date_shape.
  destruct (Date_getTime (date r)); intuition congruence.
Qed.

(** X6.  A data set is valid exactly when it is not empty and every
    record has its weight in [30, 300], its BMI in [10, 60], its body
    fat in [3, 70] and a date of the shape [YYYY-MM-DD] that [Date]
    reads; the duplicate list that is passed in has no part in the
    verdict or in the errors. *)
Theorem validateMeasurements_valid_iff_hard_checks :
  forall data dups,
    (isValid (validateMeasurements data dups) = true
     <-> data <> []
         /\ forall r, In r data ->
              (30 <= weight r /\ weight r <= 300)
              /\ (10 <= bmi r /\ bmi r <= 60)
              /\ (3 <= body_fat_percentage r /\ body_fat_percentage r <= 70)
              /\ Spec.iso_shaped (date r) = true
              /\ Spec.read_by_Date (date r) = true)
    /\ (forall dups',
          isValid (validateMeasurements data dups')
          = isValid (validateMeasurements data dups)
          /\ errors (validateMeasurements data dups')
             = errors (validateMeasurements data dups)).
Proof.
  intros data dups. split; [|intros dups'; destruct data; split; reflexivity].
  assert (Hchecks : forallb Spec.passes_hard_checks data = true
                    <-> forall r, In r data ->
                          (30 <= weight r /\ weight r <= 300)
                          /\ (10 <= bmi r /\ bmi r <= 60)
                          /\ (3 <= body_fat_percentage r
                              /\ body_fat_percentage r <= 70)
                          /\ Spec.iso_shaped (date r) = true
                          /\ Spec.read_by_Date (date r) = true).
  { rewrite forallb_forall. split; intros Hall r Hr;
      apply passes_hard_checks_iff, Hall, Hr. }
  rewrite <- Hchecks. clear Hchecks.
  split.
  - intros Hvalid. destruct data as [|r0 data]; [discriminate Hvalid|].
    split; [discriminate|].
    destruct (forallb Spec.passes_hard_checks (r0 :: data)) eqn:Hall;
      [reflexivity|].
    destruct (first_failing _ Hall) as [before [r [after [Hdata Hr]]]].
    rewrite Hdata in Hvalid.
    pose proof (@single_errors_invalid r (List.length before + 1)%nat Hr) as Herr.
    destruct (errors (validateSingleMeasurement r (List.length before + 1)))
      as [|e es] eqn:Hes; [congruence|].
    assert (Hin : In e (errors (validateSingleMeasurement r (List.length before + 1))))
      by (rewrite Hes; left; reflexivity).
    destruct (record_error_reported before r after dups e Hin) as [_ Hfalse].
    congruence.
  - intros [Hdata Hall].
    rewrite (validateMeasurements_isValid dups Hdata).
    unfold validate_each. rewrite (no_errors_each data 0 Hall).
    destruct data as [|r0 data]; [congruence|].
    cbn [forallb] in Hall. apply andb_true_iff in Hall as [Hr0 _].
    unfold Spec.passes_hard_checks in Hr0.
    apply andb_true_iff in Hr0 as [_ Hdate].
    destruct (isValidDate_time _ Hdate) as [t Ht].
    rewrite validateDateRange_no_error; [reflexivity|].
    apply (@valid_dates_found _ (r0 :: data) r0 t); [left; reflexivity|exact Ht].
Qed.

End Verdict.

(* ================================================================= *)
(** ** From rows to a parse result *)

Section ParseOutcomes.

Import CsvParsingService ImportValidationService RenphoImportService.
Context `{Runtime}.

Implicit Types (rawData : list RenphoRawData)
  (transformed : list TransformedMeasurement) (parseResult : ParseResult).

Lemma transformed_dates_plain rawData transformed :
  transformRenphoData rawData = Ok transformed ->
  Spec.plain_dates transformed = true.
Proof.
  intros Hrun. pose proof (transformRenphoData_dates _ Hrun) as Hdates.
  unfold Spec.plain_dates. apply forallb_forall. intros t Ht.
  rewrite Forall_forall in Hdates.
  rewrite (hyphen_not_inherited _ (Hdates t Ht)). reflexivity.
Qed.

(** Once the rows are transformed, grouping cannot throw and the parse
    result is made. *)
Lemma parseFile_rows_from rawData transformed :
  rawData <> [] ->
  transformRenphoData rawData = Ok transformed ->
  exists groups,
    Spec.grouped_so_far transformed groups
    /\ parseFile_rows rawData
       = Ok {| originalData := rawData;
               transformedData := transformed;
               grouped := groups;
               duplicates := find_duplicates groups;
               validation :=
                 validateMeasurements transformed (find_duplicates groups) |}.
Proof.
  intros Hrows Hrun.
  destruct (group_all_partition transformed (transformed_dates_plain _ Hrun))
    as [groups [Hgroup Hinv]].
  exists groups. split; [exact Hinv|].
  unfold parseFile_rows. destruct rawData as [|row rows]; [congruence|].
  rewrite Hrun. cbn [bind]. unfold groupByDate. rewrite Hgroup. reflexivity.
Qed.

Lemma parseFile_rows_ok_inv rawData parseResult :
  parseFile_rows rawData = Ok parseResult ->
  rawData <> []
  /\ transformRenphoData rawData = Ok (transformedData parseResult)
  /\ Spec.grouped_so_far (transformedData parseResult) (grouped parseResult)
  /\ originalData parseResult = rawData
  /\ duplicates parseResult = find_duplicates (grouped parseResult)
  /\ validation parseResult
     = validateMeasurements (transformedData parseResult) (duplicates parseResult).
Proof.
  intros Hrun.
  assert (Hrows : rawData <> []).
  { intros ->. discriminate Hrun. }
  destruct (transformRenphoData rawData) as [transformed|e] eqn:Htransform.
  - destruct (@parseFile_rows_from _ _ Hrows Htransform) as [groups [Hinv Hresult]].
    rewrite Hresult in Hrun. injection Hrun as <-.
    cbn [transformedData grouped originalData duplicates validation].
    split; [exact Hrows|]. split; [reflexivity|]. split; [exact Hinv|].
    repeat split.
  - unfold parseFile_rows in Hrun. destruct rawData as [|row rows]; [congruence|].
    rewrite Htransform in Hrun. destruct e; discriminate Hrun.
Qed.

(** X7.  On rows of the declared type [RenphoRawData], the steps of
    [parseFile] that follow the reading of the file have three
    outcomes: with no row they reject with [No data found in CSV file];
    with a row whose [Fecha] does not split into three parts they reject
    with the error of the first such row; otherwise they resolve.  The
    grouping step never throws on what the transformer returns, so on
    such rows a rejection is never the wrapped
    [Failed to parse RENPHO file: ...].  (The cast of the parsed rows to
    [RenphoRawData] checks nothing; rows of another shape are not
    covered.) *)
Theorem parseFile_rows_rejects_no_rows_or_malformed_date :
  forall rawData,
    (rawData = []
     /\ parseFile_rows rawData
        = Throw (Renpho {| error_message := "No data found in CSV file";
                           error_code := PARSING_ERROR;
                           error_details := NoDetails |}))
    \/ (exists before row after,
          rawData = before ++ row :: after
          /\ forallb (fun r => Spec.three_parts (Fecha r)) before = true
          /\ Spec.three_parts (Fecha row) = false
          /\ parseFile_rows rawData
             = Throw (Spec.malformed_date_error row (List.length before)))
    \/ (rawData <> []
        /\ forallb (fun r => Spec.three_parts (Fecha r)) rawData = true
        /\ exists parseResult, parseFile_rows rawData = Ok parseResult).
Proof.
  intros rawData. destruct rawData as [|row0 rows].
  - left. split; reflexivity.
  - right.
    destruct (forallb (fun r => Spec.three_parts (Fecha r)) (row0 :: rows))
      eqn:Hall.
    + right. split; [discriminate|]. split; [reflexivity|].
      destruct (proj1 (transformRenphoData_returns_iff _) Hall)
        as [transformed Hrun].
      assert (Hrows : row0 :: rows <> []) by discriminate.
      destruct (@parseFile_rows_from _ _ Hrows Hrun) as [groups [_ Hresult]].
      eexists. exact Hresult.
    + left. destruct (first_malformed _ Hall)
        as [before [row [after [Hsplit [Hbefore Hrow]]]]].
      exists before, row, after. repeat split; try assumption.
      unfold parseFile_rows, transformRenphoData.
      rewrite Hsplit.
      rewrite (map_indexed_stops before row after Hbefore Hrow 0).
      destruct before; reflexivity.
Qed.

(** X8.  A parse result that [parseFile] resolves to is consistent with
    its rows: it keeps the rows, has one transformed record per row in
    order, its groups and duplicates are those of [groupByDate] on its
    records (distinct dates, no empty bucket, every record in the bucket
    of its date), and its validation is that of its records and
    duplicates. *)
Theorem parseFile_rows_result_is_consistent :
  forall rawData parseResult,
    parseFile_rows rawData = Ok parseResult ->
    originalData parseResult = rawData
    /\ List.length (transformedData parseResult) = List.length rawData
    /\ Forall2 Spec.transcribes rawData (transformedData parseResult)
    /\ groupByDate (transformedData parseResult)
       = Ok (grouped parseResult, duplicates parseResult)
    /\ NoDup (map fst (grouped parseResult))
    /\ (forall d records,
          In (d, records) (grouped parseResult) ->
          records <> []
          /\ records = Spec.records_on d (transformedData parseResult))
    /\ Permutation (List.concat (map snd (grouped parseResult)))
         (transformedData parseResult)
    /\ validation parseResult
       = validateMeasurements (transformedData parseResult)
           (duplicates parseResult).
Proof.
  intros rawData parseResult Hrun.
  destruct (parseFile_rows_well_formed _ Hrun) as [_ [_ [Hgroup _]]].
  destruct (@parseFile_rows_ok_inv _ _ Hrun)
    as [_ [Htransform [Hinv [Horiginal [_ Hvalidation]]]]].
  pose proof (transformRenphoData_transcribes _ Htransform) as Hrows.
  split; [exact Horiginal|].
  split; [symmetry; exact (Forall2_length Hrows)|].
  split; [exact Hrows|].
  split; [exact Hgroup|].
  split; [apply (Spec.keys_distinct Hinv)|].
  split.
  { intros d records Hentry.
    destruct (Spec.bucket_contents Hinv d records Hentry). split; assumption. }
  split; [apply (Spec.all_records Hinv)|exact Hvalidation].
Qed.

(** *** What the validation of a parse says about shared dates *)

Lemma duplicate_message_not_empty (d : DuplicateDetection) :
  template [string_of_nat (count d); " measurements found for "; dup_date d]%string
  <> ""%string.
Proof.
  cbn. destruct (string_of_nat (count d)); discriminate.
Qed.

Lemma duplicate_warnings_In (dups : list DuplicateDetection)
    (d : DuplicateDetection) :
  In d dups ->
  In (template [string_of_nat (count d); " measurements found for ";
                dup_date d]%string)
     (duplicate_warnings dups)
  /\ In (template ["Found "; string_of_nat (List.length dups);
                   " dates with multiple measurements"]%string)
        (duplicate_warnings dups).
Proof.
  intros Hin. unfold duplicate_warnings.
  destruct dups as [|d0 dups]; [contradiction|]. cbn [List.length Nat.ltb Nat.leb].
  split; [right|left; reflexivity].
  apply in_map_iff. exists d. split; [reflexivity|exact Hin].
Qed.

(** X9.  After a parse, every date that more than one record carries is
    reported: it is in [duplicates] with the number of its records, and
    the warnings of the validation hold both the line for that date and
    the line that counts the dates with several measurements. *)
Theorem parseFile_rows_warns_of_each_shared_date :
  forall rawData parseResult (d : string),
    parseFile_rows rawData = Ok parseResult ->
    let records := Spec.records_on d (transformedData parseResult) in
    (1 < List.length records)%nat ->
    In {| dup_date := d; count := List.length records |} (duplicates parseResult)
    /\ In (string_of_nat (List.length records) ++ " measurements found for " ++ d)%string
          (warnings (validation parseResult))
    /\ In ("Found " ++ string_of_nat (List.length (duplicates parseResult))
           ++ " dates with multiple measurements")%string
          (warnings (validation parseResult)).
Proof.
  intros rawData parseResult d Hrun records Hseveral.
  destruct (@parseFile_rows_ok_inv _ _ Hrun)
    as [_ [_ [Hinv [_ [Hdups Hvalidation]]]]].
  assert (Hsome : exists r, In r records).
  { destruct records as [|r rest]; [cbn in Hseveral; lia|].
    exists r. left. reflexivity. }
  destruct Hsome as [r Hr].
  apply records_on_In in Hr as [Hr Hdate].
  pose proof (Spec.dates_covered Hinv r Hr) as Hkey. rewrite Hdate in Hkey.
  apply in_map_iff in Hkey as [[d' bucket] [Hd Hentry]].
  cbn [fst] in Hd. subst d'.
  destruct (Spec.bucket_contents Hinv d bucket Hentry) as [Hbucket _].
  fold records in Hbucket. subst bucket.
  assert (Hdup : In {| dup_date := d; count := List.length records |}
                   (duplicates parseResult)).
  { rewrite Hdups. apply find_duplicates_In.
    exists records. repeat split; assumption. }
  split; [exact Hdup|].
  assert (Hdata : transformedData parseResult <> []).
  { intros Hnone. rewrite Hnone in Hr. contradiction. }
  rewrite Hvalidation, (validateMeasurements_warnings _ Hdata).
  destruct (duplicate_warnings_In _ _ Hdup) as [Hline Hcount].
  split; apply filter_Boolean_In; split.
  - apply in_or_app. right. apply in_or_app. left. exact Hline.
  - exact (duplicate_message_not_empty {| dup_date := d; count := List.length records |}).
  - apply in_or_app. right. apply in_or_app. left. exact Hcount.
  - discriminate.
Qed.

End ParseOutcomes.

(* ================================================================= *)
(** ** From a parse result to an import *)

Section GroupSizes.

Import CsvParsingService.

Lemma concat_length_nonempty {A} (buckets : list (list A)) :
  Forall (fun bucket => bucket <> []) buckets ->
  (List.length buckets <= List.length (List.concat buckets))%nat.
Proof.
  induction 1 as [|bucket buckets Hbucket _ IH]; cbn [List.concat List.length];
    [lia|].
  rewrite length_app. destruct bucket; [congruence|cbn [List.length]; lia].
Qed.

(** There are at most as many dates as records, and at least one when
    there is a record. *)
Lemma grouped_length (data : list TransformedMeasurement)
    (groups : JsObject.t (list TransformedMeasurement)) :
  Spec.grouped_so_far data groups ->
  (List.length groups <= List.length data)%nat
  /\ (data <> [] -> (1 <= List.length groups)%nat).
Proof.
  intros Hinv. split.
  - rewrite <- (Permutation_length (Spec.all_records Hinv)).
    rewrite <- (length_map snd groups).
    apply concat_length_nonempty, Forall_forall.
    intros bucket Hbucket. apply in_map_iff in Hbucket as [[d records] [<- Hentry]].
    apply (Spec.bucket_contents Hinv d records Hentry).
  - intros Hdata. destruct data as [|r data]; [congruence|].
    pose proof (Spec.dates_covered Hinv r (or_introl eq_refl)) as Hkey.
    destruct groups; [contradiction|cbn [List.length]; lia].
Qed.

Lemma averaged_length (groups : JsObject.t (list TransformedMeasurement))
    (out : list TransformedMeasurement) :
  averageDailyMeasurements groups = Ok out ->
  List.length out = List.length groups.
Proof.
  intros Hrun. unfold averageDailyMeasurements, map_result in Hrun.
  apply map_indexed_ok_inv in Hrun.
  rewrite <- (Forall2_length Hrun).
  apply Permutation_length, entries_perm.
Qed.

(** A failing callback that always fails the same way makes the map
    fail that way. *)
Lemma map_indexed_throws {E A B} (f : A -> nat -> result E B) (e : E)
    (xs : list A) :
  (forall x i, In x xs -> (exists y, f x i = Ok y) \/ f x i = Throw e) ->
  (exists x, In x xs /\ forall i, f x i = Throw e) ->
  forall index, map_indexed f index xs = Throw e.
Proof.
  induction xs as [|x xs IH]; intros Heach [bad [Hbad Hthrows]] index.
  - contradiction.
  - cbn [map_indexed].
    destruct (Heach x index (or_introl eq_refl)) as [[y Hy]|Hx].
    + rewrite Hy. cbn [bind].
      rewrite IH; [reflexivity| |].
      * intros z i Hz. apply Heach. right. exact Hz.
      * destruct Hbad as [<-|Hbad].
        -- rewrite Hthrows in Hy. discriminate.
        -- exists bad. split; [exact Hbad|exact Hthrows].
    + rewrite Hx. reflexivity.
Qed.

Lemma averageDailyMeasurements_empty_bucket
    (groups : JsObject.t (list TransformedMeasurement)) (d : string) :
  In (d, []) groups ->
  averageDailyMeasurements groups
  = Throw (Native
      (TypeError "Cannot read properties of undefined (reading 'time')")).
Proof.
  intros Hentry. unfold averageDailyMeasurements, map_result.
  apply map_indexed_throws.
  - intros [key [|first rest]] _ _; [right; reflexivity|left].
    eexists. reflexivity.
  - exists (d, []). split; [|reflexivity].
    apply (Permutation_in _ (Permutation_sym (entries_perm groups))).
    exact Hentry.
Qed.

End GroupSizes.

Section ParseThenImport.

Import CsvParsingService ImportValidationService RenphoImportService.
Context `{Runtime}.

(** X10.  Rows that parse and validate are imported under both
    strategies.  [keep_all] reports as many successes as there are rows
    and hands on the transformed records; [average] calls the aggregator
    once and reports one success per distinct date, which is at least
    one and at most the number of rows.  Both wait the 2000 ms of the
    timer, report no failure, and make no persistence call. *)
Theorem parsed_valid_rows_import_under_both_strategies :
  forall (rawData : list RenphoRawData) (parseResult : ParseResult),
    parseFile_rows rawData = Ok parseResult ->
    isValid (validation parseResult) = true ->
    processImport parseResult keep_all
    = ([setTimeout_call 2000],
       Ok {| strategy := keep_all;
             successful := List.length rawData;
             failed := 0;
             import_errors := [];
             processedData := transformedData parseResult |})
    /\ exists averaged,
         processImport parseResult average
         = ([averageDailyMeasurements_call (grouped parseResult);
             setTimeout_call 2000],
            Ok {| strategy := average;
                  successful := List.length (grouped parseResult);
                  failed := 0;
                  import_errors := [];
                  processedData := averaged |})
         /\ List.length averaged = List.length (grouped parseResult)
         /\ (1 <= List.length (grouped parseResult) <= List.length rawData)%nat.
Proof.
  intros rawData parseResult Hrun Hvalid.
  destruct (@parseFile_rows_ok_inv _ _ _ Hrun)
    as [Hrows [Htransform [Hinv _]]].
  destruct (parseFile_rows_well_formed _ Hrun) as [_ [_ [_ [_ Hbuckets]]]].
  pose proof (Forall2_length (transformRenphoData_transcribes _ Htransform))
    as Hlength.
  split.
  - unfold processImport, processImport_try. rewrite Hvalid. cbn.
    rewrite Hlength. reflexivity.
  - destruct (averageDailyMeasurements_returns _ Hbuckets) as [averaged [Haverage _]].
    pose proof (averaged_length _ Haverage) as Hout.
    exists averaged. split; [|split; [exact Hout|]].
    + unfold processImport, processImport_try. rewrite Hvalid. cbn.
      rewrite Haverage. cbn. rewrite Hout. reflexivity.
    + destruct (grouped_length Hinv) as [Hle Hone].
      split; [|rewrite Hlength; exact Hle].
      apply Hone. intros Hnone. rewrite Hnone in Hlength.
      destruct rawData; [congruence|discriminate Hlength].
Qed.

(** X11.  A parse result in which some date has an empty list of records
    (no parse makes one, but the type allows it) cannot be averaged: the
    aggregator reads the time of a first record that is not there.
    [processImport] wraps that [TypeError] into a [RenphoImportError]
    with code [IMPORT_ERROR], after the call of the aggregator and
    before any timer; [previewData] lets the [TypeError] through as it
    is.  Under [keep_all] the import goes through. *)
Theorem processImport_wraps_the_error_of_an_empty_bucket :
  forall (parseResult : ParseResult) (d : string) (limit : option Q),
    isValid (validation parseResult) = true ->
    In (d, []) (grouped parseResult) ->
    processImport parseResult average
    = ([averageDailyMeasurements_call (grouped parseResult)],
       Throw (Renpho
         {| error_message :=
              "Import failed: Cannot read properties of undefined (reading 'time')";
            error_code := IMPORT_ERROR;
            error_details :=
              Cause (TypeError
                "Cannot read properties of undefined (reading 'time')") |}))
    /\ previewData parseResult average limit
       = Throw (Native
           (TypeError "Cannot read properties of undefined (reading 'time')"))
    /\ snd (processImport parseResult keep_all)
       = Ok {| strategy := keep_all;
               successful := List.length (transformedData parseResult);
               failed := 0;
               import_errors := [];
               processedData := transformedData parseResult |}.
Proof.
  intros parseResult d limit Hvalid Hentry.
  pose proof (averageDailyMeasurements_empty_bucket _ _ Hentry) as Hthrows.
  repeat split.
  - unfold processImport, processImport_try. rewrite Hvalid. cbn.
    rewrite Hthrows. reflexivity.
  - unfold previewData. rewrite Hthrows. reflexivity.
  - unfold processImport, processImport_try. rewrite Hvalid. reflexivity.
Qed.

(** *** Previewing before importing *)

(** A list that is in descending order of date is left as it is. *)
Lemma sort_latest_first_same (data : list TransformedMeasurement) :
  StronglySorted Spec.not_older data ->
  sort by_date_descending data = data.
Proof.
  induction 1 as [|a data Hsorted IH Ha]; [reflexivity|].
  cbn [sort]. rewrite IH.
  destruct data as [|b data]; [reflexivity|].
  inversion Ha as [|? ? Hab _]; subst.
  cbn [insert_sorted].
  unfold Spec.not_older, Spec.time_value in Hab.
  unfold by_date_descending.
  destruct (Date_getTime (date a)) as [ta|]; [|contradiction].
  destruct (Date_getTime (date b)) as [tb|]; [|contradiction].
  cbn [compare_result].
  destruct (Z.leb_spec (tb - ta) 0); [reflexivity|lia].
Qed.

(** X12.  [previewData] under [keep_all] sorts the array of the parse
    result itself.  When every date parses, the parse result is left with
    the same records in descending order of date and everything else
    untouched; a second preview returns the same and changes nothing
    more; and a later [keep_all] import hands on the records in that
    order, not in the order of the file.  Under [average] the parse
    result is not changed. *)
Theorem previewData_keep_all_reorders_the_parse_result :
  forall (parseResult : ParseResult) (limit : option Q),
    Spec.dated (transformedData parseResult) = true ->
    (exists preview after,
       previewData parseResult keep_all limit = Ok (preview, after)
       /\ transformedData after
          = sort by_date_descending (transformedData parseResult)
       /\ StronglySorted Spec.not_older (transformedData after)
       /\ Permutation (transformedData after) (transformedData parseResult)
       /\ originalData after = originalData parseResult
       /\ grouped after = grouped parseResult
       /\ duplicates after = duplicates parseResult
       /\ validation after = validation parseResult
       /\ previewData after keep_all limit = Ok (preview, after)
       /\ (isValid (validation parseResult) = true ->
           snd (processImport after keep_all)
           = Ok {| strategy := keep_all;
                   successful := List.length (transformedData parseResult);
                   failed := 0;
                   import_errors := [];
                   processedData := transformedData after |}))
    /\ (forall preview after,
          previewData parseResult average limit = Ok (preview, after) ->
          after = parseResult).
Proof.
  intros parseResult limit Hdated. split.
  - pose proof (sort_perm by_date_descending (transformedData parseResult))
      as Hperm.
    pose proof (@sort_sorted _ by_date_descending Spec.not_older
                  (fun r => exists t, Spec.time_value r = Some t)
                  not_older_trans by_date_descending_decides
                  (transformedData parseResult)
                  (dated_domain _ Hdated)) as Hsorted.
    eexists. eexists. split; [reflexivity|].
    cbn [transformedData originalData grouped duplicates validation].
    split; [reflexivity|]. split; [exact Hsorted|]. split; [exact Hperm|].
    repeat (split; [reflexivity|]).
    split.
    + unfold previewData. cbn [bind transformedData originalData grouped
                                duplicates validation].
      rewrite (sort_latest_first_same Hsorted). reflexivity.
    + intros Hvalid. unfold processImport, processImport_try.
      cbn [validation]. rewrite Hvalid.
      cbn. rewrite (Permutation_length Hperm). reflexivity.
  - intros preview after. unfold previewData.
    destruct (averageDailyMeasurements (grouped parseResult)); cbn [bind];
      [|discriminate].
    intros Hrun. injection Hrun as _ <-. reflexivity.
Qed.

End ParseThenImport.

Section ParseRuns.

Import CsvParsingService ImportValidationService RenphoImportService
  ReferenceRuntime.

Lemma parseFile_rows_result_is_consistent_witness :
  parseFile_rows Sample.three_rows = Ok Sample.three_rows_parsed
  /\ originalData Sample.three_rows_parsed = Sample.three_rows
  /\ List.length (transformedData Sample.three_rows_parsed) = 3%nat
  /\ groupByDate (transformedData Sample.three_rows_parsed)
     = Ok (grouped Sample.three_rows_parsed, duplicates Sample.three_rows_parsed).
Proof.
  assert (Hrun : parseFile_rows Sample.three_rows = Ok Sample.three_rows_parsed)
    by (vm_compute; reflexivity).
  split; [exact Hrun|].
  destruct (@parseFile_rows_result_is_consistent _ _ _ Hrun)
    as [Horiginal [Hlength [_ [Hgroup _]]]].
  split; [exact Horiginal|]. split; [exact Hlength|exact Hgroup].
Defined.

Lemma parseFile_rows_warns_of_each_shared_date_witness :
  parseFile_rows Sample.three_rows = Ok Sample.three_rows_parsed
  /\ (1 < List.length
            (Spec.records_on "2024-03-15"%string
               (transformedData Sample.three_rows_parsed)))%nat
  /\ In {| dup_date := "2024-03-15"; count := 2 |}
       (duplicates Sample.three_rows_parsed)
  /\ In "2 measurements found for 2024-03-15"%string
       (warnings (validation Sample.three_rows_parsed))
  /\ In "Found 1 dates with multiple measurements"%string
       (warnings (validation Sample.three_rows_parsed)).
Proof.
  assert (Hrun : parseFile_rows Sample.three_rows = Ok Sample.three_rows_parsed)
    by (vm_compute; reflexivity).
  assert (Hseveral : (1 < List.length
                            (Spec.records_on "2024-03-15"%string
                               (transformedData Sample.three_rows_parsed)))%nat)
    by (vm_compute; lia).
  split; [exact Hrun|]. split; [exact Hseveral|].
  exact (@parseFile_rows_warns_of_each_shared_date _ _ _ "2024-03-15"%string Hrun Hseveral).
Defined.

Lemma parsed_valid_rows_import_under_both_strategies_witness :
  parseFile_rows Sample.three_rows = Ok Sample.three_rows_parsed
  /\ isValid (validation Sample.three_rows_parsed) = true
  /\ processImport Sample.three_rows_parsed keep_all
     = ([setTimeout_call 2000],
        Ok {| strategy := keep_all;
              successful := 3;
              failed := 0;
              import_errors := [];
              processedData := transformedData Sample.three_rows_parsed |})
  /\ exists averaged,
       processImport Sample.three_rows_parsed average
       = ([averageDailyMeasurements_call (grouped Sample.three_rows_parsed);
           setTimeout_call 2000],
          Ok {| strategy := average;
                successful := 2;
                failed := 0;
                import_errors := [];
                processedData := averaged |})
       /\ List.length averaged = 2%nat.
Proof.
  assert (Hrun : parseFile_rows Sample.three_rows = Ok Sample.three_rows_parsed)
    by (vm_compute; reflexivity).
  assert (Hvalid : isValid (validation Sample.three_rows_parsed) = true)
    by (vm_compute; reflexivity).
  split; [exact Hrun|]. split; [exact Hvalid|].
  destruct (@parsed_valid_rows_import_under_both_strategies _ _ _ Hrun Hvalid)
    as [Hkeep [averaged [Haverage [Hlength _]]]].
  split; [exact Hkeep|].
  exists averaged. split; [exact Haverage|exact Hlength].
Defined.

Lemma processImport_wraps_the_error_of_an_empty_bucket_witness :
  isValid (validation Sample.emptied_bucket) = true
  /\ In ("2024-01-01"%string, []) (grouped Sample.emptied_bucket)
  /\ snd (processImport Sample.emptied_bucket average)
     = Throw (Renpho
         {| error_message :=
              "Import failed: Cannot read properties of undefined (reading 'time')";
            error_code := IMPORT_ERROR;
            error_details :=
              Cause (TypeError
                "Cannot read properties of undefined (reading 'time')") |})
  /\ previewData Sample.emptied_bucket average None
     = Throw (Native
         (TypeError "Cannot read properties of undefined (reading 'time')")).
Proof.
  assert (Hvalid : isValid (validation Sample.emptied_bucket) = true)
    by reflexivity.
  assert (Hentry : In ("2024-01-01"%string, []) (grouped Sample.emptied_bucket))
    by (left; reflexivity).
  split; [exact Hvalid|]. split; [exact Hentry|].
  destruct (@processImport_wraps_the_error_of_an_empty_bucket _
              Sample.emptied_bucket "2024-01-01"%string None Hvalid Hentry)
    as [Himport [Hpreview _]].
  split; [rewrite Himport; reflexivity|exact Hpreview].
Defined.

Lemma previewData_keep_all_reorders_the_parse_result_witness :
  Spec.dated (transformedData Sample.three_readings) = true
  /\ exists preview after,
       previewData Sample.three_readings keep_all (Some 2) = Ok (preview, after)
       /\ transformedData after
          = [Sample.next_day; Sample.morning; Sample.evening]
       /\ previewData after keep_all (Some 2) = Ok (preview, after).
Proof.
  assert (Hdated : Spec.dated (transformedData Sample.three_readings) = true)
    by (vm_compute; reflexivity).
  split; [exact Hdated|].
  destruct (@previewData_keep_all_reorders_the_parse_result _
              Sample.three_readings (Some 2) Hdated)
    as [[preview [after Hall]] _].
  destruct Hall as (Hrun & Hsorted & _ & _ & _ & _ & _ & _ & Hagain & _).
  exists preview, after. split; [exact Hrun|].
  split; [rewrite Hsorted; vm_compute; reflexivity|exact Hagain].
Defined.

End ParseRuns.

(* ================================================================= *)
(** ** The statistics of a parse result *)

Section CodeUnitOrder.

Lemma ascii_compare_cases (a b : ascii) :
  CompareSpec (a = b) (N_of_ascii a < N_of_ascii b)%N
    (N_of_ascii b < N_of_ascii a)%N (Ascii.compare a b).
Proof.
  unfold Ascii.compare.
  destruct (N.compare_spec (N_of_ascii a) (N_of_ascii b)) as [Heq|Hlt|Hgt];
    constructor; try assumption.
  rewrite <- (ascii_N_embedding a), <- (ascii_N_embedding b), Heq. reflexivity.
Qed.

Lemma code_units_leb_refl (s : string) : String.leb s s = true.
Proof.
  unfold String.leb.
  assert (Heq : String.compare s s = Eq).
  { induction s as [|c s IH]; cbn [String.compare]; [reflexivity|].
    destruct (ascii_compare_cases c c); [exact IH|lia|lia]. }
  rewrite Heq. reflexivity.
Qed.

Lemma code_units_leb_trans (a b c : string) :
  String.leb a b = true -> String.leb b c = true -> String.leb a c = true.
Proof.
  unfold String.leb. revert b c.
  induction a as [|x a IH]; intros [|y b] [|z c]; cbn [String.compare];
    try reflexivity; try discriminate.
  destruct (ascii_compare_cases x y) as [Hxy|Hxy|Hxy]; try discriminate;
    destruct (ascii_compare_cases y z) as [Hyz|Hyz|Hyz]; try discriminate;
    destruct (ascii_compare_cases x z) as [Hxz|Hxz|Hxz]; subst;
    try reflexivity; try lia; intros Hab Hbc.
  exact (IH b c Hab Hbc).
Qed.

(** The default comparator decides the order of the code units. *)
Lemma code_unit_order_decides (a b : string) :
  ((compare_result (code_unit_order a b) <=? 0)%Z = true -> String.leb a b = true)
  /\ ((compare_result (code_unit_order a b) <=? 0)%Z = false ->
      String.leb b a = true).
Proof.
  unfold code_unit_order, String.leb. cbn [compare_result].
  rewrite (String.compare_antisym b a).
  destruct (String.compare a b); cbn; split; congruence.
Qed.

Lemma sort_code_units_sorted (xs : list string) :
  StronglySorted (fun a b => String.leb a b = true) (sort code_unit_order xs).
Proof.
  apply (@sort_sorted _ code_unit_order (fun a b => String.leb a b = true)
           (fun _ => True)).
  - exact code_units_leb_trans.
  - intros a b _ _. apply code_unit_order_decides.
  - apply Forall_forall. intros; exact I.
Qed.

End CodeUnitOrder.

Section SortedEnds.

Context {A : Type} (before : A -> A -> Prop).
Hypothesis before_refl : forall a, before a a.

Lemma sorted_first (x : A) (xs : list A) :
  StronglySorted before (x :: xs) -> forall y, In y (x :: xs) -> before x y.
Proof.
  intros Hsorted y [<-|Hy]; [apply before_refl|].
  inversion Hsorted as [|? ? _ Hall]; subst.
  rewrite Forall_forall in Hall. exact (Hall y Hy).
Qed.

Lemma sorted_last (xs : list A) :
  StronglySorted before xs -> xs <> [] ->
  exists z, nth_error xs (List.length xs - 1) = Some z
            /\ In z xs /\ forall y, In y xs -> before y z.
Proof.
  induction 1 as [|x xs Hsorted IH Hall]; intros Hne; [congruence|].
  destruct xs as [|x' xs].
  - exists x. split; [reflexivity|]. split; [left; reflexivity|].
    intros y [<-|[]]. apply before_refl.
  - destruct IH as [z [Hnth [Hin Hmax]]]; [discriminate|].
    exists z. split; [|split; [right; exact Hin|]].
    + replace (List.length (x :: x' :: xs) - 1)%nat
        with (S (List.length (x' :: xs) - 1))%nat by (cbn [List.length]; lia).
      exact Hnth.
    + intros y [<-|Hy]; [|exact (Hmax y Hy)].
      rewrite Forall_forall in Hall. exact (Hall z Hin).
Qed.

End SortedEnds.

Section SetSize.

Lemma Set_size_same_members (xs ys : list string) :
  (forall x, In x xs <-> In x ys) -> Set_size xs = Set_size ys.
Proof.
  intros Hsame. unfold Set_size.
  apply Permutation_length, NoDup_Permutation; try apply NoDup_nodup.
  intros x. rewrite !nodup_In. apply Hsame.
Qed.

Lemma Set_size_distinct (xs : list string) :
  NoDup xs -> Set_size xs = List.length xs.
Proof. intros Hxs. unfold Set_size. rewrite (nodup_fixed_point _ Hxs). reflexivity. Qed.

Lemma Set_size_bounds (xs : list string) :
  (Set_size xs <= List.length xs)%nat
  /\ (xs <> [] -> (1 <= Set_size xs)%nat).
Proof.
  unfold Set_size. split.
  - apply NoDup_incl_length; [apply NoDup_nodup|].
    intros x Hx. apply nodup_In in Hx. exact Hx.
  - intros Hne. destruct xs as [|x xs]; [congruence|].
    assert (Hin : In x (nodup string_dec (x :: xs)))
      by (apply nodup_In; left; reflexivity).
    destruct (nodup string_dec (x :: xs)); [contradiction|cbn [List.length]; lia].
Qed.

End SetSize.

Section Statistics.

Import CsvParsingService RenphoImportService.

(** X13.  [getImportStatistics] on a parse result without records gives
    zero counts and no date range.  Otherwise it counts the records, the
    distinct dates (at least one, at most one per record; sorting the
    dates first does not change their number) and the entries of
    [duplicates], and its date range is made of two dates of the data
    that bound every date in the order of the code units: [start] is
    not after any date, [end] not before any. *)
Theorem getImportStatistics_range_bounds_every_date :
  forall parseResult : ParseResult,
    let dates := map date (transformedData parseResult) in
    let statistics := getImportStatistics parseResult in
    (transformedData parseResult = [] ->
     statistics = {| totalMeasurements := 0; uniqueDates := 0;
                     duplicateDates := 0; dateRange := None |})
    /\ (transformedData parseResult <> [] ->
        totalMeasurements statistics = List.length (transformedData parseResult)
        /\ uniqueDates statistics = Set_size dates
        /\ (1 <= uniqueDates statistics <= totalMeasurements statistics)%nat
        /\ duplicateDates statistics = List.length (duplicates parseResult)
        /\ exists first last,
             dateRange statistics
             = Some {| range_start := Some first; range_end := Some last |}
             /\ In first dates /\ In last dates
             /\ forall d, In d dates ->
                  String.leb first d = true /\ String.leb d last = true).
Proof.
  intros parseResult dates statistics. subst dates statistics.
  unfold getImportStatistics.
  destruct (transformedData parseResult) as [|r data] eqn:Hdata.
  - split; [reflexivity|congruence].
  - split; [discriminate|]. intros _.
    cbn [totalMeasurements uniqueDates duplicateDates dateRange].
    set (dates := map date (r :: data)).
    pose proof (sort_perm code_unit_order dates) as Hperm.
    pose proof (sort_code_units_sorted dates) as Hsorted.
    assert (Hsize : Set_size (sort code_unit_order dates) = Set_size dates).
    { apply Set_size_same_members. intros x. split; apply Permutation_in;
        [exact Hperm|symmetry; exact Hperm]. }
    assert (Hdates : dates <> []) by discriminate.
    destruct (Set_size_bounds dates) as [Hle Hone].
    split; [reflexivity|]. split; [exact Hsize|].
    split.
    { rewrite Hsize. split; [exact (Hone Hdates)|].
      unfold dates in Hle. rewrite length_map in Hle. exact Hle. }
    split; [reflexivity|].
    assert (Hne : sort code_unit_order dates <> []).
    { intros Hnil. rewrite Hnil in Hperm.
      apply Permutation_nil in Hperm. congruence. }
    destruct (sorted_last code_units_leb_refl Hsorted Hne)
      as [last [Hlast [Hin_last Hmax]]].
    destruct (sort code_unit_order dates) as [|first sorted] eqn:Hsort;
      [congruence|].
    exists first, last. cbn [nth_error]. rewrite Hlast.
    split; [reflexivity|].
    split; [apply (Permutation_in _ Hperm); left; reflexivity|].
    split; [apply (Permutation_in _ Hperm); exact Hin_last|].
    intros d Hd.
    assert (Hd' : In d (first :: sorted))
      by (apply (Permutation_in _ (Permutation_sym Hperm)); exact Hd).
    split.
    + exact (sorted_first code_units_leb_refl Hsorted Hd').
    + exact (Hmax d Hd').
Qed.

Lemma getImportStatistics_of_records (parseResult : ParseResult) :
  transformedData parseResult <> [] ->
  getImportStatistics parseResult
  = let dates := sort code_unit_order (map date (transformedData parseResult)) in
    {| totalMeasurements := List.length (transformedData parseResult);
       uniqueDates := Set_size dates;
       duplicateDates := List.length (duplicates parseResult);
       dateRange :=
         Some {| range_start := nth_error dates 0;
                 range_end := nth_error dates (List.length dates - 1) |} |}.
Proof.
  intros Hdata. unfold getImportStatistics.
  destruct (transformedData parseResult); [congruence|reflexivity].
Qed.

Lemma grouped_keys_are_dates (data : list TransformedMeasurement)
    (groups : JsObject.t (list TransformedMeasurement)) :
  Spec.grouped_so_far data groups ->
  forall d, In d (map fst groups) <-> In d (map date data).
Proof.
  intros Hinv d. split.
  - intros Hkey. apply in_map_iff in Hkey as [[d' records] [Hd Hentry]].
    cbn [fst] in Hd. subst d'.
    destruct (Spec.bucket_contents Hinv d records Hentry) as [Hrecords Hne].
    destruct records as [|record records]; [congruence|].
    assert (Hin : In record (Spec.records_on d data))
      by (rewrite <- Hrecords; left; reflexivity).
    apply records_on_In in Hin as [Hin Hdate].
    apply in_map_iff. exists record. split; assumption.
  - intros Hdate. apply in_map_iff in Hdate as [record [<- Hin]].
    exact (Spec.dates_covered Hinv record Hin).
Qed.

Lemma find_duplicates_length (groups : JsObject.t (list TransformedMeasurement)) :
  (List.length (find_duplicates groups) <= List.length groups)%nat.
Proof.
  unfold find_duplicates. rewrite length_map.
  rewrite <- (Permutation_length (entries_perm groups)).
  apply filter_length_le.
Qed.

End Statistics.

Section StatisticsOfAParse.

Import CsvParsingService ImportValidationService RenphoImportService.
Context `{Runtime}.

(** X14.  After a parse the statistics say what an import will do:
    [totalMeasurements] is the number of rows, which is the number of
    records [keep_all] imports; [uniqueDates] is the number of groups,
    which is the number of records [average] imports; and
    [duplicateDates] is at most [uniqueDates]. *)
Theorem getImportStatistics_predicts_the_import :
  forall (rawData : list RenphoRawData) (parseResult : ParseResult),
    parseFile_rows rawData = Ok parseResult ->
    let statistics := getImportStatistics parseResult in
    totalMeasurements statistics = List.length rawData
    /\ uniqueDates statistics = List.length (grouped parseResult)
    /\ (duplicateDates statistics <= uniqueDates statistics)%nat
    /\ (isValid (validation parseResult) = true ->
        (exists kept,
           snd (processImport parseResult keep_all) = Ok kept
           /\ successful kept = totalMeasurements statistics)
        /\ (exists averaged,
              snd (processImport parseResult average) = Ok averaged
              /\ successful averaged = uniqueDates statistics)).
Proof.
  intros rawData parseResult Hrun statistics. subst statistics.
  destruct (@parseFile_rows_ok_inv _ _ _ Hrun)
    as [Hrows [Htransform [Hinv [_ [Hdups _]]]]].
  destruct (parseFile_rows_well_formed _ Hrun) as [_ [_ [_ [_ Hbuckets]]]].
  pose proof (Forall2_length (transformRenphoData_transcribes _ Htransform))
    as Hlength.
  assert (Hdata : transformedData parseResult <> []).
  { intros Hnone. rewrite Hnone in Hlength.
    destruct rawData; [congruence|discriminate Hlength]. }
  rewrite (@getImportStatistics_of_records _ Hdata).
  cbn [totalMeasurements uniqueDates duplicateDates].
  assert (Hunique : Set_size (sort code_unit_order
                                (map date (transformedData parseResult)))
                    = List.length (grouped parseResult)).
  { rewrite <- (length_map fst (grouped parseResult)).
    rewrite <- (Set_size_distinct (Spec.keys_distinct Hinv)).
    apply Set_size_same_members. intros d.
    rewrite (grouped_keys_are_dates Hinv d). split; apply Permutation_in.
    - apply sort_perm.
    - symmetry. apply sort_perm. }
  split; [symmetry; exact Hlength|].
  split; [exact Hunique|].
  split; [rewrite Hunique, Hdups; apply find_duplicates_length|].
  intros Hvalid. split.
  - eexists. split.
    + unfold processImport, processImport_try. rewrite Hvalid. reflexivity.
    + reflexivity.
  - destruct (averageDailyMeasurements_returns _ Hbuckets)
      as [averaged [Haverage _]].
    eexists. split.
    + unfold processImport, processImport_try. rewrite Hvalid. cbn.
      rewrite Haverage. reflexivity.
    + cbn [successful]. rewrite Hunique. exact (averaged_length _ Haverage).
Qed.

End StatisticsOfAParse.

Section StatisticsRuns.

Import CsvParsingService ImportValidationService RenphoImportService
  ReferenceRuntime.

Lemma getImportStatistics_predicts_the_import_witness :
  parseFile_rows Sample.three_rows = Ok Sample.three_rows_parsed
  /\ getImportStatistics Sample.three_rows_parsed
     = {| totalMeasurements := 3; uniqueDates := 2; duplicateDates := 1;
          dateRange := Some {| range_start := Some "2024-03-15"%string;
                               range_end := Some "2024-03-16"%string |} |}
  /\ uniqueDates (getImportStatistics Sample.three_rows_parsed)
     = List.length (grouped Sample.three_rows_parsed).
Proof.
  assert (Hrun : parseFile_rows Sample.three_rows = Ok Sample.three_rows_parsed)
    by (vm_compute; reflexivity).
  split; [exact Hrun|]. split; [vm_compute; reflexivity|].
  exact (proj1 (proj2 (@getImportStatistics_predicts_the_import _ _ _ Hrun))).
Defined.

End StatisticsRuns.

(* ================================================================= *)
(** ** File names *)

Section FileNames.

Local Open Scope string_scope.

Lemma string_length_append (a b : string) :
  String.length (a ++ b) = (String.length a + String.length b)%nat.
Proof. induction a as [|c a IH]; cbn; [reflexivity|rewrite IH; reflexivity]. Qed.

Lemma string_append_assoc (a b c : string) : (a ++ b) ++ c = a ++ (b ++ c).
Proof. induction a as [|x a IH]; cbn; [reflexivity|rewrite IH; reflexivity]. Qed.

Lemma substring_whole (s : string) : substring 0 (String.length s) s = s.
Proof. induction s as [|c s IH]; cbn; [reflexivity|rewrite IH; reflexivity]. Qed.

Lemma substring_after (a b : string) (n : nat) :
  substring (String.length a) n (a ++ b) = substring 0 n b.
Proof. induction a as [|c a IH]; cbn; [reflexivity|exact IH]. Qed.

Lemma substring_cut (s : string) :
  forall n, (n <= String.length s)%nat ->
    s = substring 0 n s ++ substring n (String.length s - n) s.
Proof.
  induction s as [|c s IH]; intros [|n] Hn; cbn in *; try reflexivity; try lia.
  - rewrite substring_whole. reflexivity.
  - rewrite <- (IH n) by lia. reflexivity.
Qed.

(** [endsWith] holds exactly of the strings that are something followed
    by the suffix. *)
Lemma endsWith_iff (s suffix : string) :
  endsWith s suffix = true <-> exists front, s = front ++ suffix.
Proof.
  unfold endsWith. split.
  - destruct (Nat.ltb_spec (String.length s) (String.length suffix)) as [|Hlen];
      [discriminate|].
    intros Heq. apply String.eqb_eq in Heq.
    exists (substring 0 (String.length s - String.length suffix) s).
    assert (Hcut : (String.length s - String.length suffix <= String.length s)%nat)
      by lia.
    apply substring_cut in Hcut.
    replace (String.length s - (String.length s - String.length suffix))%nat
      with (String.length suffix) in Hcut by lia.
    rewrite Heq in Hcut. exact Hcut.
  - intros [front ->]. rewrite string_length_append.
    destruct (Nat.ltb_spec (String.length front + String.length suffix)
                (String.length suffix)); [lia|].
    replace (String.length front + String.length suffix - String.length suffix)%nat
      with (String.length front) by lia.
    rewrite substring_after, substring_whole. apply String.eqb_refl.
Qed.

(** *** Splitting at a separator *)

Lemma split_not_empty (sep : ascii) (s : string) : split sep s <> [].
Proof.
  destruct s as [|c s]; cbn [split]; [discriminate|].
  destruct (Ascii.eqb c sep); [discriminate|].
  destruct (split sep s); discriminate.
Qed.

(** Joining the parts with the separator gives the string back. *)
Lemma join_split (sep : ascii) (s : string) :
  join (String sep "") (split sep s) = s.
Proof.
  unfold join. induction s as [|c s IH]; cbn [split]; [reflexivity|].
  destruct (Ascii.eqb_spec c sep) as [->|Hc].
  - pose proof (split_not_empty sep s) as Hne.
    destruct (split sep s) as [|part parts]; [congruence|].
    cbn [String.concat] in *. rewrite IH. reflexivity.
  - pose proof (split_not_empty sep s) as Hne.
    destruct (split sep s) as [|part parts]; [congruence|].
    destruct parts as [|part' parts]; cbn [String.concat append] in *;
      rewrite IH; reflexivity.
Qed.

Lemma split_append (sep : ascii) (a b : string) :
  split sep (a ++ String sep b) = (split sep a ++ split sep b)%list.
Proof.
  induction a as [|c a IH]; cbn [append split].
  - rewrite Ascii.eqb_refl. reflexivity.
  - rewrite IH. destruct (Ascii.eqb c sep); [reflexivity|].
    pose proof (split_not_empty sep a) as Hne.
    destruct (split sep a) as [|part parts]; [congruence|reflexivity].
Qed.

Lemma pop_append (xs ys : list string) :
  ys <> [] -> pop (xs ++ ys) = pop ys.
Proof.
  intros Hys. induction xs as [|x xs IH]; [reflexivity|].
  cbn [app pop]. rewrite IH.
  destruct (xs ++ ys)%list eqn:Happ; [|reflexivity].
  apply app_eq_nil in Happ as [_ Hnil]. congruence.
Qed.

Lemma pop_some (xs : list string) (x : string) :
  pop xs = Some x -> exists init, xs = (init ++ [x])%list.
Proof.
  induction xs as [|y xs IH]; [discriminate|].
  destruct xs as [|z xs].
  - cbn. intros Hx. injection Hx as <-. exists []. reflexivity.
  - intros Hx. destruct (IH Hx) as [init ->].
    exists (y :: init). reflexivity.
Qed.

Lemma pop_map (f : string -> string) (xs : list string) :
  pop (map f xs) = option_map f (pop xs).
Proof.
  induction xs as [|x xs IH]; [reflexivity|].
  destruct xs as [|y xs]; [reflexivity|exact IH].
Qed.

Lemma join_last (sep : string) (init : list string) (x : string) :
  init <> [] -> join sep (init ++ [x]) = join sep init ++ sep ++ x.
Proof.
  unfold join. intros Hne. induction init as [|y init IH]; [congruence|].
  destruct init as [|z init]; [reflexivity|].
  change (y ++ sep ++ String.concat sep ((z :: init) ++ [x])
          = (y ++ sep ++ String.concat sep (z :: init)) ++ sep ++ x).
  rewrite IH by discriminate.
  rewrite !string_append_assoc. reflexivity.
Qed.

(** *** Letter case *)

Lemma lower_unit_dot (c : ascii) :
  Ascii.eqb (lower_unit c) "." = Ascii.eqb c ".".
Proof.
  destruct c as [b0 b1 b2 b3 b4 b5 b6 b7].
  destruct b0, b1, b2, b3, b4, b5, b6, b7; vm_compute; reflexivity.
Qed.

Lemma split_toLowerCase (s : string) :
  split "." (toLowerCase s) = map toLowerCase (split "." s).
Proof.
  induction s as [|c s IH]; cbn [toLowerCase split map]; [reflexivity|].
  rewrite lower_unit_dot, IH.
  destruct (Ascii.eqb c "."); [reflexivity|].
  destruct (split "." s); reflexivity.
Qed.

(** The extension the drop zone reads is [csv] exactly when the
    lower-case name is [csv] or ends in [.csv]. *)
Lemma extension_csv (s : string) :
  option_map toLowerCase (pop (split "." s)) = Some "csv"
  <-> toLowerCase s = "csv" \/ endsWith (toLowerCase s) ".csv" = true.
Proof.
  rewrite <- pop_map, <- split_toLowerCase.
  set (lowered := toLowerCase s). split.
  - intros Hpop. destruct (pop_some _ Hpop) as [init Hparts].
    pose proof (join_split "." lowered) as Hjoin. rewrite Hparts in Hjoin.
    destruct init as [|part init].
    + left. symmetry. exact Hjoin.
    + right. apply endsWith_iff.
      rewrite join_last in Hjoin by discriminate.
      eexists. symmetry. exact Hjoin.
  - intros [->|Hends]; [reflexivity|].
    apply endsWith_iff in Hends as [front ->].
    change (front ++ ".csv") with (front ++ String "." "csv").
    rewrite split_append. apply pop_append. discriminate.
Qed.

End FileNames.

(* ================================================================= *)
(** ** The two file checks *)

Section FileChecks.

Import RenphoImportService.
Context `{Runtime}.
Local Open Scope string_scope.

Lemma size_within_default (n : N) :
  Qle_bool (inject_Z (Z.of_N n)) (10 * 1024 * 1024) = (n <=? 10485760)%N.
Proof.
  apply eq_true_iff_eq. rewrite Qle_bool_iff, N.leb_le.
  assert (Hmax : 10 * 1024 * 1024 == inject_Z 10485760) by reflexivity.
  rewrite Hmax, <- Zle_Qle. lia.
Qed.

Lemma service_verdict (file : File) :
  FileValidation.isValid (validateFile file)
  = Spec.csv_name file && Spec.accepted_size file.
Proof.
  unfold validateFile, Spec.csv_name, Spec.accepted_size.
  destruct (endsWith (toLowerCase (name file)) ".csv"); cbn [negb andb];
    [|reflexivity].
  change (10 * 1024 * 1024)%N with 10485760%N.
  destruct (N.ltb_spec 10485760 (size file)) as [Hbig|Hfits];
    cbn [FileValidation.isValid].
  - destruct (N.leb_spec (size file) 10485760); [lia|].
    rewrite andb_false_r. reflexivity.
  - destruct (N.eqb_spec (size file) 0) as [Hzero|Hsome];
      cbn [FileValidation.isValid].
    + rewrite Hzero. reflexivity.
    + destruct (N.ltb_spec 0 (size file)); [|lia].
      destruct (N.leb_spec (size file) 10485760); [reflexivity|lia].
Qed.

Lemma drop_zone_verdict (file : File) :
  FileValidation.isValid (UseDragAndDrop.validateFile Spec.default_options file)
  = String.eqb
      ("." ++ match option_map toLowerCase (pop (split "." (name file))) with
              | Some extension => extension
              | None => "undefined"
              end) ".csv"
    && Spec.accepted_size file.
Proof.
  unfold UseDragAndDrop.validateFile, Spec.default_options, Spec.accepted_size.
  cbn [UseDragAndDrop.acceptedTypes UseDragAndDrop.maxFileSize List.length
       Nat.ltb Nat.leb andb includes existsb template String.concat append].
  rewrite orb_false_r.
  match goal with
  | |- context [String.eqb ?x ".csv"] => destruct (String.eqb x ".csv")
  end; cbn [negb andb FileValidation.isValid]; [|reflexivity].
  unfold gtb, ltb. rewrite size_within_default.
  destruct (N.leb_spec (size file) 10485760) as [Hfits|Hbig];
    cbn [negb FileValidation.isValid].
  - destruct (N.eqb_spec (size file) 0) as [Hzero|Hsome];
      cbn [FileValidation.isValid].
    + rewrite Hzero. reflexivity.
    + destruct (N.ltb_spec 0 (size file)); [reflexivity|lia].
  - rewrite andb_false_r. reflexivity.
Qed.

Lemma drop_zone_extension (file : File) :
  String.eqb
    ("." ++ match option_map toLowerCase (pop (split "." (name file))) with
            | Some extension => extension
            | None => "undefined"
            end) ".csv" = true
  <-> toLowerCase (name file) = "csv" \/ Spec.csv_name file = true.
Proof.
  unfold Spec.csv_name. rewrite <- extension_csv, String.eqb_eq.
  destruct (option_map toLowerCase (pop (split "." (name file))))
    as [extension|]; cbn [append]; split; intros Heq;
    try discriminate Heq; injection Heq as ->; reflexivity.
Qed.

(** X15.  The service accepts a file exactly when its lower-case name
    ends in [.csv] and its size is positive and at most 10 MB, and then
    it gives no error text.  Every file the service accepts, the drop
    zone with no option set accepts as well.  The converse fails only
    for a file whose whole name is [csv] in some letter case: the drop
    zone reads the text after the last dot, or the whole name when there
    is no dot, so it lets such a file through and the service then asks
    for a CSV file. *)
Theorem validateFile_service_and_drop_zone :
  forall file : File,
    let checked := validateFile file in
    let dropped := UseDragAndDrop.validateFile Spec.default_options file in
    FileValidation.isValid checked = Spec.csv_name file && Spec.accepted_size file
    /\ (FileValidation.isValid checked = true
        <-> FileValidation.error checked = None)
    /\ (FileValidation.isValid checked = true ->
        FileValidation.isValid dropped = true)
    /\ (FileValidation.isValid dropped = true
        /\ FileValidation.isValid checked = false
        <-> toLowerCase (name file) = "csv" /\ Spec.accepted_size file = true)
    /\ (toLowerCase (name file) = "csv" ->
        FileValidation.error checked = Some "Please select a CSV file").
Proof.
  intros file checked dropped. subst checked dropped.
  rewrite service_verdict, drop_zone_verdict.
  split; [reflexivity|]. split; [|split; [|split]].
  - rewrite <- service_verdict. unfold validateFile.
    destruct (endsWith (toLowerCase (name file)) ".csv"); cbn [negb];
      [|split; discriminate].
    destruct (_ <? size file)%N; [split; discriminate|].
    destruct (size file =? 0)%N; split; try discriminate; reflexivity.
  - intros Hchecked. apply andb_true_iff in Hchecked as [Hname Hsize].
    apply andb_true_iff. split; [|exact Hsize].
    apply drop_zone_extension. right. exact Hname.
  - split.
    + intros [Hdropped Hchecked].
      apply andb_true_iff in Hdropped as [Hextension Hsize].
      rewrite Hsize, andb_true_r in Hchecked.
      apply drop_zone_extension in Hextension as [Hbare|Hname];
        [split; assumption|congruence].
    + intros [Hbare Hsize]. rewrite Hsize, !andb_true_r.
      split; [apply drop_zone_extension; left; exact Hbare|].
      unfold Spec.csv_name. rewrite Hbare. reflexivity.
  - intros Hbare. unfold validateFile. rewrite Hbare. reflexivity.
Qed.

End FileChecks.

(* ================================================================= *)
(** ** The format check and the CSV parse *)

Section CsvFormat.

Import CsvParsingService.
Local Open Scope string_scope.

(** No required column bears a name that a row inherits, so [in] finds a
    required column only as a property of the row itself. *)
Lemma has_property_required (first : CsvRow) (col : string) :
  In col requiredColumns ->
  JsObject.has_property first col = Spec.has_column first col.
Proof.
  intros Hcol. unfold JsObject.has_property, JsObject.get, Spec.has_column.
  destruct (JsObject.get_own first col); [reflexivity|].
  assert (Hplain : JsObject.inherited col = false).
  { cbn in Hcol. decompose [or] Hcol; subst; try reflexivity. contradiction. }
  rewrite Hplain. reflexivity.
Qed.

Lemma missing_columns_filter (first : CsvRow) :
  filter (fun col => negb (JsObject.has_property first col)) requiredColumns
  = Spec.missing_columns first.
Proof.
  unfold Spec.missing_columns. apply filter_ext_in.
  intros col Hcol. rewrite (has_property_required first Hcol). reflexivity.
Qed.

Lemma validateRenphoFormat_first (first : CsvRow) (rest : list CsvRow) :
  validateRenphoFormat (first :: rest)
  = match Spec.missing_columns first with
    | [] => Ok tt
    | _ :: _ =>
        Throw (Error ("Missing required RENPHO columns: "
                      ++ join ", " (Spec.missing_columns first)))
    end.
Proof.
  unfold validateRenphoFormat. rewrite missing_columns_filter.
  destruct (Spec.missing_columns first); reflexivity.
Qed.

Lemma no_missing_columns (first : CsvRow) :
  Spec.missing_columns first = []
  <-> forall col, In col requiredColumns -> Spec.has_column first col = true.
Proof.
  unfold Spec.missing_columns. split.
  - intros Hnone col Hcol.
    destruct (Spec.has_column first col) eqn:Hhas; [reflexivity|].
    assert (Hin : In col (filter (fun c => negb (Spec.has_column first c))
                            requiredColumns))
      by (apply filter_In; split; [exact Hcol|rewrite Hhas; reflexivity]).
    rewrite Hnone in Hin. contradiction.
  - intros Hall.
    destruct (filter (fun c => negb (Spec.has_column first c)) requiredColumns)
      as [|col cols] eqn:Hfilter; [reflexivity|].
    assert (Hin : In col (filter (fun c => negb (Spec.has_column first c))
                            requiredColumns))
      by (rewrite Hfilter; left; reflexivity).
    apply filter_In in Hin as [Hcol Hhas].
    rewrite (Hall col Hcol) in Hhas. discriminate.
Qed.

(** X16.  [validateRenphoFormat] looks at the first row only.  It throws
    [CSV file is empty] on no rows; it returns when the first row has
    the five required columns as properties of its own, whatever the
    other rows hold; otherwise it throws an error that lists exactly the
    required columns the first row lacks, in the order [Fecha], [ Hora],
    [ Peso(kg)], [IMC], [Grasa corporal(%)]. *)
Theorem validateRenphoFormat_checks_the_first_row :
  forall data : list CsvRow,
    (data = [] -> validateRenphoFormat data = Throw (Error "CSV file is empty"))
    /\ (validateRenphoFormat data = Ok tt
        <-> exists first rest,
              data = first :: rest
              /\ forall col, In col requiredColumns ->
                   Spec.has_column first col = true)
    /\ (forall first rest,
          data = first :: rest ->
          Spec.missing_columns first <> [] ->
          validateRenphoFormat data
          = Throw (Error ("Missing required RENPHO columns: "
                          ++ join ", " (Spec.missing_columns first)))).
Proof.
  intros data. split; [intros ->; reflexivity|]. split.
  - destruct data as [|first rest].
    + split; [discriminate|]. intros [first [rest [Habs _]]]. discriminate.
    + rewrite validateRenphoFormat_first. split.
      * intros Hrun. exists first, rest. split; [reflexivity|].
        apply no_missing_columns.
        destruct (Spec.missing_columns first); [reflexivity|discriminate].
      * intros [first' [rest' [Heq Hall]]]. injection Heq as <- <-.
        apply no_missing_columns in Hall. rewrite Hall. reflexivity.
  - intros first rest -> Hmissing. rewrite validateRenphoFormat_first.
    destruct (Spec.missing_columns first); [congruence|reflexivity].
Qed.

Variable Papa_parse : File -> PapaOutcome.

(** X17.  [parseRenphoCSV] resolves exactly when the name ends in
    [.csv], Papaparse completes, and the first of the rows it made has
    the required columns; it then resolves to those rows as they are, so
    never to an empty list, and the [No data found] check of [parseFile]
    that follows cannot fire.  A rejection carries [INVALID_FILE] when
    the name is wrong (Papaparse is not consulted) and [PARSING_ERROR]
    otherwise; when the format check throws, the message is the general
    one and what the check found is carried as details only. *)
Theorem parseRenphoCSV_resolves_only_checked_rows :
  forall file : File,
    (forall data,
       parseRenphoCSV Papa_parse file = Ok data
       <-> Spec.csv_name file = true
           /\ (exists warnings, Papa_parse file = Papa_complete data warnings)
           /\ exists first rest,
                data = first :: rest /\ Spec.missing_columns first = [])
    /\ parseRenphoCSV Papa_parse file <> Ok []
    /\ (forall e,
          parseRenphoCSV Papa_parse file = Throw e ->
          exists r,
            e = Renpho r
            /\ error_code r
               = if Spec.csv_name file then PARSING_ERROR else INVALID_FILE)
    /\ (Spec.csv_name file = false ->
        parseRenphoCSV Papa_parse file
        = Throw (Renpho
            {| error_message := "Invalid file type. Please select a CSV file.";
               error_code := INVALID_FILE;
               error_details := NoDetails |}))
    /\ (forall data warnings cause,
          Spec.csv_name file = true ->
          Papa_parse file = Papa_complete data warnings ->
          validateRenphoFormat data = Throw cause ->
          parseRenphoCSV Papa_parse file
          = Throw (Renpho
              {| error_message :=
                   "Failed to parse CSV data. Please ensure the file is exported from RENPHO app.";
                 error_code := PARSING_ERROR;
                 error_details := Cause cause |})).
Proof.
  intros file.
  assert (Hresolves : forall data,
             parseRenphoCSV Papa_parse file = Ok data
             <-> Spec.csv_name file = true
                 /\ (exists warnings, Papa_parse file = Papa_complete data warnings)
                 /\ exists first rest,
                      data = first :: rest /\ Spec.missing_columns first = []).
  { intros data. unfold parseRenphoCSV, Spec.csv_name.
    destruct (endsWith (toLowerCase (name file)) ".csv"); cbn [negb].
    2:{ split; [discriminate|]. intros [Habs _]. discriminate. }
    destruct (Papa_parse file) as [rows warnings|message].
    2:{ split; [discriminate|]. intros [_ [[w Habs] _]]. discriminate. }
    destruct rows as [|first rest].
    - cbn. split; [discriminate|].
      intros [_ [[w Heq] [first [rest [Hdata _]]]]].
      injection Heq as <- _. discriminate.
    - rewrite validateRenphoFormat_first.
      destruct (Spec.missing_columns first) as [|col cols] eqn:Hmissing.
      + split.
        * intros Heq. injection Heq as <-. split; [reflexivity|].
          split; [exists warnings; reflexivity|].
          exists first, rest. split; [reflexivity|exact Hmissing].
        * intros [_ [[w Heq] _]]. injection Heq as <- _. reflexivity.
      + split; [discriminate|].
        intros [_ [[w Heq] [first' [rest' [Hdata Hnone]]]]].
        injection Heq as <- _. injection Hdata as <- _. congruence. }
  split; [exact Hresolves|]. split; [|split; [|split]].
  - intros Hempty. apply Hresolves in Hempty as [_ [_ [first [rest [Habs _]]]]].
    discriminate.
  - intros e. unfold parseRenphoCSV, Spec.csv_name.
    destruct (endsWith (toLowerCase (name file)) ".csv"); cbn [negb].
    + destruct (Papa_parse file) as [rows warnings|message].
      * destruct (validateRenphoFormat rows); [discriminate|].
        intros Heq. injection Heq as <-. eexists. split; reflexivity.
      * intros Heq. injection Heq as <-. eexists. split; reflexivity.
    + intros Heq. injection Heq as <-. eexists. split; reflexivity.
  - unfold parseRenphoCSV, Spec.csv_name. intros ->. reflexivity.
  - unfold parseRenphoCSV, Spec.csv_name. intros data warnings cause -> -> ->.
    reflexivity.
Qed.

End CsvFormat.

Section CsvRuns.

Import CsvParsingService.
Local Open Scope string_scope.

(** A file in which the first row has no [IMC] column. *)
Example parseRenphoCSV_without_bmi :
  parseRenphoCSV
    (fun _ => Papa_complete [Sample.row_without_bmi; Sample.vendor_row] [])
    Sample.export
  = Throw (Renpho
      {| error_message :=
           "Failed to parse CSV data. Please ensure the file is exported from RENPHO app.";
         error_code := PARSING_ERROR;
         error_details :=
           Cause (Error "Missing required RENPHO columns: IMC") |}).
Proof. reflexivity. Qed.

(** Only the first row is checked. *)
Example parseRenphoCSV_checks_one_row :
  parseRenphoCSV
    (fun _ => Papa_complete [Sample.vendor_row; Sample.row_without_bmi] [])
    Sample.export
  = Ok [Sample.vendor_row; Sample.row_without_bmi].
Proof. reflexivity. Qed.

End CsvRuns.

(* ================================================================= *)
(** ** Rounding to one place *)

Section RoundingToOnePlace.

Import CsvParsingService.
Local Open Scope Q_scope.

Lemma Math_round_monotone (x y : Q) : x <= y -> Math_round x <= Math_round y.
Proof.
  intros Hxy. unfold Math_round. rewrite <- Zle_Qle.
  apply Qfloor_resp_le. lra.
Qed.

Lemma to_one_decimal_le (x y : Q) :
  x <= y -> Spec.to_one_decimal x <= Spec.to_one_decimal y.
Proof.
  intros Hxy. unfold Spec.to_one_decimal, num_div, num_mul.
  apply double_monotone.
  apply Qmult_le_compat_r; [|discriminate].
  apply Math_round_monotone, double_monotone.
  apply Qmult_le_compat_r; [exact Hxy|discriminate].
Qed.

(** X18.  [roundToDecimal] to one place, as every call of the source
    has it, in double arithmetic.  A larger number never rounds to a
    smaller one.  For a number of magnitude at most [10^9] the result
    is the double nearest to a number of one decimal place; rounding it
    again changes nothing; and it is away from the number by at most a
    twentieth and a millionth. *)
Theorem roundToDecimal_idempotent_monotone_near :
  forall x y : Q,
    (x <= y -> roundToDecimal x 1 <= roundToDecimal y 1)
    /\ (Qabs x <= 1000000000 ->
        Spec.one_decimal (roundToDecimal x 1)
        /\ roundToDecimal (roundToDecimal x 1) 1 == roundToDecimal x 1
        /\ Qabs (roundToDecimal x 1 - x) <= (1 # 20) + (1 # 1000000)).
Proof.
  intros x y. rewrite !roundToDecimal_one. split; [apply to_one_decimal_le|].
  intros Hx.
  destruct (@to_one_decimal_near x Hx) as [k [Hk [Htenth Hnear]]].
  split; [exists k; exact Hk|]. split.
  - rewrite Hk. apply to_one_decimal_fixed.
    apply Qabs_bound in Hx as [Hx_low Hx_high].
    apply Qabs_bound in Htenth as [Htenth_low Htenth_high].
    assert (Hten : inject_Z k / 10 * 10 == inject_Z k) by field.
    set (a := inject_Z k / 10) in *. clearbody a.
    assert (Hlo : (- 10 ^ 13 < k)%Z).
    { rewrite Zlt_Qlt. change (inject_Z (- 10 ^ 13)) with (- (10000000000000)). lra. }
    assert (Hhi : (k < 10 ^ 13)%Z).
    { rewrite Zlt_Qlt. change (inject_Z (10 ^ 13)) with 10000000000000. lra. }
    lia.
  - apply Qabs_bound in Hnear as [Hnear_low Hnear_high].
    apply Qabs_bound. split; lra.
Qed.

Lemma roundToDecimal_idempotent_monotone_near_witness :
  Qabs (double (15 # 100)) <= 1000000000
  /\ roundToDecimal (double (15 # 100)) 1 == double (2 # 10)
  /\ Qabs (roundToDecimal (double (15 # 100)) 1 - double (15 # 100))
     <= (1 # 20) + (1 # 1000000)
  /\ (1 # 20) < Qabs (roundToDecimal (double (15 # 100)) 1 - double (15 # 100)).
Proof.
  assert (Hsize : Qabs (double (15 # 100)) <= 1000000000)
    by (vm_compute; discriminate).
  split; [exact Hsize|]. split; [vm_compute; reflexivity|]. split.
  - exact (proj2 (proj2 (proj2 (roundToDecimal_idempotent_monotone_near
                                  (double (15 # 100)) 0) Hsize))).
  - vm_compute. reflexivity.
Defined.

End RoundingToOnePlace.

(* ================================================================= *)
(** ** The warning about weight variation *)

Section SmallestAndLargest.

Local Open Scope Q_scope.

Lemma Qmin_cases (x y : Q) :
  (Qmin x y = x /\ x <= y) \/ (Qmin x y = y /\ y <= x).
Proof.
  unfold Qmin. destruct (Qle_bool x y) eqn:Hle.
  - left. split; [reflexivity|]. apply Qle_bool_iff. exact Hle.
  - right. split; [reflexivity|].
    destruct (Qlt_le_dec y x) as [Hlt|Hxy]; [apply Qlt_le_weak; exact Hlt|].
    apply Qle_bool_iff in Hxy. congruence.
Qed.

Lemma Qmax_cases (x y : Q) :
  (Qmax x y = y /\ x <= y) \/ (Qmax x y = x /\ y <= x).
Proof.
  unfold Qmax. destruct (Qle_bool x y) eqn:Hle.
  - left. split; [reflexivity|]. apply Qle_bool_iff. exact Hle.
  - right. split; [reflexivity|].
    destruct (Qlt_le_dec y x) as [Hlt|Hxy]; [apply Qlt_le_weak; exact Hlt|].
    apply Qle_bool_iff in Hxy. congruence.
Qed.

(** [Math.min] returns one of its arguments, and none is smaller. *)
Lemma Math_min_least (others : list Q) :
  forall first,
    In (Math_min first others) (first :: others)
    /\ forall w, In w (first :: others) -> Math_min first others <= w.
Proof.
  unfold Math_min.
  induction others as [|other others IH]; intros first; cbn [fold_left].
  - split; [left; reflexivity|]. intros w [<-|[]]. apply Qle_refl.
  - destruct (IH (Qmin first other)) as [Hin Hleast]. split.
    + destruct Hin as [Heq|Hin]; [|right; right; exact Hin].
      rewrite <- Heq.
      destruct (Qmin_cases first other) as [[-> _]|[-> _]];
        [left|right; left]; reflexivity.
    + intros w Hw.
      assert (Hstart : fold_left Qmin others (Qmin first other) <= Qmin first other)
        by (apply Hleast; left; reflexivity).
      destruct Hw as [<-|[<-|Hw]].
      * apply Qle_trans with (Qmin first other); [exact Hstart|].
        destruct (Qmin_cases first other) as [[-> _]|[-> Hle]];
          [apply Qle_refl|exact Hle].
      * apply Qle_trans with (Qmin first other); [exact Hstart|].
        destruct (Qmin_cases first other) as [[-> Hle]|[-> _]];
          [exact Hle|apply Qle_refl].
      * apply Hleast. right. exact Hw.
Qed.

Lemma Math_max_greatest (others : list Q) :
  forall first,
    In (Math_max first others) (first :: others)
    /\ forall w, In w (first :: others) -> w <= Math_max first others.
Proof.
  unfold Math_max.
  induction others as [|other others IH]; intros first; cbn [fold_left].
  - split; [left; reflexivity|]. intros w [<-|[]]. apply Qle_refl.
  - destruct (IH (Qmax first other)) as [Hin Hgreatest]. split.
    + destruct Hin as [Heq|Hin]; [|right; right; exact Hin].
      rewrite <- Heq.
      destruct (Qmax_cases first other) as [[-> _]|[-> _]];
        [right; left|left]; reflexivity.
    + intros w Hw.
      assert (Hstart : Qmax first other <= fold_left Qmax others (Qmax first other))
        by (apply Hgreatest; left; reflexivity).
      destruct Hw as [<-|[<-|Hw]].
      * apply Qle_trans with (Qmax first other); [|exact Hstart].
        destruct (Qmax_cases first other) as [[-> Hle]|[-> _]];
          [exact Hle|apply Qle_refl].
      * apply Qle_trans with (Qmax first other); [|exact Hstart].
        destruct (Qmax_cases first other) as [[-> _]|[-> Hle]];
          [apply Qle_refl|exact Hle].
      * apply Hgreatest. right. exact Hw.
Qed.

End SmallestAndLargest.

Section Prefixes.

Local Open Scope string_scope.

Lemma prefix_append (p s : string) : String.prefix p (p ++ s) = true.
Proof.
  induction p as [|c p IH]; cbn; [destruct s; reflexivity|].
  destruct (ascii_dec c c); [exact IH|congruence].
Qed.

Lemma prefix_first_unit (c : ascii) (p s : string) :
  String.prefix (String c p) s = true -> Spec.first_unit s = Some c.
Proof.
  destruct s as [|c' s]; cbn; [discriminate|].
  destruct (ascii_dec c c'); [congruence|discriminate].
Qed.

End Prefixes.

Section VariationInDoubles.

Local Open Scope Q_scope.

#[global] Instance variation_percent_comp :
  Proper (Qeq ==> Qeq ==> Qeq) Spec.variation_percent.
Proof.
  intros lo lo' Hlo hi hi' Hhi. unfold Spec.variation_percent.
  rewrite Hlo, Hhi. reflexivity.
Qed.

Lemma variation_of_one_weight (w : Q) : Spec.variation_percent w w == 0.
Proof.
  unfold Spec.variation_percent, num_mul, num_div, num_sub.
  assert (Hsub : w - w == 0) by ring.
  rewrite (double_comp Hsub), (double_zero (Qeq_refl 0)).
  assert (Hdiv : 0 / w == 0) by (unfold Qdiv; ring).
  rewrite (double_comp Hdiv), (double_zero (Qeq_refl 0)).
  assert (Hmul : 0 * 100 == 0) by ring.
  rewrite (double_comp Hmul). apply double_zero. reflexivity.
Qed.

(** For weights between 1 and 100000 the variation in double
    arithmetic is the exact one, up to half a hundred-millionth. *)
Lemma variation_near (lo hi : Q) :
  1 <= lo -> lo <= hi -> hi <= 100000 ->
  Qabs (Spec.variation_percent lo hi - (hi - lo) / lo * 100) <= 1 # 200000000.
Proof.
  intros Hlo Hle Hhi.
  unfold Spec.variation_percent, num_mul, num_div, num_sub.
  assert (Hdiff : Qabs (hi - lo) <= pow2 17).
  { apply Qabs_bound. change (pow2 17) with 131072. split; lra. }
  pose proof (@double_error_bound (hi - lo) 17 ltac:(lia) Hdiff) as Herr1.
  change (pow2 (17 - 53)) with (1 # 68719476736) in Herr1.
  apply Qabs_bound in Herr1 as [Herr1_low Herr1_high].
  set (d := double (hi - lo)) in *.
  assert (Hexact : (hi - lo) / lo * lo == hi - lo) by (field; lra).
  assert (Hquotient : d / lo * lo == d) by (field; lra).
  set (rho := (hi - lo) / lo) in *. set (q := d / lo) in *.
  clearbody d. clearbody rho q.
  assert (Hrho : 0 <= rho /\ rho <= 100000).
  { split.
    - destruct (Qlt_le_dec rho 0) as [Hneg|Hpos]; [nra|exact Hpos].
    - destruct (Qlt_le_dec 100000 rho) as [Hbig|Hsmall]; [nra|exact Hsmall]. }
  assert (Hq : - (1 # 68719476736) <= q - rho /\ q - rho <= 1 # 68719476736).
  { split.
    - destruct (Qlt_le_dec (q - rho) (- (1 # 68719476736))) as [Hfar|Hnear];
        [nra|exact Hnear].
    - destruct (Qlt_le_dec (1 # 68719476736) (q - rho)) as [Hfar|Hnear];
        [nra|exact Hnear]. }
  assert (Hsize : Qabs q <= pow2 17).
  { apply Qabs_bound. change (pow2 17) with 131072. split; lra. }
  pose proof (@double_error_bound q 17 ltac:(lia) Hsize) as Herr2.
  change (pow2 (17 - 53)) with (1 # 68719476736) in Herr2.
  apply Qabs_bound in Herr2 as [Herr2_low Herr2_high].
  set (f := double q) in *. clearbody f.
  assert (Hscaled : Qabs (f * 100) <= pow2 24).
  { apply Qabs_bound. change (pow2 24) with 16777216. split; lra. }
  pose proof (@double_error_bound (f * 100) 24 ltac:(lia) Hscaled) as Herr3.
  change (pow2 (24 - 53)) with (1 # 536870912) in Herr3.
  apply Qabs_bound in Herr3 as [Herr3_low Herr3_high].
  set (v := double (f * 100)) in *. clearbody v.
  apply Qabs_bound. split; lra.
Qed.

End VariationInDoubles.

Section WeightVariation.

Import ImportValidationService.
Context `{Runtime}.
Local Open Scope Q_scope.

Implicit Types (data : list TransformedMeasurement) (r a b : TransformedMeasurement).

Lemma positive_weight_In data (w : Q) :
  In w (filter (fun w => gtb w 0) (map weight data))
  <-> exists r, In r data /\ weight r = w /\ 0 < w.
Proof.
  rewrite filter_In, in_map_iff. unfold gtb. rewrite ltb_lt. split.
  - intros [[r [Hw Hr]] Hpos]. exists r. repeat split; assumption.
  - intros [r [Hr [Hw Hpos]]]. split; [exists r; split; assumption|exact Hpos].
Qed.

(** What the variation warning, when it is there, is made of. *)
Lemma variation_warning_inv data (w : string) :
  (2 <= List.length data)%nat ->
  In w (warnings (validateMeasurementConsistency data)) ->
  String.prefix "Large weight variation detected: " w = true ->
  exists lo hi,
    In lo data /\ In hi data /\ 0 < weight lo
    /\ (forall r, In r data -> 0 < weight r ->
          weight lo <= weight r /\ weight r <= weight hi)
    /\ 30 < Spec.variation_percent (weight lo) (weight hi)
    /\ w = ("Large weight variation detected: "
            ++ Number_toString (weight lo) ++ "kg to "
            ++ Number_toString (weight hi) ++ "kg ("
            ++ Number_toFixed (Spec.variation_percent (weight lo) (weight hi)) 1
            ++ "%)")%string.
Proof.
  intros Hlength Hin Hprefix. unfold validateMeasurementConsistency in Hin.
  destruct (Nat.ltb_spec (List.length data) 2) as [|_]; [lia|].
  cbn [warnings] in Hin. apply in_app_or in Hin as [Hin|Hin].
  - pose proof (positive_weight_In data) as Hweights.
    destruct (filter (fun w => gtb w 0) (map weight data))
      as [|first [|second others]]; try contradiction.
    destruct (Math_min_least (second :: others) first) as [Hmin Hleast].
    destruct (Math_max_greatest (second :: others) first) as [Hmax Hgreatest].
    set (minWeight := Math_min first (second :: others)) in *.
    set (maxWeight := Math_max first (second :: others)) in *.
    change (num_mul (num_div (num_sub maxWeight minWeight) minWeight) 100)
      with (Spec.variation_percent minWeight maxWeight) in Hin.
    destruct (gtb (Spec.variation_percent minWeight maxWeight) 30) eqn:Hvaries;
      [|contradiction].
    destruct Hin as [<-|[]].
    apply Hweights in Hmin as [lo [Hlo [Hlo_weight Hlo_pos]]].
    apply Hweights in Hmax as [hi [Hhi [Hhi_weight _]]].
    exists lo, hi. rewrite Hlo_weight, Hhi_weight.
    split; [exact Hlo|]. split; [exact Hhi|]. split; [exact Hlo_pos|].
    split; [|split; [|reflexivity]].
    + intros r Hr Hpos.
      assert (Hw : In (weight r) (first :: second :: others))
        by (apply Hweights; exists r; repeat split; assumption).
      split; [apply Hleast|apply Hgreatest]; exact Hw.
    + unfold gtb in Hvaries. apply ltb_lt in Hvaries. exact Hvaries.
  - destruct (0 <? List.length (filter bmi_inconsistent data))%nat;
      [|contradiction].
    destruct Hin as [<-|[]].
    apply prefix_first_unit in Hprefix.
    pose proof (bmi_warning_opens_with_count
                  (List.length (filter bmi_inconsistent data))) as Hcount.
    unfold Spec.opens_with_word in Hcount. rewrite Hprefix in Hcount.
    discriminate.
Qed.

(** X19.  With two records or more, the consistency check warns of a
    large weight variation exactly when the variation from the smallest
    to the largest positive weight of the data, computed in double
    arithmetic as [((max - min) / min) * 100], exceeds 30.  The warning
    then names these two weights and that variation.  (Weights that are
    zero or negative are left out of the comparison.)  For weights
    between 1 and 100000 the computed variation exceeds 30 whenever the
    exact one is at least 30.00000001, and does not when the exact one
    is at most 29.99999999. *)
Theorem validateMeasurementConsistency_warns_of_weight_variation :
  forall data,
    (2 <= List.length data)%nat ->
    ((exists w,
        In w (warnings (validateMeasurementConsistency data))
        /\ String.prefix "Large weight variation detected: " w = true)
     <-> exists lo hi,
           In lo data /\ In hi data /\ 0 < weight lo
           /\ (forall r, In r data -> 0 < weight r ->
                 weight lo <= weight r /\ weight r <= weight hi)
           /\ 30 < Spec.variation_percent (weight lo) (weight hi))
    /\ (forall w,
          In w (warnings (validateMeasurementConsistency data)) ->
          String.prefix "Large weight variation detected: " w = true ->
          exists lo hi,
            In lo data /\ In hi data /\ 0 < weight lo
            /\ (forall r, In r data -> 0 < weight r ->
                  weight lo <= weight r /\ weight r <= weight hi)
            /\ w = ("Large weight variation detected: "
                    ++ Number_toString (weight lo) ++ "kg to "
                    ++ Number_toString (weight hi) ++ "kg ("
                    ++ Number_toFixed
                         (Spec.variation_percent (weight lo) (weight hi)) 1
                    ++ "%)")%string)
    /\ (forall lo hi : Q,
          1 <= lo -> lo <= hi -> hi <= 100000 ->
          (30 + (1 # 100000000) <= (hi - lo) / lo * 100 ->
           30 < Spec.variation_percent lo hi)
          /\ ((hi - lo) / lo * 100 <= 30 - (1 # 100000000) ->
              ~ 30 < Spec.variation_percent lo hi)).
Proof.
  intros data Hlength. split; [split|split].
  - intros [w [Hin Hprefix]].
    destruct (variation_warning_inv data w Hlength Hin Hprefix)
      as [lo [hi [Hlo [Hhi [Hpos [Hbounds [Hvaries _]]]]]]].
    exists lo, hi. repeat split; try assumption; apply Hbounds; assumption.
  - intros [lo [hi [Hlo [Hhi [Hlo_pos [Hbounds Hvaries]]]]]].
    assert (Hhi_pos : 0 < weight hi).
    { destruct (Hbounds lo Hlo Hlo_pos) as [_ Hle]. lra. }
    unfold validateMeasurementConsistency.
    destruct (Nat.ltb_spec (List.length data) 2) as [|_]; [lia|].
    cbn [warnings].
    pose proof (positive_weight_In data) as Hweights.
    assert (Hwa : In (weight lo) (filter (fun w => gtb w 0) (map weight data)))
      by (apply Hweights; exists lo; repeat split; assumption).
    assert (Hwb : In (weight hi) (filter (fun w => gtb w 0) (map weight data)))
      by (apply Hweights; exists hi; repeat split; assumption).
    destruct (filter (fun w => gtb w 0) (map weight data))
      as [|first [|second others]].
    + contradiction.
    + destruct Hwa as [Hwa|[]]. destruct Hwb as [Hwb|[]].
      rewrite <- Hwa, <- Hwb, variation_of_one_weight in Hvaries. lra.
    + destruct (Math_min_least (second :: others) first) as [Hmin Hleast].
      destruct (Math_max_greatest (second :: others) first) as [Hmax Hgreatest].
      set (minWeight := Math_min first (second :: others)) in *.
      set (maxWeight := Math_max first (second :: others)) in *.
      change (num_mul (num_div (num_sub maxWeight minWeight) minWeight) 100)
        with (Spec.variation_percent minWeight maxWeight).
      assert (Hmin_eq : minWeight == weight lo).
      { apply Qle_antisym; [apply Hleast, Hwa|].
        apply Hweights in Hmin as [r [Hr [<- Hpos]]].
        apply (Hbounds r Hr Hpos). }
      assert (Hmax_eq : maxWeight == weight hi).
      { apply Qle_antisym; [|apply Hgreatest, Hwb].
        apply Hweights in Hmax as [r [Hr [<- Hpos]]].
        apply (Hbounds r Hr Hpos). }
      assert (Hlarge : 30 < Spec.variation_percent minWeight maxWeight)
        by (rewrite Hmin_eq, Hmax_eq; exact Hvaries).
      apply ltb_lt in Hlarge. unfold gtb. rewrite Hlarge.
      eexists. split; [apply in_or_app; left; left; reflexivity|].
      apply (prefix_append "Large weight variation detected: ").
  - intros w Hin Hprefix.
    destruct (variation_warning_inv data w Hlength Hin Hprefix)
      as [lo [hi [Hlo [Hhi [Hpos [Hbounds [_ Htext]]]]]]].
    exists lo, hi. repeat split; try assumption; apply Hbounds; assumption.
  - intros lo hi Hlo Hle Hhi.
    pose proof (variation_near Hlo Hle Hhi) as Hnear.
    apply Qabs_bound in Hnear as [Hnear_low Hnear_high].
    set (exact := (hi - lo) / lo * 100) in *.
    set (computed := Spec.variation_percent lo hi) in *.
    clearbody exact computed.
    split; intros Hexact; [|intros Hvaries]; lra.
Qed.

End WeightVariation.

(* ================================================================= *)
(** ** The warnings about the range of dates *)

Section EarliestAndLatest.

Lemma Zmin_list_least (others : list Z) :
  forall first,
    In (Zmin_list first others) (first :: others)
    /\ forall t, In t (first :: others) -> (Zmin_list first others <= t)%Z.
Proof.
  unfold Zmin_list.
  induction others as [|other others IH]; intros first; cbn [fold_left].
  - split; [left; reflexivity|]. intros t [<-|[]]. lia.
  - destruct (IH (Z.min first other)) as [Hin Hleast]. split.
    + destruct Hin as [Heq|Hin]; [|right; right; exact Hin].
      rewrite <- Heq.
      destruct (Z.min_spec first other) as [[_ ->]|[_ ->]];
        [left|right; left]; reflexivity.
    + intros t Hw.
      pose proof (Hleast (Z.min first other) (or_introl eq_refl)) as Hstart.
      destruct Hw as [<-|[<-|Hw]]; [lia|lia|].
      apply Hleast. right. exact Hw.
Qed.

Lemma Zmax_list_greatest (others : list Z) :
  forall first,
    In (Zmax_list first others) (first :: others)
    /\ forall t, In t (first :: others) -> (t <= Zmax_list first others)%Z.
Proof.
  unfold Zmax_list.
  induction others as [|other others IH]; intros first; cbn [fold_left].
  - split; [left; reflexivity|]. intros t [<-|[]]. lia.
  - destruct (IH (Z.max first other)) as [Hin Hgreatest]. split.
    + destruct Hin as [Heq|Hin]; [|right; right; exact Hin].
      rewrite <- Heq.
      destruct (Z.max_spec first other) as [[_ ->]|[_ ->]];
        [right; left|left]; reflexivity.
    + intros t Hw.
      pose proof (Hgreatest (Z.max first other) (or_introl eq_refl)) as Hstart.
      destruct Hw as [<-|[<-|Hw]]; [lia|lia|].
      apply Hgreatest. right. exact Hw.
Qed.

(** More than 365 days, rounded up, is more than 365 days: the
    quotient of the milliseconds by those of a day, in double
    arithmetic, is above 365 exactly when the milliseconds are above
    those of 365 days. *)
Lemma days_over_a_year (minDate maxDate : Z) :
  (365 <? Math_ceil
            (num_div (num_sub (inject_Z maxDate) (inject_Z minDate))
               (inject_Z (1000 * 60 * 60 * 24))))%Z = true
  <-> (365 * 86400000 < maxDate - minDate)%Z.
Proof.
  unfold Math_ceil, num_div, num_sub. rewrite Z.ltb_lt.
  change (1000 * 60 * 60 * 24)%Z with 86400000%Z.
  assert (Hspan : (inject_Z maxDate - inject_Z minDate
                   == inject_Z (maxDate - minDate))%Q).
  { unfold Zminus. rewrite inject_Z_plus, inject_Z_opp. reflexivity. }
  rewrite (double_comp (Qdiv_comp _ _ (double_comp Hspan) _ _ (Qeq_refl _))).
  set (milliseconds := (maxDate - minDate)%Z).
  assert (Hday : (0 < inject_Z 86400000)%Q) by reflexivity.
  split.
  - intros Hceil.
    destruct (Z_lt_le_dec (365 * 86400000) milliseconds) as [Hwide|Hnarrow];
      [exact Hwide|exfalso].
    assert (Hyear : (double (inject_Z (365 * 86400000))
                     == inject_Z (365 * 86400000))%Q)
      by (apply double_Z; vm_compute; discriminate).
    assert (Hbelow : (double (inject_Z milliseconds)
                      <= inject_Z (365 * 86400000))%Q).
    { apply double_le; [exact Hyear|]. rewrite <- Zle_Qle. exact Hnarrow. }
    assert (Hquotient : (double (inject_Z milliseconds) / inject_Z 86400000
                         <= 365)%Q).
    { apply Qle_shift_div_r; [exact Hday|]. exact Hbelow. }
    assert (Hrounded : (double (double (inject_Z milliseconds) / inject_Z 86400000)
                        <= 365)%Q).
    { apply double_le; [|exact Hquotient].
      apply (double_Z 365). vm_compute. discriminate. }
    pose proof (Qceiling_lt (double (double (inject_Z milliseconds)
                                     / inject_Z 86400000))) as Hlast.
    assert (Hint : (inject_Z (Qceiling (double (double (inject_Z milliseconds)
                                                / inject_Z 86400000)) - 1)
                    < inject_Z 365)%Q)
      by (eapply Qlt_le_trans; [exact Hlast|exact Hrounded]).
    rewrite <- Zlt_Qlt in Hint. lia.
  - intros Hwide.
    assert (Hnext : (double (inject_Z (365 * 86400000 + 1))
                     == inject_Z (365 * 86400000 + 1))%Q)
      by (apply double_Z; vm_compute; discriminate).
    assert (Habove : (inject_Z (365 * 86400000 + 1)
                      <= double (inject_Z milliseconds))%Q).
    { apply double_ge; [exact Hnext|]. rewrite <- Zle_Qle. lia. }
    assert (Hmark : (double (inject_Z (365 * 2 ^ 40 + 1) * pow2 (-40))
                     == inject_Z (365 * 2 ^ 40 + 1) * pow2 (-40))%Q)
      by (apply double_representable; [vm_compute; discriminate|lia]).
    assert (Hquotient : (inject_Z (365 * 2 ^ 40 + 1) * pow2 (-40)
                         <= double (inject_Z milliseconds) / inject_Z 86400000)%Q).
    { apply Qle_shift_div_l; [exact Hday|].
      eapply Qle_trans; [|exact Habove]. vm_compute. discriminate. }
    assert (Hrounded : (inject_Z (365 * 2 ^ 40 + 1) * pow2 (-40)
                        <= double (double (inject_Z milliseconds)
                                   / inject_Z 86400000))%Q)
      by (apply double_ge; [exact Hmark|exact Hquotient]).
    pose proof (Qle_ceiling (double (double (inject_Z milliseconds)
                                     / inject_Z 86400000))) as Hfirst.
    rewrite Zlt_Qlt.
    eapply Qlt_le_trans; [|exact Hfirst].
    eapply Qlt_le_trans; [|exact Hrounded]. vm_compute. reflexivity.
Qed.

End EarliestAndLatest.

Section DateRange.

Import ImportValidationService.
Context `{Runtime}.

Implicit Types (data : list TransformedMeasurement) (r : TransformedMeasurement).

Lemma valid_dates_In data (t : Z) :
  In t (valid_dates data)
  <-> exists r, In r data /\ Date_getTime (date r) = Some t.
Proof.
  unfold valid_dates. rewrite in_flat_map. split.
  - intros [r [Hr Ht]]. exists r. split; [exact Hr|].
    destruct (Date_getTime (date r)) as [t'|]; [|contradiction].
    destruct Ht as [<-|[]]. reflexivity.
  - intros [r [Hr Ht]]. exists r. split; [exact Hr|].
    rewrite Ht. left. reflexivity.
Qed.

(** X20.  [validateDateRange] fails, with its one error, exactly when no
    date of the data parses.  Otherwise it warns of the future exactly
    when some record is dated after the present instant, of very old
    measurements exactly when some record is dated before the instant
    ten years ago, and of the span exactly when two records lie more
    than 365 whole days apart; records whose date does not parse play no
    part. *)
Theorem validateDateRange_warns_by_the_extreme_dates :
  forall data,
    let checked := validateDateRange data in
    (isValid checked = false
     <-> forall r, In r data -> Date_getTime (date r) = None)
    /\ errors checked
       = (if isValid checked then []
          else ["No valid dates found in the data"%string])
    /\ ((exists w, In w (warnings checked)
                   /\ String.prefix "Found measurements dated in the future (" w
                      = true)
        <-> exists r t, In r data /\ Date_getTime (date r) = Some t
                        /\ (Date_now < t)%Z)
    /\ ((exists w, In w (warnings checked)
                   /\ String.prefix "Found very old measurements (" w = true)
        <-> exists r t, In r data /\ Date_getTime (date r) = Some t
                        /\ (t < ten_years_before Date_now)%Z)
    /\ ((exists w, In w (warnings checked)
                   /\ String.prefix "Data spans " w = true)
        <-> exists r1 t1 r2 t2,
              In r1 data /\ Date_getTime (date r1) = Some t1
              /\ In r2 data /\ Date_getTime (date r2) = Some t2
              /\ (365 * 86400000 < t2 - t1)%Z).
Proof.
  intros data checked. subst checked. unfold validateDateRange.
  pose proof (valid_dates_In data) as Hdates.
  destruct (valid_dates data) as [|first others].
  - cbn [isValid errors warnings].
    split.
    { split; [|reflexivity]. intros _ r Hr.
      destruct (Date_getTime (date r)) as [t|] eqn:Ht; [|reflexivity].
      exfalso. apply (proj2 (Hdates t)). exists r. split; assumption. }
    split; [reflexivity|].
    split; [|split]; (split; [intros [w [[] _]]|]).
    + intros [r [t [Hr [Ht _]]]]. exfalso. apply (proj2 (Hdates t)).
      exists r. split; assumption.
    + intros [r [t [Hr [Ht _]]]]. exfalso. apply (proj2 (Hdates t)).
      exists r. split; assumption.
    + intros [r1 [t1 [r2 [t2 [Hr1 [Ht1 _]]]]]]. exfalso.
      apply (proj2 (Hdates t1)). exists r1. split; assumption.
  - destruct (Zmin_list_least others first) as [Hmin Hleast].
    destruct (Zmax_list_greatest others first) as [Hmax Hgreatest].
    set (minDate := Zmin_list first others) in *.
    set (maxDate := Zmax_list first others) in *.
    cbn [isValid errors warnings].
    split.
    { split; [discriminate|]. intros Hnone.
      apply Hdates in Hmin as [r [Hr Ht]]. rewrite (Hnone r Hr) in Ht.
      discriminate. }
    split; [reflexivity|].
    split; [|split].
    + split.
      * intros [w [Hin Hprefix]].
        apply in_app_or in Hin as [Hin|Hin].
        -- destruct (Z.ltb_spec Date_now maxDate) as [Hlate|]; [|contradiction].
           apply Hdates in Hmax as [r [Hr Ht]].
           exists r, maxDate. repeat split; assumption.
        -- exfalso. apply in_app_or in Hin as [Hin|Hin].
           ++ destruct (minDate <? ten_years_before Date_now)%Z; [|contradiction].
              destruct Hin as [<-|[]]. discriminate Hprefix.
           ++ destruct (365 <? _)%Z; [|contradiction].
              destruct Hin as [<-|[]]. discriminate Hprefix.
      * intros [r [t [Hr [Ht Hlate]]]].
        assert (Hin : In t (first :: others))
          by (apply Hdates; exists r; split; assumption).
        pose proof (Hgreatest t Hin) as Hle.
        destruct (Z.ltb_spec Date_now maxDate) as [_|]; [|lia].
        eexists. split; [apply in_or_app; left; left; reflexivity|].
        apply (prefix_append "Found measurements dated in the future (").
    + split.
      * intros [w [Hin Hprefix]].
        apply in_app_or in Hin as [Hin|Hin].
        -- exfalso. destruct (Date_now <? maxDate)%Z; [|contradiction].
           destruct Hin as [<-|[]]. discriminate Hprefix.
        -- apply in_app_or in Hin as [Hin|Hin].
           ++ destruct (Z.ltb_spec minDate (ten_years_before Date_now))
                as [Hold|]; [|contradiction].
              apply Hdates in Hmin as [r [Hr Ht]].
              exists r, minDate. repeat split; assumption.
           ++ exfalso. destruct (365 <? _)%Z; [|contradiction].
              destruct Hin as [<-|[]]. discriminate Hprefix.
      * intros [r [t [Hr [Ht Hold]]]].
        assert (Hin : In t (first :: others))
          by (apply Hdates; exists r; split; assumption).
        pose proof (Hleast t Hin) as Hle.
        destruct (Z.ltb_spec minDate (ten_years_before Date_now)) as [_|]; [|lia].
        eexists. split.
        -- apply in_or_app. right. apply in_or_app. left. left. reflexivity.
        -- apply (prefix_append "Found very old measurements (").
    + split.
      * intros [w [Hin Hprefix]].
        apply in_app_or in Hin as [Hin|Hin].
        -- exfalso. destruct (Date_now <? maxDate)%Z; [|contradiction].
           destruct Hin as [<-|[]]. discriminate Hprefix.
        -- apply in_app_or in Hin as [Hin|Hin].
           ++ exfalso.
              destruct (minDate <? ten_years_before Date_now)%Z; [|contradiction].
              destruct Hin as [<-|[]]. discriminate Hprefix.
           ++ destruct (365 <? Math_ceil _)%Z eqn:Hspan; [|contradiction].
              apply days_over_a_year in Hspan.
              apply Hdates in Hmin as [r1 [Hr1 Ht1]].
              apply Hdates in Hmax as [r2 [Hr2 Ht2]].
              exists r1, minDate, r2, maxDate. repeat split; assumption.
      * intros [r1 [t1 [r2 [t2 [Hr1 [Ht1 [Hr2 [Ht2 Hspan]]]]]]]].
        assert (Hin1 : In t1 (first :: others))
          by (apply Hdates; exists r1; split; assumption).
        assert (Hin2 : In t2 (first :: others))
          by (apply Hdates; exists r2; split; assumption).
        pose proof (Hleast t1 Hin1). pose proof (Hgreatest t2 Hin2).
        assert (Hwide : (365 * 86400000 < maxDate - minDate)%Z) by lia.
        apply days_over_a_year in Hwide. rewrite Hwide.
        eexists. split.
        -- apply in_or_app. right. apply in_or_app. right. left. reflexivity.
        -- apply (prefix_append "Data spans ").
Qed.

End DateRange.

Section VariationRuns.

Import ImportValidationService ReferenceRuntime.
Local Open Scope Q_scope.

Lemma validateMeasurementConsistency_warns_of_weight_variation_witness :
  (2 <= List.length [Sample.morning; Sample.reading "2024-01-02" "8:00:00 a.m." 100])%nat
  /\ In "Large weight variation detected: 70kg to 100kg (42.9%)"%string
       (warnings
          (validateMeasurementConsistency
             [Sample.morning; Sample.reading "2024-01-02" "8:00:00 a.m." 100]))
  /\ exists lo hi,
       In lo [Sample.morning; Sample.reading "2024-01-02" "8:00:00 a.m." 100]
       /\ In hi [Sample.morning; Sample.reading "2024-01-02" "8:00:00 a.m." 100]
       /\ 0 < weight lo
       /\ 30 < Spec.variation_percent (weight lo) (weight hi).
Proof.
  assert (Hlength : (2 <= List.length
                             [Sample.morning;
                              Sample.reading "2024-01-02" "8:00:00 a.m." 100])%nat)
    by (cbn; lia).
  assert (Hwarned : In "Large weight variation detected: 70kg to 100kg (42.9%)"%string
                      (warnings
                         (validateMeasurementConsistency
                            [Sample.morning;
                             Sample.reading "2024-01-02" "8:00:00 a.m." 100])))
    by (vm_compute; left; reflexivity).
  split; [exact Hlength|]. split; [exact Hwarned|].
  destruct (proj1 (proj1 (@validateMeasurementConsistency_warns_of_weight_variation
                            _ _ Hlength)))
    as [lo [hi [Hlo [Hhi [Hpos [_ Hvaries]]]]]].
  - eexists. split; [exact Hwarned|reflexivity].
  - exists lo, hi. repeat split; assumption.
Defined.

(** At the bound: 48.1 exceeds 37 by 30.000000000000004 percent in
    double arithmetic, and the warning is given; the variation from 40
    to 57.3 is printed as 43.2. *)
Example weight_variation_at_the_bound :
  warnings
    (validateMeasurementConsistency
       [Sample.reading "2024-01-01" "7:00:00 a.m." 37;
        Sample.reading "2024-01-02" "7:00:00 a.m." (double (481 # 10))])
  = ["Large weight variation detected: 37kg to 48.1kg (30.0%)"%string]
  /\ warnings
       (validateMeasurementConsistency
          [Sample.reading "2024-01-01" "7:00:00 a.m." 40;
           Sample.reading "2024-01-02" "7:00:00 a.m." (double (573 # 10))])
     = ["Large weight variation detected: 40kg to 57.3kg (43.2%)"%string].
Proof. split; vm_compute; reflexivity. Qed.

End VariationRuns.

(* ================================================================= *)
(** ** Averages lie among the readings *)

Section AveragesAmongReadings.

Import CsvParsingService.
Local Open Scope Q_scope.

Lemma sum_between (lo hi : Q) (xs : list Q) :
  (forall x, In x xs -> lo <= x /\ x <= hi) ->
  inject_Z (Z.of_nat (List.length xs)) * lo <= fold_right Qplus 0 xs
  /\ fold_right Qplus 0 xs <= inject_Z (Z.of_nat (List.length xs)) * hi.
Proof.
  induction xs as [|x xs IH]; intros Hall.
  - cbn [List.length fold_right Z.of_nat]. change (inject_Z 0) with 0.
    split; lra.
  - destruct IH as [Hlow Hhigh]; [intros y Hy; apply Hall; right; exact Hy|].
    destruct (Hall x (or_introl eq_refl)) as [Hx_low Hx_high].
    cbn [List.length fold_right].
    rewrite Nat2Z.inj_succ, <- Z.add_1_r, inject_Z_plus.
    change (inject_Z 1) with 1.
    set (n := inject_Z (Z.of_nat (List.length xs))) in *. clearbody n.
    set (total := fold_right Qplus 0 xs) in *. clearbody total.
    split; nra.
Qed.

(** The mean of numbers between two bounds is between them. *)
Lemma mean_between (lo hi : Q) (xs : list Q) :
  xs <> [] ->
  (forall x, In x xs -> lo <= x /\ x <= hi) ->
  lo <= Spec.arithmetic_mean xs /\ Spec.arithmetic_mean xs <= hi.
Proof.
  intros Hne Hall. destruct (@sum_between lo hi xs Hall) as [Hlow Hhigh].
  unfold Spec.arithmetic_mean.
  assert (Hcount : 0 < inject_Z (Z.of_nat (List.length xs))).
  { destruct xs as [|x xs]; [congruence|].
    change 0 with (inject_Z 0). rewrite <- Zlt_Qlt. cbn [List.length]. lia. }
  split.
  - apply Qle_shift_div_l; [exact Hcount|].
    rewrite Qmult_comm. exact Hlow.
  - apply Qle_shift_div_r; [exact Hcount|].
    rewrite Qmult_comm. exact Hhigh.
Qed.

Lemma Forall2_In_right {A B} (R : A -> B -> Prop) (xs : list A) (ys : list B) :
  Forall2 R xs ys -> forall y, In y ys -> exists x, In x xs /\ R x y.
Proof.
  induction 1 as [|x y xs ys Hxy _ IH]; intros z Hz; [contradiction|].
  destruct Hz as [<-|Hz].
  - exists x. split; [left; reflexivity|exact Hxy].
  - destruct (IH z Hz) as [x' [Hx' Hr]]. exists x'. split; [right|]; assumption.
Qed.

Lemma field_values_between (field : TransformedMeasurement -> Q)
    (records : list TransformedMeasurement) (lo hi : Q) :
  (forall x, In x records -> lo <= field x /\ field x <= hi) ->
  forall v, In v (map field records) -> lo <= v /\ v <= hi.
Proof.
  intros Hall v Hv. apply in_map_iff in Hv as [x [<- Hx]]. exact (Hall x Hx).
Qed.

(** X21.  Every record that [averageDailyMeasurements] returns is the
    average of a non-empty bucket of its date, and each of its numbers
    lies among the readings it averages, up to the rounding: with at
    most 10000 readings, none beyond 100000 in magnitude, if every
    reading of a field is between [lo] and [hi] then the averaged field
    is between [lo - 1/20 - 1/1000000] and [hi + 1/20 + 1/1000000]
    ([1/2] in place of [1/20] for the three integer fields). *)
Theorem averageDailyMeasurements_stays_among_the_readings :
  forall (groups : JsObject.t (list TransformedMeasurement))
         (out : list TransformedMeasurement),
    averageDailyMeasurements groups = Ok out ->
    forall r, In r out ->
      exists first rest,
        In (date r, first :: rest) groups
        /\ (forallb (fun x => Spec.magnitudes_within 100000 (Spec.numbers x))
              (first :: rest) = true ->
            (Z.of_nat (List.length (first :: rest)) <= 10000)%Z ->
            Forall
              (fun field =>
                 forall lo hi,
                   (forall x, In x (first :: rest) ->
                      lo <= field x /\ field x <= hi) ->
                   lo - (1 # 20) - (1 # 1000000) <= field r
                   /\ field r <= hi + (1 # 20) + (1 # 1000000))
              Spec.decimal_fields
            /\ Forall
                 (fun field =>
                    forall lo hi,
                      (forall x, In x (first :: rest) ->
                         lo <= field x /\ field x <= hi) ->
                      lo - (1 # 2) - (1 # 1000000) <= field r
                      /\ field r <= hi + (1 # 2) + (1 # 1000000))
                 Spec.integer_fields).
Proof.
  intros groups out Hrun r Hr.
  unfold averageDailyMeasurements, map_result in Hrun.
  apply map_indexed_ok_inv in Hrun.
  destruct (Forall2_In_right Hrun r Hr) as [[d records] [Hentry [_ Haverage]]].
  destruct records as [|first rest]; [discriminate Haverage|].
  destruct (average_entry_fields Haverage)
    as [Hdate [_ [_ [Hdecimal Hinteger]]]].
  exists first, rest. split.
  { rewrite Hdate. apply (Permutation_in _ (entries_perm groups)). exact Hentry. }
  intros Hwithin Hcount.
  rewrite Forall_forall in Hdecimal, Hinteger.
  split; apply Forall_forall; intros field Hfield lo hi Hall.
  - destruct (@mean_between lo hi (map field (first :: rest)))
      as [Hlow Hhigh];
      [discriminate|exact (field_values_between field _ Hall)|].
    assert (Hvalues : Spec.magnitudes_within 100000 (map field (first :: rest)) = true)
      by (apply field_magnitudes; [apply in_or_app; left; exact Hfield|exact Hwithin]).
    assert (Hsome : map field (first :: rest) <> []) by discriminate.
    assert (Hsize : (Z.of_nat (List.length (map field (first :: rest))) <= 10000)%Z)
      by (rewrite length_map; exact Hcount).
    destruct (averaged_decimal_near Hsome Hvalues Hsize) as [_ Hnear].
    rewrite <- (Hdecimal field Hfield) in Hnear.
    apply Qabs_bound in Hnear as [Hnear_low Hnear_high].
    set (mean := Spec.arithmetic_mean (map field (first :: rest))) in *.
    clearbody mean. split; lra.
  - destruct (@mean_between lo hi (map field (first :: rest)))
      as [Hlow Hhigh];
      [discriminate|exact (field_values_between field _ Hall)|].
    assert (Hvalues : Spec.magnitudes_within 100000 (map field (first :: rest)) = true)
      by (apply field_magnitudes; [apply in_or_app; right; exact Hfield|exact Hwithin]).
    assert (Hsome : map field (first :: rest) <> []) by discriminate.
    assert (Hsize : (Z.of_nat (List.length (map field (first :: rest))) <= 10000)%Z)
      by (rewrite length_map; exact Hcount).
    destruct (averaged_integer_near Hsome Hvalues Hsize) as [_ Hnear].
    rewrite <- (Hinteger field Hfield) in Hnear.
    apply Qabs_bound in Hnear as [Hnear_low Hnear_high].
    set (mean := Spec.arithmetic_mean (map field (first :: rest))) in *.
    clearbody mean. split; lra.
Qed.

Lemma averageDailyMeasurements_stays_among_the_readings_witness :
  exists out r,
    averageDailyMeasurements (grouped Sample.three_readings) = Ok out
    /\ In r out
    /\ date r = "2024-01-01"%string
    /\ 70 - (1 # 20) - (1 # 1000000) <= weight r
    /\ weight r <= 72 + (1 # 20) + (1 # 1000000).
Proof.
  assert (Hrun : exists out r,
             averageDailyMeasurements (grouped Sample.three_readings) = Ok out
             /\ In r out /\ date r = "2024-01-01"%string)
    by (vm_compute; eexists; eexists; split; [reflexivity|];
        split; [left; reflexivity|reflexivity]).
  destruct Hrun as [out [r [Hrun [Hr Hdate]]]].
  exists out, r. split; [exact Hrun|]. split; [exact Hr|]. split; [exact Hdate|].
  destruct (averageDailyMeasurements_stays_among_the_readings _ Hrun r Hr)
    as [first [rest [Hentry Hbounds]]].
  rewrite Hdate in Hentry.
  destruct Hentry as [Hentry|[Hentry|[]]]; [|discriminate Hentry].
  injection Hentry as <- <-.
  destruct Hbounds as [Hdecimal _];
    [vm_compute; reflexivity|vm_compute; discriminate|].
  inversion Hdecimal as [|? ? Hweight _]; subst.
  apply (Hweight 70 72).
  intros x [<-|[<-|[]]]; cbn; split; lra.
Defined.

(** The average can leave the range of the readings: three readings
    of 224.95 average to 224.9. *)
Example average_of_equal_readings :
  averageDailyMeasurements
    [("2024-01-01"%string,
      [Sample.reading "2024-01-01" "7:00:00 a.m." (double (22495 # 100));
       Sample.reading "2024-01-01" "8:00:00 a.m." (double (22495 # 100));
       Sample.reading "2024-01-01" "9:00:00 a.m." (double (22495 # 100))])]
  = Ok [Sample.reading "2024-01-01" "7:00:00 a.m." (double (2249 # 10))]
  /\ double (2249 # 10) < double (22495 # 100)
  /\ roundToDecimal (double (22495 # 100)) 1 == 225.
Proof. repeat split; vm_compute; reflexivity. Qed.

End AveragesAmongReadings.

(* ================================================================= *)
(** ** The drop zone *)

Section DropZone.

Import UseDragAndDrop.
Context `{Runtime}.
Local Open Scope string_scope.

(** A file that is turned down comes with a text that says why. *)
Lemma validateFile_says_why (options : DragAndDropOptions) (file : File) :
  FileValidation.isValid (validateFile options file) = false ->
  exists text,
    FileValidation.error (validateFile options file) = Some text
    /\ text <> "".
Proof.
  unfold validateFile.
  destruct (_ && _)%bool; [intros _; eexists; split; [reflexivity|discriminate]|].
  destruct (gtb _ _); [intros _; eexists; split; [reflexivity|discriminate]|].
  destruct (size file =? 0)%N; [|discriminate].
  intros _. eexists. split; [reflexivity|discriminate].
Qed.

Lemma error_or_text (fallback : string) (validation : FileValidation.t)
    (text : string) :
  FileValidation.error validation = Some text -> text <> "" ->
  error_or fallback validation = text.
Proof.
  intros Herror Htext. unfold error_or. rewrite Herror.
  destruct (String.eqb_spec text ""); [congruence|reflexivity].
Qed.

(** X22.  A drop, or a choice in the file input, looks at the first file
    only.  If [validateFile] accepts it, [onFileDrop] is called with it
    and nothing else is called (after a choice the input is cleared);
    otherwise [onError] is called once, with the text of the validation,
    which is never empty, so the fallback [Invalid file] is never what is
    reported.  With no file nothing is called.  A drop always ends the
    drag: the state is left inactive with the counter at zero. *)
Theorem handleDrop_delivers_or_reports :
  forall (options : DragAndDropOptions) (state : DragState),
    (forall files,
       fst (handleDrop options state files)
       = {| isDragActive := false; dragCounter := 0 |})
    /\ snd (handleDrop options state None) = []
    /\ snd (handleDrop options state (Some [])) = []
    /\ handleFileSelect options None = []
    /\ handleFileSelect options (Some []) = []
    /\ forall (file : File) (others : list File),
         (FileValidation.isValid (validateFile options file) = true ->
          snd (handleDrop options state (Some (file :: others)))
          = [onFileDrop_call file]
          /\ handleFileSelect options (Some (file :: others))
             = [onFileDrop_call file; input_cleared])
         /\ (FileValidation.isValid (validateFile options file) = false ->
             exists text,
               FileValidation.error (validateFile options file) = Some text
               /\ text <> ""
               /\ snd (handleDrop options state (Some (file :: others)))
                  = [onError_call text]
               /\ handleFileSelect options (Some (file :: others))
                  = [onError_call text]).
Proof.
  intros options state.
  split.
  { intros [[|file others]|]; cbn [handleDrop]; try reflexivity.
    destruct (negb _); reflexivity. }
  repeat (split; [reflexivity|]).
  intros file others. split.
  - intros Hvalid. unfold handleDrop, handleFileSelect. rewrite Hvalid.
    split; reflexivity.
  - intros Hinvalid.
    destruct (validateFile_says_why options file Hinvalid) as [text [Herror Htext]].
    exists text. split; [exact Herror|]. split; [exact Htext|].
    unfold handleDrop, handleFileSelect. rewrite Hinvalid. cbn [negb snd].
    rewrite (error_or_text "Invalid file" _ Herror Htext).
    split; reflexivity.
Qed.

(** The state follows the depth of the pointer. *)
Lemma handle_follows_depth (options : DragAndDropOptions)
    (events : list DragEvent) :
  forall (state : DragState) (depth : Z),
    (0 <= dragCounter state)%Z ->
    isDragActive state = (0 <? dragCounter state)%Z ->
    Spec.drag_depth events (dragCounter state) = Some depth ->
    fold_left (handle options) events state
    = {| isDragActive := (0 <? depth)%Z; dragCounter := depth |}
    /\ (0 <= depth)%Z.
Proof.
  induction events as [|event events IH]; intros state depth Hcount Hactive Hrun.
  - cbn in Hrun. injection Hrun as <-. cbn [fold_left].
    split; [|exact Hcount]. destruct state as [active count].
    cbn in *. rewrite Hactive. reflexivity.
  - cbn [fold_left]. destruct event as [| | |files]; cbn [Spec.drag_depth] in Hrun.
    + apply IH; cbn [handle handleDragEnter dragCounter isDragActive].
      * lia.
      * symmetry. apply Z.ltb_lt. lia.
      * exact Hrun.
    + destruct (Z.leb_spec (dragCounter state) 0) as [|Hinside];
        [discriminate|].
      apply IH; cbn [handle handleDragLeave dragCounter isDragActive].
      * lia.
      * destruct (Z.leb_spec (dragCounter state) 1) as [Hone|Hmore].
        -- symmetry. apply Z.ltb_ge. lia.
        -- rewrite Hactive.
           destruct (Z.ltb_spec 0 (dragCounter state));
             destruct (Z.ltb_spec 0 (dragCounter state - 1)); lia || reflexivity.
      * exact Hrun.
    + apply IH; assumption.
    + apply IH; cbn [handle].
      * destruct files as [[|file others]|]; cbn [handleDrop fst];
          try (cbn; lia). destruct (negb _); cbn; lia.
      * destruct files as [[|file others]|]; cbn [handleDrop fst];
          try reflexivity. destruct (negb _); reflexivity.
      * destruct files as [[|file others]|]; cbn [handleDrop fst];
          try exact Hrun. destruct (negb _); exact Hrun.
Qed.

(** X23.  Over any run of drag events in which no leave comes without an
    enter before it, the counter of the hook is the number of drag
    targets the pointer is inside (counted anew after a drop), and
    [isDragActive] is true exactly while that number is positive: moving
    between nested targets does not switch the zone off. *)
Theorem drag_state_follows_the_pointer :
  forall (options : DragAndDropOptions) (events : list DragEvent) (depth : Z),
    Spec.drag_depth events 0 = Some depth ->
    fold_left (handle options) events initial
    = {| isDragActive := (0 <? depth)%Z; dragCounter := depth |}
    /\ (0 <= depth)%Z.
Proof.
  intros options events depth Hrun.
  apply handle_follows_depth; [cbn; lia|reflexivity|exact Hrun].
Qed.

End DropZone.

Section DropZoneRuns.

Import UseDragAndDrop ReferenceRuntime.

Lemma drag_state_follows_the_pointer_witness :
  Spec.drag_depth [dragenter; dragenter; dragleave; dragover] 0 = Some 1%Z
  /\ fold_left (handle Spec.default_options)
       [dragenter; dragenter; dragleave; dragover] initial
     = {| isDragActive := true; dragCounter := 1 |}.
Proof.
  assert (Hrun : Spec.drag_depth [dragenter; dragenter; dragleave; dragover] 0
                 = Some 1%Z) by reflexivity.
  split; [exact Hrun|].
  exact (proj1 (@drag_state_follows_the_pointer _ Spec.default_options _ _ Hrun)).
Defined.

End DropZoneRuns.

(* ================================================================= *)
(** ** The import hook *)

Section ServiceOutcomes.

Local Open Scope string_scope.

Lemma service_blocks_invalid (parsed : ParseResult) (chosen : ImportStrategy) :
  isValid (validation parsed) = false ->
  snd (RenphoImportService.processImport parsed chosen)
  = Throw (Renpho
      {| error_message :=
           "Cannot import data with validation errors. Please fix the errors first.";
         error_code := VALIDATION_ERROR;
         error_details := ValidationErrors (errors (validation parsed)) |}).
Proof.
  intros Hinvalid.
  unfold RenphoImportService.processImport, RenphoImportService.processImport_try.
  rewrite Hinvalid. reflexivity.
Qed.

Lemma service_imports_valid (parsed : ParseResult) (chosen : ImportStrategy) :
  isValid (validation parsed) = true ->
  (chosen = average -> Spec.nonempty_buckets (grouped parsed) = true) ->
  exists result,
    snd (RenphoImportService.processImport parsed chosen) = Ok result
    /\ Spec.imported_under result = chosen /\ failed result = 0%nat
    /\ import_errors result = [].
Proof.
  intros Hvalid Hbuckets.
  unfold RenphoImportService.processImport, RenphoImportService.processImport_try.
  rewrite Hvalid. cbn [negb]. destruct chosen.
  - destruct (averageDailyMeasurements_returns _ (Hbuckets eq_refl))
      as [averaged [-> _]].
    eexists. cbn. repeat split.
  - eexists. cbn. repeat split.
Qed.

End ServiceOutcomes.

Section ImportHook.

Import UseRenphoImport.
Local Open Scope string_scope.

Lemma tick_running (state : State) :
  (0 < runningIntervals state)%nat ->
  (0 <= progress (importProgress state))%Q ->
  step (importProgress (tick state)) = step (importProgress state)
  /\ message (importProgress (tick state)) = "Importing measurements..."
  /\ runningIntervals (tick state) = runningIntervals state
  /\ (0 <= progress (importProgress (tick state)))%Q
  /\ (progress (importProgress (tick state)) <= 90)%Q
  /\ error (tick state) = error state.
Proof.
  intros Hrunning Hprogress. unfold tick.
  destruct (runningIntervals state) as [|k] eqn:Hk; [lia|].
  cbn [importProgress step message runningIntervals progress error].
  unfold Math_min. cbn [fold_left].
  repeat split;
    destruct (Qmin_cases (progress (importProgress state) + 20) 90)
      as [[-> Hle]|[-> Hle]]; lra.
Qed.

(** The ticks of an interval that runs on. *)
Lemma ticks_running (state : State) (n : nat) :
  (0 < runningIntervals state)%nat ->
  (0 <= progress (importProgress state))%Q ->
  step (importProgress (Nat.iter (S n) tick state)) = step (importProgress state)
  /\ message (importProgress (Nat.iter (S n) tick state))
     = "Importing measurements..."
  /\ runningIntervals (Nat.iter (S n) tick state) = runningIntervals state
  /\ (0 <= progress (importProgress (Nat.iter (S n) tick state)))%Q
  /\ (progress (importProgress (Nat.iter (S n) tick state)) <= 90)%Q
  /\ error (Nat.iter (S n) tick state) = error state.
Proof.
  intros Hrunning Hprogress. induction n as [|n IH].
  - cbn [Nat.iter nat_rect]. apply tick_running; assumption.
  - destruct IH as [IHstep [_ [IHrun [IHlow [_ IHerror]]]]].
    change (Nat.iter (S (S n)) tick state)
      with (tick (Nat.iter (S n) tick state)).
    destruct (tick_running (Nat.iter (S n) tick state))
      as [Hs [Hm [Hr [Hl [Hh He]]]]]; [lia|exact IHlow|].
    repeat split; try assumption; congruence.
Qed.

(** X24.  The hook sets its progress interval inside the [try] and
    clears it only after the [await] has returned.  When the import
    resolves, no interval is left and the state is complete, with the
    result and the number of imported measurements in the message.  When
    it rejects, the state says [Import failed] with the message of the
    error, but the interval is left running: every later firing
    overwrites the message with [Importing measurements...] and moves
    the progress, up to 90, while the step stays [error]. *)
Theorem failed_import_leaves_the_interval_running :
  forall (state : State) (parsed : ParseResult),
    parseResult state = Some parsed ->
    (forall result,
       snd (RenphoImportService.processImport parsed (strategy state)) = Ok result ->
       runningIntervals (processImport state) = runningIntervals state
       /\ importResult (processImport state) = Some result
       /\ importProgress (processImport state)
          = {| step := Step.complete; progress := 100;
               message := "Successfully imported "
                          ++ string_of_nat (successful result)
                          ++ " measurements" |}
       /\ error (processImport state) = None
       /\ isProcessing (processImport state) = false)
    /\ (forall err,
          snd (RenphoImportService.processImport parsed (strategy state))
          = Throw err ->
          runningIntervals (processImport state) = S (runningIntervals state)
          /\ importResult (processImport state) = importResult state
          /\ importProgress (processImport state)
             = {| step := Step.error; progress := 0; message := "Import failed" |}
          /\ error (processImport state) = Some (exn_message err)
          /\ isProcessing (processImport state) = false
          /\ importProgress (tick (processImport state))
             = {| step := Step.error; progress := 0 + 20;
                  message := "Importing measurements..." |}
          /\ forall n,
               step (importProgress (Nat.iter (S n) tick (processImport state)))
               = Step.error
               /\ message (importProgress
                             (Nat.iter (S n) tick (processImport state)))
                  = "Importing measurements..."
               /\ (progress (importProgress
                               (Nat.iter (S n) tick (processImport state)))
                   <= 90)%Q
               /\ error (Nat.iter (S n) tick (processImport state))
                  = Some (exn_message err)).
Proof.
  intros state parsed Hparsed. split.
  - intros result Hresult. unfold processImport. rewrite Hparsed, Hresult.
    repeat split.
  - intros err Herr.
    assert (Hfailed :
              processImport state
              = {| selectedFile := selectedFile state;
                   parseResult := Some parsed;
                   importResult := importResult state;
                   importProgress :=
                     {| step := Step.error; progress := 0;
                        message := "Import failed" |};
                   isProcessing := false;
                   error := Some (exn_message err);
                   strategy := strategy state;
                   runningIntervals := S (runningIntervals state) |})
      by (unfold processImport; rewrite Hparsed, Herr; reflexivity).
    rewrite Hfailed.
    repeat (split; [reflexivity|]).
    intros n.
    match goal with
    | |- context [Nat.iter (S n) tick ?s] =>
        destruct (@ticks_running s n) as [Hs [Hm [_ [_ [Hh He]]]]];
          [cbn; lia|cbn; lra|]
    end.
    repeat split; assumption.
Qed.

(** X25.  The hook does not test [canImport] itself; the service does.
    With no parse result, [processImport] only sets the error
    [No data to import].  With a parse result that [canImport] turns
    down, the import is refused by the service: the hook shows its
    message, the step is [error], and no import result is stored.  With
    one that [canImport] accepts (and, under [average], no empty
    bucket), the import completes: a result is stored, with no failure,
    under the chosen strategy, and the error is cleared. *)
Theorem canImport_decides_the_import :
  forall state : State,
    (hasData state = false ->
     processImport state
     = {| selectedFile := selectedFile state;
          parseResult := parseResult state;
          importResult := importResult state;
          importProgress := importProgress state;
          isProcessing := isProcessing state;
          error := Some "No data to import";
          strategy := strategy state;
          runningIntervals := runningIntervals state |})
    /\ (hasData state = true -> canImport state = false ->
        error (processImport state)
        = Some "Cannot import data with validation errors. Please fix the errors first."
        /\ step (importProgress (processImport state)) = Step.error
        /\ importResult (processImport state) = importResult state)
    /\ (canImport state = true ->
        (strategy state = average ->
         forall parsed, parseResult state = Some parsed ->
                        Spec.nonempty_buckets (grouped parsed) = true) ->
        exists result,
          importResult (processImport state) = Some result
          /\ Spec.imported_under result = strategy state
          /\ failed result = 0%nat /\ import_errors result = []
          /\ isComplete (processImport state) = true
          /\ step (importProgress (processImport state)) = Step.complete
          /\ error (processImport state) = None).
Proof.
  intros state. unfold hasData, canImport, isComplete, processImport.
  destruct (parseResult state) as [parsed|] eqn:Hparsed.
  - split; [discriminate|]. split.
    + intros _ Hinvalid.
      rewrite (service_blocks_invalid parsed (strategy state) Hinvalid).
      split; [reflexivity|]. split; reflexivity.
    + intros Hvalid Hbuckets.
      destruct (@service_imports_valid parsed (strategy state) Hvalid)
        as [result [Hresult [Hstrategy [Hfailed Herrors]]]].
      { intros Haverage. exact (Hbuckets Haverage parsed eq_refl). }
      rewrite Hresult. exists result.
      cbn [importResult importProgress step error].
      split; [reflexivity|]. split; [exact Hstrategy|].
      split; [exact Hfailed|]. split; [exact Herrors|].
      split; [reflexivity|]. split; reflexivity.
  - split; [reflexivity|]. split; discriminate.
Qed.

Variable parse : File -> throws ParseResult.

(** X26.  [handleFileSelect] asks the service's [validateFile] first.  A
    file that is turned down changes nothing but the error, which
    becomes the text of the validation (never the fallback
    [Invalid file selected]): the file selected before, its parse result
    and any import result stay.  A file that is accepted becomes the
    selected file and the earlier parse and import results are dropped
    before the file is parsed; if the parse resolves its result is
    stored and the step is [preview], if it rejects there is no parse
    result any more, the error is the message of the rejection and the
    step is [error]. *)
Theorem handleFileSelect_keeps_or_replaces_the_parse :
  forall (state : State) (file : File),
    (FileValidation.isValid (RenphoImportService.validateFile file) = false ->
     exists text,
       FileValidation.error (RenphoImportService.validateFile file) = Some text
       /\ text <> ""
       /\ handleFileSelect parse state file
          = {| selectedFile := selectedFile state;
               parseResult := parseResult state;
               importResult := importResult state;
               importProgress := importProgress state;
               isProcessing := isProcessing state;
               error := Some text;
               strategy := strategy state;
               runningIntervals := runningIntervals state |})
    /\ (FileValidation.isValid (RenphoImportService.validateFile file) = true ->
        selectedFile (handleFileSelect parse state file) = Some file
        /\ importResult (handleFileSelect parse state file) = None
        /\ isProcessing (handleFileSelect parse state file) = false
        /\ strategy (handleFileSelect parse state file) = strategy state
        /\ (forall result,
              parse file = Ok result ->
              parseResult (handleFileSelect parse state file) = Some result
              /\ error (handleFileSelect parse state file) = None
              /\ step (importProgress (handleFileSelect parse state file))
                 = Step.preview)
        /\ (forall err,
              parse file = Throw err ->
              parseResult (handleFileSelect parse state file) = None
              /\ error (handleFileSelect parse state file)
                 = Some (exn_message err)
              /\ step (importProgress (handleFileSelect parse state file))
                 = Step.error)).
Proof.
  intros state file. split.
  - intros Hinvalid. unfold handleFileSelect. rewrite Hinvalid. cbn [negb].
    unfold RenphoImportService.validateFile in *.
    destruct (negb (endsWith (toLowerCase (name file)) ".csv")).
    { eexists. split; [reflexivity|]. split; [discriminate|reflexivity]. }
    destruct (_ <? size file)%N.
    { eexists. split; [reflexivity|]. split; [discriminate|reflexivity]. }
    destruct (size file =? 0)%N; [|discriminate Hinvalid].
    eexists. split; [reflexivity|]. split; [discriminate|reflexivity].
  - intros Hvalid. unfold handleFileSelect, parseFile. rewrite Hvalid.
    cbn [negb]. destruct (parse file) as [result|err];
      cbn [selectedFile importResult isProcessing strategy parseResult error
           importProgress step];
      do 4 (split; [reflexivity|]); split; intros x Hx;
      try discriminate Hx; injection Hx as <-; repeat split.
Qed.

Context `{Runtime}.

(** What every handler keeps. *)
Lemma handle_keeps (state : State) (event : Event) :
  (isProcessing state = false
   /\ (isComplete state = true -> hasData state = true)
   /\ (step (importProgress state) = Step.complete -> isComplete state = true)
   /\ (0 <= progress (importProgress state))%Q
   /\ (progress (importProgress state) <= 100)%Q) ->
  isProcessing (handle parse state event) = false
  /\ (isComplete (handle parse state event) = true ->
      hasData (handle parse state event) = true)
  /\ (step (importProgress (handle parse state event)) = Step.complete ->
      isComplete (handle parse state event) = true)
  /\ (0 <= progress (importProgress (handle parse state event)))%Q
  /\ (progress (importProgress (handle parse state event)) <= 100)%Q.
Proof.
  intros [Hidle [Hdata [Hcomplete [Hlow Hhigh]]]].
  unfold isComplete, hasData in *.
  destruct event as [file|file| | |newStrategy| |limit]; cbn [handle].
  - unfold handleFileSelect, parseFile.
    destruct (negb _); [repeat split; assumption|].
    destruct (parse file); cbn; repeat split; try discriminate; lra.
  - unfold parseFile.
    destruct (parse file); cbn; repeat split; try discriminate;
      try assumption; lra.
  - unfold processImport.
    destruct (parseResult state) as [parsed|] eqn:Hparsed.
    + destruct (snd (RenphoImportService.processImport parsed (strategy state)));
        cbn; repeat split; try discriminate; try reflexivity; lra.
    + cbn. repeat split; assumption.
  - cbn. repeat split; try discriminate; lra.
  - cbn. repeat split; assumption.
  - unfold tick. destruct (runningIntervals state); [repeat split; assumption|].
    cbn. unfold Math_min. cbn [fold_left].
    repeat split; try assumption;
      destruct (Qmin_cases (progress (importProgress state) + 20) 90)
        as [[-> Hle]|[-> Hle]]; lra.
  - unfold getPreviewData.
    destruct (parseResult state) as [parsed|] eqn:Hparsed.
    + destruct (RenphoImportService.previewData parsed (strategy state) _)
        as [previewed|thrown]; cbn.
      * repeat split; first [assumption|intros; reflexivity].
      * rewrite Hparsed. repeat split; first [assumption|intros; reflexivity].
    + cbn. rewrite ?Hparsed. repeat split; first [assumption|intros; reflexivity].
Qed.

(** X27.  Whatever is done with the hook, in any order (files selected
    or parsed, imports requested, resets, changes of strategy, firings
    of the interval, previews), the state it is left in is never
    processing, has an import result only together with a parse result,
    shows the step [complete] only with an import result, and has a
    progress from 0 to 100. *)
Theorem import_hook_keeps_its_state_consistent :
  forall events : list Event,
    isProcessing (fold_left (handle parse) events initial) = false
    /\ (isComplete (fold_left (handle parse) events initial) = true ->
        hasData (fold_left (handle parse) events initial) = true)
    /\ (step (importProgress (fold_left (handle parse) events initial))
        = Step.complete ->
        isComplete (fold_left (handle parse) events initial) = true)
    /\ (0 <= progress (importProgress (fold_left (handle parse) events initial)))%Q
    /\ (progress (importProgress (fold_left (handle parse) events initial))
        <= 100)%Q.
Proof.
  intros events.
  assert (Hstart : isProcessing initial = false
                   /\ (isComplete initial = true -> hasData initial = true)
                   /\ (step (importProgress initial) = Step.complete ->
                       isComplete initial = true)
                   /\ (0 <= progress (importProgress initial))%Q
                   /\ (progress (importProgress initial) <= 100)%Q).
  { cbn. repeat split; try discriminate; lra. }
  revert Hstart. generalize initial.
  induction events as [|event events IH]; intros state Hstate; [exact Hstate|].
  cbn [fold_left]. apply IH. apply handle_keeps. exact Hstate.
Qed.

End ImportHook.

Section ImportHookRuns.

Import UseRenphoImport.
Local Open Scope string_scope.

Lemma failed_import_leaves_the_interval_running_witness :
  parseResult (updateStrategy
                 (parseFile (fun _ => Ok Sample.blocked_parse) initial Sample.export)
                 keep_all)
  = Some Sample.blocked_parse
  /\ runningIntervals
       (processImport
          (updateStrategy
             (parseFile (fun _ => Ok Sample.blocked_parse) initial Sample.export)
             keep_all)) = 1%nat
  /\ importProgress
       (tick (processImport
                (updateStrategy
                   (parseFile (fun _ => Ok Sample.blocked_parse) initial
                      Sample.export)
                   keep_all)))
     = {| step := Step.error; progress := 0 + 20;
          message := "Importing measurements..." |}.
Proof.
  assert (Hparsed :
            parseResult
              (updateStrategy
                 (parseFile (fun _ => Ok Sample.blocked_parse) initial
                    Sample.export)
                 keep_all)
            = Some Sample.blocked_parse) by reflexivity.
  split; [exact Hparsed|].
  destruct (failed_import_leaves_the_interval_running _ Hparsed) as [_ Hfails].
  destruct (Hfails _ eq_refl) as [Hrunning [_ [_ [_ [_ [Htick _]]]]]].
  split; [exact Hrunning|exact Htick].
Defined.

End ImportHookRuns.

(* ================================================================= *)
(** ** The success rate of an import *)

Section SuccessRate.

Lemma service_result_counts (parsed : ParseResult) (chosen : ImportStrategy)
    (result : ImportResult) :
  snd (RenphoImportService.processImport parsed chosen) = Ok result ->
  successful result = List.length (processedData result)
  /\ failed result = 0%nat
  /\ import_errors result = []
  /\ strategy result = chosen.
Proof.
  unfold RenphoImportService.processImport, RenphoImportService.processImport_try.
  destruct (negb (isValid (validation parsed))).
  - cbn. intros Hrun. discriminate Hrun.
  - destruct chosen.
    + destruct (CsvParsingService.averageDailyMeasurements (grouped parsed))
        as [finalData|[error|error]];
        cbn; intros Hrun; try discriminate Hrun.
      injection Hrun as <-. cbn. repeat split.
    + cbn. intros Hrun. injection Hrun as <-. cbn. repeat split.
Qed.

(** X28.  Whatever the import service returns as the result of an
    import, the results component shows a success rate of 100: the
    service counts every record it hands back as successful and none
    as failed.  The one other outcome is a result with no record at
    all, for which the rate is [0 / 0]. *)
Theorem successRate_of_an_import_is_100
    (parsed : ParseResult) (chosen : ImportStrategy) (result : ImportResult) :
  snd (RenphoImportService.processImport parsed chosen) = Ok result ->
  match ImportResults.successRate result with
  | Some rate => rate == 100 /\ processedData result <> []
  | None => processedData result = []
  end.
Proof.
  intros Hrun.
  destruct (service_result_counts _ _ Hrun) as (Hcount & Hfailed & _ & _).
  unfold ImportResults.successRate.
  rewrite Hfailed, Nat.add_0_r, Hcount.
  destruct (processedData result) as [|record records] eqn:Hdata.
  - reflexivity.
  - cbn [List.length Nat.eqb]. split; [|discriminate].
    set (n := inject_Z (Z.of_nat (S (List.length records)))).
    assert (Hn : ~ n == 0).
    { unfold n, Qeq, inject_Z. cbn [Qnum Qden]. lia. }
    clearbody n. field. exact Hn.
Qed.

End SuccessRate.

Section SuccessRateRuns.

Lemma successRate_of_an_import_is_100_witness :
  snd (RenphoImportService.processImport Sample.three_rows_parsed keep_all)
  = Ok Sample.three_rows_imported
  /\ match ImportResults.successRate Sample.three_rows_imported with
     | Some rate => rate == 100 /\ processedData Sample.three_rows_imported <> []
     | None => processedData Sample.three_rows_imported = []
     end.
Proof.
  assert (Hrun :
    snd (RenphoImportService.processImport Sample.three_rows_parsed keep_all)
    = Ok Sample.three_rows_imported) by (vm_compute; reflexivity).
  split; [exact Hrun|].
  exact (successRate_of_an_import_is_100 _ _ Hrun).
Defined.

End SuccessRateRuns.
